(* ===== verification/_CoqProject ===== *)
-Q . S2P
Prelude.v
GoStrings.v
Sha256.v
Json.v
JsonRoundtrip.v
ProviderOutput.v
ProviderStream.v
BoundTools.v
Broker.v
BrokerProps.v
CodexRpc.v
CodexTurn.v
GoNet.v
PublicA2A.v
Paths.v
HelperServer.v
PrivateFiles.v
SessionStore.v
SessionLock.v
Environment.v
Sandbox.v
NodeHandler.v
NodeLifecycle.v
ProviderConfig.v
Resolve.v
Url.v
ToolPolicy.v
Isolation.v
Config.v
SkillDecode.v
SkillCache.v
SkillLogic.v
SkillCacheProps.v
CodexHome.v
CodexLaunch.v
ProviderRun.v
ProviderRunProps.v
Descendants.v
DescendantsProps.v
AgentHost.v
Delegation.v
Preflight.v
PreflightProps.v
ProviderHandler.v
NativeAdapter.v
RemoteAdapters.v
SandboxCommand.v
CodexTypes.v
CommandLine.v
Serving.v
