(* ===== verification/Prelude.v ===== *)
(** * OpenLinker Agent Node: a verification development

    The Agent Node is a Go process that serves runs of an agent: it takes
    assignments from the OpenLinker platform through the vendor's SDK, gives each
    to an adapter (a command, an HTTP or A2A endpoint, or a native Codex or Claude
    client started as a child process), and returns its result.  Around a run
    there are a loopback helper server through which the child reports events and
    calls other agents, a broker that offers delegation as MCP tools over a Unix
    socket, a store that maps conversations to provider sessions, private session
    directories, and a public A2A listener that forwards to the platform.  This
    library models those parts as executable definitions translated from the Go
    sources and proves what makes them correct.

    ** Conventions

    Go strings and byte slices are Rocq [string]s of bytes; integers are [Z] with
    the wrap-around written out where the code relies on it.  An [error] is a
    [go_error] (Prelude), a fallible call returns [result], and code that threads
    state is written in the state and error monad [stM].  A nil map or pointer is
    [None] where the difference matters.  JSON values are [Json.json], with Go's
    encoder ([marshal], sorted keys, HTML escapes) and a decoder for the strictness
    each caller asks for.  Code outside the repository is an argument: the SDK's
    callbacks, the operating system (outcomes of its calls, collected in the
    records [*_env] and the classes of a world [W]), float parsing ([Float64]), Unicode
    case mapping beyond Latin ([UnicodeLower]).  Components meet at classes: a turn is
    written against [CodexProtocol] and [TurnEnv], the launch of a client against
    [CodexHost] and [ClaudeHost], delegation against [Attempt], [Callbacks] and
    [Provider], the tracker of descendants against [Kernel].  Where
    goroutines share state the model is a step relation whose steps are the code's
    critical sections and, separately, what the code does after an unlock (the
    shutdowns and closes of a stop, the calls a broker still serves), and the theorems
    quantify over all interleavings.  What a theorem demands is stated on its own
    (grammars, the members of a policy, the fields a reader finds), not with the
    checks of the code.

    ** Files

    - Prelude: errors and [errors.Is], results, the monad, tactics and hints.
    - GoStrings, GoNet, Paths: the parts of Go's strings, unicode/utf8, net/http
      headers and responses, net.ParseIP and path/filepath the sources use, with
      their lemmas ([Paths.contains] is sessionsandbox/config.go).
    - Sha256: the hash, executable, checked against published test vectors.
    - Json, JsonRoundtrip: encoding/json, and that parsing a marshalled value
      gives it back.
    - ProviderOutput: provideroutput/output.go and agentnode/adapter_output.go
      (diagnostic tail, limited buffers, bounded text).
    - ProviderStream: providerstream/codex.go and claude.go, claude_output.go
      (line observers and the Claude result stream).
    - BoundTools, Broker, BrokerProps: agentdelegation/bound_tools.go and broker.go.
      [Broker] is the struct, [callWithBinding], [callTool], [dispatch], [serve],
      [EnsureComplete], [StartBound] and [Close] the functions of those names;
      BrokerProps has their transition system and theorems.
    - CodexRpc, CodexTurn: codexrpc/client.go as reader, writer, senders and calls
      over one [client]; codexturn/turn.go from [Run] to the deferred shutdown.
    - PublicA2A: agentnode/public_a2a_server.go.  Module Lifecycle is the server
      struct with its generations, ProxyWriter the response writer, Handlers the
      request handlers.
    - HelperServer: agentnode/helper_server.go and runtime_bridge_util.go.
    - PrivateFiles: appfiles (private writes, secrets, the lock file of both systems)
      over a map from paths to inodes.
    - SessionStore, SessionLock: providersession and adapters/session.go; the
      reference-counted lock table is SessionLock.
    - Environment: environments of child processes and native_credentials.go.
    - Sandbox: sessionsandbox/config.go and session.go.
    - NodeHandler: the run handler of node.go, adapter_result.go, util.go and
      adapter_command.go.
    - NodeLifecycle: [Start] and [Stop] of node.go over the helper and the listener.
    - ProviderConfig: [ProviderConfig] of types.go and everything computed from it
      for a run: the delegation environment, the Claude and Codex command lines, the
      session mode.
    - Resolve: canonical paths of files that may not exist yet, up to
      [CheckOutsideGitWorktree].
    - Url: the parts of net/url and net/netip the Node uses, and model_endpoint.go.
    - ToolPolicy, Isolation: native_tool_policy.go; isolation.go and the permit of
      host_auth_gate.go.
    - Config: agentnode/config.go and its report.
    - SkillDecode: skillpackages (the pinned snapshot, command lookup, instructions).
      SkillCache: the cache in the workspace as programs over atomic system calls,
      executed by [exec] on a tree of inodes.  SkillLogic is a rely/guarantee logic
      for those programs, SkillCacheProps the specifications proved with it.
    - CodexHome, CodexLaunch: codexhome/home.go; codexturn/native.go, the sandbox
      grants of codex_runtime_files.go and [runCodexRPC].
    - ProviderRun, ProviderRunProps: [Run] of codex.go and claude.go with prompt.go,
      over the turn, the stream, the store, the packages, the session and the permit
      of the files above, and the theorems about the log of a run.
    - Descendants, DescendantsProps: descendants_darwin.go over a kernel whose answers
      are logged.
    - AgentHost: agenthost/contract.go.  Delegation: [delegationProvider.Run] around
      any provider.  ProviderHandler: [NewProvider], [withDelegation], [Handler.Handle].
    - Preflight, PreflightProps: providerpreflight, preflight.go,
      [CheckSessionIsolation].
    - NativeAdapter: adapter_native.go and the mock of adapter_codex.go.
      RemoteAdapters: envelope.go, adapter_http.go and adapter_a2a.go.
    - SandboxCommand: sessionsandbox/command.go and [WritePrivateJSON].
    - CodexTypes: codexrpc/protocol.gen.go as descriptions of types with their JSON
      encoding and decoding, and the instance of [CodexProtocol].
    - CommandLine: cmd/openlinker-agent-node and agentdelegation/proxy.go.
    - Serving: what [Start] hands to the SDK, and the Cancel functions of child
      processes (process_unix.go, process_windows.go).

    ** What is proved

    - Delegation (BrokerProps): the broker's invariant over all interleavings, a
      request key creates at most one child, at most one child is live,
      [EnsureComplete] is sound, the polling loop ends, error texts do not leak,
      starting leaves nothing behind, and serving refines the atomic steps.
    - Codex (CodexRpc, CodexTurn): responses reach their own call, queues are
      bounded, every request of the server is refused once and in order; a turn
      succeeds only by its own completion, foreign events do not influence it, and
      whatever fails the process is waited for and errors are reported.
    - Sessions (SessionStore, SessionLock, Sandbox, PrivateFiles): updates are
      atomic and survive the JSON text, saved sessions are resumed, no message is
      withheld that was not delivered, scopes isolate principals unless the texts of
      the two runs collide under SHA-256, locks exclude, session trees are private and
      disjoint.
    - Servers (HelperServer, PublicA2A): a helper request acts only on the run of
      its live token and never on one its body names; proxies are closed exactly once
      however the work of the stops interleaves, and the stops can always finish;
      forwarded requests are authorised and stripped, the response writer is
      transparent but for the envelope it is there to replace.
    - The node (NodeHandler, NodeLifecycle, Environment, Config): sessions end with
      their run, adapters see no internal metadata, runs do not overlap and leave
      nothing up, environments of children hold only what they should, a configured
      node is well formed and isolated unless the operator said otherwise, and its
      report depends on the policy alone.
    - Isolation (ProviderConfig, Resolve, Url, ToolPolicy, Isolation): equal session
      modes mean equal tool surfaces, the accepted session roots and model endpoints
      are characterised, an isolated run confines the tools to its own directories,
      and the wait for the host's permit ends.
    - Provider runs (ProviderRunProps, CodexHome, CodexLaunch): what a run takes it
      gives back, in order, on every path; a client is started again only for a
      session that is missing, at most once; failures surface, and the two errors the
      code drops belong to runs that fail before a client starts; the next run resumes
      the thread the last one observed; the private home keeps the operator's files
      apart, and what the grants to sandbox helpers change is exactly described.
    - Around a run (Delegation, AgentHost, NativeAdapter, Preflight): a delegated run
      refines the provider's outcome by an abstract rule while its broker goes on
      serving ([Delegation.moment]), a resolver holds only a binary that passed the
      handshake, runs use what the preflight checked.
    - Descendants (DescendantsProps): a snapshot admits exactly the descendants, only
      verified descendants are signalled, tracking and stopping end.
    - Edges (RemoteAdapters, SandboxCommand, CodexTypes, CommandLine, Serving): the
      envelope survives its JSON text, a sandboxed command is confined to the session,
      a server reads from the text of each request to Codex the fields it means, typed
      messages survive the wire, the proxy copies bytes and nothing else after the credentials are gone
      from its process, its handshake is the one AgentHost asks for, optional features
      are offered only after the preflight, both SDK clients are the same node.
    - Skill packages (SkillDecode, SkillCacheProps): accepted snapshots are pinned by
      their digests, any number of interleaved loads agree on one cache and never
      alter a file of it, a load reports exactly once.
    - Streams (ProviderOutput, ProviderStream): buffers keep exactly the first or
      last bytes, results do not depend on how output is cut into writes.
    - Some lemmas show behaviour the code does not intend: an early stop makes
      the helper's serving goroutine panic ([serve_goroutine_can_panic]), a late
      goroutine of an earlier run stops the helper of a new one
      ([earlier_run_stops_helper]), a stop of the node returns while its listener is
      still open ([stop_returns_before_shutdown]), an informational status through the
      proxy loses the final one ([informational_loses_status]), a tool call that waited
      for [EnsureComplete] leaves a child nobody read behind a success ([late_child]),
      and a host whose lower case alone is a DNS name is accepted
      ([kelvin_host_accepted]).

    ** Bounds and fuel

    The polling loop of the broker runs with 32 passes, enough for the 30 second
    limit the code imposes with its 1 second sleep ([wait_loop_terminates] proves
    that fuel is never used up).  The walks over the ancestors of a path run with
    two more rounds than the path has bytes; every round removes an element
    ([git_worktree_exact]).  The JSON parser's fuel is the length of its input,
    which every step shortens.  One capture of descendants runs [S (length l)] rounds
    over a snapshot [l], each admitting a record or ending; a stop runs the code's 102
    passes ([tracking_terminates], [capture_exact]).  The loop for the host's permit runs at least until
    the round in which the context ends ([permit_wait_ends]).  The programs of
    SkillCache are finite trees: their loops run over lists already read.  Loops over
    a channel take the list of what the channel delivered.

    ** Modelling notes

    In SkillCache the workspace and the cache are two trees, a package's names are
    not names of temporary files ([well_named]), and paths whose ancestors are
    symbolic links are refused by the opened root, as the code's [os.Root] does.

    ** Not modelled

    The SDK, its worker and its proxy, and the operating system are outside the
    repository: their outcomes are arguments.  The test doubles (providertest,
    testdata) simulate providers for the test suite and are left out, as are one-line
    wrappers of session.go over providersession and the schema generator's input.
    Signal delivery is the choice of an event in [CommandLine.main]. *)

From Stdlib Require Import ZArith Bool.
From Stdlib Require Ascii String.
From stdpp Require Export base tactics list gmap strings numbers.
Export Stdlib.Strings.Ascii (ascii(..), N_of_ascii, ascii_of_N, ascii_N_embedding, N_ascii_embedding, N_ascii_bounded).
Export (notations) Stdlib.Strings.Ascii.
From stdpp Require Import options.

(** ** Go errors

    The [error] values the sources build.  [ENew] is an anonymous
    [errors.New]/[fmt.Errorf] value, [ESentinel] a package-level error variable
    (compared by identity, here by its name), [ESafe] a
    [agentdelegation.safeToolError], [EApi] the SDK's [*openlinker.Error],
    [ERpc] a [*codexrpc.Error], [EWrap] a [fmt.Errorf] with one [%w] verb and
    [EJoin] the result of [errors.Join]. *)
Inductive go_error : Type :=
  | ENew (msg : string)
  | ESentinel (name msg : string)
  | ESafe (msg : string)
  | EApi (status : Z) (code msg : string)
  | ERpc (code : Z) (msg text : string)
  | EWrap (pre : string) (inner : go_error) (post : string)
  | EJoin (es : list go_error).

(** The context package's two errors, and [io.EOF]. *)
Definition context_Canceled : go_error := ESentinel "context.Canceled" "context canceled".
Definition context_DeadlineExceeded : go_error :=
  ESentinel "context.DeadlineExceeded" "context deadline exceeded".
Definition io_EOF : go_error := ESentinel "io.EOF" "EOF".

(** [target == err] for the comparable error values the sources compare with. *)
Definition error_same (target e : go_error) : bool :=
  match target, e with
  | ESentinel n _, ESentinel n' _ => bool_decide (n = n')
  | ESafe m, ESafe m' => bool_decide (m = m')
  | _, _ => false
  end.

(** [errors.Is]: walk the [%w] chain and the members of an [errors.Join]. *)
Fixpoint errors_Is (e target : go_error) : bool :=
  error_same target e ||
  match e with
  | EWrap _ e' _ => errors_Is e' target
  | EJoin es => existsb (λ e', errors_Is e' target) es
  | _ => false
  end.

(** [errors.As] for a [*openlinker.Error] target. *)
Fixpoint errors_As_api (e : go_error) : option (Z * string * string) :=
  match e with
  | EApi st code msg => Some (st, code, msg)
  | EWrap _ e' _ => errors_As_api e'
  | EJoin es =>
      (fix first (l : list go_error) :=
         match l with
         | [] => None
         | e' :: l' => match errors_As_api e' with Some r => Some r | None => first l' end
         end) es
  | _ => None
  end.

(** [errors.As] for a [*codexrpc.Error] target. *)
Fixpoint errors_As_rpc (e : go_error) : option (Z * string) :=
  match e with
  | ERpc code msg _ => Some (code, msg)
  | EWrap _ e' _ => errors_As_rpc e'
  | EJoin es =>
      (fix first (l : list go_error) :=
         match l with
         | [] => None
         | e' :: l' => match errors_As_rpc e' with Some r => Some r | None => first l' end
         end) es
  | _ => None
  end.

(** [errors.Join]: nil members are dropped, and no member at all gives nil. *)
Definition errors_Join (es : list (option go_error)) : option go_error :=
  match omap id es with
  | [] => None
  | l => Some (EJoin l)
  end.

(** [err.Error()]: the [msg] of an SDK error is its text; an RPC error's text
    is not its message. *)
Fixpoint error_text (e : go_error) : string :=
  match e with
  | ENew m | ESentinel _ m | ESafe m | EApi _ _ m | ERpc _ _ m => m
  | EWrap pre e' post => pre +:+ error_text e' +:+ post
  | EJoin es =>
      (fix lines (l : list go_error) :=
         match l with
         | [] => ""
         | [e'] => error_text e'
         | e' :: l' => error_text e' +:+ String (ascii_of_N 10) (lines l')
         end) es
  end.

(** ** Results: a Go function that returns a value or a non-nil error *)
Inductive result (A : Type) : Type :=
  | Ok (a : A)
  | Err (e : go_error).
Global Arguments Ok {_} _.
Global Arguments Err {_} _.

#[export] Instance result_ret : MRet result := @Ok.
#[export] Instance result_bind : MBind result := λ _ _ f r,
  match r with Ok a => f a | Err e => Err e end.
#[export] Instance result_fmap : FMap result := λ _ _ f r,
  match r with Ok a => Ok (f a) | Err e => Err e end.

Definition is_Ok {A} (r : result A) : Prop := ∃ a, r = Ok a.

(** [if cond { return nil, err }]. *)
Definition guard_err (ok : bool) (e : go_error) : result unit :=
  if ok then Ok tt else Err e.

Definition of_option {A} (e : go_error) (o : option A) : result A :=
  match o with Some a => Ok a | None => Err e end.

(** ** Stateful code: explicit state passing with early error returns.
    The state survives an error, as the memory of a Go program does. *)
Definition stM (S A : Type) : Type := S → result A * S.

#[export] Instance stM_ret {S} : MRet (stM S) := λ _ a s, (Ok a, s).
#[export] Instance stM_bind {S} : MBind (stM S) := λ _ _ f m s,
  match m s with
  | (Ok a, s') => f a s'
  | (Err e, s') => (Err e, s')
  end.

Section StateMonad.
Context {S : Type}.

Definition st_get : stM S S := λ s, (Ok s, s).
Definition st_put (s : S) : stM S unit := λ _, (Ok tt, s).
Definition st_modify (f : S → S) : stM S unit := λ s, (Ok tt, f s).
Definition st_fail {A} (e : go_error) : stM S A := λ s, (Err e, s).
Definition st_lift {A} (r : result A) : stM S A := λ s, (r, s).
(** Run [m] and keep its result as a value, for code that inspects [err]. *)
Definition st_try {A} (m : stM S A) : stM S (result A) := λ s,
  let '(r, s') := m s in (Ok r, s').
End StateMonad.

(** ** Ranging over a Go map

    The iteration order of [for k, v := range m] is unspecified: a [RangeOrder]
    is one choice of order per map value. *)
Class RangeOrder (K V : Type) `{Countable K} := {
  go_range : gmap K V → list (K * V);
  go_range_perm : ∀ m, go_range m ≡ₚ map_to_list m;
}.

#[export] Instance default_range_order {K V} `{Countable K} : RangeOrder K V | 100 := {|
  go_range := map_to_list;
  go_range_perm := λ m, reflexivity _;
|}.

(** ** Tactics of the development *)

(** Split the [if]/[match] heads of the goal and of the hypotheses. *)
Ltac go_case :=
  repeat first [ progress simplify_eq/= | case_match ].

(** Turn boolean tests into propositions. *)
Ltac go_bool :=
  repeat match goal with
  | H : (_ && _)%bool = true |- _ => apply andb_true_iff in H as [? ?]
  | H : (_ || _)%bool = false |- _ => apply orb_false_iff in H as [? ?]
  | H : negb _ = true |- _ => apply negb_true_iff in H
  | H : negb _ = false |- _ => apply negb_false_iff in H
  | H : bool_decide _ = true |- _ => apply bool_decide_eq_true in H
  | H : bool_decide _ = false |- _ => apply bool_decide_eq_false in H
  | H : Z.ltb _ _ = true |- _ => apply Z.ltb_lt in H
  | H : Z.ltb _ _ = false |- _ => apply Z.ltb_ge in H
  | H : Z.leb _ _ = true |- _ => apply Z.leb_le in H
  | H : Z.leb _ _ = false |- _ => apply Z.leb_gt in H
  | H : Z.eqb _ _ = true |- _ => apply Z.eqb_eq in H
  | H : Z.eqb _ _ = false |- _ => apply Z.eqb_neq in H
  | H : Nat.ltb _ _ = true |- _ => apply Nat.ltb_lt in H
  | H : Nat.ltb _ _ = false |- _ => apply Nat.ltb_ge in H
  | H : Nat.leb _ _ = true |- _ => apply Nat.leb_le in H
  | H : Nat.leb _ _ = false |- _ => apply Nat.leb_gt in H
  | H : Nat.eqb _ _ = true |- _ => apply Nat.eqb_eq in H
  | H : Nat.eqb _ _ = false |- _ => apply Nat.eqb_neq in H
  end.

(** Open one monadic step. *)
Ltac go_step := unfold mbind, mret, stM_bind, stM_ret, result_bind, result_ret in *; simpl in *.

(** A step that returned a value. *)
Lemma bind_Ok {A B} (m : result A) (f : A → result B) b : (m ≫= f) = Ok b ↔ ∃ a, m = Ok a ∧ f a = Ok b.
Proof. destruct m as [a|e]; cbn [mbind result_bind]; [naive_solver|]. split; [done|by intros (? & ? & ?)]. Qed.

Lemma Ok_inj {A} (a b : A) : Ok a = Ok b → a = b.
Proof. by intros [= ->]. Qed.

(** Open every step of a computation that returned a value, and the tests on the
    way. *)
Ltac ok_inv H :=
  lazymatch type of H with
  | (_ ≫= _) = Ok _ =>
      let a := fresh "a" in let Ha := fresh "Hstep" in
      apply bind_Ok in H as (a & Ha & H); cbn beta in H; ok_inv H
  | (if ?b then _ else _) = Ok _ =>
      let Hb := fresh "Htest" in destruct b eqn:Hb; try discriminate H; ok_inv H
  | _ => idtac
  end.

Create HintDb go discriminated.
#[export] Hint Constructors Forall : go.

(** ** Facts about the error values *)

Lemma errors_Is_refl_sentinel n m : errors_Is (ESentinel n m) (ESentinel n m) = true.
Proof. simpl. by rewrite bool_decide_true. Qed.

Lemma errors_Is_wrap pre e post t : errors_Is e t = true → errors_Is (EWrap pre e post) t = true.
Proof. simpl. intros ->. by rewrite orb_true_r. Qed.

Lemma errors_Is_join e es t : e ∈ es → errors_Is e t = true → errors_Is (EJoin es) t = true.
Proof.
  intros Hin He. simpl. apply orb_true_iff. right. apply existsb_exists.
  exists e. by rewrite <-list_elem_of_In.
Qed.

Lemma errors_Join_None es : errors_Join es = None ↔ Forall (λ o, o = None) es.
Proof.
  unfold errors_Join. induction es as [|[e|] es IH]; simpl.
  - split; auto with go.
  - split; [done|]. intros H. by inversion H.
  - rewrite IH. split; [auto with go|]. intros H. by inversion H.
Qed.

(** ** Facts about ranging over a map *)
Section RangeFacts.
Context {K V : Type} `{Countable K} `{!RangeOrder K V}.

Lemma elem_of_go_range (m : gmap K V) k v : (k, v) ∈ go_range m ↔ m !! k = Some v.
Proof. rewrite go_range_perm. apply elem_of_map_to_list. Qed.

Lemma NoDup_fst_go_range (m : gmap K V) : NoDup (go_range m).*1.
Proof. rewrite go_range_perm. apply NoDup_fst_map_to_list. Qed.
End RangeFacts.

(** ** Facts about the size of maps *)
Section MapSize.
Context {K V : Type} `{Countable K}.
Implicit Types m : gmap K V.

Lemma size_insert_le m k v : (size (<[k := v]> m) ≤ S (size m))%nat.
Proof. rewrite map_size_insert. destruct (m !! k); simpl; lia. Qed.

Lemma size_delete_le m k : (size (delete k m) ≤ size m)%nat.
Proof. rewrite map_size_delete. destruct (m !! k); simpl; lia. Qed.
End MapSize.

(** ** Facts about lists *)

Lemma existsb_bool_decide {A} `{EqDecision A} (x : A) l :
  existsb (λ y, bool_decide (x = y)) l = bool_decide (x ∈ l).
Proof.
  apply eq_true_iff_eq. rewrite existsb_exists, bool_decide_eq_true. split.
  - intros (y & Hy & ->%bool_decide_eq_true). by apply list_elem_of_In.
  - intros Hx. exists x. rewrite bool_decide_eq_true. by apply list_elem_of_In in Hx.
Qed.

Lemma filter_length_le {A} (P : A → Prop) `{∀ x, Decision (P x)} (l : list A) :
  length (filter P l) ≤ length l.
Proof. induction l as [|x l IH]; [done|]. rewrite filter_cons. case_decide; simpl; lia. Qed.

Lemma elem_of_filter_bool {A} (f : A → bool) l x : x ∈ List.filter f l ↔ f x = true ∧ x ∈ l.
Proof. rewrite !list_elem_of_In, List.filter_In. tauto. Qed.
