(* ===== verification/GoStrings.v ===== *)
(** * Go strings

    A Go [string] is an immutable byte sequence: here a Standard Library
    [string], one [ascii] per byte.  This file models what the sources use of the
    packages [strings], [bytes], [unicode/utf8], [strconv], [slices] and [sort].
    Byte-level functions are defined by structural recursion; rune-level ones go
    through [segments], the sequence of (rune, bytes) pairs that Go's
    [for range] and [utf8.DecodeRune] produce (an invalid byte is one segment
    with rune U+FFFD). *)

From stdpp Require Import sorting pretty.
From S2P Require Import Prelude.
From stdpp Require Import options.

Open Scope Z_scope.

(** ** Bytes *)

Definition byte_val (c : ascii) : Z := Z.of_N (N_of_ascii c).
Definition byte_of (z : Z) : ascii := ascii_of_N (Z.to_N z).

(** [len(s)]: the number of bytes. *)
Definition slen (s : string) : Z := Z.of_nat (String.length s).

Fixpoint str_take (n : nat) (s : string) : string :=
  match n, s with
  | S n', String c s' => String c (str_take n' s')
  | _, _ => EmptyString
  end.

Fixpoint str_drop (n : nat) (s : string) : string :=
  match n, s with
  | S n', String _ s' => str_drop n' s'
  | _, _ => s
  end.

Fixpoint str_forallb (p : ascii → bool) (s : string) : bool :=
  match s with
  | EmptyString => true
  | String c s' => p c && str_forallb p s'
  end.

Fixpoint str_existsb (p : ascii → bool) (s : string) : bool :=
  match s with
  | EmptyString => false
  | String c s' => p c || str_existsb p s'
  end.

Definition str_of_bytes (l : list Z) : string :=
  foldr (λ z s, String (byte_of z) s) EmptyString l.

(** ** package strings, byte level *)

Definition HasPrefix (s prefix : string) : bool := String.prefix prefix s.

Definition HasSuffix (s suffix : string) : bool :=
  bool_decide (str_drop (String.length s - String.length suffix)%nat s = suffix).

Definition CutPrefix (s prefix : string) : string * bool :=
  if HasPrefix s prefix then (str_drop (String.length prefix) s, true) else (s, false).

Definition TrimPrefix (s prefix : string) : string := (CutPrefix s prefix).1.

Definition TrimSuffix (s suffix : string) : string :=
  if HasSuffix s suffix then str_take (String.length s - String.length suffix)%nat s else s.

(** [strings.Cut(s, sep)] for a one-byte separator: before, after, found. *)
Fixpoint Cut (s : string) (sep : ascii) : string * string * bool :=
  match s with
  | EmptyString => (EmptyString, EmptyString, false)
  | String c s' =>
      if bool_decide (c = sep) then (EmptyString, s', true)
      else let '(before, after, found) := Cut s' sep in (String c before, after, found)
  end.

(** [strings.Contains]. *)
Fixpoint Contains (s sub : string) : bool :=
  String.prefix sub s ||
  match s with
  | EmptyString => false
  | String _ s' => Contains s' sub
  end.

(** [strings.ContainsAny] for a set of ASCII characters. *)
Definition ContainsAny (s chars : string) : bool :=
  str_existsb (λ c, str_existsb (λ d, bool_decide (c = d)) chars) s.

(** [strings.Split(s, sep)] for a one-byte separator. *)
Fixpoint Split (s : string) (sep : ascii) : list string :=
  match s with
  | EmptyString => [EmptyString]
  | String c s' =>
      if bool_decide (c = sep) then EmptyString :: Split s' sep
      else match Split s' sep with
           | w :: ws => String c w :: ws
           | [] => [String c EmptyString]
           end
  end.

(** [strings.Join]. *)
Fixpoint Join (l : list string) (sep : string) : string :=
  match l with
  | [] => EmptyString
  | [s] => s
  | s :: l' => s +:+ sep +:+ Join l' sep
  end.

(** [strings.ReplaceAll(s, from, to)] for one-byte [from]. *)
Fixpoint ReplaceByte (s : string) (from : ascii) (to : string) : string :=
  match s with
  | EmptyString => EmptyString
  | String c s' =>
      (if bool_decide (c = from) then to else String c EmptyString) +:+ ReplaceByte s' from to
  end.

Definition in_cutset (cutset : string) (c : ascii) : bool :=
  str_existsb (λ d, bool_decide (c = d)) cutset.

Fixpoint TrimLeftCut (s cutset : string) : string :=
  match s with
  | EmptyString => EmptyString
  | String c s' => if in_cutset cutset c then TrimLeftCut s' cutset else s
  end.

(** [strings.TrimRight] for a cutset of ASCII characters. *)
Definition TrimRight (s cutset : string) : string :=
  String.rev (TrimLeftCut (String.rev s) cutset).

(** [strings.Trim] for a cutset of ASCII characters. *)
Definition Trim (s cutset : string) : string := TrimRight (TrimLeftCut s cutset) cutset.

(** [bytes.IndexByte], as an option instead of -1. *)
Fixpoint IndexByte (s : string) (c : ascii) : option nat :=
  match s with
  | EmptyString => None
  | String d s' => if bool_decide (d = c) then Some 0%nat else S <$> IndexByte s' c
  end.

(** [sort.Strings] and [slices.Sort] on strings: byte-wise lexicographic order. *)
Definition sort_strings (l : list string) : list string := merge_sort String.le l.

(** ** package unicode/utf8 *)

Definition rune_error : Z := 0xFFFD.

Definition cont_byte (lo hi : Z) (c : ascii) : bool :=
  (lo <=? byte_val c) && (byte_val c <=? hi).

(** [utf8.DecodeRuneInString]: the rune and its width; an ill-formed sequence is
    [(U+FFFD, 1)] and the empty string [(U+FFFD, 0)]. *)
Definition DecodeRune (s : string) : Z * nat :=
  match s with
  | EmptyString => (rune_error, 0%nat)
  | String c0 s1 =>
      let b0 := byte_val c0 in
      if b0 <? 0x80 then (b0, 1%nat)
      else if (b0 <? 0xC2) || (0xF4 <? b0) then (rune_error, 1%nat)
      else if b0 <? 0xE0 then
        match s1 with
        | String c1 _ =>
            if cont_byte 0x80 0xBF c1
            then ((b0 - 0xC0) * 0x40 + (byte_val c1 - 0x80), 2%nat)
            else (rune_error, 1%nat)
        | _ => (rune_error, 1%nat)
        end
      else if b0 <? 0xF0 then
        let lo := if b0 =? 0xE0 then 0xA0 else 0x80 in
        let hi := if b0 =? 0xED then 0x9F else 0xBF in
        match s1 with
        | String c1 (String c2 _) =>
            if cont_byte lo hi c1 && cont_byte 0x80 0xBF c2
            then ((b0 - 0xE0) * 0x1000 + (byte_val c1 - 0x80) * 0x40 + (byte_val c2 - 0x80), 3%nat)
            else (rune_error, 1%nat)
        | _ => (rune_error, 1%nat)
        end
      else
        let lo := if b0 =? 0xF0 then 0x90 else 0x80 in
        let hi := if b0 =? 0xF4 then 0x8F else 0xBF in
        match s1 with
        | String c1 (String c2 (String c3 _)) =>
            if cont_byte lo hi c1 && cont_byte 0x80 0xBF c2 && cont_byte 0x80 0xBF c3
            then ((b0 - 0xF0) * 0x40000 + (byte_val c1 - 0x80) * 0x1000 +
                  (byte_val c2 - 0x80) * 0x40 + (byte_val c3 - 0x80), 4%nat)
            else (rune_error, 1%nat)
        | _ => (rune_error, 1%nat)
        end
  end.

(** The Unicode scalar values. *)
Definition is_scalar (r : Z) : bool :=
  (0 <=? r) && (r <=? 0x10FFFF) && negb ((0xD800 <=? r) && (r <=? 0xDFFF)).

(** [utf8.EncodeRune] on a scalar value. *)
Definition encode_scalar (r : Z) : list Z :=
  if r <? 0x80 then [r]
  else if r <? 0x800 then [0xC0 + r / 0x40; 0x80 + r mod 0x40]
  else if r <? 0x10000 then [0xE0 + r / 0x1000; 0x80 + r / 0x40 mod 0x40; 0x80 + r mod 0x40]
  else [0xF0 + r / 0x40000; 0x80 + r / 0x1000 mod 0x40; 0x80 + r / 0x40 mod 0x40; 0x80 + r mod 0x40].

(** [utf8.EncodeRune]; surrogates and out-of-range values encode U+FFFD. *)
Definition EncodeRune (r : Z) : string :=
  str_of_bytes (encode_scalar (if is_scalar r then r else rune_error)).

(** The (rune, width, bytes) segments of a string.  [skip] counts the bytes that
    belong to the segment already emitted. *)
Fixpoint segments_from (skip : nat) (s : string) : list (Z * string) :=
  match s with
  | EmptyString => []
  | String _ s' =>
      match skip with
      | S k => segments_from k s'
      | O => let '(r, w) := DecodeRune s in (r, str_take w s) :: segments_from (Nat.pred w) s'
      end
  end.
Definition segments (s : string) : list (Z * string) := segments_from 0 s.

(** [\[\]rune(s)] *)
Definition runes (s : string) : list Z := (segments s).*1.

(** [string(rs)] for a rune slice *)
Definition string_of_runes (l : list Z) : string :=
  foldr (λ r s, EncodeRune r +:+ s) EmptyString l.

(** [utf8.ValidString]: no segment is an ill-formed byte (a real U+FFFD has width 3). *)
Definition ValidString (s : string) : bool :=
  forallb (λ '(r, seg), negb ((r =? rune_error) && (slen seg =? 1))) (segments s).

(** ** Unicode properties *)

(** [unicode.IsSpace] *)
Definition IsSpace (r : Z) : bool :=
  ((9 <=? r) && (r <=? 13)) || (r =? 0x20) || (r =? 0x85) || (r =? 0xA0) || (r =? 0x1680) ||
  ((0x2000 <=? r) && (r <=? 0x200A)) || (r =? 0x2028) || (r =? 0x2029) || (r =? 0x202F) ||
  (r =? 0x205F) || (r =? 0x3000).

Fixpoint drop_while {A} (p : A → bool) (l : list A) : list A :=
  match l with
  | [] => []
  | x :: l' => if p x then drop_while p l' else l
  end.

Definition concat_strings (l : list string) : string := foldr String.append EmptyString l.

(** [strings.TrimSpace] *)
Definition TrimSpace (s : string) : string :=
  let white := λ seg : Z * string, IsSpace seg.1 in
  concat_strings (reverse (drop_while white (reverse (drop_while white (segments s))))).*2.

(** The case-mapping table of package unicode for runes above U+007F (data of the
    Go distribution) is a parameter. *)
Class UnicodeLower := uni_lower : Z → Z.

Definition rune_lower `{!UnicodeLower} (r : Z) : Z :=
  if (65 <=? r) && (r <=? 90) then r + 32 else if r <? 128 then r else uni_lower r.

(** [strings.ToLower] *)
Definition ToLower `{!UnicodeLower} (s : string) : string :=
  string_of_runes (map rune_lower (runes s)).

(** [strings.ToUpper] on an ASCII string *)
Fixpoint ToUpperASCII (s : string) : string :=
  match s with
  | EmptyString => EmptyString
  | String c s' =>
      let b := byte_val c in
      String (if (97 <=? b) && (b <=? 122) then byte_of (b - 32) else c) (ToUpperASCII s')
  end.

(** The two entries of the table that map a rune above U+007F to ASCII. *)
Definition latin_lower : UnicodeLower := λ r,
  if r =? 0x130 then 0x69 else if r =? 0x212A then 0x6B else r.

(** Simple case folding of a rune against an ASCII letter: the fold orbits of
    ASCII letters contain, beyond ASCII, only U+017F (s) and U+212A (k). *)
Definition fold_ascii (r : Z) : Z :=
  if (65 <=? r) && (r <=? 90) then r + 32
  else if r =? 0x17F then 115 else if r =? 0x212A then 107 else r.

(** [strings.EqualFold(s, t)] for an ASCII [t]; also how encoding/json matches an
    object key with the name of an ASCII struct field. *)
Definition EqualFold (s t : string) : bool :=
  bool_decide (map fold_ascii (runes s) = map fold_ascii (runes t)).

(** ** package strconv *)

Definition is_digit (c : ascii) : bool := (48 <=? byte_val c) && (byte_val c <=? 57).

Fixpoint digits_val (acc : Z) (s : string) : Z :=
  match s with
  | EmptyString => acc
  | String c s' => digits_val (acc * 10 + (byte_val c - 48)) s'
  end.

Definition int64_min : Z := - 2 ^ 63.
Definition int64_max : Z := 2 ^ 63 - 1.

Definition parse_digits (s : string) : option Z :=
  if negb (bool_decide (s = EmptyString)) && str_forallb is_digit s
  then Some (digits_val 0 s) else None.

(** [strconv.Atoi] and [strconv.ParseInt(s, 10, 64)]: optional sign, decimal
    digits, 64-bit range. *)
Definition Atoi (s : string) : option Z :=
  let signed :=
    match s with
    | String "-" s' => Z.opp <$> parse_digits s'
    | String "+" s' => parse_digits s'
    | _ => parse_digits s
    end in
  match signed with
  | Some v => if (int64_min <=? v) && (v <=? int64_max) then Some v else None
  | None => None
  end.

(** [strconv.Itoa] and [%d] *)
Definition Itoa (z : Z) : string := pretty z.

(** ** package encoding/hex *)

Definition hex_digit (z : Z) : ascii :=
  byte_of (if z <? 10 then 48 + z else 87 + z).

(** [hex.EncodeToString] *)
Fixpoint hex_encode (s : string) : string :=
  match s with
  | EmptyString => EmptyString
  | String c s' =>
      String (hex_digit (Z.shiftr (byte_val c) 4))
        (String (hex_digit (Z.land (byte_val c) 0xF)) (hex_encode s'))
  end.

(** ** Anchored patterns: [^\[0-9a-f\]{8}-\[0-9a-f\]{4}-...$] *)

Definition is_lower_hex (c : ascii) : bool :=
  is_digit c || ((97 <=? byte_val c) && (byte_val c <=? 102)).

Definition hex_group (n : nat) (s : string) : bool :=
  bool_decide (String.length s = n) && str_forallb is_lower_hex s.

(** The lowercase UUID pattern shared by broker.go and packages.go. *)
Definition uuidPattern (s : string) : bool :=
  match Split s "-" with
  | [a; b; c; d; e] =>
      hex_group 8 a && hex_group 4 b && hex_group 4 c && hex_group 4 d && hex_group 12 e
  | _ => false
  end.

(** ** Facts about bytes and strings *)

Lemma byte_val_range c : 0 <= byte_val c < 256.
Proof. unfold byte_val. pose proof (N_ascii_bounded c). lia. Qed.

Lemma byte_val_of z : 0 <= z < 256 → byte_val (byte_of z) = z.
Proof. intros ?. unfold byte_val, byte_of. rewrite N_ascii_embedding; lia. Qed.

Lemma byte_of_val c : byte_of (byte_val c) = c.
Proof. unfold byte_val, byte_of. by rewrite N2Z.id, ascii_N_embedding. Qed.

Lemma byte_val_inj c d : byte_val c = byte_val d → c = d.
Proof. intros H. by rewrite <-(byte_of_val c), H, byte_of_val. Qed.

Lemma str_app_nil_r s : s +:+ "" = s.
Proof. induction s as [|c s IH]; [done|]. change (String c (s +:+ "") = String c s). by rewrite IH. Qed.

Lemma str_app_assoc s1 s2 s3 : s1 +:+ s2 +:+ s3 = (s1 +:+ s2) +:+ s3.
Proof.
  induction s1 as [|c s1 IH]; [done|].
  change (String c (s1 +:+ s2 +:+ s3) = String c ((s1 +:+ s2) +:+ s3)). by rewrite IH.
Qed.

Lemma str_app_cons c s1 s2 : String c s1 +:+ s2 = String c (s1 +:+ s2).
Proof. done. Qed.

Lemma str_length_app s1 s2 :
  String.length (s1 +:+ s2) = (String.length s1 + String.length s2)%nat.
Proof. induction s1 as [|c s1 IH]; [done|]. rewrite str_app_cons. simpl. by rewrite IH. Qed.

Lemma slen_app s1 s2 : slen (s1 +:+ s2) = slen s1 + slen s2.
Proof. unfold slen. rewrite str_length_app. lia. Qed.

Lemma slen_nonneg s : 0 <= slen s.
Proof. unfold slen. lia. Qed.

Lemma str_take_app s1 s2 : str_take (String.length s1) (s1 +:+ s2) = s1.
Proof. induction s1 as [|c s1 IH]; [by destruct s2|]. rewrite str_app_cons. simpl. by rewrite IH. Qed.

Lemma str_drop_app s1 s2 : str_drop (String.length s1) (s1 +:+ s2) = s2.
Proof. induction s1 as [|c s1 IH]; [by destruct s2|]. rewrite str_app_cons. simpl. by rewrite IH. Qed.

Lemma str_app_inv s1 s2 t1 t2 :
  String.length s1 = String.length t1 → s1 +:+ s2 = t1 +:+ t2 → s1 = t1 ∧ s2 = t2.
Proof.
  intros Hl H. split.
  - by rewrite <-(str_take_app s1 s2), <-(str_take_app t1 t2), Hl, H.
  - by rewrite <-(str_drop_app s1 s2), <-(str_drop_app t1 t2), Hl, H.
Qed.

Lemma str_take_drop n s : str_take n s +:+ str_drop n s = s.
Proof.
  revert n. induction s as [|c s IH]; intros [|n]; try done. simpl.
  rewrite str_app_cons. by rewrite IH.
Qed.

Lemma prefix_app p s : String.prefix p (p +:+ s) = true.
Proof.
  induction p as [|c p IH]; [by destruct s|]. rewrite str_app_cons. simpl.
  by destruct (Stdlib.Strings.Ascii.ascii_dec c c).
Qed.

Lemma prefix_inv p s : String.prefix p s = true → s = p +:+ str_drop (String.length p) s.
Proof.
  revert s. induction p as [|c p IH]; intros [|d s]; simpl; try done.
  destruct (Stdlib.Strings.Ascii.ascii_dec c d) as [->|]; [|done]. intros H.
  rewrite str_app_cons. by rewrite <-IH.
Qed.

(** ** UTF-8: decoding an encoded scalar gives it back *)

Lemma str_of_bytes_app l1 l2 : str_of_bytes (l1 ++ l2) = str_of_bytes l1 +:+ str_of_bytes l2.
Proof. induction l1 as [|z l1 IH]; [done|]. simpl. by rewrite IH. Qed.

Lemma cont_byte_of lo hi z :
  0 <= z < 256 → lo <= z <= hi → cont_byte lo hi (byte_of z) = true.
Proof. intros ??. unfold cont_byte. rewrite byte_val_of by done. lia. Qed.

Lemma DecodeRune_Encode r s :
  is_scalar r = true →
  DecodeRune (EncodeRune r +:+ s) = (r, String.length (EncodeRune r)).
Proof.
  intros Hr. unfold EncodeRune. rewrite Hr. unfold is_scalar in Hr. go_bool.
  assert (Hs : r < 0xD800 ∨ 0xDFFF < r).
  { destruct (decide (r < 0xD800)); [by left|]. right.
    destruct (0xD800 <=? r) eqn:?, (r <=? 0xDFFF) eqn:?; try done; lia. }
  unfold encode_scalar.
  destruct (r <? 0x80) eqn:?; [|destruct (r <? 0x800) eqn:?; [|destruct (r <? 0x10000) eqn:?]];
    go_bool; unfold str_of_bytes; simpl foldr; rewrite ?str_app_cons; unfold DecodeRune;
    rewrite !byte_val_of by (Z.to_euclidean_division_equations; lia);
    repeat match goal with
    | |- context [ (?a <? ?b) ] =>
        first [ rewrite (proj2 (Z.ltb_lt a b)) by (Z.to_euclidean_division_equations; lia)
              | rewrite (proj2 (Z.ltb_ge a b)) by (Z.to_euclidean_division_equations; lia) ]
    end; simpl orb; cbv iota; try done;
    rewrite !cont_byte_of; simpl; try (f_equal);
    repeat case_match; go_bool; Z.to_euclidean_division_equations; lia.
Qed.

Ltac decode_cases :=
  unfold DecodeRune, cont_byte in *;
  repeat match goal with
  | |- context [ match ?s with EmptyString => _ | String _ _ => _ end ] => destruct s
  | |- context [ if ?b then _ else _ ] => destruct b eqn:?
  end; simpl.

(** A nonempty string decodes a rune of at least one byte, inside the string. *)
Lemma DecodeRune_width c s :
  (1 <= (DecodeRune (String c s)).2 <= String.length (String c s))%nat.
Proof. decode_cases; lia. Qed.

Lemma DecodeRune_scalar s : is_scalar (DecodeRune s).1 = true.
Proof.
  assert (He : is_scalar rune_error = true) by done.
  destruct s as [|c0 s]; [done|]. pose proof (byte_val_range c0).
  decode_cases; try exact He; unfold is_scalar; go_bool; repeat case_match; go_bool;
    rewrite !andb_true_iff, negb_true_iff, andb_false_iff; lia.
Qed.

Lemma segments_from_drop k s : segments_from k s = segments_from 0 (str_drop k s).
Proof. revert k. induction s as [|c s IH]; intros [|k]; try done. simpl. apply IH. Qed.

Lemma segments_cons c s :
  segments (String c s) =
    let '(r, w) := DecodeRune (String c s) in
    (r, str_take w (String c s)) :: segments (str_drop w (String c s)).
Proof.
  unfold segments. cbn [segments_from].
  pose proof (DecodeRune_width c s) as Hw.
  destruct (DecodeRune (String c s)) as [r w]. cbn [snd] in Hw.
  destruct w as [|w]; [lia|]. by rewrite segments_from_drop.
Qed.

(** The segments partition the string. *)
Lemma segments_concat s : concat_strings (segments s).*2 = s.
Proof.
  remember (String.length s) as n eqn:Hn. revert s Hn.
  induction (lt_wf n) as [n _ IH]; intros [|c s] ->; [done|].
  rewrite segments_cons. pose proof (DecodeRune_width c s) as Hw.
  destruct (DecodeRune (String c s)) as [r w]. cbn [snd] in Hw.
  cbn [fmap list_fmap snd concat_strings foldr].
  change (str_take w (String c s) +:+ concat_strings (segments (str_drop w (String c s))).*2
          = String c s).
  rewrite (IH (String.length (str_drop w (String c s)))); [apply str_take_drop| |done].
  pose proof (f_equal String.length (str_take_drop w (String c s))) as Hl.
  rewrite str_length_app in Hl. destruct w; [lia|]. cbn [str_take] in Hl. simpl in *. lia.
Qed.

Lemma segments_Encode r s :
  is_scalar r = true → segments (EncodeRune r +:+ s) = (r, EncodeRune r) :: segments s.
Proof.
  intros Hr. pose proof (DecodeRune_Encode r s Hr) as Hd.
  assert (∃ c t, EncodeRune r = String c t) as (c & t & Hct).
  { unfold EncodeRune. rewrite Hr. unfold encode_scalar.
    repeat case_match; unfold str_of_bytes; simpl; eauto. }
  rewrite Hct in *. rewrite str_app_cons in *. rewrite segments_cons, Hd.
  rewrite <-str_app_cons, str_take_app, str_drop_app. done.
Qed.

Lemma runes_string_of_runes l :
  Forall (λ r, is_scalar r = true) l → runes (string_of_runes l) = l.
Proof.
  induction 1 as [|r l Hr Hl IH]; [done|]. unfold runes in *. cbn [string_of_runes foldr].
  rewrite segments_Encode by done. cbn. by f_equal.
Qed.

Lemma runes_scalar s : Forall (λ r, is_scalar r = true) (runes s).
Proof.
  remember (String.length s) as n eqn:Hn. revert s Hn.
  induction (lt_wf n) as [n _ IH]; intros [|c s] ->; [constructor|].
  unfold runes. rewrite segments_cons. pose proof (DecodeRune_width c s) as Hw.
  pose proof (DecodeRune_scalar (String c s)) as Hr.
  destruct (DecodeRune (String c s)) as [r w]. cbn [snd fst] in *. cbn.
  constructor; [done|]. apply (IH (String.length (str_drop w (String c s)))); [|done].
  pose proof (f_equal String.length (str_take_drop w (String c s))) as Hl.
  rewrite str_length_app in Hl. destruct w; [lia|]. cbn [str_take] in Hl. simpl in *. lia.
Qed.

(** ** ASCII strings *)

Lemma segments_ascii_cons c s :
  byte_val c < 128 → segments (String c s) = (byte_val c, String c "") :: segments s.
Proof.
  intros Hc. rewrite segments_cons. unfold DecodeRune. rewrite (proj2 (Z.ltb_lt _ _) Hc). by destruct s.
Qed.

Lemma runes_ascii_cons c s : byte_val c < 128 → runes (String c s) = byte_val c :: runes s.
Proof. intros Hc. unfold runes. by rewrite segments_ascii_cons. Qed.

(** Printable ASCII without the space. *)
Definition graphic (c : ascii) : bool := (0x21 <=? byte_val c) && (byte_val c <=? 0x7e).

Lemma graphic_segments s :
  str_forallb graphic s = true → Forall (λ seg, IsSpace seg.1 = false) (segments s).
Proof.
  induction s as [|c s IH]; [constructor|]. simpl. intros [Hc Hs]%andb_true_iff.
  unfold graphic in Hc. go_bool. rewrite segments_ascii_cons by lia.
  constructor; [|by apply IH]. cbn [fst]. unfold IsSpace. rewrite !orb_false_iff, !andb_false_iff. lia.
Qed.

Lemma drop_while_none {A} (p : A → bool) l : Forall (λ x, p x = false) l → drop_while p l = l.
Proof. intros [|x l' Hx _]; [done|]. simpl. by rewrite Hx. Qed.

Lemma TrimSpace_graphic s : str_forallb graphic s = true → TrimSpace s = s.
Proof.
  intros Hs%graphic_segments. unfold TrimSpace. rewrite (drop_while_none _ (segments s)) by done.
  rewrite drop_while_none by (by apply Forall_reverse). rewrite reverse_involutive. apply segments_concat.
Qed.

Lemma str_forallb_app p s1 s2 : str_forallb p (s1 +:+ s2) = str_forallb p s1 && str_forallb p s2.
Proof. induction s1 as [|c s1 IH]; [done|]. rewrite str_app_cons. simpl. by rewrite IH, andb_assoc. Qed.

Lemma str_forallb_impl (p q : ascii → bool) s :
  (∀ c, p c = true → q c = true) → str_forallb p s = true → str_forallb q s = true.
Proof.
  intros Hpq. induction s as [|c s IH]; [done|]. simpl. intros [Hc Hs]%andb_true_iff. by rewrite Hpq, IH.
Qed.

Lemma Split_forallb (p : ascii → bool) s sep :
  Forall (λ e, str_forallb p e = true) (Split s sep) → str_forallb (λ c, bool_decide (c = sep) || p c) s = true.
Proof.
  induction s as [|c s IH]; [done|]. cbn [Split str_forallb]. case_bool_decide as Hc.
  - intros [_ Hs]%list.Forall_cons. by rewrite IH.
  - destruct (Split s sep) as [|w ws].
    + intros [Hw _]%list.Forall_cons. simpl in Hw. rewrite andb_true_r in Hw. rewrite Hw. by apply IH.
    + intros [[Hw Hws]%andb_true_iff Hs]%list.Forall_cons. simpl. rewrite Hw. apply IH. by apply list.Forall_cons.
Qed.

Lemma suffix_position s t : (String.length (s +:+ t) - String.length t)%nat = String.length s.
Proof. rewrite str_length_app. lia. Qed.
Lemma HasSuffix_app s t : HasSuffix (s +:+ t) t = true.
Proof. unfold HasSuffix. rewrite suffix_position, str_drop_app. by apply bool_decide_true. Qed.
