(* ===== verification/Sha256.v ===== *)
(** * package crypto/sha256

    An executable SHA-256 over Go strings (FIPS 180-4), with 32-bit words kept as
    [Z] values below [2^32].  The components use it for request digests,
    idempotency keys, session keys and scopes; their theorems never assume it to
    be injective, they state injectivity of the hashed encodings instead. *)

From S2P Require Import Prelude GoStrings.
From stdpp Require Import options.

Open Scope Z_scope.

Definition w32 (x : Z) : Z := Z.land x 0xFFFFFFFF.
Definition add32 (x y : Z) : Z := w32 (x + y).
Definition rotr (n x : Z) : Z := Z.lor (Z.shiftr x n) (w32 (Z.shiftl x (32 - n))).
Definition lxor3 (a b c : Z) : Z := Z.lxor a (Z.lxor b c).

Definition sum0 (x : Z) : Z := lxor3 (rotr 2 x) (rotr 13 x) (rotr 22 x).
Definition sum1 (x : Z) : Z := lxor3 (rotr 6 x) (rotr 11 x) (rotr 25 x).
Definition sig0 (x : Z) : Z := lxor3 (rotr 7 x) (rotr 18 x) (Z.shiftr x 3).
Definition sig1 (x : Z) : Z := lxor3 (rotr 17 x) (rotr 19 x) (Z.shiftr x 10).
Definition choose (x y z : Z) : Z := Z.lxor (Z.land x y) (Z.land (Z.lxor x 0xFFFFFFFF) z).
Definition majority (x y z : Z) : Z := lxor3 (Z.land x y) (Z.land x z) (Z.land y z).

(** The constants are the first 32 bits of the fractional parts of the cube and
    square roots of the first primes; they are computed as integer roots. *)
Fixpoint is_composite (n : Z) (fuel : nat) (d : Z) : bool :=
  match fuel with
  | O => false
  | S fuel' => if n <? d * d then false else (n mod d =? 0) || is_composite n fuel' (d + 1)
  end.

Fixpoint first_primes (count fuel : nat) (n : Z) : list Z :=
  match count, fuel with
  | S count', S fuel' =>
      if is_composite n 20 2 then first_primes count fuel' (n + 1)
      else n :: first_primes count' fuel' (n + 1)
  | _, _ => []
  end.

(** The largest [r] below [2^bits] with [r^k <= n], one bit at a time. *)
Fixpoint int_root (k : Z) (bits : nat) (r n : Z) : Z :=
  match bits with
  | O => r
  | S bits' =>
      let r' := r + Z.shiftl 1 (Z.of_nat bits') in
      int_root k bits' (if r' ^ k <=? n then r' else r) n
  end.

Definition root_fraction (k p : Z) : Z := w32 (int_root k 40 0 (Z.shiftl p (32 * k))).

Definition round_constants : list Z :=
  Eval vm_compute in map (root_fraction 3) (first_primes 64 400 2).

Record chain := Chain { ca : Z; cb : Z; cc : Z; cd : Z; ce : Z; cf : Z; cg : Z; ch : Z }.

Definition initial_chain : chain :=
  Eval vm_compute in
  match map (root_fraction 2) (first_primes 8 400 2) with
  | [a; b; c; d; e; f; g; h] => Chain a b c d e f g h
  | _ => Chain 0 0 0 0 0 0 0 0
  end.

(** One block's message schedule, newest word first. *)
Fixpoint schedule (n : nat) (w : list Z) : list Z :=
  match n with
  | O => w
  | S n' =>
      let at_ i := nth i w 0 in
      schedule n' (w32 (sig1 (at_ 1%nat) + at_ 6%nat + sig0 (at_ 14%nat) + at_ 15%nat) :: w)
  end.

Definition round (h : chain) (kw : Z * Z) : chain :=
  let t1 := w32 (ch h + sum1 (ce h) + choose (ce h) (cf h) (cg h) + kw.1 + kw.2) in
  let t2 := w32 (sum0 (ca h) + majority (ca h) (cb h) (cc h)) in
  Chain (add32 t1 t2) (ca h) (cb h) (cc h) (add32 (cd h) t1) (ce h) (cf h) (cg h).

Definition compress (h : chain) (block : list Z) : chain :=
  let w := reverse (schedule 48 (reverse block)) in
  let h' := foldl round h (zip round_constants w) in
  Chain (add32 (ca h) (ca h')) (add32 (cb h) (cb h')) (add32 (cc h) (cc h')) (add32 (cd h) (cd h'))
        (add32 (ce h) (ce h')) (add32 (cf h) (cf h')) (add32 (cg h) (cg h')) (add32 (ch h) (ch h')).

Fixpoint bytes_of (s : string) : list Z :=
  match s with
  | EmptyString => []
  | String c s' => byte_val c :: bytes_of s'
  end.

Definition be_bytes (n : nat) (z : Z) : list Z :=
  map (λ i, Z.land (Z.shiftr z (8 * Z.of_nat i)) 0xFF) (reverse (seq 0 n)).

Definition padded (s : string) : list Z :=
  let n := slen s in
  bytes_of s ++ [0x80] ++ replicate (Z.to_nat ((55 - n) mod 64)) 0 ++ be_bytes 8 (8 * n).

Fixpoint words_of (l : list Z) : list Z :=
  match l with
  | a :: b :: c :: d :: l' =>
      Z.lor (Z.shiftl a 24) (Z.lor (Z.shiftl b 16) (Z.lor (Z.shiftl c 8) d)) :: words_of l'
  | _ => []
  end.

Fixpoint compress_all (fuel : nat) (h : chain) (w : list Z) : chain :=
  match fuel, w with
  | S fuel', _ :: _ => compress_all fuel' (compress h (take 16 w)) (drop 16 w)
  | _, _ => h
  end.

(** [sha256.Sum256]: the 32 digest bytes as a string.  One unit of fuel per
    word is more than the number of 16-word blocks. *)
Definition sha256 (s : string) : string :=
  let w := words_of (padded s) in
  let h := compress_all (length w) initial_chain w in
  str_of_bytes (be_bytes 4 (ca h) ++ be_bytes 4 (cb h) ++ be_bytes 4 (cc h) ++ be_bytes 4 (cd h) ++
                be_bytes 4 (ce h) ++ be_bytes 4 (cf h) ++ be_bytes 4 (cg h) ++ be_bytes 4 (ch h)).

(** [hex.EncodeToString(sum[:])] of a digest. *)
Definition sha256_hex (s : string) : string := hex_encode (sha256 s).

Example sha256_abc :
  sha256_hex "abc" = "ba7816bf8f01cfea414140de5dae2223b00361a396177a9cb410ff61f20015ad".
Proof. vm_compute. reflexivity. Qed.

Example sha256_two_blocks :
  sha256_hex "abcdbcdecdefdefgefghfghighijhijkijkljklmklmnlmnomnopnopq" =
  "248d6a61d20638b8e5c026930c3e6039a33ce45964ff2167f6ecedd419db06c1".
Proof. vm_compute. reflexivity. Qed.

Lemma length_str_of_bytes l : String.length (str_of_bytes l) = length l.
Proof. induction l; simpl; auto. Qed.

Lemma sha256_length s : String.length (sha256 s) = 32%nat.
Proof. unfold sha256. by rewrite length_str_of_bytes. Qed.

Lemma hex_encode_length s : String.length (hex_encode s) = (2 * String.length s)%nat.
Proof. induction s as [|c s IH]; simpl; [done|]. rewrite IH. lia. Qed.

Lemma sha256_hex_length s : String.length (sha256_hex s) = 64%nat.
Proof. unfold sha256_hex. by rewrite hex_encode_length, sha256_length. Qed.

Global Opaque sha256.
