(* ===== verification/Json.v ===== *)
(** * package encoding/json

    [json] is a parsed JSON document: number literals keep their text, objects
    keep the order and the duplicates of the input.  [marshal] is Go's compact
    encoder (HTML-safe escapes included), [parse] its decoder front end (the
    scanner, string unquoting, the nesting limit), and [unmarshal_any] the
    conversion to an interface value: the last duplicate of a key wins, keys are
    kept in the order [json.Marshal] writes map keys, numbers become float64s.
    Struct decoding is [decode_struct], driven by a table of fields. *)

From stdpp Require Import sorting.
From S2P Require Import Prelude GoStrings.
From stdpp Require Import options.

Open Scope Z_scope.

Inductive json : Type :=
  | JNull
  | JBool (b : bool)
  | JNum (lit : string)
  | JStr (s : string)
  | JArr (l : list json)
  | JObj (kvs : list (string * json)).

(** ** Encoding *)

Definition hex4 (z : Z) : string :=
  String (hex_digit (Z.land (Z.shiftr z 12) 0xF))
    (String (hex_digit (Z.land (Z.shiftr z 8) 0xF))
      (String (hex_digit (Z.land (Z.shiftr z 4) 0xF))
        (String (hex_digit (Z.land z 0xF)) EmptyString))).

(** The two-character escapes and [\u] escapes of [encoding/json]'s appendString
    (escapeHTML on). *)
Definition escape_segment (seg : Z * string) : string :=
  let '(r, bytes) := seg in
  if r =? 0x22 then "\" +:+ str_of_bytes [0x22]
  else if r =? 0x5C then "\\"
  else if r =? 8 then "\b" else if r =? 12 then "\f" else if r =? 10 then "\n"
  else if r =? 13 then "\r" else if r =? 9 then "\t"
  else if (r <? 0x20) || (r =? 0x3C) || (r =? 0x3E) || (r =? 0x26) then "\u" +:+ hex4 r
  else if (r =? 0x2028) || (r =? 0x2029) then "\u" +:+ hex4 r
  else if (r =? rune_error) && (slen bytes =? 1) then "\ufffd"
  else bytes.

Definition quote : string := str_of_bytes [0x22].

Definition marshal_string (s : string) : string :=
  quote +:+ concat_strings (map escape_segment (segments s)) +:+ quote.

(** [json.Marshal] (compact form) *)
Fixpoint marshal (j : json) : string :=
  match j with
  | JNull => "null"
  | JBool true => "true"
  | JBool false => "false"
  | JNum lit => lit
  | JStr s => marshal_string s
  | JArr l => "[" +:+ Join (map marshal l) "," +:+ "]"
  | JObj kvs =>
      "{" +:+ Join (map (λ kv, marshal_string kv.1 +:+ ":" +:+ marshal kv.2) kvs) "," +:+ "}"
  end.

(** ** Decoding: text to [json] *)

Definition is_ws (r : Z) : bool := (r =? 0x20) || (r =? 9) || (r =? 10) || (r =? 13).
Definition rune_digit (r : Z) : bool := (48 <=? r) && (r <=? 57).

Definition skip_ws (l : list Z) : list Z := drop_while is_ws l.

Definition hex_rune_val (r : Z) : option Z :=
  if rune_digit r then Some (r - 48)
  else if (97 <=? r) && (r <=? 102) then Some (r - 87)
  else if (65 <=? r) && (r <=? 70) then Some (r - 55)
  else None.

Definition hex4_val (a b c d : Z) : option Z :=
  a ← hex_rune_val a; b ← hex_rune_val b; c ← hex_rune_val c; d ← hex_rune_val d;
  Some (((a * 16 + b) * 16 + c) * 16 + d).

Definition is_high_surrogate (r : Z) : bool := (0xD800 <=? r) && (r <? 0xDC00).
Definition is_low_surrogate (r : Z) : bool := (0xDC00 <=? r) && (r <? 0xE000).

Definition simple_escape (r : Z) : option Z :=
  if (r =? 0x22) || (r =? 0x5C) || (r =? 0x2F) then Some r
  else if r =? 0x62 then Some 8 else if r =? 0x66 then Some 12
  else if r =? 0x6E then Some 10 else if r =? 0x72 then Some 13
  else if r =? 0x74 then Some 9 else None.

(** The characters of a string literal up to its closing quote.  [hi] holds a
    pending high surrogate, which becomes U+FFFD unless its low half follows. *)
Fixpoint parse_chars (l : list Z) (hi : option Z) (acc : list Z) : option (list Z * list Z) :=
  let flush := match hi with Some _ => rune_error :: acc | None => acc end in
  match l with
  | [] => None
  | 0x22 :: l' => Some (reverse flush, l')
  | 0x5C :: 0x75 :: a :: b :: c :: d :: l' =>
      match hex4_val a b c d with
      | None => None
      | Some v =>
          match hi with
          | Some h =>
              if is_low_surrogate v
              then parse_chars l' None ((h - 0xD800) * 1024 + (v - 0xDC00) + 0x10000 :: acc)
              else if is_high_surrogate v then parse_chars l' (Some v) (rune_error :: acc)
              else parse_chars l' None (v :: rune_error :: acc)
          | None =>
              if is_high_surrogate v then parse_chars l' (Some v) acc
              else if is_low_surrogate v then parse_chars l' None (rune_error :: acc)
              else parse_chars l' None (v :: acc)
          end
      end
  | 0x5C :: e :: l' =>
      match simple_escape e with
      | Some r => parse_chars l' None (r :: flush)
      | None => None
      end
  | r :: l' => if r <? 0x20 then None else parse_chars l' None (r :: flush)
  end.

Fixpoint take_digits (l : list Z) : list Z * list Z :=
  match l with
  | r :: l' => if rune_digit r then let '(ds, rest) := take_digits l' in (r :: ds, rest) else ([], l)
  | [] => ([], [])
  end.

Definition parse_int_part (l : list Z) : option (list Z * list Z) :=
  match l with
  | 0x30 :: l' => Some ([0x30], l')
  | _ => match take_digits l with ([], _) => None | r => Some r end
  end.

Definition parse_frac (l : list Z) : option (list Z * list Z) :=
  match l with
  | 0x2E :: l' => match take_digits l' with ([], _) => None | (ds, rest) => Some (0x2E :: ds, rest) end
  | _ => Some ([], l)
  end.

Definition parse_exp (l : list Z) : option (list Z * list Z) :=
  match l with
  | e :: l' =>
      if (e =? 0x65) || (e =? 0x45) then
        let '(sign, l'') :=
          match l' with
          | s :: l2 => if (s =? 0x2B) || (s =? 0x2D) then ([s], l2) else ([], l')
          | [] => ([], [])
          end in
        match take_digits l'' with
        | ([], _) => None
        | (ds, rest) => Some (e :: sign ++ ds, rest)
        end
      else Some ([], l)
  | [] => Some ([], [])
  end.

Definition parse_number (l : list Z) : option (string * list Z) :=
  let '(sign, l) := match l with 0x2D :: l' => ([0x2D], l') | _ => ([], l) end in
  '(i, l) ← parse_int_part l;
  '(f, l) ← parse_frac l;
  '(e, l) ← parse_exp l;
  Some (str_of_bytes (sign ++ i ++ f ++ e), l).

Definition max_nesting : Z := 10000.

(** One JSON value after optional white space.  Every recursive call consumes a
    rune, so the length of the input is enough fuel. *)
Fixpoint parse_value (fuel : nat) (depth : Z) (l : list Z) : option (json * list Z) :=
  match fuel with
  | O => None
  | S fuel' =>
      match skip_ws l with
      | 0x6E :: 0x75 :: 0x6C :: 0x6C :: l' => Some (JNull, l')
      | 0x74 :: 0x72 :: 0x75 :: 0x65 :: l' => Some (JBool true, l')
      | 0x66 :: 0x61 :: 0x6C :: 0x73 :: 0x65 :: l' => Some (JBool false, l')
      | 0x22 :: l' => '(s, rest) ← parse_chars l' None []; Some (JStr (string_of_runes s), rest)
      | 0x5B :: l' =>
          if max_nesting <=? depth then None
          else match skip_ws l' with
               | 0x5D :: rest => Some (JArr [], rest)
               | _ => '(es, rest) ← parse_elements fuel' (depth + 1) l'; Some (JArr es, rest)
               end
      | 0x7B :: l' =>
          if max_nesting <=? depth then None
          else match skip_ws l' with
               | 0x7D :: rest => Some (JObj [], rest)
               | _ => '(kvs, rest) ← parse_members fuel' (depth + 1) l'; Some (JObj kvs, rest)
               end
      | l' => '(lit, rest) ← parse_number l'; Some (JNum lit, rest)
      end
  end
with parse_elements (fuel : nat) (depth : Z) (l : list Z) : option (list json * list Z) :=
  match fuel with
  | O => None
  | S fuel' =>
      '(v, rest) ← parse_value fuel' depth l;
      match skip_ws rest with
      | 0x2C :: l' => '(vs, rest') ← parse_elements fuel' depth l'; Some (v :: vs, rest')
      | 0x5D :: l' => Some ([v], l')
      | _ => None
      end
  end
with parse_members (fuel : nat) (depth : Z) (l : list Z) : option (list (string * json) * list Z) :=
  match fuel with
  | O => None
  | S fuel' =>
      match skip_ws l with
      | 0x22 :: l' =>
          '(k, rest) ← parse_chars l' None [];
          match skip_ws rest with
          | 0x3A :: l2 =>
              '(v, rest2) ← parse_value fuel' depth l2;
              match skip_ws rest2 with
              | 0x2C :: l3 =>
                  '(kvs, rest3) ← parse_members fuel' depth l3;
                  Some ((string_of_runes k, v) :: kvs, rest3)
              | 0x7D :: l3 => Some ([(string_of_runes k, v)], l3)
              | _ => None
              end
          | _ => None
          end
      | _ => None
      end
  end.

(** The document of [json.Unmarshal], and of a [json.Decoder] whose second
    [Decode] must meet [io.EOF]: one value and nothing but white space after it. *)
Definition parse (s : string) : option json :=
  let l := runes s in
  '(v, rest) ← parse_value (S (S (length l))) 0 l;
  match skip_ws rest with [] => Some v | _ => None end.

(** ** Interface values *)

(** [strconv.ParseFloat] followed by the encoder's shortest formatting, on a JSON
    number literal; [None] when the value is out of range. *)
Class Float64 := f64_normal : string → option string.

(** Objects as Go maps: the last duplicate wins, keys in marshalling order. *)
Fixpoint dedup_last (kvs : list (string * json)) : list (string * json) :=
  match kvs with
  | [] => []
  | (k, v) :: r => if bool_decide (k ∈ r.*1) then dedup_last r else (k, v) :: dedup_last r
  end.

Definition key_le (a b : string * json) : Prop := String.le a.1 b.1.
#[export] Instance key_le_dec : RelDecision key_le.
Proof. intros a b. unfold key_le. apply _. Defined.

Definition go_map (kvs : list (string * json)) : list (string * json) :=
  merge_sort key_le (dedup_last kvs).

Section Any.
Context `{!Float64}.

(** [json.Unmarshal] into an [any]. *)
Fixpoint unmarshal_any (j : json) : option json :=
  match j with
  | JNull => Some JNull
  | JBool b => Some (JBool b)
  | JNum lit => JNum <$> f64_normal lit
  | JStr s => Some (JStr s)
  | JArr l =>
      JArr <$> (fix go (l : list json) : option (list json) :=
                  match l with
                  | [] => Some []
                  | x :: l' => y ← unmarshal_any x; ys ← go l'; Some (y :: ys)
                  end) l
  | JObj kvs =>
      (λ kvs', JObj (go_map kvs')) <$>
        (fix go (l : list (string * json)) : option (list (string * json)) :=
           match l with
           | [] => Some []
           | (k, x) :: l' => y ← unmarshal_any x; ys ← go l'; Some ((k, y) :: ys)
           end) kvs
  end.
End Any.

Definition assoc_get (kvs : list (string * json)) (k : string) : option json :=
  snd <$> find (λ kv, bool_decide (kv.1 = k)) kvs.

(** [m\[k\]] for an interface value that is a map; nil otherwise. *)
Definition obj_get (j : json) (k : string) : json :=
  match j with
  | JObj kvs => default JNull (assoc_get kvs k)
  | _ => JNull
  end.

(** [_, ok := m\[k\]] *)
Definition obj_has (j : json) (k : string) : bool :=
  match j with
  | JObj kvs => bool_decide (is_Some (assoc_get kvs k))
  | _ => false
  end.

Definition is_map (j : json) : bool := match j with JObj _ => true | _ => false end.

(** [text, _ := value.(string)] *)
Definition string_value (j : json) : string := match j with JStr s => s | _ => "" end.

(** ** Struct decoding *)

(** A field of the target struct: its JSON name and how a value is stored. *)
Definition field (R : Type) : Type := string * (json → R → option R).

Definition find_field {R} (fs : list (field R)) (key : string) : option (field R) :=
  match find (λ f, bool_decide (f.1 = key)) fs with
  | Some f => Some f
  | None => find (λ f, EqualFold key f.1) fs
  end.

Fixpoint decode_members {R} (strict : bool) (fs : list (field R)) (kvs : list (string * json)) (r : R)
    : option R :=
  match kvs with
  | [] => Some r
  | (k, v) :: kvs' =>
      match find_field fs k with
      | Some f => r' ← f.2 v r; decode_members strict fs kvs' r'
      | None => if strict then None else decode_members strict fs kvs' r
      end
  end.

(** [strict] is [Decoder.DisallowUnknownFields].  [null] leaves the struct as it is. *)
Definition decode_struct {R} (strict : bool) (fs : list (field R)) (zero : R) (j : json) : option R :=
  match j with
  | JObj kvs => decode_members strict fs kvs zero
  | JNull => Some zero
  | _ => None
  end.

Section Fields.
Context {R : Type} `{!Float64}.

Definition f_string (name : string) (set : string → R → R) : field R :=
  (name, λ j r, match j with JStr s => Some (set s r) | JNull => Some r | _ => None end).
Definition f_bool (name : string) (set : bool → R → R) : field R :=
  (name, λ j r, match j with JBool b => Some (set b r) | JNull => Some r | _ => None end).
Definition f_int (name : string) (set : Z → R → R) : field R :=
  (name, λ j r, match j with
                | JNum lit => v ← Atoi lit; Some (set v r)
                | JNull => Some r
                | _ => None
                end).
(** A [json.RawMessage]: the value as it stands, [null] included. *)
Definition f_raw (name : string) (set : option json → R → R) : field R :=
  (name, λ j r, Some (set (Some j) r)).
(** A [map\[string\]any]: a second occurrence of the field extends the first map. *)
Definition f_map (name : string) (get : R → option (list (string * json)))
    (set : option (list (string * json)) → R → R) : field R :=
  (name, λ j r, match j with
                | JNull => Some (set None r)
                | JObj _ =>
                    match unmarshal_any j with
                    | Some (JObj kvs) => Some (set (Some (go_map (default [] (get r) ++ kvs))) r)
                    | _ => None
                    end
                | _ => None
                end).
Definition f_any (name : string) (set : json → R → R) : field R :=
  (name, λ j r, v ← unmarshal_any j; Some (set v r)).
End Fields.

(** A [\[\]string] value: [null] elements keep the zero value. *)
Fixpoint string_elements (l : list json) : option (list string) :=
  match l with
  | [] => Some []
  | JStr s :: l' => (s ::.) <$> string_elements l'
  | JNull :: l' => ("" ::.) <$> string_elements l'
  | _ => None
  end.

Definition f_strings {R} (name : string) (set : list string → R → R) : field R :=
  (name, λ j r, match j with
                | JArr l => ss ← string_elements l; Some (set ss r)
                | JNull => Some (set [] r)
                | _ => None
                end).

(** A Go map literal as a JSON object. *)
Definition go_obj (kvs : list (string * json)) : json := JObj (go_map kvs).

(** The map of members with distinct keys has these members. *)
Lemma go_map_entries kvs : NoDup kvs.*1 → go_map kvs ≡ₚ kvs.
Proof.
  intros Hn. unfold go_map. rewrite (merge_sort_Permutation key_le). induction kvs as [|[k v] kvs IH]; [done|].
  cbn in Hn. apply list.NoDup_cons in Hn as [Hk Hn]. cbn [dedup_last]. rewrite bool_decide_false by done. by rewrite IH.
Qed.

(** ** Decoded fields

    What one field of a struct holds after decoding depends only on the members
    whose names match it, whatever the other fields are. *)
Definition fold_key (k : string) : list Z := map fold_ascii (runes k).

Lemma EqualFold_true k n : EqualFold k n = true ↔ fold_key k = fold_key n.
Proof. apply bool_decide_eq_true. Qed.

Lemma find_field_Some {R} (fs : list (field R)) k f :
  find_field fs k = Some f → f ∈ fs ∧ EqualFold k f.1 = true.
Proof.
  unfold find_field. destruct (find (λ f, bool_decide (f.1 = k)) fs) as [g|] eqn:Hg.
  - intros [= <-]. apply find_some in Hg as [Hin Hk%bool_decide_eq_true]. split; [by apply list_elem_of_In|]. rewrite Hk. by apply EqualFold_true.
  - intros [Hin Hk]%find_some. by split; [apply list_elem_of_In|].
Qed.

Lemma find_field_None {R} (fs : list (field R)) k : find_field fs k = None → ∀ f, f ∈ fs → EqualFold k f.1 = false.
Proof.
  unfold find_field. destruct (find (λ f, bool_decide (f.1 = k)) fs) as [g|] eqn:Hg; [done|].
  intros Hn f Hin. by apply (find_none _ _ Hn), list_elem_of_In.
Qed.

Lemma fold_keys_inj {R} (fs : list (field R)) f g :
  NoDup (map (λ f, fold_key f.1) fs) → f ∈ fs → g ∈ fs → fold_key f.1 = fold_key g.1 → f = g.
Proof.
  intros Hnd (i & Hi)%list_elem_of_lookup_1 (j & Hj)%list_elem_of_lookup_1 Heq.
  assert (i = j) as ->.
  { apply (NoDup_lookup _ i j (fold_key f.1) Hnd).
    - change (((λ f : field R, fold_key f.1) <$> fs) !! i = Some (fold_key f.1)). apply list_lookup_fmap_Some. eauto.
    - change (((λ f : field R, fold_key f.1) <$> fs) !! j = Some (fold_key f.1)). apply list_lookup_fmap_Some. eauto. }
  congruence.
Qed.

Section Decoded.
Context {R T : Type} (get : R → T) (name : string) (update : json → T → T).

Definition stores (f : field R) : Prop :=
  ∀ v r r', f.2 v r = Some r' → get r' = if bool_decide (f.1 = name) then update v (get r) else get r.

Lemma decode_members_get strict fs kvs r r' :
  NoDup (map (λ f, fold_key f.1) fs) → name ∈ map fst fs → Forall stores fs → decode_members strict fs kvs r = Some r' →
  get r' = foldl (λ t kv, if EqualFold kv.1 name then update kv.2 t else t) (get r) kvs.
Proof.
  intros Hnd Hin Hst. revert r. induction kvs as [|[k v] kvs IH]; intros r; simpl; [by intros [= ->]|].
  apply list_elem_of_fmap in Hin as (fn & Hfn & Hin).
  destruct (find_field fs k) as [f|] eqn:Hf.
  - apply find_field_Some in Hf as [Hf Hk]. destruct (f.2 v r) as [r1|] eqn:Hv; [|done]. intros Hd. cbn in Hd.
    rewrite (IH r1 Hd). f_equal. rewrite (proj1 (list.Forall_forall _ _) Hst f Hf v r r1 Hv). apply EqualFold_true in Hk.
    destruct (EqualFold k name) eqn:Hkn.
    + apply EqualFold_true in Hkn. rewrite bool_decide_eq_true_2; [done|].
      assert (f = fn) as ->; [|done]. apply (fold_keys_inj fs); [done..|]. rewrite <- Hfn. congruence.
    + rewrite bool_decide_eq_false_2; [done|]. intros He. rewrite He in Hk. apply EqualFold_true in Hk. congruence.
  - destruct strict; [done|]. intros Hd. rewrite (IH r Hd). f_equal.
    rewrite Hfn, (find_field_None _ _ Hf fn Hin). done.
Qed.
End Decoded.

Lemma decode_strict_known {R} (fs : list (field R)) kvs r r' :
  decode_members true fs kvs r = Some r' → Forall (λ kv, ∃ n, n ∈ map fst fs ∧ EqualFold kv.1 n = true) kvs.
Proof.
  revert r. induction kvs as [|[k v] kvs IH]; intros r; simpl; [constructor|].
  destruct (find_field fs k) as [f|] eqn:Hf; [|done]. apply find_field_Some in Hf as [Hin Hk].
  destruct (f.2 v r) as [r1|]; [|done]. intros Hd. constructor; [|by eapply IH].
  exists f.1. split; [|done]. by apply list_elem_of_fmap_2.
Qed.
