(* ===== verification/JsonRoundtrip.v ===== *)
(** * Encoding and decoding JSON are inverse

    [json.Marshal] and [json.MarshalIndent] write documents that
    [json.Unmarshal] reads back: the string escapes, the number literals, the
    separators and the white space of both layouts. *)

From stdpp Require Import pretty.
From S2P Require Import Prelude GoStrings Json.
From stdpp Require Import options.

Open Scope Z_scope.

(** ** Runes and strings *)

Lemma str_app_nil_l s : "" +:+ s = s.
Proof. done. Qed.

Lemma byte_of_eq z c : 0 <= z < 256 → z = byte_val c → byte_of z = c.
Proof. intros _ ->. apply byte_of_val. Qed.

(** Decoding a well-formed sequence and encoding the rune again gives its bytes. *)
Lemma Encode_DecodeRune c s r w :
  DecodeRune (String c s) = (r, w) → ¬ (r = rune_error ∧ w = 1%nat) → EncodeRune r = str_take w (String c s).
Proof.
  intros Hd Hv. pose proof (DecodeRune_scalar (String c s)) as Hs. rewrite Hd in Hs. simpl in Hs.
  unfold EncodeRune. rewrite Hs. pose proof (byte_val_range c).
  revert Hd Hv. decode_cases; intros [= <- <-] Hv; try (by destruct Hv); go_bool;
  repeat match goal with H : context [byte_val ?a] |- _ => lazymatch goal with
    | _ : 0 <= byte_val a < 256 |- _ => fail | _ => pose proof (byte_val_range a) end end;
  unfold encode_scalar;
  repeat match goal with
    | |- context [ (?a <? ?b) ] =>
        first [ rewrite (proj2 (Z.ltb_lt a b)) by (go_bool; repeat case_match; go_bool; lia)
              | rewrite (proj2 (Z.ltb_ge a b)) by (go_bool; repeat case_match; go_bool; lia) ]
    end; unfold str_of_bytes; simpl;
  repeat (f_equal; try (apply byte_of_eq; repeat case_match; go_bool; Z.to_euclidean_division_equations; lia)).
Qed.

Lemma string_of_runes_runes s : ValidString s = true → string_of_runes (runes s) = s.
Proof.
  unfold ValidString, runes. intros Hv. rewrite <-(segments_concat s) at 2.
  remember (String.length s) as n eqn:Hn. revert s Hn Hv.
  induction (lt_wf n) as [n _ IH]; intros [|c s] -> Hv; [done|].
  rewrite segments_cons in *. pose proof (DecodeRune_width c s) as Hw.
  destruct (DecodeRune (String c s)) as [r w] eqn:Hd. cbn [snd] in Hw.
  cbn [forallb] in Hv. apply andb_true_iff in Hv as [Hr Hv].
  cbn [fmap list_fmap fst snd string_of_runes concat_strings foldr]. f_equal.
  - eapply Encode_DecodeRune; [done|]. intros [-> ->]. by destruct s.
  - eapply (IH (String.length (str_drop w (String c s)))); [|done|done].
    pose proof (f_equal String.length (str_take_drop w (String c s))) as Hl.
    rewrite str_length_app in Hl. destruct w; [lia|]. cbn [str_take] in Hl. simpl in *. lia.
Qed.

Lemma valid_segments s : ValidString s = true → segments s = map (λ r, (r, EncodeRune r)) (runes s).
Proof.
  intros Hv. rewrite <-(string_of_runes_runes s Hv) at 1. pose proof (runes_scalar s) as Hs.
  induction Hs as [|r l Hr _ IH]; [done|]. cbn [string_of_runes foldr map].
  rewrite segments_Encode by done. by f_equal.
Qed.

(** Trimming a valid string works on its runes, and trimming twice is trimming once. *)
Definition trim (l : list Z) : list Z := reverse (drop_while IsSpace (reverse (drop_while IsSpace l))).

Lemma drop_while_map {A B} (p : B → bool) (f : A → B) l :
  drop_while p (map f l) = map f (drop_while (λ x, p (f x)) l).
Proof. induction l as [|x l IH]; [done|]. cbn. by destruct (p (f x)). Qed.

Lemma reverse_map {A B} (f : A → B) l : reverse (map f l) = map f (reverse l).
Proof. symmetry. apply (fmap_reverse f). Qed.

Lemma TrimSpace_valid s : ValidString s = true → TrimSpace s = string_of_runes (trim (runes s)).
Proof.
  intros Hv. unfold TrimSpace, trim. rewrite (valid_segments s Hv).
  rewrite drop_while_map, reverse_map, drop_while_map, reverse_map. cbn [fst].
  set (l := reverse _). clearbody l. induction l as [|r l IH]; [done|]. cbn. f_equal. apply IH.
Qed.

Lemma drop_while_suffix {A} (p : A → bool) l : drop_while p l `suffix_of` l.
Proof. induction l as [|x l IH]; [done|]. cbn. destruct (p x); [by apply suffix_cons_r|done]. Qed.

Lemma drop_while_head {A} (p : A → bool) l x l' : drop_while p l = x :: l' → p x = false.
Proof. induction l as [|y l IH]; [done|]. cbn. destruct (p y) eqn:Hy; [done|]. by intros [= <- <-]. Qed.

Lemma drop_while_idem {A} (p : A → bool) l : drop_while p (drop_while p l) = drop_while p l.
Proof. destruct (drop_while p l) as [|x l'] eqn:Hd; [done|]. cbn. by rewrite (drop_while_head _ _ _ _ Hd). Qed.

Lemma trim_idem l : trim (trim l) = trim l.
Proof.
  unfold trim at 1. assert (drop_while IsSpace (trim l) = trim l) as ->.
  - unfold trim. set (m := drop_while IsSpace l).
    destruct (drop_while_suffix IsSpace (reverse m)) as [k Hk].
    apply (f_equal reverse) in Hk. rewrite reverse_involutive, reverse_app in Hk.
    destruct (reverse (drop_while IsSpace (reverse m))) as [|x t] eqn:Ht; [done|].
    cbn. assert (IsSpace x = false) as ->; [|done]. eapply (drop_while_head IsSpace l x). exact Hk.
  - unfold trim. by rewrite reverse_involutive, drop_while_idem.
Qed.

Lemma trim_sublist l : trim l ⊆ l.
Proof.
  unfold trim. intros r Hr%elem_of_reverse. rewrite reverse_involutive in Hr.
  assert (∀ m : list Z, drop_while IsSpace m ⊆ m) as Hd.
  { intros m x Hx. destruct (drop_while_suffix IsSpace m) as [k ->]. set_solver. }
  apply Hd, elem_of_reverse in Hr. rewrite reverse_involutive in Hr. by apply Hd.
Qed.

Lemma string_of_runes_valid l : Forall (λ r, is_scalar r = true) l → ValidString (string_of_runes l) = true.
Proof.
  induction 1 as [|r l Hr _ IH]; [done|]. unfold ValidString in *. cbn [string_of_runes foldr].
  rewrite segments_Encode by done. cbn [forallb]. apply andb_true_iff. split; [|done].
  destruct (r =? rune_error) eqn:Hre; [|done]. go_bool. by subst.
Qed.

Lemma TrimSpace_ValidString s : ValidString s = true → ValidString (TrimSpace s) = true.
Proof.
  intros Hv. rewrite TrimSpace_valid by done. apply string_of_runes_valid.
  apply list.Forall_forall. intros r Hr%trim_sublist. by apply (proj1 (list.Forall_forall _ _) (runes_scalar s)).
Qed.

Lemma TrimSpace_idem s : ValidString s = true → TrimSpace (TrimSpace s) = TrimSpace s.
Proof.
  intros Hv. rewrite (TrimSpace_valid (TrimSpace s)) by by apply TrimSpace_ValidString.
  rewrite (TrimSpace_valid s) by done. rewrite runes_string_of_runes, trim_idem; [done|].
  apply list.Forall_forall. intros r Hr%trim_sublist. by apply (proj1 (list.Forall_forall _ _) (runes_scalar s)).
Qed.

Lemma graphic_valid s : str_forallb graphic s = true → ValidString s = true.
Proof.
  induction s as [|c s IH]; [done|]. cbn [str_forallb]. intros [Hc Hs]%andb_true_iff. unfold graphic in Hc. go_bool.
  unfold ValidString in *. rewrite segments_ascii_cons by lia. cbn [forallb]. rewrite IH by done.
  unfold rune_error. by rewrite (proj2 (Z.eqb_neq _ _)) by lia.
Qed.

Lemma runes_Encode_app r s : is_scalar r = true → runes (EncodeRune r +:+ s) = r :: runes s.
Proof. intros Hr. unfold runes. by rewrite segments_Encode. Qed.

(** An ASCII string in front. *)
Definition ascii_runes (s : string) : list Z := map byte_val (String.list_ascii_of_string s).
Lemma runes_ascii_app s t :
  str_forallb (λ c, byte_val c <? 128) s = true → runes (s +:+ t) = ascii_runes s ++ runes t.
Proof.
  induction s as [|c s IH]; [done|]. cbn [str_forallb]. intros [Hc Hs]%andb_true_iff. go_bool.
  rewrite str_app_cons, runes_ascii_cons by done. cbn. by rewrite IH.
Qed.

(** ** String literals *)

Definition escaped (r : Z) : bool :=
  (r =? 0x22) || (r =? 0x5C) || (r <? 0x20) || (r =? 0x3C) || (r =? 0x3E) || (r =? 0x26) ||
  (r =? 0x2028) || (r =? 0x2029).

(** The runes the encoder writes for a rune. *)
Definition esc (r : Z) : list Z :=
  if escaped r then ascii_runes (escape_segment (r, EncodeRune r)) else [r].

Lemma hex_digit_val z : 0 <= z < 16 → byte_val (hex_digit z) < 128 ∧ hex_rune_val (byte_val (hex_digit z)) = Some z.
Proof.
  intros Hz. unfold hex_digit. destruct (z <? 10) eqn:Hlt; go_bool; rewrite byte_val_of by lia; (split; [lia|]);
    unfold hex_rune_val, rune_digit.
  - rewrite (proj2 (andb_true_iff _ _)) by lia. f_equal. lia.
  - rewrite (proj2 (andb_false_iff (48 <=? _) _)) by lia. rewrite (proj2 (andb_true_iff _ _)) by lia. f_equal. lia.
Qed.

Lemma nibble a k : 0 <= k → Z.land (Z.shiftr a k) 0xF = (a / 2 ^ k) mod 16 ∧ 0 <= (a / 2 ^ k) mod 16 < 16.
Proof.
  intros Hk. change 0xF with (Z.ones 4). rewrite Z.land_ones, Z.shiftr_div_pow2 by lia. change (2 ^ 4) with 16.
  split; [done|]. by apply Z.mod_pos_bound.
Qed.

Lemma hex4_nibbles r : ∃ a b c d,
  hex4 r = String (hex_digit a) (String (hex_digit b) (String (hex_digit c) (String (hex_digit d) ""))) ∧
  0 <= a < 16 ∧ 0 <= b < 16 ∧ 0 <= c < 16 ∧ 0 <= d < 16 ∧
  (0 <= r < 65536 → ((a * 16 + b) * 16 + c) * 16 + d = r).
Proof.
  destruct (nibble r 12 ltac:(lia)) as [E1 B1], (nibble r 8 ltac:(lia)) as [E2 B2],
    (nibble r 4 ltac:(lia)) as [E3 B3], (nibble r 0 ltac:(lia)) as [E4 B4].
  rewrite Z.shiftr_0_r in E4.
  eexists _, _, _, _. unfold hex4. rewrite E1, E2, E3, E4. split_and!; try done; try lia.
  intros Hr. change (2 ^ 12) with 4096. change (2 ^ 8) with 256. change (2 ^ 4) with 16. change (2 ^ 0) with 1.
  Z.to_euclidean_division_equations. lia.
Qed.

Lemma hex4_ascii r : str_forallb (λ c, byte_val c <? 128) (hex4 r) = true.
Proof.
  destruct (hex4_nibbles r) as (a&b&c&d&->&Ha&Hb&Hc&Hd&_). cbn.
  by rewrite !(λ z H, proj2 (Z.ltb_lt _ _) (proj1 (hex_digit_val z H))).
Qed.

Lemma escape_ascii r :
  escaped r = true → str_forallb (λ c, byte_val c <? 128) (escape_segment (r, EncodeRune r)) = true.
Proof.
  intros He. unfold escape_segment, escaped in *.
  destruct (r =? 0x22); [done|]. destruct (r =? 0x5C); [done|]. cbn [orb] in He.
  repeat (case_match; [done|]).
  destruct ((r <? 0x20) || _ || _ || _) eqn:Hc; [by rewrite str_forallb_app, hex4_ascii|].
  simpl in He. destruct (_ || (r =? 0x2029)); [by rewrite str_forallb_app, hex4_ascii|done].
Qed.

Lemma runes_escape r t :
  is_scalar r = true → runes (escape_segment (r, EncodeRune r) +:+ t) = esc r ++ runes t.
Proof.
  intros Hr. unfold esc. destruct (escaped r) eqn:He; [by apply runes_ascii_app, escape_ascii|].
  transitivity (runes (EncodeRune r +:+ t)); [|by rewrite runes_Encode_app]. f_equal. f_equal. unfold escaped in He. go_bool.
  unfold escape_segment. repeat (rewrite (proj2 (Z.eqb_neq _ _)) by lia).
  rewrite (proj2 (Z.ltb_ge _ _)) by lia. simpl.
  destruct (r =? rune_error) eqn:Hre; [|done]. go_bool. by subst.
Qed.

Lemma runes_marshal_string s t :
  ValidString s = true →
  runes (marshal_string s +:+ t) = 0x22 :: concat (map esc (runes s)) ++ 0x22 :: runes t.
Proof.
  intros Hv. unfold marshal_string. rewrite (valid_segments s Hv), map_map, <-!str_app_assoc.
  change quote with (String (byte_of 0x22) ""). rewrite str_app_cons, runes_ascii_cons by done.
  change (byte_val (byte_of 0x22)) with 0x22. f_equal.
  rewrite str_app_nil_l. pose proof (runes_scalar s) as Hs. induction Hs as [|r l Hr _ IH]; cbn [map concat].
  - by rewrite str_app_nil_l, str_app_cons, runes_ascii_cons.
  - cbn [concat_strings foldr]. rewrite <-str_app_assoc, runes_escape, <-app_assoc by done. f_equal. apply IH.
Qed.

Lemma parse_chars_plain r l acc :
  0x20 <= r → r ≠ 0x22 → r ≠ 0x5C → parse_chars (r :: l) None acc = parse_chars l None (r :: acc).
Proof.
  intros H0 H1 H2. destruct r as [|p|p]; try lia.
  do 7 (destruct p as [p|p|]; try lia; try (cbn [parse_chars]; by rewrite (proj2 (Z.ltb_ge _ _)) by lia)).
Qed.

Lemma parse_chars_hex r l acc :
  0 <= r < 0xD800 →
  parse_chars (0x5C :: 0x75 :: ascii_runes (hex4 r) ++ l) None acc = parse_chars l None (r :: acc).
Proof.
  intros Hr. destruct (hex4_nibbles r) as (a&b&c&d&->&Ha&Hb&Hc&Hd&Hv). cbn [ascii_runes map String.list_ascii_of_string app].
  cbn [parse_chars]. unfold hex4_val. rewrite !(λ z H, proj2 (hex_digit_val z H)) by done. cbn [mbind option_bind].
  rewrite Hv by lia. unfold is_high_surrogate, is_low_surrogate.
  rewrite (proj2 (andb_false_iff (0xD800 <=? _) _)) by lia. by rewrite (proj2 (andb_false_iff (0xDC00 <=? _) _)) by lia.
Qed.

Lemma parse_chars_esc r l acc :
  is_scalar r = true → parse_chars (esc r ++ l) None acc = parse_chars l None (r :: acc).
Proof.
  intros Hr. unfold is_scalar in Hr. unfold esc. destruct (escaped r) eqn:He.
  2:{ unfold escaped in He. go_bool. apply parse_chars_plain; lia. }
  unfold escaped in He. unfold escape_segment.
  destruct (r =? 0x22) eqn:E1; [go_bool; by subst|]. destruct (r =? 0x5C) eqn:E2; [go_bool; by subst|].
  destruct (r =? 8) eqn:E3; [go_bool; by subst|]. destruct (r =? 12) eqn:E4; [go_bool; by subst|].
  destruct (r =? 10) eqn:E5; [go_bool; by subst|]. destruct (r =? 13) eqn:E6; [go_bool; by subst|].
  destruct (r =? 9) eqn:E7; [go_bool; by subst|].
  assert (0 <= r) by (go_bool; lia). cbn [orb] in He.
  destruct ((r <? 0x20) || _ || _ || _) eqn:Hc.
  - change (ascii_runes ("\u" +:+ hex4 r) ++ l) with (0x5C :: 0x75 :: ascii_runes (hex4 r) ++ l).
    apply parse_chars_hex. rewrite !orb_true_iff in Hc. lia.
  - cbn [orb] in He. rewrite He.
    change (ascii_runes ("\u" +:+ hex4 r) ++ l) with (0x5C :: 0x75 :: ascii_runes (hex4 r) ++ l).
    apply parse_chars_hex. rewrite !orb_true_iff in He. lia.
Qed.

Lemma parse_chars_string s l :
  ValidString s = true →
  parse_chars (concat (map esc (runes s)) ++ 0x22 :: l) None [] = Some (runes s, l).
Proof.
  intros Hv. pose proof (runes_scalar s) as Hs.
  assert (∀ acc, parse_chars (concat (map esc (runes s)) ++ 0x22 :: l) None acc = Some (reverse acc ++ runes s, l)) as Hg.
  { induction Hs as [|r rs Hr _ IH]; intros acc; cbn [map concat].
    - cbn. by rewrite app_nil_r.
    - rewrite <-app_assoc, parse_chars_esc by done. rewrite IH, reverse_cons, <-app_assoc. done. }
  apply (Hg []).
Qed.

(** ** Number literals *)

Definition int_literal (rs : list Z) : Prop :=
  ∃ sign ds, rs = sign ++ ds ∧ (sign = [] ∨ sign = [0x2D]) ∧
    (ds = [0x30] ∨ ∃ d ds', ds = d :: ds' ∧ d ≠ 0x30 ∧ Forall (λ r, rune_digit r = true) ds).

(** What follows a literal does not extend it. *)
Definition boundary (rest : list Z) : Prop :=
  match rest with
  | [] => True
  | r :: _ => rune_digit r = false ∧ r ≠ 0x2E ∧ r ≠ 0x65 ∧ r ≠ 0x45
  end.

Lemma take_digits_app ds rest :
  Forall (λ r, rune_digit r = true) ds → boundary rest → take_digits (ds ++ rest) = (ds, rest).
Proof.
  intros Hd Hb. induction Hd as [|r ds Hr _ IH]; simpl.
  - destruct rest as [|r rest]; [done|]. destruct Hb as [Hr _]. simpl. by rewrite Hr.
  - by rewrite Hr, IH.
Qed.

Lemma parse_frac_boundary rest : boundary rest → parse_frac rest = Some ([], rest).
Proof.
  destruct rest as [|r rest]; [done|]. intros (_ & Hr & _). unfold parse_frac.
  destruct r as [|p|p]; try done. do 6 (destruct p as [p|p|]; try done).
Qed.
Lemma parse_exp_boundary rest : boundary rest → parse_exp rest = Some ([], rest).
Proof.
  destruct rest as [|r rest]; [done|]. intros (_ & _ & H1 & H2). unfold parse_exp.
  rewrite (proj2 (Z.eqb_neq _ _) H1), (proj2 (Z.eqb_neq _ _) H2). done.
Qed.

Lemma parse_int_part_literal ds rest :
  (ds = [0x30] ∨ ∃ d ds', ds = d :: ds' ∧ d ≠ 0x30 ∧ Forall (λ r, rune_digit r = true) ds) →
  boundary rest → parse_int_part (ds ++ rest) = Some (ds, rest).
Proof.
  intros [->|(d & ds' & -> & Hne & Hds)] Hb; [done|].
  pose proof (take_digits_app _ _ Hds Hb) as Ht. unfold parse_int_part. cbn [app] in *. rewrite Ht.
  destruct d as [|p|p]; try done. do 6 (destruct p as [p|p|]; try done).
Qed.

Lemma literal_head rs : int_literal rs → ∃ r l, rs = r :: l ∧ (r = 0x2D ∨ rune_digit r = true).
Proof.
  intros (sign & ds & -> & [->| ->] & Hds); [|by eauto].
  destruct Hds as [->|(d & ds' & -> & _ & Hd)]; [eauto|]. apply list.Forall_cons in Hd as [? _]. eauto.
Qed.

Lemma parse_number_literal rs rest :
  int_literal rs → boundary rest → parse_number (rs ++ rest) = Some (str_of_bytes rs, rest).
Proof.
  intros (sign & ds & -> & Hsign & Hds) Hb.
  assert (∃ r l, ds = r :: l ∧ rune_digit r = true) as (r & l & Hrl & Hr).
  { destruct Hds as [->|(d & ds' & -> & _ & Hd)]; [by eauto|]. apply list.Forall_cons in Hd as [? _]. eauto. }
  pose proof (parse_int_part_literal ds rest Hds Hb) as Hi.
  assert (parse_number ((sign ++ ds) ++ rest) =
    ('(i, l) ← parse_int_part (ds ++ rest); '(f, l) ← parse_frac l; '(e, l) ← parse_exp l;
     Some (str_of_bytes (sign ++ i ++ f ++ e), l))) as ->.
  { destruct Hsign as [-> | ->]; [|done]. cbn [app]. rewrite Hrl. unfold parse_number. cbn [app].
    unfold rune_digit in Hr. go_bool. destruct r as [|p|p]; try lia. do 6 (destruct p as [p|p|]; try done; try lia). }
  rewrite Hi. cbn [mbind option_bind]. rewrite parse_frac_boundary by done. cbn [mbind option_bind].
  rewrite parse_exp_boundary by done. cbn [mbind option_bind]. by rewrite !app_nil_r.
Qed.

(** Decimal formatting writes an integer literal with the value it formats. *)
Lemma pretty_digit n : (n < 10)%N → pretty_N_char n = byte_of (48 + Z.of_N n).
Proof.
  intros Hn. assert (n = 0 ∨ n = 1 ∨ n = 2 ∨ n = 3 ∨ n = 4 ∨ n = 5 ∨ n = 6 ∨ n = 7 ∨ n = 8 ∨ n = 9)%N as H by lia.
  by destruct_or! H; subst.
Qed.

Lemma pretty_go_digits n : (0 < n)%N → ∀ s, ∃ d ds,
  pretty_N_go n s = str_of_bytes (d :: ds) +:+ s ∧ d ≠ 0x30 ∧ Forall (λ r, rune_digit r = true) (d :: ds) ∧
  ∀ t, digits_val 0 (str_of_bytes (d :: ds) +:+ t) = digits_val (Z.of_N n) t.
Proof.
  induction (N.lt_wf_0 n) as [n _ IH]. intros Hn s. rewrite pretty_N_go_step by done.
  assert (n `mod` 10 < 10)%N as Hm by by apply N.mod_lt.
  pose proof (N.div_mod n 10 ltac:(done)) as Hdm. set (q := (n `div` 10)%N) in *. set (m := (n `mod` 10)%N) in *.
  rewrite pretty_digit by done. assert (rune_digit (48 + Z.of_N m) = true) as Hd by (apply andb_true_iff; lia).
  assert (∀ acc, acc * 10 + (byte_val (byte_of (48 + Z.of_N m)) - 48) = acc * 10 + Z.of_N m) as Hb.
  { intros acc. rewrite byte_val_of by lia. lia. }
  destruct (decide (q = 0)%N) as [->|Hq].
  - exists (48 + Z.of_N m), []. split_and!; [done|lia|by repeat constructor|].
    intros t. cbn [str_of_bytes foldr]. rewrite str_app_cons, str_app_nil_l. cbn [digits_val]. rewrite Hb. f_equal. lia.
  - destruct (IH q ltac:(apply N.div_lt; lia) ltac:(lia) (String (byte_of (48 + Z.of_N m)) s)) as (d & ds & Hp & Hne & Hf & Hv).
    exists d, (ds ++ [48 + Z.of_N m]). rewrite Hp. change (d :: ds ++ [48 + Z.of_N m]) with ((d :: ds) ++ [48 + Z.of_N m]).
    rewrite str_of_bytes_app, <-str_app_assoc. split_and!; [done|done|by apply Forall_app; split; [|repeat constructor]|].
    intros t. rewrite <-str_app_assoc, Hv. cbn [str_of_bytes foldr]. rewrite str_app_cons, str_app_nil_l.
    cbn [digits_val]. rewrite Hb. f_equal. lia.
Qed.

Lemma digits_is_digit rs : Forall (λ r, rune_digit r = true) rs → str_forallb is_digit (str_of_bytes rs) = true.
Proof.
  induction 1 as [|r rs Hr _ IH]; [done|]. cbn [str_of_bytes foldr str_forallb]. unfold rune_digit in Hr. go_bool.
  unfold is_digit. rewrite byte_val_of by lia. apply andb_true_iff. split; [apply andb_true_iff; lia|exact IH].
Qed.

Lemma Itoa_literal z : 0 <= z → (∃ rs, Itoa z = str_of_bytes rs ∧ int_literal rs) ∧ parse_digits (Itoa z) = Some z.
Proof.
  intros Hz. unfold Itoa. destruct z as [|p|p]; [|clear Hz|lia].
  - split; [|done]. exists [0x30]. split; [done|]. exists [], [0x30]. auto.
  - change (pretty (Zpos p)) with (pretty_N_go (Npos p) "").
    destruct (pretty_go_digits (Npos p) ltac:(lia) "") as (d & ds & -> & Hne & Hf & Hv). rewrite str_app_nil_r.
    split.
    + exists (d :: ds). split; [done|]. exists [], (d :: ds). split_and!; [done|auto|right; eauto].
    + unfold parse_digits. rewrite digits_is_digit by done. specialize (Hv ""). rewrite str_app_nil_r in Hv.
      rewrite Hv. by cbn.
Qed.

(** ** Layouts

    [renders j l]: the runes [l] are a text of [j], with any white space between
    the tokens.  The closing bracket belongs to the list of elements or members. *)
Definition blank (l : list Z) : Prop := Forall (λ r, is_ws r = true) l.
Lemma blank_nil : blank [].
Proof. unfold blank. constructor. Qed.
Definition literal (s : string) : list Z := 0x22 :: concat (map esc (runes s)) ++ [0x22].

Inductive renders : json → list Z → Prop :=
  | R_null : renders JNull (ascii_runes "null")
  | R_true : renders (JBool true) (ascii_runes "true")
  | R_false : renders (JBool false) (ascii_runes "false")
  | R_num rs : int_literal rs → renders (JNum (str_of_bytes rs)) rs
  | R_str s : ValidString s = true → renders (JStr s) (literal s)
  | R_arr_nil : renders (JArr []) [0x5B; 0x5D]
  | R_arr es l : elements es l → renders (JArr es) (0x5B :: l)
  | R_obj_nil : renders (JObj []) [0x7B; 0x7D]
  | R_obj kvs l : members kvs l → renders (JObj kvs) (0x7B :: l)
with elements : list json → list Z → Prop :=
  | E_last v w1 lv w2 : blank w1 → renders v lv → blank w2 → elements [v] (w1 ++ lv ++ w2 ++ [0x5D])
  | E_cons v w1 lv w2 vs l :
      blank w1 → renders v lv → blank w2 → elements vs l → elements (v :: vs) (w1 ++ lv ++ w2 ++ 0x2C :: l)
with members : list (string * json) → list Z → Prop :=
  | M_last k v w1 w lv w2 :
      blank w1 → ValidString k = true → blank w → renders v lv → blank w2 →
      members [(k, v)] (w1 ++ literal k ++ 0x3A :: w ++ lv ++ w2 ++ [0x7D])
  | M_cons k v w1 w lv w2 kvs l :
      blank w1 → ValidString k = true → blank w → renders v lv → blank w2 → members kvs l →
      members ((k, v) :: kvs) (w1 ++ literal k ++ 0x3A :: w ++ lv ++ w2 ++ 0x2C :: l).

Scheme renders_mind := Induction for renders Sort Prop
  with elements_mind := Induction for elements Sort Prop
  with members_mind := Induction for members Sort Prop.
Combined Scheme layout_mutind from renders_mind, elements_mind, members_mind.

(** The depth of nested arrays and objects. *)
Fixpoint nesting (j : json) : Z :=
  match j with
  | JArr l => 1 + foldr Z.max 0 (map nesting l)
  | JObj kvs => 1 + foldr Z.max 0 (map (λ kv, nesting kv.2) kvs)
  | _ => 0
  end.

Lemma skip_blank w l : blank w → skip_ws (w ++ l) = skip_ws l.
Proof. induction 1 as [|r w Hr _ IH]; [done|]. unfold skip_ws in *. simpl. by rewrite Hr. Qed.

(** The head of a text: no white space, no closing bracket. *)
Definition token_head (r : Z) : Prop :=
  is_ws r = false ∧ r ≠ 0x5D ∧ r ≠ 0x7D.
Lemma renders_head j l : renders j l → ∃ r l', l = r :: l' ∧ token_head r.
Proof.
  destruct 1 as [| | |rs Hrs|s| | | |]; try (by eexists _, _).
  destruct (literal_head rs Hrs) as (r & l & -> & Hr). eexists _, _. split; [done|].
  unfold token_head, is_ws, rune_digit in *. destruct Hr as [->|Hr]; [done|]. go_bool.
  rewrite !orb_false_iff. lia.
Qed.

Lemma skip_head r l : is_ws r = false → skip_ws (r :: l) = r :: l.
Proof. intros Hr. unfold skip_ws. simpl. by rewrite Hr. Qed.

Lemma boundary_blank w r l : blank w → r = 0x2C ∨ r = 0x5D ∨ r = 0x7D → boundary (w ++ r :: l).
Proof.
  intros Hw Hr. destruct Hw as [|c w Hc _]; simpl.
  - unfold rune_digit. destruct Hr as [->|[->| ->]]; done.
  - unfold is_ws in Hc. unfold rune_digit. rewrite !orb_true_iff in Hc.
    split_and!; [|lia..]. apply andb_false_iff. lia.
Qed.

Lemma not_closing_arr {A} r l (f : list Z → A) g :
  r ≠ 0x5D → match r :: l with 0x5D :: rest => f rest | _ => g end = g.
Proof. intros H. destruct r as [|p|p]; try done. do 7 (destruct p as [p|p|]; try done). Qed.
Lemma not_closing_obj {A} r l (f : list Z → A) g :
  r ≠ 0x7D → match r :: l with 0x7D :: rest => f rest | _ => g end = g.
Proof. intros H. destruct r as [|p|p]; try done. do 7 (destruct p as [p|p|]; try done). Qed.

Lemma elements_head es l rest : elements es l → ∃ r l', skip_ws (l ++ rest) = r :: l' ∧ r ≠ 0x5D.
Proof.
  assert (∀ v w1 lv t, blank w1 → renders v lv → ∃ r l', skip_ws ((w1 ++ lv ++ t) ++ rest) = r :: l' ∧ r ≠ 0x5D) as Hg.
  { intros v w1 lv t Hw (r & l' & -> & Hr & Hne & _)%renders_head.
    rewrite <-app_assoc, skip_blank by done. cbn [app]. rewrite skip_head by done. eauto. }
  destruct 1; eauto.
Qed.
Lemma members_head kvs l rest : members kvs l → ∃ r l', skip_ws (l ++ rest) = r :: l' ∧ r ≠ 0x7D.
Proof.
  destruct 1; rewrite <-app_assoc, skip_blank by done; cbn [literal app]; rewrite skip_head by done; eauto.
Qed.

Lemma parse_value_number fuel d w rs rest :
  blank w → int_literal rs → boundary rest →
  parse_value (S fuel) d (w ++ rs ++ rest) = Some (JNum (str_of_bytes rs), rest).
Proof.
  intros Hw Hrs Hb. pose proof (parse_number_literal rs rest Hrs Hb) as Hp.
  destruct (literal_head rs Hrs) as (r & l & -> & Hr). cbn [app] in *.
  assert (is_ws r = false) as Hws.
  { unfold is_ws, rune_digit in *. destruct Hr as [->|Hr]; [done|]. go_bool. rewrite !orb_false_iff. lia. }
  cbn [parse_value]. rewrite skip_blank, skip_head by done.
  assert (0x2D <= r <= 0x39) as Hrange by (unfold rune_digit in Hr; destruct Hr as [->|Hr]; go_bool; lia).
  transitivity ('(lit, rest) ← parse_number (r :: l ++ rest); Some (JNum lit, rest)).
  - destruct r as [|p|p]; try lia. do 6 (destruct p as [p|p|]; try done; try lia).
  - by rewrite Hp.
Qed.

Lemma max_le_inv a b d : d + Z.max a b <= max_nesting → d + a <= max_nesting ∧ d + b <= max_nesting.
Proof. lia. Qed.
Lemma foldr_max_nonneg {A} (f : A → Z) l : 0 <= foldr Z.max 0 (map f l).
Proof. induction l; simpl; lia. Qed.

(** What the parser does at the head of an array, of an object and of a member. *)
Lemma parse_open_arr fuel d w es l rest :
  blank w → elements es l → d < max_nesting →
  parse_value (S fuel) d (w ++ (0x5B :: l) ++ rest) =
    ('(es, rest) ← parse_elements fuel (d + 1) (l ++ rest); Some (JArr es, rest)).
Proof.
  intros Hw He Hd. cbn [parse_value]. rewrite skip_blank by done. cbn [app]. rewrite skip_head by done.
  rewrite (proj2 (Z.leb_gt _ _)) by done. destruct (elements_head es l rest He) as (r & l' & -> & Hr).
  by apply (not_closing_arr r l' (λ rest, Some (JArr [], rest))).
Qed.
Lemma parse_open_obj fuel d w kvs l rest :
  blank w → members kvs l → d < max_nesting →
  parse_value (S fuel) d (w ++ (0x7B :: l) ++ rest) =
    ('(kvs, rest) ← parse_members fuel (d + 1) (l ++ rest); Some (JObj kvs, rest)).
Proof.
  intros Hw He Hd. cbn [parse_value]. rewrite skip_blank by done. cbn [app]. rewrite skip_head by done.
  rewrite (proj2 (Z.leb_gt _ _)) by done. destruct (members_head kvs l rest He) as (r & l' & -> & Hr).
  by apply (not_closing_obj r l' (λ rest, Some (JObj [], rest))).
Qed.
Lemma parse_member_head fuel d w k t :
  blank w → ValidString k = true →
  parse_members (S fuel) d (w ++ literal k ++ 0x3A :: t) =
    ('(v, rest2) ← parse_value fuel d t;
     match skip_ws rest2 with
     | 0x2C :: l3 => '(kvs, rest3) ← parse_members fuel d l3; Some ((k, v) :: kvs, rest3)
     | 0x7D :: l3 => Some ([(k, v)], l3)
     | _ => None
     end).
Proof.
  intros Hw Hk. cbn [parse_members]. rewrite skip_blank by done. unfold literal. cbn [app]. rewrite skip_head by done.
  rewrite <-app_assoc. cbn [app]. rewrite parse_chars_string by done. cbn [mbind option_bind].
  rewrite skip_head by done. by rewrite string_of_runes_runes.
Qed.

(** Every layout of an encodable document parses to it, whatever follows. *)
Lemma layout_parse :
  (∀ j l, renders j l → ∀ fuel d w rest, blank w → (length l < fuel)%nat → d + nesting j <= max_nesting →
     boundary rest → parse_value fuel d (w ++ l ++ rest) = Some (j, rest)) ∧
  (∀ es l, elements es l → ∀ fuel d rest, (length l < fuel)%nat →
     d + foldr Z.max 0 (map nesting es) <= max_nesting → parse_elements fuel d (l ++ rest) = Some (es, rest)) ∧
  (∀ kvs l, members kvs l → ∀ fuel d rest, (length l < fuel)%nat →
     d + foldr Z.max 0 (map (λ kv, nesting kv.2) kvs) <= max_nesting → parse_members fuel d (l ++ rest) = Some (kvs, rest)).
Proof.
  apply layout_mutind.
  1-3: intros [|fuel] d w rest Hw Hf Hd Hb; [lia|]; cbn [parse_value]; by rewrite skip_blank.
  - intros rs Hrs [|fuel] d w rest Hw Hf Hd Hb; [lia|]. by apply parse_value_number.
  - intros s Hs [|fuel] d w rest Hw Hf Hd Hb; [lia|]. cbn [parse_value]. rewrite skip_blank by done.
    unfold literal. cbn [app]. rewrite skip_head by done. rewrite <-app_assoc. cbn [app].
    rewrite parse_chars_string by done. cbn [mbind option_bind]. by rewrite string_of_runes_runes.
  - intros [|fuel] d w rest Hw Hf Hd Hb; [lia|]. cbn [parse_value]. rewrite skip_blank by done. cbn [app].
    rewrite skip_head by done. cbn in Hd. by rewrite (proj2 (Z.leb_gt _ _)) by lia.
  - intros es l He IH [|fuel] d w rest Hw Hf Hd Hb; [lia|]. cbn [nesting] in Hd.
    pose proof (foldr_max_nonneg nesting es). rewrite (parse_open_arr _ _ _ es) by (done || lia).
    rewrite IH; [done|simpl in Hf; lia|lia].
  - intros [|fuel] d w rest Hw Hf Hd Hb; [lia|]. cbn [parse_value]. rewrite skip_blank by done. cbn [app].
    rewrite skip_head by done. cbn in Hd. by rewrite (proj2 (Z.leb_gt _ _)) by lia.
  - intros kvs l He IH [|fuel] d w rest Hw Hf Hd Hb; [lia|]. cbn [nesting] in Hd.
    pose proof (foldr_max_nonneg (λ kv : string * json, nesting kv.2) kvs).
    rewrite (parse_open_obj _ _ _ kvs) by (done || lia). rewrite IH; [done|simpl in Hf; lia|lia].
  - intros v w1 lv w2 Hw1 Hv IH Hw2 [|fuel] d rest Hf Hd; [lia|]. rewrite !length_app in Hf. simpl in Hf.
    cbn [parse_elements map foldr] in *. rewrite <-!app_assoc.
    rewrite IH; [|done|lia|lia|by apply boundary_blank; auto]. cbn [mbind option_bind]. by rewrite skip_blank.
  - intros v w1 lv w2 vs l Hw1 Hv IH Hw2 Hes IHes [|fuel] d rest Hf Hd; [lia|]. rewrite !length_app in Hf. simpl in Hf.
    cbn [parse_elements map foldr] in *. apply max_le_inv in Hd as [Hd1 Hd2]. rewrite <-!app_assoc. cbn [app].
    rewrite IH; [|done|lia|done|by apply boundary_blank; auto].
    cbn [mbind option_bind]. rewrite skip_blank, skip_head by done. rewrite IHes; [done|lia|done].
  - intros k v w1 w lv w2 Hw1 Hk Hw Hv IH Hw2 [|fuel] d rest Hf Hd; [lia|].
    rewrite !length_app in Hf. simpl in Hf. rewrite !length_app in Hf. cbn [map foldr snd] in Hd.
    rewrite <-!app_assoc. cbn [app]. rewrite <-!app_assoc, parse_member_head by done.
    rewrite IH; [|done|lia|lia|by apply boundary_blank; auto]. cbn [mbind option_bind]. by rewrite skip_blank.
  - intros k v w1 w lv w2 kvs l Hw1 Hk Hw Hv IH Hw2 Hm IHm [|fuel] d rest Hf Hd; [lia|].
    rewrite !length_app in Hf. simpl in Hf. rewrite !length_app in Hf. simpl in Hf.
    cbn [map foldr snd] in Hd. apply max_le_inv in Hd as [Hd1 Hd2].
    rewrite <-!app_assoc. cbn [app]. rewrite <-!app_assoc, parse_member_head by done. cbn [app].
    rewrite IH; [|done|lia|done|by apply boundary_blank; auto].
    cbn [mbind option_bind]. rewrite skip_blank, skip_head by done. rewrite IHm; [done|lia|done].
Qed.

(** ** The two encoders *)

(** [json.MarshalIndent(v, "", "  ")] *)
Definition line (depth : nat) : string := String "010" (String.concat "" (replicate depth "  ")).
Fixpoint marshal_indent_at (depth : nat) (j : json) : string :=
  match j with
  | JArr [] => "[]"
  | JArr l =>
      "[" +:+ line (S depth) +:+ Join (map (marshal_indent_at (S depth)) l) ("," +:+ line (S depth)) +:+
      line depth +:+ "]"
  | JObj [] => "{}"
  | JObj kvs =>
      "{" +:+ line (S depth) +:+
      Join (map (λ kv, marshal_string kv.1 +:+ ": " +:+ marshal_indent_at (S depth) kv.2) kvs) ("," +:+ line (S depth)) +:+
      line depth +:+ "}"
  | _ => marshal j
  end.
Definition MarshalIndent (j : json) : string := marshal_indent_at 0 j.

(** The documents the sources encode: valid strings and integer numbers. *)
Inductive encodable : json → Prop :=
  | En_null : encodable JNull
  | En_bool b : encodable (JBool b)
  | En_num rs : int_literal rs → encodable (JNum (str_of_bytes rs))
  | En_str s : ValidString s = true → encodable (JStr s)
  | En_arr l : Forall encodable l → encodable (JArr l)
  | En_obj kvs : Forall (λ kv, ValidString kv.1 = true ∧ encodable kv.2) kvs → encodable (JObj kvs).

Section EncodableInd.
Context (P : json → Prop).
Context (Hnull : P JNull) (Hbool : ∀ b, P (JBool b)) (Hnum : ∀ rs, int_literal rs → P (JNum (str_of_bytes rs))).
Context (Hstr : ∀ s, ValidString s = true → P (JStr s)).
Context (Harr : ∀ l, Forall P l → P (JArr l)).
Context (Hobj : ∀ kvs, Forall (λ kv, ValidString kv.1 = true ∧ P kv.2) kvs → P (JObj kvs)).

Fixpoint encodable_ind' (j : json) (H : encodable j) {struct H} : P j :=
  match H in encodable j return P j with
  | En_null => Hnull
  | En_bool b => Hbool b
  | En_num rs H => Hnum rs H
  | En_str s H => Hstr s H
  | En_arr l H =>
      Harr l ((fix go l (H : Forall encodable l) : Forall P l :=
        match H in Forall _ l return Forall P l with
        | Forall_nil _ => Forall_nil _
        | Forall_cons _ x l Hx Hl => Forall_cons _ x l (encodable_ind' x Hx) (go l Hl)
        end) l H)
  | En_obj kvs H =>
      Hobj kvs ((fix go l (H : Forall (λ kv : string * json, ValidString kv.1 = true ∧ encodable kv.2) l)
                   : Forall (λ kv : string * json, ValidString kv.1 = true ∧ P kv.2) l :=
        match H in Forall _ l return Forall (λ kv : string * json, ValidString kv.1 = true ∧ P kv.2) l with
        | Forall_nil _ => Forall_nil _
        | Forall_cons _ x l Hx Hl =>
            Forall_cons _ x l (match Hx with conj Hk Hv => conj Hk (encodable_ind' x.2 Hv) end) (go l Hl)
        end) kvs H)
  end.
End EncodableInd.

(** [text] is a layout of [j], also in front of other text. *)
Definition lays_out (text : string) (j : json) : Prop :=
  ∃ l, renders j l ∧ ∀ t, runes (text +:+ t) = l ++ runes t.

Definition ascii_text (s : string) : bool := str_forallb (λ c, byte_val c <? 128) s.

Lemma str_of_bytes_runes rs t :
  Forall (λ r, 0 <= r < 128) rs → runes (str_of_bytes rs +:+ t) = rs ++ runes t.
Proof.
  induction 1 as [|r rs Hr _ IH]; [done|]. cbn [str_of_bytes foldr]. rewrite str_app_cons.
  rewrite runes_ascii_cons by (rewrite byte_val_of; lia). rewrite byte_val_of by lia. cbn. f_equal. apply IH.
Qed.

Lemma literal_ascii rs : int_literal rs → Forall (λ r, 0 <= r < 128) rs.
Proof.
  intros (sign & ds & -> & Hs & Hds). apply Forall_app. split.
  - destruct Hs as [->| ->]; repeat constructor; lia.
  - destruct Hds as [->|(_ & _ & _ & _ & Hd)]; [repeat constructor; lia|].
    apply (list.Forall_impl _ _ _ Hd). intros r Hr. unfold rune_digit in Hr. go_bool. lia.
Qed.

Lemma lays_out_string s : ValidString s = true → ∀ t, runes (marshal_string s +:+ t) = literal s ++ runes t.
Proof. intros Hs t. rewrite runes_marshal_string by done. unfold literal. cbn. by rewrite <-app_assoc. Qed.

(** The elements and the members, joined by a separator of a comma and blanks. *)
Lemma join_elements (f : json → string) w0 w1 (sep close : string) l :
  blank w0 → blank w1 →
  (∀ t, runes (sep +:+ t) = 0x2C :: w0 ++ runes t) → (∀ t, runes (close +:+ t) = w1 ++ 0x5D :: runes t) →
  l ≠ [] → Forall (λ j, lays_out (f j) j) l →
  ∃ r, elements l (w0 ++ r) ∧ ∀ t, runes (Join (map f l) sep +:+ close +:+ t) = r ++ runes t.
Proof.
  intros Hw0 Hw1 Hsep Hclose Hne Hl. induction Hl as [|j l (lj & Hr & Hj) Hl IH]; [done|].
  destruct l as [|j' l].
  - exists (lj ++ w1 ++ [0x5D]). split; [by apply E_last|]. intros t. cbn [map Join].
    rewrite Hj, Hclose, <-!app_assoc. done.
  - destruct (IH ltac:(done)) as (r & Hes & Ht). exists (lj ++ 0x2C :: w0 ++ r). split.
    + apply (E_cons j w0 lj [] (j' :: l)); try done. apply blank_nil.
    + intros t. change (Join (map f (j :: j' :: l)) sep) with (f j +:+ sep +:+ Join (map f (j' :: l)) sep).
      rewrite <-!str_app_assoc, Hj, Hsep, Ht, <-!app_assoc. cbn. by rewrite <-!app_assoc.
Qed.
Lemma join_members (f : json → string) w0 w1 wc (colon sep close : string) kvs :
  blank w0 → blank w1 → blank wc →
  (∀ t, runes (colon +:+ t) = 0x3A :: wc ++ runes t) →
  (∀ t, runes (sep +:+ t) = 0x2C :: w0 ++ runes t) → (∀ t, runes (close +:+ t) = w1 ++ 0x7D :: runes t) →
  kvs ≠ [] → Forall (λ kv, ValidString kv.1 = true ∧ lays_out (f kv.2) kv.2) kvs →
  ∃ r, members kvs (w0 ++ r) ∧
    ∀ t, runes (Join (map (λ kv, marshal_string kv.1 +:+ colon +:+ f kv.2) kvs) sep +:+ close +:+ t) = r ++ runes t.
Proof.
  intros Hw0 Hw1 Hwc Hcolon Hsep Hclose Hne Hl. induction Hl as [|[k j] l [Hk (lj & Hr & Hj)] Hl IH]; [done|].
  cbn [fst snd] in *. destruct l as [|kv' l].
  - exists (literal k ++ 0x3A :: wc ++ lj ++ w1 ++ [0x7D]). split; [by apply M_last|]. intros t. cbn [map Join fst snd].
    rewrite <-!str_app_assoc, lays_out_string, Hcolon, Hj, Hclose by done. rewrite <-!app_assoc. cbn. by rewrite <-!app_assoc.
  - destruct (IH ltac:(done)) as (r & Hes & Ht). exists (literal k ++ 0x3A :: wc ++ lj ++ 0x2C :: w0 ++ r). split.
    + apply (M_cons k j w0 wc lj [] (kv' :: l)); try done. apply blank_nil.
    + intros t. set (g := λ kv : string * json, marshal_string kv.1 +:+ colon +:+ f kv.2) in *.
      change (Join (map g ((k, j) :: kv' :: l)) sep) with (g (k, j) +:+ sep +:+ Join (map g (kv' :: l)) sep).
      unfold g at 1. cbn [fst snd].
      rewrite <-!str_app_assoc, lays_out_string, Hcolon, Hj, Hsep, Ht by done.
      rewrite <-!app_assoc. cbn. rewrite <-!app_assoc. cbn. by rewrite <-!app_assoc.
Qed.

Lemma lays_out_ascii text j : ascii_text text = true → renders j (ascii_runes text) → lays_out text j.
Proof. intros Ht Hr. exists (ascii_runes text). split; [done|]. intros t. by apply runes_ascii_app. Qed.

Lemma lays_out_num rs : int_literal rs → lays_out (str_of_bytes rs) (JNum (str_of_bytes rs)).
Proof. intros Hr. exists rs. split; [by apply R_num|]. intros t. by apply str_of_bytes_runes, literal_ascii. Qed.

(** An array or an object from the layout of its members. *)
Lemma lays_out_arr w0 (opening body : string) l r :
  (∀ t, runes (opening +:+ t) = 0x5B :: w0 ++ runes t) →
  elements l (w0 ++ r) → (∀ t, runes (body +:+ t) = r ++ runes t) → lays_out (opening +:+ body) (JArr l).
Proof.
  intros Ho He Hb. exists (0x5B :: w0 ++ r). split; [by apply R_arr|]. intros t.
  rewrite <-str_app_assoc, Ho, Hb. cbn. by rewrite <-app_assoc.
Qed.
Lemma lays_out_obj w0 (opening body : string) kvs r :
  (∀ t, runes (opening +:+ t) = 0x7B :: w0 ++ runes t) →
  members kvs (w0 ++ r) → (∀ t, runes (body +:+ t) = r ++ runes t) → lays_out (opening +:+ body) (JObj kvs).
Proof.
  intros Ho He Hb. exists (0x7B :: w0 ++ r). split; [by apply R_obj|]. intros t.
  rewrite <-str_app_assoc, Ho, Hb. cbn. by rewrite <-app_assoc.
Qed.

Lemma marshal_lays_out j : encodable j → lays_out (marshal j) j.
Proof.
  intros Hj. induction Hj as [|b|rs Hrs|s Hs|l Hl|kvs Hkvs] using encodable_ind'.
  - apply lays_out_ascii; [done|constructor].
  - destruct b; apply lays_out_ascii; try done; constructor.
  - by apply lays_out_num.
  - exists (literal s). split; [by apply R_str|by apply lays_out_string].
  - destruct l as [|x l]; [apply lays_out_ascii; [done|constructor]|].
    destruct (join_elements marshal [] [] "," "]" (x :: l)) as (r & He & Ht); try done; try apply blank_nil.
    eapply (lays_out_arr []); [done|exact He|]. intros t. rewrite <-str_app_assoc. apply Ht.
  - destruct kvs as [|x l]; [apply lays_out_ascii; [done|constructor]|].
    destruct (join_members marshal [] [] [] ":" "," "}" (x :: l)) as (r & He & Ht); try done; try apply blank_nil.
    eapply (lays_out_obj []); [done|exact He|]. intros t. rewrite <-str_app_assoc. apply Ht.
Qed.

Lemma line_blank d : ∃ w, blank w ∧ ∀ t, runes (line d +:+ t) = w ++ runes t.
Proof.
  assert (∃ w, blank w ∧ ∀ t, runes (String.concat "" (replicate d "  ") +:+ t) = w ++ runes t) as (w & Hw & Ht).
  { induction d as [|d (w & Hw & Ht)]; [exists []; split; [apply blank_nil|done]|].
    exists (0x20 :: 0x20 :: w). split; [repeat constructor; done|]. intros t.
    assert (String.concat "" (replicate (S d) "  ") = "  " +:+ String.concat "" (replicate d "  ")) as ->.
    { simpl. destruct (replicate d "  "); [done|]. done. }
    rewrite <-str_app_assoc, runes_ascii_app, Ht by done. done. }
  exists (0x0A :: w). split; [by constructor|]. intros t. unfold line.
  rewrite str_app_cons, runes_ascii_cons, Ht by done. done.
Qed.

Lemma marshal_indent_lays_out j : encodable j → ∀ d, lays_out (marshal_indent_at d j) j.
Proof.
  intros Hj. induction Hj as [|b|rs Hrs|s Hs|l Hl|kvs Hkvs] using encodable_ind'; intros d.
  1-4: apply marshal_lays_out; by constructor.
  - destruct l as [|x l]; [apply lays_out_ascii; [done|constructor]|].
    destruct (line_blank (S d)) as (w0 & Hw0 & Hl0), (line_blank d) as (w1 & Hw1 & Hl1).
    destruct (join_elements (marshal_indent_at (S d)) w0 w1 ("," +:+ line (S d)) (line d +:+ "]") (x :: l))
      as (r & He & Ht); try done.
    { intros t. rewrite <-str_app_assoc, runes_ascii_app, Hl0 by done. done. }
    { intros t. rewrite <-str_app_assoc, Hl1, runes_ascii_app by done. done. }
    { apply (list.Forall_impl _ _ _ Hl). intros y Hy. apply Hy. }
    cbn [marshal_indent_at]. rewrite str_app_assoc. eapply (lays_out_arr w0); [|exact He|].
    + intros t. rewrite <-str_app_assoc, runes_ascii_app, Hl0 by done. done.
    + intros t. rewrite <-str_app_assoc. apply Ht.
  - destruct kvs as [|x l]; [apply lays_out_ascii; [done|constructor]|].
    destruct (line_blank (S d)) as (w0 & Hw0 & Hl0), (line_blank d) as (w1 & Hw1 & Hl1).
    destruct (join_members (marshal_indent_at (S d)) w0 w1 [0x20] ": " ("," +:+ line (S d)) (line d +:+ "}") (x :: l))
      as (r & He & Ht); try done.
    { by repeat constructor. }
    { intros t. rewrite <-str_app_assoc, runes_ascii_app, Hl0 by done. done. }
    { intros t. rewrite <-str_app_assoc, Hl1, runes_ascii_app by done. done. }
    { apply (list.Forall_impl _ _ _ Hkvs). intros y [Hk Hy]. split; [done|apply Hy]. }
    cbn [marshal_indent_at]. rewrite str_app_assoc. eapply (lays_out_obj w0); [|exact He|].
    + intros t. rewrite <-str_app_assoc, runes_ascii_app, Hl0 by done. done.
    + intros t. rewrite <-str_app_assoc. apply Ht.
Qed.

Lemma lays_out_parse text j : lays_out text j → nesting j <= max_nesting → parse text = Some j.
Proof.
  intros (l & Hr & Ht) Hn. specialize (Ht ""). rewrite str_app_nil_r, app_nil_r in Ht. unfold parse. rewrite Ht.
  destruct layout_parse as [Hp _]. specialize (Hp j l Hr (S (S (length l))) 0 [] []).
  cbn [app] in Hp. rewrite app_nil_r in Hp. rewrite Hp; [done|apply blank_nil|lia|done|done].
Qed.

Lemma MarshalIndent_parse j : encodable j → nesting j <= max_nesting → parse (MarshalIndent j) = Some j.
Proof. intros He. by apply lays_out_parse, marshal_indent_lays_out. Qed.
Lemma marshal_parse j : encodable j → nesting j <= max_nesting → parse (marshal j) = Some j.
Proof. intros He. by apply lays_out_parse, marshal_lays_out. Qed.
