(* ===== verification/ProviderOutput.v ===== *)
(** * Bounded provider output

    pkg/adapters/provideroutput/output.go ([Tail], [LimitedBuffer], [LimitError],
    [BoundedText]), internal/agentnode/adapter_output.go ([limitedOutputBuffer],
    [adapterOutputLimitError]) and adapter_result.go's [boundedRuntimeText].

    The abstract specification of the two buffers is the stream of bytes written
    so far: a [Tail] is its last 64 KiB, a [LimitedBuffer] its first 4 MiB
    together with whether the stream is longer. *)

From S2P Require Import Prelude GoStrings.
From stdpp Require Import options.

Open Scope Z_scope.

Definition bytes : Type := list ascii.
Definition blen (l : bytes) : Z := Z.of_nat (length l).

(** ** Tail *)
Module Tail.

Definition MaxDiagnosticBytes : Z := Z.shiftl 64 10.

Record t := { data : bytes }.
Definition zero : t := {| data := [] |}.

(** [func (tail *Tail) Write]: the number of bytes accepted and the new state. *)
Definition Write (tail : t) (value : bytes) : Z * t :=
  let n := blen value in
  if MaxDiagnosticBytes <=? n
  then (n, {| data := drop (Z.to_nat (n - MaxDiagnosticBytes)) value |})
  else
    let excess := blen (data tail) + n - MaxDiagnosticBytes in
    let kept := if 0 <? excess then drop (Z.to_nat excess) (data tail) else data tail in
    (n, {| data := kept ++ value |}).

Lemma MaxDiagnosticBytes_pos : 0 <= MaxDiagnosticBytes.
Proof. done. Qed.

(** Abstract view: the last [n] elements of a list. *)
Definition last_n (n : nat) (l : bytes) : bytes := drop (length l - n) l.

Definition write_all (ws : list bytes) (tail : t) : t := foldl (λ s w, (Write s w).2) tail ws.

Lemma last_n_app n l1 l2 :
  (length l2 <= n)%nat → last_n n (l1 ++ l2) = drop (length l1 - (n - length l2)) l1 ++ l2.
Proof.
  intros H. unfold last_n. rewrite length_app, drop_app.
  replace (length l1 + length l2 - n - length l1)%nat with 0%nat by lia.
  rewrite drop_0. f_equal. f_equal. lia.
Qed.

Lemma last_n_app_long n l1 l2 : (n <= length l2)%nat → last_n n (l1 ++ l2) = last_n n l2.
Proof.
  intros H. unfold last_n. rewrite length_app, drop_app.
  rewrite drop_ge by lia. simpl. f_equal. lia.
Qed.

Lemma last_n_last_n_app n l1 l2 : last_n n (last_n n l1 ++ l2) = last_n n (l1 ++ l2).
Proof.
  destruct (decide (n <= length l2)%nat); [by rewrite !last_n_app_long|].
  rewrite !last_n_app by lia. f_equal. unfold last_n. rewrite length_drop, drop_drop.
  f_equal. lia.
Qed.

(** One write appends to the stream and keeps its last 64 KiB. *)
Lemma Write_last_n tail value :
  blen (data tail) <= MaxDiagnosticBytes →
  (Write tail value).2.(data) = last_n (Z.to_nat MaxDiagnosticBytes) (data tail ++ value).
Proof.
  intros Hd. unfold Write, blen in *. destruct (Z.leb_spec MaxDiagnosticBytes (Z.of_nat (length value))); simpl.
  - rewrite last_n_app_long by lia. unfold last_n. f_equal. lia.
  - rewrite last_n_app by lia. f_equal. destruct (Z.ltb_spec 0 (Z.of_nat (length (data tail)) + Z.of_nat (length value) - MaxDiagnosticBytes)).
    + f_equal. lia.
    + replace (_ - _)%nat with 0%nat by lia. by rewrite drop_0.
Qed.

Lemma last_n_length n l : (length (last_n n l) <= n)%nat.
Proof. unfold last_n. rewrite length_drop. lia. Qed.

(** a [Tail] refines its specification: after any sequence of [Write] calls
    from the zero value it holds exactly the last 64 KiB of everything written,
    so it never exceeds that size and never refuses a write. *)
Theorem tail_retains_last_bytes (ws : list bytes) :
  data (write_all ws zero) = last_n (Z.to_nat MaxDiagnosticBytes) (concat ws) ∧
  blen (data (write_all ws zero)) <= MaxDiagnosticBytes ∧
  ∀ tail w, (Write tail w).1 = blen w.
Proof.
  assert (Hm : ∀ ws, data (write_all ws zero) = last_n (Z.to_nat MaxDiagnosticBytes) (concat ws)).
  { clear ws. intros ws. induction ws as [|w ws IH] using rev_ind; [done|].
    unfold write_all in *. rewrite foldl_app, concat_app. simpl. rewrite app_nil_r.
    rewrite Write_last_n, IH; [apply last_n_last_n_app|].
    rewrite IH. unfold blen. pose proof (last_n_length (Z.to_nat MaxDiagnosticBytes) (concat ws)).
    pose proof MaxDiagnosticBytes_pos. lia. }
  split_and!; [done| |].
  - rewrite Hm. unfold blen. pose proof (last_n_length (Z.to_nat MaxDiagnosticBytes) (concat ws)).
    pose proof MaxDiagnosticBytes_pos. lia.
  - intros tail w. unfold Write. by case_match.
Qed.

End Tail.

(** ** LimitedBuffer and limitedOutputBuffer *)
Module Limited.

Definition MaxBytes : Z := Z.shiftl 4 20.
Definition maxAdapterOutputBytes : Z := Z.shiftl 4 20.

(** [cancelled] records whether the attached [context.CancelFunc] was called. *)
Record buffer := {
  buf : bytes;
  has_cancel : bool;
  cancelled : bool;
  exceeded : bool;
}.

Definition ErrTooLarge : go_error := ESentinel "provideroutput.ErrTooLarge" "provider output exceeded limit".
Definition errAdapterOutputTooLarge : go_error :=
  ESentinel "agentnode.errAdapterOutputTooLarge" "adapter output exceeded limit".

Definition NewLimitedBuffer (cancel : bool) : buffer :=
  {| buf := []; has_cancel := cancel; cancelled := false; exceeded := false |}.

(** The body both [Write] methods share: keep what fits, and on overflow mark,
    cancel and fail. *)
Definition write_limited (max : Z) (e : go_error) (b : buffer) (value : bytes) : result Z * buffer :=
  let remaining := max - blen (buf b) in
  let buf1 :=
    if 0 <? remaining then
      if blen value <=? remaining then buf b ++ value
      else buf b ++ take (Z.to_nat remaining) value
    else buf b in
  if remaining <? blen value
  then (Err e, {| buf := buf1; has_cancel := has_cancel b;
                  cancelled := cancelled b || has_cancel b; exceeded := true |})
  else (Ok (blen value), {| buf := buf1; has_cancel := has_cancel b;
                            cancelled := cancelled b; exceeded := exceeded b |}).

(** [func (buffer *LimitedBuffer) Write] *)
Definition LimitedBuffer_Write : buffer → bytes → result Z * buffer := write_limited MaxBytes ErrTooLarge.

(** [func (w *limitedOutputBuffer) Write] *)
Definition limitedOutputBuffer_Write : buffer → bytes → result Z * buffer :=
  write_limited maxAdapterOutputBytes errAdapterOutputTooLarge.

(** [LimitError(label, buffers...)] *)
Definition LimitError (label : string) (buffers : list (option buffer)) : option go_error :=
  if existsb (λ b, match b with Some b => exceeded b | None => false end) buffers
  then Some (ENew (label +:+ " output exceeded " +:+ Itoa MaxBytes +:+ " bytes"))
  else None.

(** [adapterOutputLimitError(label, stdout, stderr)] *)
Definition adapterOutputLimitError (label : string) (stdout stderr : option buffer) : option go_error :=
  let over := λ b : option buffer, match b with Some b => exceeded b | None => false end in
  let streams := (if over stdout then ["stdout"] else []) ++ (if over stderr then ["stderr"] else []) in
  match streams with
  | [] => None
  | _ => Some (ENew (label +:+ " output exceeded " +:+ Itoa maxAdapterOutputBytes +:+ " bytes (" +:+
                     Join streams ", " +:+ ")"))
  end.

Definition write_all (max : Z) (e : go_error) (ws : list bytes) (b : buffer) : buffer :=
  foldl (λ s w, (write_limited max e s w).2) b ws.

Lemma write_limited_spec max e b value stream :
  0 <= max →
  buf b = take (Z.to_nat max) stream →
  exceeded b = (max <? blen stream) →
  let b' := (write_limited max e b value).2 in
  buf b' = take (Z.to_nat max) (stream ++ value) ∧
  exceeded b' = (max <? blen (stream ++ value)) ∧
  ((write_limited max e b value).1 = Ok (blen value) ↔
   (blen stream <= max ∧ blen (stream ++ value) <= max) ∨ (max < blen stream ∧ value = [])).
Proof.
  intros Hmax Hb He. simpl. unfold write_limited, blen in *. rewrite Hb, length_take.
  destruct (decide (Z.of_nat (length stream) <= max)) as [Hs|Hs].
  - rewrite take_ge by lia. rewrite Nat.min_r by lia.
    destruct (Z.ltb_spec (max - Z.of_nat (length stream)) (Z.of_nat (length value))) as [Hv|Hv]; simpl;
      rewrite !length_app.
    + rewrite (proj2 (Z.leb_gt _ _)) by lia.
      destruct (Z.ltb_spec 0 (max - Z.of_nat (length stream))).
      * rewrite take_app_ge by lia. split_and!; [do 2 f_equal; lia|symmetry; apply Z.ltb_lt; lia|split; [done|intros [?|[? ->]]; simpl in *; lia]].
      * rewrite take_app_ge by lia. replace (_ - _)%nat with 0%nat by lia.
        rewrite take_0, app_nil_r. split_and!; [done|symmetry; apply Z.ltb_lt; lia|split; [done|intros [?|[? ->]]; simpl in *; lia]].
    + rewrite (proj2 (Z.leb_le _ _)) by lia. rewrite take_ge by (rewrite length_app; lia).
      rewrite He. split_and!; [|by rewrite !(proj2 (Z.ltb_ge _ _)) by lia|split; [intros _; left; lia|done]].
      destruct (Z.ltb_spec 0 (max - Z.of_nat (length stream))); [done|].
      destruct value; [by rewrite app_nil_r|simpl in *; lia].
  - rewrite Nat.min_l by lia. rewrite (proj2 (Z.ltb_ge 0 _)) by lia. rewrite take_app_le by lia.
    destruct (Z.ltb_spec (max - Z.of_nat (Z.to_nat max)) (Z.of_nat (length value))) as [Hv|Hv]; simpl;
      rewrite !length_app.
    + split_and!; [done|symmetry; apply Z.ltb_lt; lia|split; [done|]]. intros [?|[? ->]]; simpl in *; lia.
    + destruct value; simpl in *; [|lia]. split_and!; [done|rewrite He, Nat.add_0_r; done|]. split; [intros _; right; split; [lia|done]|done].
Qed.

(** a limited buffer refines its specification: after any sequence of writes
    it holds exactly the first 4 MiB of the stream, [exceeded] says whether the
    stream is longer than that, and the attached cancel function has been called
    exactly when it is. *)
Theorem limited_buffer_refines (ws : list bytes) (cancel : bool) :
  let b := write_all MaxBytes ErrTooLarge ws (NewLimitedBuffer cancel) in
  buf b = take (Z.to_nat MaxBytes) (concat ws) ∧
  exceeded b = (MaxBytes <? blen (concat ws)) ∧
  cancelled b = (cancel && exceeded b) ∧
  (LimitError "provider" [Some b] = None ↔ blen (concat ws) <= MaxBytes).
Proof.
  simpl.
  assert (∀ b, has_cancel (write_all MaxBytes ErrTooLarge ws b) = has_cancel b ∧
    (cancelled b = (has_cancel b && exceeded b) →
     cancelled (write_all MaxBytes ErrTooLarge ws b) =
       (has_cancel b && exceeded (write_all MaxBytes ErrTooLarge ws b)))) as Hc.
  { induction ws as [|w ws IH]; [done|]. intros b. unfold write_all in *. simpl.
    destruct (IH (write_limited MaxBytes ErrTooLarge b w).2) as [H1 H2].
    assert (has_cancel (write_limited MaxBytes ErrTooLarge b w).2 = has_cancel b) as Hh.
    { unfold write_limited. by repeat case_match. }
    rewrite Hh in *. split; [done|]. intros Hb. apply H2.
    unfold write_limited. case_match; simpl; rewrite Hb; [|done].
    by destruct (has_cancel b), (exceeded b). }
  assert (buf (write_all MaxBytes ErrTooLarge ws (NewLimitedBuffer cancel)) = take (Z.to_nat MaxBytes) (concat ws) ∧
          exceeded (write_all MaxBytes ErrTooLarge ws (NewLimitedBuffer cancel)) = (MaxBytes <? blen (concat ws)))
    as [Hb He].
  { clear Hc. induction ws as [|w ws [IH1 IH2]] using rev_ind; [done|].
    unfold write_all in *. rewrite foldl_app, concat_app. simpl. rewrite app_nil_r.
    edestruct (write_limited_spec MaxBytes ErrTooLarge _ w _ ltac:(done) IH1 IH2) as (?&?&_). done. }
  split_and!; [done..| |].
  - destruct (Hc (NewLimitedBuffer cancel)) as [_ H]. apply H. by destruct cancel.
  - unfold LimitError. simpl. rewrite He, orb_false_r.
    destruct (Z.ltb_spec MaxBytes (blen (concat ws))); split; try done; lia.
Qed.

End Limited.

(** ** BoundedText *)
Module Text.

(** [BoundedText(value, maximum, fallback)] *)
Definition BoundedText (value : string) (maximum : nat) (fallback : string) : string :=
  let value := TrimSpace value in
  let value := if bool_decide (value = "") then fallback else value in
  let rs := runes value in
  if (maximum <? length rs)%nat then string_of_runes (take maximum rs) else value.

(** agentnode's [boundedRuntimeText], which also replaces text that is not UTF-8. *)
Definition boundedRuntimeText (value : string) (maximum : nat) (fallback : string) : string :=
  let value := TrimSpace value in
  let value := if bool_decide (value = "") || negb (ValidString value) then fallback else value in
  let rs := runes value in
  if (maximum <? length rs)%nat then string_of_runes (take maximum rs) else value.

Lemma truncate_runes (v : string) (maximum : nat) :
  (length (runes (if (maximum <? length (runes v))%nat
                  then string_of_runes (take maximum (runes v)) else v)) <= maximum)%nat.
Proof.
  destruct (Nat.ltb_spec maximum (length (runes v))); [|lia].
  rewrite runes_string_of_runes.
  - rewrite length_take. lia.
  - apply Forall_take, runes_scalar.
Qed.

(** error texts that leave the process are bounded: neither [BoundedText] nor
    [boundedRuntimeText] returns more than [maximum] runes, whatever bytes the
    provider wrote, and truncation keeps whole runes (the result is a prefix of
    the runes of the chosen text). *)
Theorem bounded_text_within_maximum (value fallback : string) (maximum : nat) :
  (length (runes (BoundedText value maximum fallback)) <= maximum)%nat ∧
  (length (runes (boundedRuntimeText value maximum fallback)) <= maximum)%nat ∧
  let text := if bool_decide (TrimSpace value = "") then fallback else TrimSpace value in
  runes (BoundedText value maximum fallback) = take maximum (runes text).
Proof.
  unfold BoundedText, boundedRuntimeText. split_and!; [apply truncate_runes..|].
  simpl. set (text := if bool_decide (TrimSpace value = "") then fallback else TrimSpace value).
  destruct (Nat.ltb_spec maximum (length (runes text))).
  - rewrite runes_string_of_runes; [done|]. apply Forall_take, runes_scalar.
  - by rewrite take_ge.
Qed.

End Text.
