(* ===== verification/ProviderStream.v ===== *)
(** * Provider progress streams

    pkg/adapters/providerstream (codex.go, claude.go): the JSONL [Observer] with
    its Codex and Claude progress functions, and pkg/adapters/claude_output.go:
    [claudeResultStream], the bounded reader of the Claude result record.

    Both readers consume an arbitrary chunking of a byte stream (the writes of an
    [exec.Cmd]).  Each is proved equal to a machine that reads one byte at a time,
    so their behaviour depends on the bytes only, never on the chunk boundaries. *)

From S2P Require Import Prelude GoStrings Json.
From stdpp Require Import options.

Open Scope Z_scope.

Definition newline : ascii := "010"%char.

(** ** The line splitting shared by the readers *)

Lemma IndexByte_Some s c n :
  IndexByte s c = Some n →
  s = str_take n s +:+ String c (str_drop (S n) s) ∧ IndexByte (str_take n s) c = None.
Proof.
  revert n. induction s as [|d s IH]; intros n; simpl; [done|].
  case_bool_decide as Hd; [intros [= <-]; by rewrite Hd|].
  destruct (IndexByte s c) as [m|] eqn:Hm; simpl; [|done]. intros [= <-].
  destruct (IH m eq_refl) as [Hs Hn]. cbn [str_take str_drop]. split.
  - rewrite str_app_cons. f_equal. exact Hs.
  - simpl. rewrite bool_decide_false by done. by rewrite Hn.
Qed.

Lemma IndexByte_app_None s1 s2 c :
  IndexByte s1 c = None → IndexByte s2 c = None → IndexByte (s1 +:+ s2) c = None.
Proof.
  intros H1 H2. induction s1 as [|d s1 IH]; [done|]. rewrite str_app_cons. simpl in *.
  case_bool_decide; [done|]. destruct (IndexByte s1 c); [done|]. by rewrite IH.
Qed.

Section ByteFold.
Context {S : Type} (step : S → ascii → S).

Fixpoint fold_bytes (s : string) (st : S) : S :=
  match s with
  | EmptyString => st
  | String c s' => fold_bytes s' (step st c)
  end.

Lemma fold_bytes_app s1 s2 st : fold_bytes (s1 +:+ s2) st = fold_bytes s2 (fold_bytes s1 st).
Proof. revert st. induction s1 as [|c s1 IH]; intros st; [done|]. rewrite str_app_cons. simpl. apply IH. Qed.
End ByteFold.

(** ** Observer *)
Module Observer.
Section observer.
(** [progress] is the closure of the provider, with its captured state [P]. *)
Context {P : Type} (progress : P → json → list json * P).
Context `{!Float64}.

Record t := {
  pending : string;
  has_emit : bool;
  pstate : P;
  emitted : list (string * json);   (* calls of [emit], oldest first *)
}.

(** [func (observer *Observer) observeLine] *)
Definition observeLine (o : t) (line : string) : t :=
  if negb (has_emit o) then o
  else
    let line := TrimSpace line in
    if negb (HasPrefix line "{") then o
    else match j ← parse line; unmarshal_any j with
         | Some (JObj kvs) =>
             let '(payloads, p') := progress (pstate o) (JObj kvs) in
             {| pending := pending o; has_emit := has_emit o; pstate := p';
                emitted := emitted o ++ map (pair "run.status.changed") payloads |}
         | _ => o
         end.

Definition with_pending (s : string) (o : t) : t :=
  {| pending := s; has_emit := has_emit o; pstate := pstate o; emitted := emitted o |}.

(** [func (observer *Observer) drainLines]; every iteration removes a byte. *)
Fixpoint drain (fuel : nat) (flush : bool) (o : t) : t :=
  match fuel with
  | O => o
  | S fuel' =>
      match IndexByte (pending o) newline with
      | None =>
          if flush && negb (bool_decide (pending o = ""))
          then with_pending "" (observeLine o (pending o))
          else o
      | Some index =>
          let line := str_take index (pending o) in
          drain fuel' flush (observeLine (with_pending (str_drop (S index) (pending o)) o) line)
      end
  end.
Definition drainLines (flush : bool) (o : t) : t := drain (S (String.length (pending o))) flush o.

(** [func (observer *Observer) Write] *)
Definition Write (o : t) (value : string) : Z * t :=
  if bool_decide (value = "") then (0, o)
  else (slen value, drainLines false (with_pending (pending o +:+ value) o)).

(** [func (observer *Observer) Flush] and [ObserveLine] *)
Definition Flush (o : t) : t := drainLines true o.
Definition ObserveLine (o : t) (line : string) : t := observeLine o line.

(** *** The byte-at-a-time machine *)
Definition byte_step (o : t) (c : ascii) : t :=
  if bool_decide (c = newline) then observeLine (with_pending "" o) (pending o)
  else with_pending (pending o +:+ String c "") o.

Lemma pending_observeLine o l : pending (observeLine o l) = pending o.
Proof. unfold observeLine. by repeat case_match. Qed.

Lemma observeLine_with_pending p o l :
  observeLine (with_pending p o) l = with_pending p (observeLine o l).
Proof. unfold observeLine, with_pending. simpl. by repeat (case_match; simplify_eq/=). Qed.

Lemma with_pending_id o : with_pending (pending o) o = o.
Proof. by destruct o. Qed.

Lemma byte_fold_no_newline s o :
  IndexByte s newline = None →
  fold_bytes byte_step s o = with_pending (pending o +:+ s) o.
Proof.
  revert o. induction s as [|c s IH]; intros o; simpl.
  - intros _. by rewrite str_app_nil_r, with_pending_id.
  - unfold byte_step at 2. case_bool_decide; [done|].
    destruct (IndexByte s newline) eqn:?; [done|]. intros _. rewrite IH by done.
    unfold with_pending. simpl. by rewrite <-str_app_assoc.
Qed.

(** [drain] without flushing reads the pending bytes one by one. *)
Lemma drain_bytes fuel o :
  (String.length (pending o) < fuel)%nat →
  drain fuel false o = fold_bytes byte_step (pending o) (with_pending "" o).
Proof.
  revert o. induction fuel as [|fuel IH]; intros o Hf; [lia|]. simpl.
  destruct (IndexByte (pending o) newline) as [n|] eqn:Hn.
  - destruct (IndexByte_Some _ _ _ Hn) as [Hs Hpre]. rewrite observeLine_with_pending.
    rewrite IH; [|simpl; rewrite Hs, str_length_app in Hf; simpl in Hf; lia].
    trans (fold_bytes byte_step (str_take n (pending o) +:+ String newline (str_drop (S n) (pending o)))
             (with_pending "" o)); [|by rewrite <-Hs].
    rewrite fold_bytes_app, (byte_fold_no_newline (str_take n (pending o))) by exact Hpre.
    cbn [fold_bytes]. unfold byte_step at 3. rewrite bool_decide_true by done.
    by rewrite !observeLine_with_pending.
  - rewrite byte_fold_no_newline by done. by destruct o.
Qed.

Definition no_newline (o : t) : Prop := IndexByte (pending o) newline = None.

Lemma byte_step_no_newline o c : no_newline o → no_newline (byte_step o c).
Proof.
  unfold no_newline, byte_step. case_bool_decide as Hc; intros Ho.
  - by rewrite pending_observeLine.
  - apply IndexByte_app_None; [done|]. simpl. by rewrite bool_decide_false.
Qed.

Lemma fold_no_newline s o : no_newline o → no_newline (fold_bytes byte_step s o).
Proof. revert o. induction s; intros o Ho; simpl; auto using byte_step_no_newline. Qed.

Lemma Write_bytes o value : no_newline o → (Write o value).2 = fold_bytes byte_step value o.
Proof.
  intros Ho. unfold Write. case_bool_decide as Hv; [by rewrite Hv|].
  unfold drainLines. cbn [snd]. rewrite drain_bytes by (simpl; lia). simpl pending.
  rewrite fold_bytes_app, (byte_fold_no_newline (pending o)) by done. by destruct o.
Qed.

Definition write_all (ws : list string) (o : t) : t := foldl (λ o w, (Write o w).2) o ws.

Lemma write_all_bytes ws o :
  no_newline o → write_all ws o = fold_bytes byte_step (concat_strings ws) o.
Proof.
  revert o. unfold write_all. induction ws as [|w ws IH]; intros o Ho; [done|]. simpl.
  rewrite Write_bytes by done. rewrite IH by (by apply fold_no_newline).
  by rewrite fold_bytes_app.
Qed.

(** the observer is independent of chunking: any two ways of cutting the same
    bytes into writes lead to the same observer (pending bytes, progress state
    and emitted events), before and after [Flush]. *)
Theorem observer_chunk_independent (ws1 ws2 : list string) (o : t)
  (Hbytes : concat_strings ws1 = concat_strings ws2) (Hpending : no_newline o) :
  write_all ws1 o = write_all ws2 o ∧ Flush (write_all ws1 o) = Flush (write_all ws2 o).
Proof. rewrite !write_all_bytes by done. by rewrite Hbytes. Qed.
End observer.
Global Arguments t : clear implicits.
End Observer.

(** ** Codex progress (codex.go) *)
Module CodexProgress.
Section codex.
Context `{!UnicodeLower}.

(** [normalizedCodexToolKind] *)
Definition normalizedCodexToolKind (value : json) : string :=
  let kind := ToLower (TrimSpace (string_value value)) in
  if bool_decide (kind = "web_search") then "web_search"
  else if bool_decide (kind = "command_execution") then "command"
  else if bool_decide (kind = "mcp_tool_call") then "mcp_tool"
  else "".

(** [codexProgressPayload] *)
Definition codexProgressPayload (event : json) : option json :=
  let eventType := string_value (obj_get event "type") in
  if negb (bool_decide (eventType = "item.started")) && negb (bool_decide (eventType = "item.completed"))
  then None
  else
    match obj_get event "item" with
    | JObj kvs =>
        let item := JObj kvs in
        let toolKind := normalizedCodexToolKind (obj_get item "type") in
        if bool_decide (toolKind = "") then None
        else
          let phase :=
            if bool_decide (eventType = "item.completed") then
              if EqualFold (TrimSpace (string_value (obj_get item "status"))) "failed"
              then "failed" else "completed"
            else "started" in
          Some (go_obj [("status", JStr ("provider_tool_" +:+ phase)); ("provider", JStr "codex");
                        ("phase", JStr phase); ("tool_kind", JStr toolKind)])
    | _ => None
    end.

(** The closure of [NewCodexObserver]; it keeps no state. *)
Definition codex_progress (suppressItem : option (json → bool)) (u : unit) (event : json)
    : list json * unit :=
  let suppressed :=
    match obj_get event "item", suppressItem with
    | JObj kvs, Some f => f (JObj kvs)
    | _, _ => false
    end in
  if suppressed then ([], u)
  else match codexProgressPayload event with
       | Some payload => ([payload], u)
       | None => ([], u)
       end.

Definition NewCodexObserver (emit : bool) : Observer.t unit :=
  {| Observer.pending := ""; Observer.has_emit := emit; Observer.pstate := tt; Observer.emitted := [] |}.
End codex.
End CodexProgress.

(** ** Claude progress (claude.go) *)
Module ClaudeProgress.

Definition status_payload (phase kind : string) : json :=
  go_obj [("provider", JStr "claude"); ("status", JStr ("provider_tool_" +:+ phase));
          ("phase", JStr phase); ("tool_kind", JStr kind)].

Definition processing_payload : json :=
  go_obj [("provider", JStr "claude"); ("status", JStr "provider_processing"); ("phase", JStr "started")].
Definition retrying_payload : json :=
  go_obj [("provider", JStr "claude"); ("status", JStr "provider_retrying"); ("phase", JStr "retrying")].

Definition max_active : nat := 512.

(** The kind reported for a tool name, before suppression. *)
Definition tool_kind (name : string) : string :=
  if bool_decide (name = "Bash") then "command"
  else if bool_decide (name = "WebSearch") || bool_decide (name = "WebFetch") then "web_search"
  else if HasPrefix name "mcp__" then "mcp_tool"
  else "tool".

Section claude.
Context (suppressTool : option (string → bool)).

(** The [block] closure: tool starts and results, against the map of active tools.
    [active\[id\]] is the empty string for an absent id. *)
Definition block (active : gmap string string) (content : json) : list json * gmap string string :=
  let type := string_value (obj_get content "type") in
  if bool_decide (type = "tool_use") then
    let id := string_value (obj_get content "id") in
    let name := string_value (obj_get content "name") in
    if bool_decide (id = "") || negb (bool_decide (default "" (active !! id) = "")) ||
       (max_active <=? size active)%nat
    then ([], active)
    else
      let suppressed := match suppressTool with Some f => f name | None => false end in
      let kind := if suppressed then "suppressed" else tool_kind name in
      (if suppressed then [] else [status_payload "started" kind], <[id := kind]> active)
  else if bool_decide (type = "tool_result") then
    let id := string_value (obj_get content "tool_use_id") in
    let kind := default "" (active !! id) in
    if bool_decide (kind = "") then ([], active)
    else if bool_decide (kind = "suppressed") then ([], delete id active)
    else
      let failed := match obj_get content "is_error" with JBool b => b | _ => false end in
      ([status_payload (if failed then "failed" else "completed") kind], delete id active)
  else ([], active).

Fixpoint blocks (active : gmap string string) (contents : list json)
    : list json * gmap string string :=
  match contents with
  | [] => ([], active)
  | c :: cs =>
      let '(p1, a1) := block active c in
      let '(p2, a2) := blocks a1 cs in
      (p1 ++ p2, a2)
  end.

(** The [progress] closure of [NewClaudeObserver]; a value that is not an object
    stands for the nil map of a failed type assertion. *)
Definition claude_progress (active : gmap string string) (event : json)
    : list json * gmap string string :=
  let type := string_value (obj_get event "type") in
  if bool_decide (type = "stream_event") then
    let nested := obj_get event "event" in
    let ntype := string_value (obj_get nested "type") in
    if bool_decide (ntype = "message_start") then ([processing_payload], active)
    else if bool_decide (ntype = "content_block_start") then block active (obj_get nested "content_block")
    else ([], active)
  else if bool_decide (type = "assistant") || bool_decide (type = "user") then
    match obj_get (obj_get event "message") "content" with
    | JArr contents => blocks active contents
    | _ => ([], active)
    end
  else if bool_decide (type = "system") then
    match obj_get event "subtype" with
    | JStr "api_retry" => ([retrying_payload], active)
    | _ => ([], active)
    end
  else ([], active).
End claude.

Definition NewClaudeObserver (emit : bool) : Observer.t (gmap string string) :=
  {| Observer.pending := ""; Observer.has_emit := emit; Observer.pstate := ∅; Observer.emitted := [] |}.

(** The complete vocabulary of Claude progress payloads. *)
Definition claude_payloads : list json :=
  processing_payload :: retrying_payload ::
  (phase ← ["started"; "completed"; "failed"];
   kind ← ["command"; "web_search"; "mcp_tool"; "tool"];
   [status_payload phase kind]).

Definition kind_ok (k : string) : Prop :=
  k ∈ ["command"; "web_search"; "mcp_tool"; "tool"; "suppressed"].

(** The invariant of the captured map: bounded, and every value is a known kind. *)
Definition active_ok (active : gmap string string) : Prop :=
  (size active ≤ max_active)%nat ∧ map_Forall (λ _ k, kind_ok k) active.

Lemma tool_kind_ok name : kind_ok (tool_kind name) ∧ tool_kind name ≠ "suppressed".
Proof. unfold tool_kind, kind_ok. repeat case_match; split; try done; set_solver. Qed.

Lemma status_payload_known phase kind :
  phase ∈ ["started"; "completed"; "failed"] → kind_ok kind → kind ≠ "suppressed" →
  status_payload phase kind ∈ claude_payloads.
Proof.
  unfold kind_ok, claude_payloads. intros Hp Hk Hs. do 2 apply list_elem_of_further.
  apply list_elem_of_bind. exists phase. split; [|done].
  apply list_elem_of_bind. exists kind. split; [set_solver|set_solver].
Qed.

Lemma block_ok suppress active content :
  active_ok active →
  active_ok (block suppress active content).2 ∧
  Forall (λ p, p ∈ claude_payloads) (block suppress active content).1.
Proof.
  intros [Hsize Hkinds]. unfold block.
  case_bool_decide; [|case_bool_decide]; [| |by split].
  - case_match eqn:Hcond; [by split|].
    apply orb_false_iff in Hcond as [_ Hlt%Nat.leb_gt].
    set (name := string_value (obj_get content "name")).
    destruct (tool_kind_ok name) as [Hk Hne].
    set (id := string_value (obj_get content "id")).
    assert (∀ k, kind_ok k → active_ok (<[id := k]> active)) as Hins.
    { intros k Hk'. split; [|by apply map_Forall_insert_2].
      pose proof (size_insert_le active id k). lia. }
    destruct (match suppress with Some f => f name | None => false end); simpl.
    + split; [|constructor]. apply Hins. unfold kind_ok. set_solver.
    + split; [by apply Hins|]. constructor; [|constructor].
      apply status_payload_known; [set_solver|done..].
  - set (id := string_value (obj_get content "tool_use_id")).
    assert (active_ok (delete id active)) as Hdel.
    { split; [|by apply map_Forall_delete]. pose proof (size_delete_le active id). lia. }
    destruct (active !! id) as [k|] eqn:E; simpl; [|by split].
    case_bool_decide; [by split|]. case_bool_decide as Hsup; simpl; [by split|].
    split; [done|]. constructor; [|constructor].
    apply status_payload_known; [case_match; set_solver| |done].
    by apply (Hkinds id).
Qed.

Lemma blocks_ok suppress active contents :
  active_ok active →
  active_ok (blocks suppress active contents).2 ∧
  Forall (λ p, p ∈ claude_payloads) (blocks suppress active contents).1.
Proof.
  revert active. induction contents as [|c cs IH]; intros active Ha; simpl; [by split|].
  pose proof (block_ok suppress active c Ha) as [H1 H2].
  destruct (block suppress active c) as [p1 a1]. simpl in *.
  specialize (IH a1 H1) as [H3 H4]. destruct (blocks suppress a1 cs). simpl in *.
  split; [done|]. by apply Forall_app.
Qed.

Lemma claude_progress_ok suppress active event :
  active_ok active →
  active_ok (claude_progress suppress active event).2 ∧
  Forall (λ p, p ∈ claude_payloads) (claude_progress suppress active event).1.
Proof.
  intros Ha. unfold claude_progress, claude_payloads.
  repeat case_match; try (by split); auto using block_ok, blocks_ok;
    (split; [done|constructor; [set_solver|constructor]]).
Qed.

Section emitted.
Context (suppress : option (string → bool)) `{!Float64}.

Definition observer_ok (o : Observer.t (gmap string string)) : Prop :=
  active_ok (Observer.pstate o) ∧
  Forall (λ e, e.1 = "run.status.changed" ∧ e.2 ∈ claude_payloads) (Observer.emitted o).

Lemma observeLine_ok o line :
  observer_ok o → observer_ok (Observer.observeLine (claude_progress suppress) o line).
Proof.
  intros [Ha He]. unfold Observer.observeLine.
  destruct (negb _); [done|]. destruct (negb _); [done|].
  destruct (_ ≫= _) as [[| | | | |kvs]|]; try done.
  pose proof (claude_progress_ok suppress (Observer.pstate o) (JObj kvs) Ha) as [H1 H2].
  destruct (claude_progress _ _ _) as [ps p']. simpl in *. split; [done|].
  apply Forall_app. split; [done|]. apply Forall_map.
  rewrite Forall_forall in *. intros e Hin. by split; [|apply H2].
Qed.

Lemma byte_step_ok o c :
  observer_ok o → observer_ok (Observer.byte_step (claude_progress suppress) o c).
Proof.
  intros Ho. unfold Observer.byte_step. case_bool_decide; [|done].
  by apply observeLine_ok.
Qed.

Lemma fold_ok s o :
  observer_ok o → observer_ok (fold_bytes (Observer.byte_step (claude_progress suppress)) s o).
Proof. revert o. induction s; intros o Ho; simpl; auto using byte_step_ok. Qed.

(** whatever bytes the provider writes, in whatever chunks, the Claude observer
    only emits [run.status.changed] with one of fourteen fixed payloads (so no tool
    name, argument, result or id reaches the event stream), and its map of active
    tools never exceeds 512 entries. *)
Theorem claude_observer_only_normalized (ws : list string) (emit : bool) :
  let o := Observer.write_all (claude_progress suppress) ws (NewClaudeObserver emit) in
  Forall (λ e, e.1 = "run.status.changed" ∧ e.2 ∈ claude_payloads) (Observer.emitted o) ∧
  (size (Observer.pstate o) ≤ 512)%nat ∧
  length claude_payloads = 14%nat.
Proof.
  cbv zeta. rewrite Observer.write_all_bytes by done.
  destruct (fold_ok (concat_strings ws) (NewClaudeObserver emit)) as [[Hs _] He].
  { split; [|constructor]. split; [apply Nat.le_0_l|apply map_Forall_empty]. }
  done.
Qed.
End emitted.
End ClaudeProgress.

(** ** claudeResultStream (claude_output.go) *)
Module ClaudeResult.

Record claudeResponse := {
  r_Type : string;
  r_Subtype : string;
  r_IsError : bool;
  r_Result : string;
  r_Errors : list string;
  r_SessionID : string;
}.
Definition zero_response : claudeResponse :=
  {| r_Type := ""; r_Subtype := ""; r_IsError := false; r_Result := ""; r_Errors := []; r_SessionID := "" |}.

Definition response_fields : list (field claudeResponse) :=
  [f_string "type" (λ v r, {| r_Type := v; r_Subtype := r_Subtype r; r_IsError := r_IsError r;
     r_Result := r_Result r; r_Errors := r_Errors r; r_SessionID := r_SessionID r |});
   f_string "subtype" (λ v r, {| r_Type := r_Type r; r_Subtype := v; r_IsError := r_IsError r;
     r_Result := r_Result r; r_Errors := r_Errors r; r_SessionID := r_SessionID r |});
   f_bool "is_error" (λ v r, {| r_Type := r_Type r; r_Subtype := r_Subtype r; r_IsError := v;
     r_Result := r_Result r; r_Errors := r_Errors r; r_SessionID := r_SessionID r |});
   f_string "result" (λ v r, {| r_Type := r_Type r; r_Subtype := r_Subtype r; r_IsError := r_IsError r;
     r_Result := v; r_Errors := r_Errors r; r_SessionID := r_SessionID r |});
   f_strings "errors" (λ v r, {| r_Type := r_Type r; r_Subtype := r_Subtype r; r_IsError := r_IsError r;
     r_Result := r_Result r; r_Errors := v; r_SessionID := r_SessionID r |});
   f_string "session_id" (λ v r, {| r_Type := r_Type r; r_Subtype := r_Subtype r; r_IsError := r_IsError r;
     r_Result := r_Result r; r_Errors := r_Errors r; r_SessionID := v |})].

Definition decode_response (line : string) : option claudeResponse :=
  j ← parse line; decode_struct false response_fields zero_response j.

(** [maxProviderOutputBytes] *)
Definition max_record : Z := Z.shiftl 4 20.

Definition err_too_large : go_error := ENew "Claude JSONL record exceeds 4 MiB limit".
Definition err_invalid : go_error := ENew "Claude returned invalid JSONL output".
Definition err_no_result : go_error := ENew "Claude completed without a result event".

Section stream.
Context {P : Type} (progress : P → json → list json * P).
Context `{!Float64}.

Record stream := {
  s_pending : string;
  s_result : claudeResponse;
  s_found : bool;
  s_err : option go_error;
  s_cancelled : bool;     (* [cancel] was called *)
  s_observer : option (Observer.t P);
}.

Definition newClaudeResultStream (o : option (Observer.t P)) : stream :=
  {| s_pending := ""; s_result := zero_response; s_found := false; s_err := None;
     s_cancelled := false; s_observer := o |}.

(** [func (s *claudeResultStream) fail] *)
Definition fail (s : stream) (e : go_error) : stream :=
  {| s_pending := ""; s_result := s_result s; s_found := s_found s; s_err := Some e;
     s_cancelled := true; s_observer := s_observer s |}.

Definition set_pending (p : string) (s : stream) : stream :=
  {| s_pending := p; s_result := s_result s; s_found := s_found s; s_err := s_err s;
     s_cancelled := s_cancelled s; s_observer := s_observer s |}.

(** [func (s *claudeResultStream) consume] *)
Definition consume (s : stream) : stream :=
  let line := TrimSpace (s_pending s) in
  if bool_decide (line = "") then set_pending "" s
  else match decode_response line with
       | None => fail s err_invalid
       | Some event =>
           if bool_decide (r_Type event = "result") then
             {| s_pending := ""; s_result := event; s_found := true; s_err := s_err s;
                s_cancelled := s_cancelled s; s_observer := s_observer s |}
           else
             {| s_pending := ""; s_result := s_result s; s_found := s_found s; s_err := s_err s;
                s_cancelled := s_cancelled s;
                s_observer := (λ o, Observer.ObserveLine progress o line) <$> s_observer s |}
       end.

(** The loop of [Write]; [p] shrinks by at least one byte per iteration. *)
Fixpoint write_loop (fuel : nat) (s : stream) (p : string) : stream :=
  match fuel with
  | O => s
  | S fuel' =>
      if bool_decide (p = "") then s
      else
        let chunk := match IndexByte p newline with Some n => str_take n p | None => p end in
        if max_record <? slen (s_pending s) + slen chunk then fail s err_too_large
        else
          let s := set_pending (s_pending s +:+ chunk) s in
          match IndexByte p newline with
          | None => s
          | Some n =>
              let s' := consume s in
              match s_err s' with
              | Some _ => s'
              | None => write_loop fuel' s' (str_drop (S n) p)
              end
          end
  end.

(** [func (s *claudeResultStream) Write] *)
Definition Write (s : stream) (p : string) : result Z * stream :=
  match s_err s with
  | Some e => (Err e, s)
  | None =>
      let s' := write_loop (S (String.length p)) s p in
      (match s_err s' with Some e => Err e | None => Ok (slen p) end, s')
  end.

(** [func (s *claudeResultStream) Result] *)
Definition Result (s : stream) : claudeResponse * option go_error * stream :=
  let s' := match s_err s with None => consume s | Some _ => s end in
  match s_err s' with
  | Some e => (s_result s', Some e, s')
  | None => (s_result s', if s_found s' then None else Some err_no_result, s')
  end.

(** *** The byte-at-a-time machine *)
Definition feed (s : stream) (c : ascii) : stream :=
  match s_err s with
  | Some _ => s
  | None =>
      if bool_decide (c = newline) then consume s
      else if max_record <? slen (s_pending s) + 1 then fail s err_too_large
      else set_pending (s_pending s +:+ String c "") s
  end.

Lemma feed_err s : s_err s ≠ None → ∀ p, fold_bytes feed p s = s.
Proof.
  intros Hs p. induction p as [|c p IH]; [done|]. simpl.
  assert (feed s c = s) as ->; [|done]. unfold feed. by destruct (s_err s).
Qed.

(** Reading a piece without a newline: it is appended, unless the record grows
    beyond the limit. *)
Lemma feed_no_newline p s :
  s_err s = None → slen (s_pending s) <= max_record → IndexByte p newline = None →
  fold_bytes feed p s =
    if max_record <? slen (s_pending s) + slen p then fail s err_too_large
    else set_pending (s_pending s +:+ p) s.
Proof.
  revert s. induction p as [|c p IH]; intros s He Hp Hn; simpl.
  - rewrite (proj2 (Z.ltb_ge _ _)) by (unfold slen in *; simpl; lia).
    rewrite str_app_nil_r. by destruct s.
  - simpl in Hn. case_bool_decide as Hc; [done|]. destruct (IndexByte p newline) eqn:Hn'; [done|].
    unfold feed at 2. rewrite He, bool_decide_false by done.
    replace (slen (String c p)) with (1 + slen p) by (unfold slen; simpl; lia).
    pose proof (slen_nonneg p).
    destruct (Z.ltb_spec max_record (slen (s_pending s) + 1)).
    + rewrite (proj2 (Z.ltb_lt _ _)) by lia. by rewrite feed_err.
    + rewrite IH; simpl; [|done| |done].
      * rewrite slen_app. change (slen (String c "")) with 1. rewrite Z.add_assoc.
        destruct (max_record <? _); [done|]. unfold set_pending. simpl. f_equal.
        by rewrite <-str_app_assoc.
      * rewrite slen_app. change (slen (String c "")) with 1. lia.
Qed.

Lemma consume_pending s : s_pending (consume s) = "".
Proof. unfold consume. by repeat case_match. Qed.


Lemma write_loop_feed fuel s p :
  (String.length p < fuel)%nat → s_err s = None → slen (s_pending s) <= max_record →
  write_loop fuel s p = fold_bytes feed p s.
Proof.
  revert s p. induction fuel as [|fuel IH]; intros s p Hf He Hp; [lia|]. simpl.
  case_bool_decide as Hemp; [by rewrite Hemp|].
  destruct (IndexByte p newline) as [n|] eqn:Hn; [|by rewrite feed_no_newline].
  destruct (IndexByte_Some _ _ _ Hn) as [Hs Hpre].
  trans (fold_bytes feed (str_take n p +:+ String newline (str_drop (S n) p)) s); [|by rewrite <-Hs].
  rewrite fold_bytes_app, (feed_no_newline (str_take n p)) by done.
  destruct (max_record <? _) eqn:Hlim; [by rewrite feed_err|].
  cbn [fold_bytes]. unfold feed at 2. simpl s_err. rewrite He, bool_decide_true by done.
  destruct (s_err (consume _)) eqn:Hc; [rewrite feed_err by (by rewrite Hc); done|].
  apply IH; [|done|by rewrite consume_pending].
  pose proof (f_equal String.length Hs) as Hl. rewrite str_length_app in Hl.
  cbn [String.length] in Hl. change (String.length (str_drop (S n) p) < fuel)%nat. lia.
Qed.

Definition stream_ok (s : stream) : Prop := slen (s_pending s) <= max_record.

Lemma feed_ok s c : stream_ok s → stream_ok (feed s c).
Proof.
  unfold stream_ok, feed. intros Hs. destruct (s_err s); [done|].
  case_bool_decide; [by rewrite consume_pending|].
  destruct (Z.ltb_spec max_record (slen (s_pending s) + 1)); [done|].
  simpl. rewrite slen_app. change (slen (String c "")) with 1. lia.
Qed.

Lemma fold_feed_ok p s : stream_ok s → stream_ok (fold_bytes feed p s).
Proof. revert s. induction p; intros s Hs; simpl; auto using feed_ok. Qed.

Lemma Write_feed s p : stream_ok s → (Write s p).2 = fold_bytes feed p s.
Proof.
  intros Hs. unfold Write. destruct (s_err s) eqn:He; [by rewrite feed_err by (by rewrite He)|].
  cbn [snd]. apply write_loop_feed; [lia|done..].
Qed.

Definition write_all (ws : list string) (s : stream) : stream := foldl (λ s w, (Write s w).2) s ws.

Lemma write_all_feed ws s :
  stream_ok s → write_all ws s = fold_bytes feed (concat_strings ws) s.
Proof.
  revert s. unfold write_all. induction ws as [|w ws IH]; intros s Hs; [done|]. simpl.
  rewrite Write_feed by done. rewrite IH by (by apply fold_feed_ok). by rewrite fold_bytes_app.
Qed.

(** the Claude result does not depend on how the provider's output was cut
    into writes: two chunkings of the same bytes give the same stream state and
    the same [Result] (value and error), and the pending record never exceeds
    4 MiB. *)
Theorem claude_result_chunk_independent (ws1 ws2 : list string) (o : option (Observer.t P))
  (Hbytes : concat_strings ws1 = concat_strings ws2) :
  write_all ws1 (newClaudeResultStream o) = write_all ws2 (newClaudeResultStream o) ∧
  Result (write_all ws1 (newClaudeResultStream o)) = Result (write_all ws2 (newClaudeResultStream o)) ∧
  slen (s_pending (write_all ws1 (newClaudeResultStream o))) <= max_record.
Proof.
  assert (stream_ok (newClaudeResultStream o)) as Hok by done.
  rewrite !write_all_feed by done. rewrite Hbytes.
  split_and!; [done..|]. by apply fold_feed_ok.
Qed.
End stream.
End ClaudeResult.

(** ** Concrete instances *)
Module StreamWitness.
Definition f64 : Float64 := Some.
#[local] Existing Instance f64.
Definition lf : string := String newline "".
Definition event : string := "{" +:+ quote +:+ "type" +:+ quote +:+ ":" +:+ quote +:+ "result" +:+ quote +:+ "}".
Definition no_progress : unit → json → list json * unit := λ _ _, ([], tt).

Lemma observer_chunk_independent_witness :
  Observer.write_all no_progress [event +:+ lf] (CodexProgress.NewCodexObserver true) =
  Observer.write_all no_progress [event; lf] (CodexProgress.NewCodexObserver true).
Proof.
  apply (Observer.observer_chunk_independent no_progress [event +:+ lf] [event; lf]
           (CodexProgress.NewCodexObserver true)); vm_compute; reflexivity.
Defined.

Lemma claude_result_chunk_independent_witness :
  ClaudeResult.Result no_progress (ClaudeResult.write_all no_progress [event +:+ lf] (ClaudeResult.newClaudeResultStream None)) =
  ClaudeResult.Result no_progress (ClaudeResult.write_all no_progress [event; lf] (ClaudeResult.newClaudeResultStream None)).
Proof.
  apply (ClaudeResult.claude_result_chunk_independent no_progress [event +:+ lf] [event; lf] None);
    vm_compute; reflexivity.
Defined.
End StreamWitness.
