(* ===== verification/BoundTools.v ===== *)
(** * Owner-selected MCP tools

    pkg/adapters/agentdelegation/bound_tools.go, less [Broker.callTool] (file
    Broker): the snapshot of bound tools a Run carries, its validation and its
    decoding, and the tool names and receipts derived from it; and
    [ValidateTargets] of broker.go. *)

From stdpp Require Import sorting.
From S2P Require Import Prelude GoStrings Sha256 Json.
From stdpp Require Import options.

Open Scope Z_scope.

Definition MetadataKey : string := "_openlinker_mcp_bindings".
Definition CallMetadataKey : string := "_openlinker_mcp_binding".
Definition Feature : string := "mcp_bindings.v1".
Definition ToolNames : list string := ["delegate_agent"; "get_delegated_run"; "wait_delegated_run"].

Record BoundTool := {
  BindingID : string;
  TargetID : string;
  Digest : string;
  Name : string;
  Title : string;
  Description : string;
  InputSchema : option (list (string * json));
}.

Definition zero_tool : BoundTool :=
  {| BindingID := ""; TargetID := ""; Digest := ""; Name := ""; Title := ""; Description := "";
     InputSchema := None |}.

Record BoundSnapshot := { Schema : Z; Tools : list BoundTool }.

(** [mcp_\[a-f0-9\]{32}] and [\[a-f0-9\]{64}], anchored. *)
Definition namePattern (s : string) : bool := HasPrefix s "mcp_" && hex_group 32 (TrimPrefix s "mcp_").
Definition digestPattern (s : string) : bool := hex_group 64 s.

Definition map_json (m : option (list (string * json))) : json :=
  match m with Some kvs => JObj kvs | None => JNull end.

(** [json.Marshal] of a [BoundTool], fields in declaration order. *)
Definition tool_json (t : BoundTool) : json :=
  JObj [("binding_id", JStr (BindingID t)); ("target_agent_id", JStr (TargetID t));
        ("digest", JStr (Digest t)); ("name", JStr (Name t)); ("title", JStr (Title t));
        ("description", JStr (Description t)); ("input_schema", map_json (InputSchema t))].

Definition errTooManyBindings : go_error := ENew "too many MCP bindings".
Definition errInvalidSnapshot : go_error := ENew "invalid MCP binding snapshot".
Definition errUntrustedBindings : go_error := ENew "MCP bindings require trusted Runtime authority".

Definition schema_is_object (t : BoundTool) : bool :=
  match assoc_get (default [] (InputSchema t)) "type" with
  | Some (JStr s) => bool_decide (s = "object")
  | _ => false
  end.

Definition tool_valid (seen : list string) (t : BoundTool) : bool :=
  (slen (marshal (tool_json t)) <=? 20 * 1024) && uuidPattern (BindingID t) && uuidPattern (TargetID t) &&
  digestPattern (Digest t) && namePattern (Name t) && negb (bool_decide (Name t ∈ seen)) &&
  schema_is_object t.

Fixpoint tools_valid (seen : list string) (tools : list BoundTool) : bool :=
  match tools with
  | [] => true
  | t :: tools' => tool_valid seen t && tools_valid (Name t :: seen) tools'
  end.

(** [ValidateBoundTools] *)
Definition ValidateBoundTools (tools : list BoundTool) : option go_error :=
  if 16 <? Z.of_nat (length tools) then Some errTooManyBindings
  else if tools_valid [] tools then None else Some errInvalidSnapshot.

Definition nil_uuid : string := "00000000-0000-0000-0000-000000000000".

Fixpoint targets_valid (seen targets : list string) : bool :=
  match targets with
  | [] => true
  | id :: ts =>
      uuidPattern id && negb (bool_decide (id = nil_uuid)) && negb (bool_decide (id ∈ seen)) &&
      targets_valid (id :: seen) ts
  end.

(** [ValidateTargets] (broker.go) *)
Definition ValidateTargets (targets : list string) : option go_error :=
  if 32 <? Z.of_nat (length targets) then Some (ESafe "at most 32 delegation targets are allowed")
  else if targets_valid [] targets then None
  else Some (ESafe "delegation targets must be distinct lowercase Agent UUIDs").

Section decode.
Context `{!Float64}.

Definition tool_fields : list (field BoundTool) :=
  [f_string "binding_id" (λ v t, {| BindingID := v; TargetID := TargetID t; Digest := Digest t;
     Name := Name t; Title := Title t; Description := Description t; InputSchema := InputSchema t |});
   f_string "target_agent_id" (λ v t, {| BindingID := BindingID t; TargetID := v; Digest := Digest t;
     Name := Name t; Title := Title t; Description := Description t; InputSchema := InputSchema t |});
   f_string "digest" (λ v t, {| BindingID := BindingID t; TargetID := TargetID t; Digest := v;
     Name := Name t; Title := Title t; Description := Description t; InputSchema := InputSchema t |});
   f_string "name" (λ v t, {| BindingID := BindingID t; TargetID := TargetID t; Digest := Digest t;
     Name := v; Title := Title t; Description := Description t; InputSchema := InputSchema t |});
   f_string "title" (λ v t, {| BindingID := BindingID t; TargetID := TargetID t; Digest := Digest t;
     Name := Name t; Title := v; Description := Description t; InputSchema := InputSchema t |});
   f_string "description" (λ v t, {| BindingID := BindingID t; TargetID := TargetID t; Digest := Digest t;
     Name := Name t; Title := Title t; Description := v; InputSchema := InputSchema t |});
   f_map "input_schema" InputSchema (λ v t, {| BindingID := BindingID t; TargetID := TargetID t;
     Digest := Digest t; Name := Name t; Title := Title t; Description := Description t; InputSchema := v |})].

Fixpoint decode_tools (l : list json) : option (list BoundTool) :=
  match l with
  | [] => Some []
  | j :: l' => t ← decode_struct false tool_fields zero_tool j; ts ← decode_tools l'; Some (t :: ts)
  end.

Definition snapshot_fields : list (field BoundSnapshot) :=
  [f_int "schema_version" (λ v s, {| Schema := v; Tools := Tools s |});
   ("tools", λ j s, match j with
                    | JNull => Some {| Schema := Schema s; Tools := [] |}
                    | JArr l => ts ← decode_tools l; Some {| Schema := Schema s; Tools := ts |}
                    | _ => None
                    end)].

Definition name_le (a b : BoundTool) : Prop := String.le (Name a) (Name b).
#[export] Instance name_le_dec : RelDecision name_le.
Proof. intros a b. unfold name_le. apply _. Defined.

Definition tools_digest (tools : list BoundTool) : string :=
  sha256_hex (marshal (JArr (map tool_json tools))).

(** [DecodeBound(value, trusted)]: the tools sorted by name and their digest.
    [JNull] stands for a nil [value]. *)
Definition DecodeBound (value : json) (trusted : bool) : result (list BoundTool * string) :=
  match value with
  | JNull => Ok ([], "")
  | _ =>
      let raw := marshal value in
      match (j ← parse raw; decode_struct false snapshot_fields {| Schema := 0; Tools := [] |} j) with
      | None => Err errInvalidSnapshot
      | Some snapshot =>
          if (320 * 1024 <? slen raw) || negb (Schema snapshot =? 1) then Err errInvalidSnapshot
          else if negb (bool_decide (Tools snapshot = [])) && negb trusted then Err errUntrustedBindings
          else match ValidateBoundTools (Tools snapshot) with
               | Some e => Err e
               | None =>
                   let tools := merge_sort name_le (Tools snapshot) in
                   match tools with
                   | [] => Ok ([], "")
                   | _ => Ok (tools, tools_digest tools)
                   end
               end
      end
  end.
End decode.

(** [BoundToolNames] *)
Definition BoundToolNames (targets : list string) (tools : list BoundTool) : list string :=
  (if bool_decide (targets = []) then [] else ToolNames) ++ map Name tools.

(** [BoundReceipt] *)
Definition BoundReceipt (tools : list BoundTool) : json :=
  go_obj [("bindings", JArr (map (λ t, go_obj [("binding_id", JStr (BindingID t));
                                                ("digest", JStr (Digest t))]) tools))].
