(* ===== verification/Broker.v ===== *)
(** * The delegation broker

    pkg/adapters/agentdelegation/broker.go and [Broker.callTool] of
    bound_tools.go.  The broker serves a private MCP socket to one provider
    process and forwards allowed tool calls to the callbacks of the active
    Attempt.  This file is the model; its theorems are in BrokerProps.

    Every tool call runs under the mutex [calls], so a call is one atomic
    transition of the state below.  The callbacks, the clock and the parent
    context are outside this repository's code: they are the fields of the class
    [Callbacks] over a type [W] of worlds.  [log] is a ghost record of the
    callback invocations, in order; no operation reads it. *)

From S2P Require Import Prelude GoStrings Sha256 Json BoundTools.
From stdpp Require Import options.

Open Scope Z_scope.

Definition maxMessageBytes : Z := Z.shiftl 4 20.
Definition second : Z := 1000000000.
Definition millisecond : Z := 1000000.

(** The run statuses the sources name, and any other. *)
Inductive RunStatus : Type :=
  | RuntimeRunRunning
  | RuntimeRunSuccess
  | RuntimeRunFailed
  | RuntimeRunCanceled
  | RuntimeRunTimeout
  | RunOther (status : string).

#[export] Instance RunStatus_eq_dec : EqDecision RunStatus.
Proof. solve_decision. Defined.

(** The SDK's [RuntimeRunSummary] and [RuntimeDelegatedRun]: the fields the
    sources read and their JSON form ([None]: [json.Marshal] fails). *)
Class SDK := {
  RunSummary : Type;
  summary_zero : RunSummary;
  summary_RunID : RunSummary → string;
  summary_marshal : RunSummary → option json;
  summary_unmarshal : json → option RunSummary;
  DelegatedRun : Type;
  run_Status : DelegatedRun → RunStatus;
  run_Output : DelegatedRun → option json;
  run_marshal : DelegatedRun → option json;
}.

(** [openlinker.RuntimeCallOptions], the fields the broker sets. *)
Record CallOptions := {
  Reason : string;
  IdempotencyKey : string;
  Metadata : option json;
}.

(** The callbacks of the active Attempt and the clock. [cb_CallAgent] returns
    the JSON form of its result, [None] when that does not marshal. *)
Class Callbacks `{!SDK} (W : Type) := {
  cb_CallAgent : Z → string → list (string * json) → CallOptions → W → result (option json) * W;
  cb_ReadRun : Z → string → W → result (option DelegatedRun) * W;
  cb_BoundToolUsed : option (BoundTool → W → option go_error * W);
  cb_onTools : option (W → option go_error * W);
  cb_now : W → Z;
  cb_parent_err : W → option go_error;
  (** Sleep for a duration, or return the context's error when it ends first. *)
  cb_wait : Z → W → option go_error * W;
}.

(** One invocation of a callback; a read keeps the run it returned. *)
Inductive invocation `{!SDK} : Type :=
  | InvCall (target : string) (input : list (string * json)) (options : CallOptions)
  | InvRead (runID : string) (seen : option DelegatedRun).

(** The private socket's connections ([mu], [connections] and [once]). *)
Module Connections.
Record state := { live : gset nat; shut : bool }.
Definition init : state := {| live := ∅; shut := false |}.

(** [accept]: one accepted connection; refused when the context is done or
    eight are live. *)
Definition accept (ctx_done : bool) (c : nat) (s : state) : state :=
  if ctx_done || (8 <=? size (live s))%nat then s
  else {| live := {[ c ]} ∪ live s; shut := shut s |}.

(** The deferred close of one connection's goroutine. *)
Definition finish (c : nat) (s : state) : state :=
  {| live := live s ∖ {[ c ]}; shut := shut s |}.
End Connections.

Section broker.
Context `{!Float64, !SDK}.

Record delegationRequest := {
  rq_Digest : string;
  rq_RunID : string;
  rq_Terminal : bool;
  rq_Summary : RunSummary;
}.

Record Broker := {
  b_runID : string;
  b_targets : list string;
  b_boundTools : list BoundTool;
  b_toolsReady : bool;
  b_requests : gmap string delegationRequest;
  (** [ctx.Err()] once the broker's own context was cancelled. *)
  b_cancelled : option go_error;
}.

Context `{!RangeOrder string delegationRequest}.
Context {W : Type} `{!Callbacks W}.

Record bstate := { broker : Broker; world : W; log : list invocation }.

Definition with_broker (s : bstate) (b : Broker) : bstate :=
  {| broker := b; world := world s; log := log s |}.
Definition set_requests (m : gmap string delegationRequest) (b : Broker) : Broker :=
  {| b_runID := b_runID b; b_targets := b_targets b; b_boundTools := b_boundTools b;
     b_toolsReady := b_toolsReady b; b_requests := m; b_cancelled := b_cancelled b |}.
Definition set_ready (b : Broker) : Broker :=
  {| b_runID := b_runID b; b_targets := b_targets b; b_boundTools := b_boundTools b;
     b_toolsReady := true; b_requests := b_requests b; b_cancelled := b_cancelled b |}.

Definition M := stM bstate.

Definition get_broker : M Broker := λ s, (Ok (broker s), s).
Definition put_requests (m : gmap string delegationRequest) : M unit := λ s,
  (Ok tt, with_broker s (set_requests m (broker s))).
Definition insert_request (key : string) (r : delegationRequest) : M unit := λ s,
  (Ok tt, with_broker s (set_requests (<[key := r]> (b_requests (broker s))) (broker s))).
Definition delete_request (key : string) : M unit := λ s,
  (Ok tt, with_broker s (set_requests (delete key (b_requests (broker s))) (broker s))).

(** [b.ctx.Err()] *)
Definition ctx_err (s : bstate) : option go_error :=
  match b_cancelled (broker s) with
  | Some e => Some e
  | None => cb_parent_err (world s)
  end.
Definition now : M Z := λ s, (Ok (cb_now (world s)), s).

(** The callbacks, as the broker calls them. *)
Definition CallAgent (deadline : Z) (target : string) (input : list (string * json)) (o : CallOptions)
    : M (option json) := λ s,
  let '(r, w) := cb_CallAgent deadline target input o (world s) in
  (r, {| broker := broker s; world := w; log := log s ++ [InvCall target input o] |}).
Definition ReadRun (deadline : Z) (runID : string) : M (option DelegatedRun) := λ s,
  let '(r, w) := cb_ReadRun deadline runID (world s) in
  (r, {| broker := broker s; world := w; log := log s ++ [InvRead runID (match r with Ok seen => seen | Err _ => None end)] |}).
Definition wait (d : Z) : M unit := λ s,
  let '(e, w) := cb_wait d (world s) in
  (match e with Some e => Err e | None => Ok tt end,
   {| broker := broker s; world := w; log := log s |}).
Definition run_hook (hook : option (W → option go_error * W)) : M unit := λ s,
  match hook with
  | None => (Ok tt, s)
  | Some f => let '(e, w) := f (world s) in
              (match e with Some e => Err e | None => Ok tt end,
               {| broker := broker s; world := w; log := log s |})
  end.

(** [terminalRun] *)
Definition terminalRun (run : option DelegatedRun) : bool :=
  match run with
  | None => false
  | Some r => match run_Status r with
              | RuntimeRunSuccess | RuntimeRunFailed | RuntimeRunCanceled | RuntimeRunTimeout => true
              | _ => false
              end
  end.

Definition terminal_of (r : delegationRequest) : delegationRequest :=
  {| rq_Digest := rq_Digest r; rq_RunID := rq_RunID r; rq_Terminal := true; rq_Summary := rq_Summary r |}.

(** [markTerminal] *)
Definition markTerminal (runID : string) (m : gmap string delegationRequest)
    : gmap string delegationRequest :=
  (λ r, if bool_decide (rq_RunID r = runID) then terminal_of r else r) <$> m.

(** [definiteRejection] *)
Definition definiteRejection (e : go_error) : string :=
  match errors_As_api e with
  | None => ""
  | Some (status, code, _) =>
      if (status =? 403) && (bool_decide (code = "PERMISSION_DENIED") || bool_decide (code = "FORBIDDEN"))
      then "Delegation rejected: permission denied. No child was created; you may continue or choose another allowed Agent."
      else if (status =? 401) && bool_decide (code = "UNAUTHORIZED")
      then "Delegation rejected: authorization is invalid. No child was created."
      else if ((status =? 422) && bool_decide (code = "VALIDATION_FAILED"))
              || ((status =? 400) && bool_decide (code = "BAD_REQUEST"))
      then "Delegation rejected: invalid request. No child was created; correct the request before retrying."
      else if (status =? 429) && bool_decide (code = "RATE_LIMITED")
      then "Delegation rejected: rate limit reached. No child was created; retry later."
      else ""
  end.

(** [decodeArguments]: one strict JSON value and nothing after it. [None] is
    an empty message. *)
Definition decodeArguments {R} (fs : list (field R)) (zero : R) (raw : option json) : result R :=
  of_option (ESafe "invalid delegation arguments")
    (j ← raw; decode_struct true fs zero j).

(** The loop both [delegate_agent] and [EnsureComplete] run over the pending
    requests: settled ones are skipped, an unknown creation or a live child
    stops it, a finished child is marked. *)
Fixpoint settle (unresolved : go_error) (active : string → go_error) (deadline : Z)
    (l : list (string * delegationRequest)) : M unit :=
  match l with
  | [] => mret tt
  | (key, pending) :: l' =>
      if rq_Terminal pending then settle unresolved active deadline l'
      else if bool_decide (rq_RunID pending = "") then st_fail unresolved
      else
        state ← ReadRun deadline (rq_RunID pending);
        if negb (terminalRun state) then st_fail (active (rq_RunID pending))
        else insert_request key (terminal_of pending);; settle unresolved active deadline l'
  end.

(** ** delegate_agent *)
Record delegateArgs := {
  da_Target : string;
  da_Input : option (list (string * json));
  da_Reason : string;
  da_Key : string;
}.
Definition delegate_zero : delegateArgs :=
  {| da_Target := ""; da_Input := None; da_Reason := ""; da_Key := "" |}.
Definition delegate_fields : list (field delegateArgs) :=
  [f_string "target_agent_id" (λ v r, {| da_Target := v; da_Input := da_Input r;
     da_Reason := da_Reason r; da_Key := da_Key r |});
   f_map "input" da_Input (λ v r, {| da_Target := da_Target r; da_Input := v;
     da_Reason := da_Reason r; da_Key := da_Key r |});
   f_string "reason" (λ v r, {| da_Target := da_Target r; da_Input := da_Input r;
     da_Reason := v; da_Key := da_Key r |});
   f_string "request_key" (λ v r, {| da_Target := da_Target r; da_Input := da_Input r;
     da_Reason := da_Reason r; da_Key := v |})].

(** [json.Marshal(request)] and its digest. *)
Definition delegate_canonical (r : delegateArgs) : string :=
  marshal (JObj ([("target_agent_id", JStr (da_Target r)); ("input", map_json (da_Input r))]
                 ++ (if bool_decide (da_Reason r = "") then [] else [("reason", JStr (da_Reason r))])
                 ++ [("request_key", JStr (da_Key r))])).
Definition delegate_digest (r : delegateArgs) : string := sha256 (delegate_canonical r).

Definition nul : string := str_of_bytes [0].

Definition idempotency_key (runID key : string) : string :=
  "native-delegation-" +:+ sha256_hex (runID +:+ nul +:+ key).

Definition call_options (runID : string) (r : delegateArgs) (bound : option BoundTool) : CallOptions :=
  {| Reason := da_Reason r;
     IdempotencyKey := idempotency_key runID (da_Key r);
     Metadata := (λ t, go_obj [(CallMetadataKey, go_obj [("binding_id", JStr (BindingID t));
                                                          ("digest", JStr (Digest t))])]) <$> bound |}.

Definition target_allowed (b : Broker) (bound : option BoundTool) (target : string) : bool :=
  match bound with Some t => bool_decide (TargetID t = target) | None => false end
  || bool_decide (target ∈ b_targets b).

Definition delegate_valid (b : Broker) (bound : option BoundTool) (r : delegateArgs) : bool :=
  target_allowed b bound (da_Target r) &&
  match da_Input r with Some _ => true | None => false end &&
  negb (slen (da_Key r) =? 0) && (slen (da_Key r) <=? 128) &&
  bool_decide (TrimSpace (da_Key r) = da_Key r) &&
  (Z.of_nat (length (runes (da_Reason r))) <=? 500).

Definition errUnresolvedFirst : go_error := ESafe "retry the unresolved delegation request first".
Definition errActiveFirst : go_error := ESafe "wait for the active delegated Run first".

(** What follows once the key is admitted: the callback and its outcome. *)
Definition create_child (deadline : Z) (bound : option BoundTool) (r : delegateArgs) (existed : bool)
    : M RunSummary :=
  b ← get_broker;
  outcome ← st_try (CallAgent deadline (da_Target r) (default [] (da_Input r))
                      (call_options (b_runID b) r bound));
  match outcome with
  | Err e =>
      let reason := definiteRejection e in
      if negb (bool_decide (reason = "")) && negb existed
      then delete_request (da_Key r);; st_fail (ESafe reason)
      else st_fail e
  | Ok encoded =>
      match encoded with
      | None => st_fail (ENew "json: unsupported value")
      | Some j =>
          match summary_unmarshal j with
          | Some summary =>
              if uuidPattern (summary_RunID summary) then
                insert_request (da_Key r)
                  {| rq_Digest := delegate_digest r; rq_RunID := summary_RunID summary;
                     rq_Terminal := false; rq_Summary := summary |};;
                mret summary
              else st_fail (ESafe "invalid delegated Run response")
          | None => st_fail (ESafe "invalid delegated Run response")
          end
      end
  end.

(** The [delegate_agent] case, after the arguments are decoded. *)
Definition delegate (deadline : Z) (bound : option BoundTool) (r : delegateArgs) : M RunSummary :=
  b ← get_broker;
  if negb (delegate_valid b bound r) then st_fail (ESafe "invalid delegation request")
  else
    match b_requests b !! da_Key r with
    | Some previous =>
        if negb (bool_decide (rq_Digest previous = delegate_digest r))
        then st_fail (ESafe "request_key conflicts with a previous request")
        else if negb (bool_decide (rq_RunID previous = "")) then mret (rq_Summary previous)
        else create_child deadline bound r true
    | None =>
        if (64 <=? size (b_requests b))%nat then st_fail (ESafe "delegation request limit reached")
        else
          settle errUnresolvedFirst (λ _, errActiveFirst) deadline (go_range (b_requests b));;
          insert_request (da_Key r)
            {| rq_Digest := delegate_digest r; rq_RunID := ""; rq_Terminal := false;
               rq_Summary := summary_zero |};;
          create_child deadline bound r false
    end.

(** ** get_delegated_run and wait_delegated_run *)
Record readArgs := { ra_RunID : string; ra_WaitMS : Z }.
Definition read_zero : readArgs := {| ra_RunID := ""; ra_WaitMS := 0 |}.
Definition read_fields : list (field readArgs) :=
  [f_string "child_run_id" (λ v r, {| ra_RunID := v; ra_WaitMS := ra_WaitMS r |});
   f_int "wait_ms" (λ v r, {| ra_RunID := ra_RunID r; ra_WaitMS := v |})].

Definition read_valid (is_get : bool) (r : readArgs) : bool :=
  uuidPattern (ra_RunID r) && (0 <=? ra_WaitMS r) && (ra_WaitMS r <=? 30000) &&
  negb (is_get && negb (ra_WaitMS r =? 0)).

Definition read_duration (is_get : bool) (r : readArgs) : Z :=
  let d := ra_WaitMS r * millisecond in
  if negb is_get && (d =? 0) then 30 * second else d.

Definition errOutOfFuel : go_error := ESentinel "fuel" "the wait loop ran out of fuel".

(** One pass of the polling loop: [inl] is a result, [inr] goes round again. *)
Definition read_pass (readCtx deadline : Z) (runID : string) (last : option DelegatedRun)
    : M (DelegatedRun + DelegatedRun) :=
  outcome ← st_try (ReadRun readCtx runID);
  match outcome with
  | Err e =>
      s ← st_get;
      match last with
      | Some l =>
          if errors_Is e context_DeadlineExceeded && match ctx_err s with None => true | _ => false end
          then mret (inl l) else st_fail e
      | None => st_fail e
      end
  | Ok None => st_fail (ESafe "missing delegated Run result")
  | Ok (Some run) =>
      b ← get_broker;
      (if terminalRun (Some run) then put_requests (markTerminal runID (b_requests b)) else mret tt);;
      t ← now;
      let remaining := deadline - t in
      if negb (bool_decide (run_Status run = RuntimeRunRunning)) || (remaining <=? 0) then mret (inl run)
      else wait (Z.min second remaining);; mret (inr run)
  end.

Fixpoint read_loop (fuel : nat) (readCtx deadline : Z) (runID : string) (last : option DelegatedRun)
    : M DelegatedRun :=
  match fuel with
  | O => st_fail errOutOfFuel
  | S fuel' =>
      step ← read_pass readCtx deadline runID last;
      match step with
      | inl run => mret run
      | inr run => read_loop fuel' readCtx deadline runID (Some run)
      end
  end.

(** Thirty one-second sleeps cover the longest wait. *)
Definition read_fuel : nat := 32.

Definition read_run (callCtx : Z) (is_get : bool) (r : readArgs) : M DelegatedRun :=
  if negb (read_valid is_get r) then st_fail (ESafe "invalid delegated Run read")
  else
    let duration := read_duration is_get r in
    t ← now;
    let deadline := t + duration in
    let readCtx := if 0 <? duration then Z.min callCtx deadline else callCtx in
    read_loop read_fuel readCtx deadline (ra_RunID r) None.

(** ** The tool calls *)
Inductive value : Type :=
  | VSummary (s : RunSummary)
  | VRun (r : DelegatedRun)
  | VJson (j : option json).

(** [callWithBinding]; [call] is the case [bound = None]. *)
Definition callWithBinding (name : string) (raw : option json) (bound : option BoundTool) : M value :=
  s ← st_get;
  match ctx_err s with
  | Some e => st_fail e
  | None =>
      t ← now;
      let callCtx := t + 30 * second in
      if bool_decide (name = "delegate_agent") then
        r ← st_lift (decodeArguments delegate_fields delegate_zero raw);
        summary ← delegate callCtx bound r;
        mret (VSummary summary)
      else if bool_decide (name = "get_delegated_run") || bool_decide (name = "wait_delegated_run") then
        r ← st_lift (decodeArguments read_fields read_zero raw);
        run ← read_run callCtx (bool_decide (name = "get_delegated_run")) r;
        mret (VRun run)
      else st_fail (ESafe "unknown delegation tool")
  end.
Definition call (name : string) (raw : option json) : M value := callWithBinding name raw None.

Definition mark_ready : M unit := λ s, (Ok tt, with_broker s (set_ready (broker s))).

Record boundArgs := { ba_Arguments : option (list (string * json)); ba_Key : string }.
Definition bound_zero : boundArgs := {| ba_Arguments := None; ba_Key := "" |}.
Definition bound_fields : list (field boundArgs) :=
  [f_map "arguments" ba_Arguments (λ v r, {| ba_Arguments := v; ba_Key := ba_Key r |});
   f_string "request_key" (λ v r, {| ba_Arguments := ba_Arguments r; ba_Key := v |})].

(** The arguments of the delegation a bound tool call stands for. *)
Definition bound_request (tool : BoundTool) (arguments : list (string * json)) (key : string) : json :=
  go_obj [("target_agent_id", JStr (TargetID tool)); ("input", JObj arguments);
          ("request_key", JStr ("mcp-" +:+ sha256_hex (BindingID tool +:+ nul +:+ key)))].
Definition bound_wait (runID : string) : json :=
  go_obj [("child_run_id", JStr runID); ("wait_ms", JNum "30000")].

Definition retry_result : json :=
  go_obj [("status", JStr "running");
          ("retry", JStr "Call this tool again with the same arguments and request_key to wait for its result.")].

(** The body of [callTool] for a selected tool. *)
Definition callBound (tool : BoundTool) (raw : option json) : M value :=
  b ← get_broker;
  (if b_toolsReady b then mret tt else run_hook cb_onTools;; mark_ready);;
  args ← st_lift (decodeArguments bound_fields bound_zero raw);
  match ba_Arguments args with
  | None => st_fail (ESafe "arguments and request_key are required")
  | Some arguments =>
      if (slen (ba_Key args) =? 0) || (128 <? slen (ba_Key args))
      then st_fail (ESafe "arguments and request_key are required")
      else
        result ← callWithBinding "delegate_agent"
                   (parse (marshal (bound_request tool arguments (ba_Key args)))) (Some tool);
        match result with
        | VSummary summary =>
            state ← call "wait_delegated_run" (parse (marshal (bound_wait (summary_RunID summary))));
            match state with
            | VRun run =>
                match run_Status run with
                | RuntimeRunSuccess =>
                    run_hook ((λ f, f tool) <$> cb_BoundToolUsed);; mret (VJson (run_Output run))
                | RuntimeRunRunning => mret (VJson (Some retry_result))
                | _ => st_fail (ESafe "MCP tool execution failed. Its access may have changed; ask the Agent owner to review the tool configuration.")
                end
            | _ => st_fail (ESafe "missing MCP execution result")
            end
        | _ => st_fail (ESafe "invalid MCP execution response")
        end
  end.

(** [callTool] *)
Definition callTool (name : string) (raw : option json) : M value :=
  b ← get_broker;
  match find (λ t, bool_decide (Name t = name)) (b_boundTools b) with
  | Some tool => callBound tool raw
  | None => if bool_decide (b_targets b = []) then st_fail (ESafe "unknown MCP tool") else call name raw
  end.

(** [EnsureComplete] *)
Definition ErrBoundToolsUnavailable : go_error :=
  ESentinel "agentdelegation.ErrBoundToolsUnavailable"
    "selected MCP tools were not discovered by the provider".
Definition errCreationUnresolved : go_error :=
  ESafe "delegation creation is unresolved; retry its request_key before finishing".
Definition EnsureComplete : M unit :=
  b ← get_broker;
  if negb (bool_decide (b_boundTools b = [])) && negb (b_toolsReady b) then st_fail ErrBoundToolsUnavailable
  else
    t ← now;
    settle errCreationUnresolved (λ id, ESafe ("delegated Run is unfinished: " +:+ id))
      (t + 30 * second) (go_range (b_requests b)).

(** [ToolsDiscovered] *)
Definition ToolsDiscovered (s : bstate) : bool := b_toolsReady (broker s).

(** [Close]: the first call cancels the context; the connections end with it. *)
Definition Close : M unit := λ s,
  (Ok tt, with_broker s
     {| b_runID := b_runID (broker s); b_targets := b_targets (broker s);
        b_boundTools := b_boundTools (broker s); b_toolsReady := b_toolsReady (broker s);
        b_requests := b_requests (broker s);
        b_cancelled := Some (default context_Canceled (ctx_err s)) |}).

(** ** The MCP methods *)
Definition object (properties : list (string * json)) (required : list string) : json :=
  go_obj [("type", JStr "object"); ("properties", go_obj properties);
          ("required", JArr (map JStr required)); ("additionalProperties", JBool false)].
Definition num (n : string) : json := JNum n.
Definition key_schema : json :=
  go_obj [("type", JStr "string"); ("minLength", num "1"); ("maxLength", num "128")].
Definition read_property : string * json :=
  ("child_run_id", go_obj [("type", JStr "string"); ("format", JStr "uuid")]).
Definition wait_property : string * json :=
  ("wait_ms", go_obj [("type", JStr "integer"); ("minimum", num "0"); ("maximum", num "30000");
                      ("default", num "30000")]).

(** [tools] *)
Definition bound_tool_entry (t : BoundTool) : json :=
  go_obj [("name", JStr (Name t));
          ("description", JStr (Title t +:+ ": " +:+ Description t +:+ ". Reuse request_key when retrying this call. If running, call again with the same request_key to get its result."));
          ("inputSchema", object [("arguments", map_json (InputSchema t)); ("request_key", key_schema)]
                            ["arguments"; "request_key"])].
Definition tools (b : Broker) : list json :=
  map bound_tool_entry (b_boundTools b) ++
  if bool_decide (b_targets b = []) then []
  else
    [go_obj [("name", JStr "delegate_agent");
             ("description", JStr "Delegate an explicit task/context to an allowed Agent. Reuse request_key for retries. One child may run at a time. This returns a Run ID; use wait_delegated_run to obtain its result before finishing.");
             ("inputSchema", object
                [("target_agent_id", go_obj [("type", JStr "string"); ("enum", JArr (map JStr (b_targets b)))]);
                 ("input", go_obj [("type", JStr "object")]);
                 ("reason", go_obj [("type", JStr "string"); ("maxLength", num "500")]);
                 ("request_key", key_schema)]
                ["target_agent_id"; "input"; "request_key"])];
     go_obj [("name", JStr "get_delegated_run");
             ("description", JStr "Read status, output and error of a direct child Run of this active parent.");
             ("inputSchema", object [read_property] ["child_run_id"])];
     go_obj [("name", JStr "wait_delegated_run");
             ("description", JStr "Wait up to 30 seconds for a direct child result. A running response requires another wait. The wait stops with the parent Attempt.");
             ("inputSchema", object [read_property; wait_property] ["child_run_id"])]].

Record rpcRequest := {
  JSONRPC : string;
  ID : option json;
  Method : string;
  Params : option json;
}.
Definition rpc_zero : rpcRequest := {| JSONRPC := ""; ID := None; Method := ""; Params := None |}.
Definition rpc_fields : list (field rpcRequest) :=
  [f_string "jsonrpc" (λ v r, {| JSONRPC := v; ID := ID r; Method := Method r; Params := Params r |});
   f_raw "id" (λ v r, {| JSONRPC := JSONRPC r; ID := v; Method := Method r; Params := Params r |});
   f_string "method" (λ v r, {| JSONRPC := JSONRPC r; ID := ID r; Method := v; Params := Params r |});
   f_raw "params" (λ v r, {| JSONRPC := JSONRPC r; ID := ID r; Method := Method r; Params := v |})].

Record toolCall := { tc_Name : string; tc_Arguments : option json; tc_Meta : option json }.
Definition tool_call_zero : toolCall := {| tc_Name := ""; tc_Arguments := None; tc_Meta := None |}.
Definition tool_call_fields : list (field toolCall) :=
  [f_string "name" (λ v r, {| tc_Name := v; tc_Arguments := tc_Arguments r; tc_Meta := tc_Meta r |});
   f_raw "arguments" (λ v r, {| tc_Name := tc_Name r; tc_Arguments := v; tc_Meta := tc_Meta r |});
   f_raw "_meta" (λ v r, {| tc_Name := tc_Name r; tc_Arguments := tc_Arguments r; tc_Meta := v |})].

Definition value_marshal (v : value) : option json :=
  match v with
  | VSummary s => summary_marshal s
  | VRun r => run_marshal r
  | VJson j => j
  end.

Definition genericFailure : string :=
  "Delegation operation failed. Reuse the same request_key when retrying creation.".
Definition overLimit : string := "Delegated result exceeds the tool response limit.".

(** The text and error flag of a tool result. *)
Definition tool_text (r : result value) : string * bool :=
  match r with
  | Err (ESafe msg) => (msg, true)
  | Err _ => (genericFailure, true)
  | Ok v =>
      match value_marshal v with
      | Some j => if maxMessageBytes <? slen (marshal j) then (overLimit, true) else (marshal j, false)
      | None => (overLimit, true)
      end
  end.
Definition tool_result (r : result value) : json :=
  let '(text, bad) := tool_text r in
  go_obj ((if bad : bool then [("isError", JBool true)] else []) ++
          [("content", JArr [go_obj [("type", JStr "text"); ("text", JStr text)]])]).

Definition errUnknownMethod : go_error := ESafe "unknown delegation MCP method".
Definition initialize_result : json :=
  go_obj [("protocolVersion", JStr "2024-11-05");
          ("capabilities", go_obj [("tools", go_obj [])]);
          ("serverInfo", go_obj [("name", JStr "openlinker-delegation"); ("version", JStr "1")])].

(** [dispatch] *)
Definition dispatch (request : rpcRequest) : M json :=
  if negb (bool_decide (JSONRPC request = "2.0")) then st_fail (ESafe "invalid JSON-RPC version")
  else if bool_decide (Method request = "initialize") then mret initialize_result
  else if bool_decide (Method request = "ping") then mret (go_obj [])
  else if bool_decide (Method request = "tools/list") then
    hooked ← st_try (run_hook cb_onTools);
    match hooked with
    | Err _ => st_fail (ESafe "tool readiness could not be recorded")
    | Ok _ => mark_ready;; b ← get_broker; mret (go_obj [("tools", JArr (tools b))])
    end
  else if bool_decide (Method request = "tools/call") then
    c ← st_lift (decodeArguments tool_call_fields tool_call_zero (Params request));
    r ← st_try (callTool (tc_Name c) (tc_Arguments c));
    mret (tool_result r)
  else st_fail errUnknownMethod.

(** One line of [serve]: [None] ends the connection, [Some None] is a
    notification, [Some (Some j)] the response written back. *)
Definition serve_line (line : string) : M (option (option json)) :=
  match (j ← parse line; decode_struct false rpc_fields rpc_zero j) with
  | None => mret None
  | Some request =>
      match ID request with
      | None => mret (Some None)
      | Some id =>
          r ← st_try (dispatch request);
          mret (Some (Some (go_obj (
            [("jsonrpc", JStr "2.0"); ("id", id)] ++
            match r with
            | Ok result => [("result", result)]
            | Err e =>
                let code := if errors_Is e errUnknownMethod then "-32601" else "-32602" in
                [("error", go_obj [("code", num code); ("message", JStr (error_text e))])]
            end))))
      end
  end.

(** [serve] over the lines of a connection: a line the scanner cannot hold ends it. *)
Fixpoint serve (lines : list string) : M (list json) :=
  match lines with
  | [] => mret []
  | line :: lines' =>
      if maxMessageBytes <=? slen line then mret []
      else
        r ← serve_line line;
        match r with
        | None => mret []
        | Some None => serve lines'
        | Some (Some j) => rest ← serve lines'; mret (j :: rest)
        end
  end.
End broker.
Global Arguments bstate {_} _.

(** ** Starting

    [StartBound] creates a private directory and a listening socket.  The
    operating system is the class [StartOS]: what each call returns.  The
    directories and sockets that exist, and the modes last set, are state. *)
Record Stat := { st_dir : bool; st_setgid : bool; st_perm : Z; st_uid : Z; st_gid : Z; st_sys : bool }.

Class StartOS := {
  os_IsAbs : string → bool;
  os_MkdirTemp : string → string → result string;
  os_Lstat : string → result Stat;
  os_Geteuid : Z;
  os_Listen : string → option go_error;
  os_Chmod : string → Z → option go_error;
}.

Record resources := {
  rs_dirs : gset string;
  rs_listeners : gset string;
  rs_modes : gmap string Z;
}.

(** Permission bits, written as in the sources: octal 600, 710 and 660. *)
Definition mode600 : Z := 6 * 64.
Definition mode710 : Z := 7 * 64 + 1 * 8.
Definition mode660 : Z := 6 * 64 + 6 * 8.

(** [delegationSocketMode] (permissions_unix.go) *)
Definition delegationSocketMode `{!StartOS} (root directory : string) : result Z :=
  if bool_decide (root = "") then Ok mode600
  else
    info ← os_Lstat root;
    if negb (st_setgid info) then Ok mode600
    else if negb (st_sys info) || negb (st_dir info) || negb (st_uid info =? os_Geteuid) ||
            negb (st_perm info =? mode710)
    then Err (ENew "delegation shared root must be owner-controlled with mode 2710")
    else
      child ← os_Lstat directory;
      if negb (st_sys child) || negb (st_dir child) || negb (st_uid child =? st_uid info) ||
         negb (st_gid child =? st_gid info)
      then Err (ENew "delegation directory did not inherit the trusted Provider group")
      else Ok mode660.

Section start.
Context `{!SDK, !StartOS}.

Definition R := stM resources.

Definition MkdirTemp (root pattern : string) : R string := λ s,
  match os_MkdirTemp root pattern with
  | Err e => (Err (EWrap "create private delegation directory: " e ""), s)
  | Ok d => (Ok d, {| rs_dirs := {[ d ]} ∪ rs_dirs s; rs_listeners := rs_listeners s; rs_modes := rs_modes s |})
  end.
Definition RemoveAll (d : string) : R unit := st_modify (λ s,
  {| rs_dirs := rs_dirs s ∖ {[ d ]}; rs_listeners := rs_listeners s; rs_modes := rs_modes s |}).
Definition Listen (socket : string) : R unit := λ s,
  match os_Listen socket with
  | Some e => (Err (EWrap "listen on delegation socket: " e ""), s)
  | None => (Ok tt, {| rs_dirs := rs_dirs s; rs_listeners := {[ socket ]} ∪ rs_listeners s;
                       rs_modes := rs_modes s |})
  end.
Definition CloseListener (socket : string) : R unit := st_modify (λ s,
  {| rs_dirs := rs_dirs s; rs_listeners := rs_listeners s ∖ {[ socket ]}; rs_modes := rs_modes s |}).
Definition Chmod (path : string) (mode : Z) : R unit := λ s,
  match os_Chmod path mode with
  | Some e => (Err e, s)
  | None => (Ok tt, {| rs_dirs := rs_dirs s; rs_listeners := rs_listeners s;
                       rs_modes := <[path := mode]> (rs_modes s) |})
  end.

(** Run [m]; on an error run [cleanup] and return that error. *)
Definition or_cleanup {A} (m : R A) (cleanup : R unit) : R A :=
  r ← st_try m;
  match r with Ok a => mret a | Err e => cleanup;; st_fail e end.

(** The checks [StartBound] makes before it touches the file system. *)
Definition start_checks (root runID : string) (targets : list string) (bound : list BoundTool)
    (has_CallAgent has_ReadRun : bool) : result unit :=
  match ValidateBoundTools bound with
  | Some e => Err e
  | None =>
      if (bool_decide (targets = []) && bool_decide (bound = [])) || negb has_CallAgent ||
         negb has_ReadRun || negb (uuidPattern runID)
      then Err (ESafe "delegation requires targets and active Attempt callbacks with result support")
      else
        match ValidateTargets targets with
        | Some e => Err e
        | None =>
            if negb (bool_decide (root = "")) && negb (os_IsAbs root)
            then Err (ESafe "delegation broker root must be absolute") else Ok tt
        end
  end.

(** [StartBound]; [Start] is the case [bound = \[\]].  The result is the
    socket's path and the broker. *)
Definition StartBound (root runID : string) (targets : list string) (bound : list BoundTool)
    (has_CallAgent has_ReadRun : bool) : R (string * Broker) :=
  st_lift (start_checks root runID targets bound has_CallAgent has_ReadRun);;
  directory ← MkdirTemp root "ol-d-";
  socketMode ← or_cleanup (st_lift (delegationSocketMode root directory)) (RemoveAll directory);
  let socket := directory +:+ "/mcp.sock" in
  or_cleanup (Listen socket) (RemoveAll directory);;
  or_cleanup (Chmod socket socketMode) (CloseListener socket;; RemoveAll directory);;
  (if socketMode =? mode660
   then or_cleanup (Chmod directory mode710) (CloseListener socket;; RemoveAll directory)
   else mret tt);;
  mret (socket, {| b_runID := runID; b_targets := targets; b_boundTools := bound;
                   b_toolsReady := false; b_requests := ∅; b_cancelled := None |}).

(** What [Close] releases. *)
Definition release (directory : string) : R unit :=
  CloseListener (directory +:+ "/mcp.sock");; RemoveAll directory.

Definition probe_id : string := "11111111-1111-4111-8111-111111111111".

(** [CheckBrokerRoot]: start a broker, then close it. *)
Definition CheckBrokerRoot (root : string) : R unit :=
  started ← StartBound root probe_id [probe_id] [] true true;
  release (TrimSuffix started.1 "/mcp.sock").
End start.
