(* ===== verification/BrokerProps.v ===== *)
(** * Theorems about the delegation broker

    The broker as a transition system: its operations are the steps, and the
    invariant, the stability of resolved requests, the single live child, the
    termination of the polling loop and the error texts are proved of every
    reachable state. *)

From S2P Require Import Prelude GoStrings Sha256 Json BoundTools Broker.
From stdpp Require Import options.

Open Scope Z_scope.

Section broker_props.
Context `{!Float64, !SDK, !RangeOrder string delegationRequest} {W : Type} `{!Callbacks W}.
Implicit Types (s : bstate W) (r : delegationRequest) (k : string).

(** ** The invariant *)

Definition resolved (r : delegationRequest) : Prop := rq_RunID r ≠ "".

Definition request_ok (k : string) (r : delegationRequest) : Prop :=
  1 ≤ slen k ≤ 128 ∧
  (resolved r → uuidPattern (rq_RunID r) = true ∧ rq_RunID r = summary_RunID (rq_Summary r)) ∧
  (rq_Terminal r = true → resolved r).

(** The child of [r] was seen in a final state. *)
Definition seen_final (l : list invocation) (r : delegationRequest) : Prop :=
  ∃ run, InvRead (rq_RunID r) (Some run) ∈ l ∧ terminalRun (Some run) = true.

(** A creation the broker may have asked for. *)
Definition call_ok (b : Broker) (target : string) (o : CallOptions) : Prop :=
  ∃ (bound : option BoundTool) (a : delegateArgs),
    (∀ t, bound = Some t → t ∈ b_boundTools b) ∧ target = da_Target a ∧
    delegate_valid b bound a = true ∧ o = call_options (b_runID b) a bound.

Record binv (s : bstate W) : Prop := {
  inv_size : (size (b_requests (broker s)) ≤ 64)%nat;
  inv_request : map_Forall request_ok (b_requests (broker s));
  inv_single : ∀ k1 k2 r1 r2,
    b_requests (broker s) !! k1 = Some r1 → b_requests (broker s) !! k2 = Some r2 →
    rq_Terminal r1 = false → rq_Terminal r2 = false → k1 = k2;
  inv_seen : ∀ k r, b_requests (broker s) !! k = Some r → rq_Terminal r = true → seen_final (log s) r;
  inv_calls : ∀ t i o, InvCall t i o ∈ log s → call_ok (broker s) t o;
}.

(** What a step may change: nothing fixed at the start, a longer log, and of
    a resolved request only its [Terminal] flag, upwards. *)
Definition same_creation (r r' : delegationRequest) : Prop :=
  rq_Digest r' = rq_Digest r ∧ rq_RunID r' = rq_RunID r ∧ rq_Summary r' = rq_Summary r ∧
  (rq_Terminal r = true → rq_Terminal r' = true).

Record evolves (s s' : bstate W) : Prop := {
  ev_runID : b_runID (broker s') = b_runID (broker s);
  ev_targets : b_targets (broker s') = b_targets (broker s);
  ev_tools : b_boundTools (broker s') = b_boundTools (broker s);
  ev_log : log s `prefix_of` log s';
  ev_requests : ∀ k r, b_requests (broker s) !! k = Some r → resolved r →
    ∃ r', b_requests (broker s') !! k = Some r' ∧ same_creation r r';
}.

Lemma same_creation_refl r : same_creation r r.
Proof. by repeat split. Qed.

Lemma same_creation_trans r1 r2 r3 : same_creation r1 r2 → same_creation r2 r3 → same_creation r1 r3.
Proof. intros (?&?&?&?) (?&?&?&?). repeat split; try congruence; auto. Qed.

Lemma same_creation_terminal r : same_creation r (terminal_of r).
Proof. by repeat split. Qed.

Lemma evolves_refl s : evolves s s.
Proof. split; [done..|]. intros k r Hk _. eauto using same_creation_refl. Qed.

Lemma evolves_trans s1 s2 s3 : evolves s1 s2 → evolves s2 s3 → evolves s1 s3.
Proof.
  intros [] []. split; try congruence; [by etrans|].
  intros k r Hk Hr. destruct (ev_requests0 k r Hk Hr) as (r' & Hk' & Hs).
  destruct (ev_requests1 k r' Hk') as (r'' & Hk'' & Hs').
  { unfold resolved in *. destruct Hs as (_ & -> & _). done. }
  eauto using same_creation_trans.
Qed.

#[local] Instance evolves_preorder : PreOrder evolves.
Proof. split; [intros s; apply evolves_refl|intros ???; apply evolves_trans]. Qed.

(** ** Preservation by the primitive operations *)

Definition good (s s' : bstate W) : Prop := binv s' ∧ evolves s s'.

Lemma good_trans s1 s2 s3 : good s1 s2 → good s2 s3 → good s1 s3.
Proof. intros [_ ?] [??]. split; [done|by etrans]. Qed.

Lemma seen_final_mono l l' r : l `prefix_of` l' → seen_final l r → seen_final l' r.
Proof.
  intros [x ->] (run & Hin & Ht). exists run. split; [|done]. rewrite elem_of_app. by left.
Qed.

Lemma good_refl s : binv s → good s s.
Proof. by split. Qed.

(** The world, the readiness flag and the cancellation are not in the invariant. *)
Lemma good_frame s b w :
  b_runID b = b_runID (broker s) → b_targets b = b_targets (broker s) →
  b_boundTools b = b_boundTools (broker s) → b_requests b = b_requests (broker s) →
  binv s → good s {| broker := b; world := w; log := log s |}.
Proof.
  intros Hr Ht Hb Hq []. split.
  - split; simpl; rewrite ?Hq; try done.
    intros t i o Hin. destruct (inv_calls0 t i o Hin) as (bd & a & H1 & H2 & H3 & H4).
    exists bd, a. unfold delegate_valid, target_allowed in *. by rewrite Hb, Ht, Hr.
  - split; simpl; try done. rewrite Hq. eauto using same_creation_refl.
Qed.

Lemma good_read d id s : binv s → good s (ReadRun d id s).2.
Proof.
  intros []. unfold ReadRun. destruct (cb_ReadRun d id (world s)) as [x w]. simpl.
  assert (log s `prefix_of` log s ++ [InvRead id (match x with Ok seen => seen | Err _ => None end)]) as Hp
    by (eexists; reflexivity).
  split; split; simpl; try done; eauto using seen_final_mono, same_creation_refl.
  intros t i o [Hin|Hin]%elem_of_app; [eauto|]. by apply list_elem_of_singleton in Hin.
Qed.

Lemma read_seen d id s run s' :
  ReadRun d id s = (Ok (Some run), s') → InvRead id (Some run) ∈ log s'.
Proof.
  unfold ReadRun. destruct (cb_ReadRun d id (world s)) as [x w]. intros ?; simplify_eq/=.
  rewrite elem_of_app. right. by apply list_elem_of_singleton.
Qed.

Lemma read_requests d id s : b_requests (broker (ReadRun d id s).2) = b_requests (broker s).
Proof. unfold ReadRun. by destruct (cb_ReadRun d id (world s)). Qed.

(** Only marking requests whose child was seen final. *)
Lemma good_update s (m : gmap string delegationRequest) :
  binv s → (size m ≤ 64)%nat →
  (∀ k r', m !! k = Some r' → b_requests (broker s) !! k = Some r' ∨
     ∃ r, b_requests (broker s) !! k = Some r ∧ r' = terminal_of r ∧ resolved r ∧ seen_final (log s) r) →
  (∀ k r, b_requests (broker s) !! k = Some r → ∃ r', m !! k = Some r' ∧ same_creation r r') →
  good s (with_broker s (set_requests m (broker s))).
Proof.
  intros [] Hsz Hold Hnew. split; split; simpl; try done.
  - intros k r' Hk. destruct (Hold k r' Hk) as [?|(r & Hr & -> & Hres & _)]; [by apply inv_request0|].
    destruct (inv_request0 k r Hr) as (H1 & H2 & _).
    split; [exact H1|]. split; [exact H2|]. intros _. exact Hres.
  - intros k1 k2 r1 r2 H1 H2 T1 T2.
    destruct (Hold _ _ H1) as [?|(? & _ & -> & _)]; [|done].
    destruct (Hold _ _ H2) as [?|(? & _ & -> & _)]; [|done]. eauto.
  - intros k r' Hk Ht. destruct (Hold k r' Hk) as [?|(r & Hr & -> & _ & Hf)]; eauto.
  - intros k r Hk _. eauto.
Qed.

Lemma good_insert_terminal s k r :
  binv s → b_requests (broker s) !! k = Some r → resolved r → seen_final (log s) r →
  good s (insert_request k (terminal_of r) s).2.
Proof.
  intros Hs Hk Hr Hf. apply good_update; [done| | |].
  - rewrite map_size_insert_Some by eauto. apply Hs.
  - intros k' r' [[<- <-]|[? ?]]%lookup_insert_Some; eauto 10.
  - intros k' r' Hk'. destruct (decide (k = k')) as [<-|].
    + rewrite lookup_insert_eq. simplify_eq. eauto using same_creation_terminal.
    + rewrite lookup_insert_ne by done. eauto using same_creation_refl.
Qed.

Lemma good_markTerminal s id :
  binv s → id ≠ "" → (∃ run, InvRead id (Some run) ∈ log s ∧ terminalRun (Some run) = true) →
  good s (put_requests (markTerminal id (b_requests (broker s))) s).2.
Proof.
  intros Hs Hid (run & Hin & Ht). apply good_update; [done| | |]; unfold markTerminal.
  - rewrite map_size_fmap. apply Hs.
  - intros k r'. rewrite lookup_fmap. intros (r & -> & Hr)%fmap_Some. case_bool_decide; [right|left; congruence].
    exists r. subst. repeat split; auto. by exists run.
  - intros k r Hk. rewrite lookup_fmap, Hk. simpl. eexists; split; [done|].
    case_bool_decide; auto using same_creation_terminal, same_creation_refl.
Qed.

(** ** The settling loop *)

Definition all_terminal (m : gmap string delegationRequest) : Prop :=
  map_Forall (λ _ r, rq_Terminal r = true) m.

Lemma settle_good un ac d l s x s' :
  NoDup l.*1 → binv s → (∀ k r, (k, r) ∈ l → b_requests (broker s) !! k = Some r) →
  settle un ac d l s = (x, s') →
  good s s' ∧ dom (b_requests (broker s')) = dom (b_requests (broker s)) ∧
  (x = Ok tt → ∀ k r, b_requests (broker s') !! k = Some r → k ∈ l.*1 → rq_Terminal r = true) ∧
  (∀ k, k ∉ l.*1 → b_requests (broker s') !! k = b_requests (broker s) !! k).
Proof.
  revert s. induction l as [|[k r] l IH]; intros s Hnd Hs Hl; simpl; intros Hrun.
  { unfold mret, stM_ret in Hrun. simplify_eq. split_and!; auto using good_refl.
    intros _ k r _ []%not_elem_of_nil. }
  apply list.NoDup_cons in Hnd as [Hnin Hnd]. simpl in Hnin.
  assert (Hkr : b_requests (broker s) !! k = Some r) by (apply Hl; by left).
  destruct (rq_Terminal r) eqn:Ht.
  { destruct (IH s Hnd Hs) as (Hg & Hd & Ha & Ho); [intros; apply Hl; by right|done|].
    split_and!; auto.
    - intros Hok k' r' Hk' [->|Hin]%elem_of_cons; eauto. rewrite Ho, Hkr in Hk' by done. by simplify_eq.
    - intros k' [? ?]%not_elem_of_cons. auto. }
  case_bool_decide as Hid; simpl.
  { unfold st_fail in Hrun. simplify_eq. split_and!; auto using good_refl. done. }
  unfold mbind at 1, stM_bind at 1 in Hrun.
  pose proof (good_read d (rq_RunID r) s Hs) as Hg1.
  pose proof (read_requests d (rq_RunID r) s) as Hq1.
  destruct (ReadRun d (rq_RunID r) s) as [[state|e] s1] eqn:Hread; simpl in *;
    [|simplify_eq; rewrite Hq1; by split_and!].
  destruct (terminalRun state) eqn:Hterm; simpl in *;
    [|unfold st_fail in Hrun; simplify_eq; rewrite Hq1; by split_and!].
  destruct state as [run|]; [|done].
  unfold mbind at 1, stM_bind at 1 in Hrun.
  assert (Hg2 : good s1 (insert_request k (terminal_of r) s1).2).
  { apply good_insert_terminal; [apply Hg1|by rewrite Hq1|done|]. exists run. eauto using read_seen. }
  simpl in Hrun, Hg2.
  set (s2 := with_broker s1 _) in *.
  assert (Hq2 : b_requests (broker s2) = <[k := terminal_of r]> (b_requests (broker s))).
  { simpl. by rewrite Hq1. }
  destruct (IH s2 Hnd (proj1 Hg2)) as (Hg & Hd & Ha & Ho); [|done|].
  { intros k' r' Hin. rewrite Hq2, lookup_insert_ne; [apply Hl; by right|].
    intros <-. apply Hnin. apply list_elem_of_fmap. by exists (k, r'). }
  split_and!; eauto using good_trans.
  - rewrite Hd, Hq2, dom_insert_lookup_L; [done|]. by rewrite Hkr.
  - intros Hok k' r' Hk' [->|Hin]%elem_of_cons; eauto.
    rewrite Ho, Hq2, lookup_insert_eq in Hk' by done. by simplify_eq.
  - intros k' [? ?]%not_elem_of_cons. rewrite Ho, Hq2, lookup_insert_ne by done. done.
Qed.

(** Over the broker's own requests: success means all are final. *)
Lemma settle_requests un ac d s x s' :
  binv s → settle un ac d (go_range (b_requests (broker s))) s = (x, s') →
  good s s' ∧ dom (b_requests (broker s')) = dom (b_requests (broker s)) ∧
  (x = Ok tt → all_terminal (b_requests (broker s'))).
Proof.
  intros Hs Hrun. destruct (settle_good un ac d _ s x s' (NoDup_fst_go_range (b_requests (broker s))) Hs) as (Hg & Hd & Ha & _);
    [|done|].
  { intros k r. apply elem_of_go_range. }
  split_and!; [done..|]. intros Hok k r Hk. eapply Ha; [done..|].
  assert (k ∈ dom (b_requests (broker s))) as [r0 Hr0]%elem_of_dom.
  { rewrite <-Hd. by apply elem_of_dom_2 in Hk. }
  apply list_elem_of_fmap. exists (k, r0). split; [done|]. by apply elem_of_go_range.
Qed.

(** ** Creating a child *)

Definition others_terminal (k : string) (m : gmap string delegationRequest) : Prop :=
  ∀ k' r', m !! k' = Some r' → k' ≠ k → rq_Terminal r' = true.

Lemma good_insert_open s k r :
  binv s → request_ok k r → rq_Terminal r = false → others_terminal k (b_requests (broker s)) →
  (∀ r0, b_requests (broker s) !! k = Some r0 → ¬ resolved r0) →
  (size (<[k := r]> (b_requests (broker s))) ≤ 64)%nat →
  good s (insert_request k r s).2.
Proof.
  intros [] Hok Hopen Hoth Hold Hsz. split; split; simpl; try done.
  - by apply map_Forall_insert_2.
  - intros k1 k2 r1 r2 [[<- <-]|[Hn1 H1]]%lookup_insert_Some [[<- <-]|[Hn2 H2]]%lookup_insert_Some T1 T2; try done.
    + by rewrite (Hoth k2 r2) in T2.
    + by rewrite (Hoth k1 r1) in T1.
    + eauto.
  - intros k' r' [[<- <-]|[_ Hk']]%lookup_insert_Some Ht; [congruence|eauto].
  - intros k' r' Hk' Hr'. destruct (decide (k = k')) as [<-|]; [by destruct (Hold r')|].
    rewrite lookup_insert_ne by done. eauto using same_creation_refl.
Qed.

Lemma good_delete_open s k r :
  binv s → b_requests (broker s) !! k = Some r → ¬ resolved r → good s (delete_request k s).2.
Proof.
  intros [] Hk Hnr. split; split; simpl; try done.
  - etrans; [apply size_delete_le|done].
  - by apply map_Forall_delete.
  - intros k1 k2 r1 r2 [_ Hk1]%lookup_delete_Some [_ Hk2]%lookup_delete_Some. eauto.
  - intros k' r' [? H1]%lookup_delete_Some. eauto.
  - intros k' r' Hk' Hr'. destruct (decide (k = k')) as [<-|]; [by simplify_eq|].
    rewrite lookup_delete_ne by done. eauto using same_creation_refl.
Qed.

Lemma good_call d bound a s :
  binv s → delegate_valid (broker s) bound a = true →
  (∀ t, bound = Some t → t ∈ b_boundTools (broker s)) →
  good s (CallAgent d (da_Target a) (default [] (da_Input a)) (call_options (b_runID (broker s)) a bound) s).2.
Proof.
  intros [] Hv Hb. unfold CallAgent. destruct (cb_CallAgent _ _ _ _ _) as [x w]. simpl.
  assert (∀ y : invocation, log s `prefix_of` log s ++ [y]) as Hp by (intros; eexists; reflexivity).
  split; split; simpl; try done; eauto using seen_final_mono, same_creation_refl.
  intros t i o [Hin|Hin]%elem_of_app; [eauto|]. apply list_elem_of_singleton in Hin. simplify_eq.
  by exists bound, a.
Qed.

Lemma call_requests d t i o s : b_requests (broker (CallAgent d t i o s).2) = b_requests (broker s).
Proof. unfold CallAgent. by destruct (cb_CallAgent d t i o (world s)). Qed.

Lemma valid_key b bound a : delegate_valid b bound a = true → 1 ≤ slen (da_Key a) ≤ 128.
Proof. unfold delegate_valid. intros ?. go_bool. pose proof (slen_nonneg (da_Key a)). lia. Qed.

Lemma create_child_good d bound a ex s r x s' :
  binv s → b_requests (broker s) !! da_Key a = Some r → ¬ resolved r → rq_Terminal r = false →
  delegate_valid (broker s) bound a = true → (∀ t, bound = Some t → t ∈ b_boundTools (broker s)) →
  create_child d bound a ex s = (x, s') → good s s' ∧ others_terminal (da_Key a) (b_requests (broker s')).
Proof.
  intros Hs Hk Hnr Hopen Hv Hb. unfold create_child.
  assert (Hoth : others_terminal (da_Key a) (b_requests (broker s))).
  { intros k' r' Hk' Hne. destruct (rq_Terminal r') eqn:E; [done|]. destruct Hne. by eapply (inv_single s Hs). }
  unfold mbind at 1, stM_bind at 1, get_broker.
  unfold mbind at 1, stM_bind at 1, st_try.
  pose proof (good_call d bound a s Hs Hv Hb) as Hg.
  pose proof (call_requests d (da_Target a) (default [] (da_Input a)) (call_options (b_runID (broker s)) a bound) s) as Hq.
  destruct (CallAgent _ _ _ _ s) as [[enc|e] s1]; simpl in Hg, Hq; unfold st_fail.
  - destruct enc as [j|]; [|intros; simplify_eq; by rewrite Hq].
    destruct (summary_unmarshal j) as [sm|]; [|intros; simplify_eq; by rewrite Hq].
    destruct (uuidPattern (summary_RunID sm)) eqn:Hu; [|intros; simplify_eq; by rewrite Hq].
    unfold mbind, stM_bind. simpl. intros Hrun. apply (f_equal snd) in Hrun as Hs'. simpl in Hs'.
    rewrite <- Hs'. split.
    + eapply good_trans; [done|]. apply good_insert_open; try rewrite Hq; try done.
      * apply Hg.
      * split; [by eapply valid_key|]. by split.
      * intros r0 Hr0. by simplify_eq.
      * rewrite map_size_insert_Some by eauto. apply Hs.
    + simpl. rewrite Hq. intros k' r' [[<- _]|[_ ?]]%lookup_insert_Some; [done|eauto].
  - destruct (negb _ && negb ex).
    + unfold mbind, stM_bind. simpl. intros Hrun. apply (f_equal snd) in Hrun as Hs'. simpl in Hs'.
      rewrite <- Hs'. split.
      * eapply good_trans; [done|]. eapply good_delete_open; [apply Hg|by rewrite Hq|done].
      * simpl. rewrite Hq. intros k' r' [_ ?]%lookup_delete_Some; eauto.
    + intros; simplify_eq; by rewrite Hq.
Qed.

Lemma good_open_request s a :
  binv s → all_terminal (b_requests (broker s)) → b_requests (broker s) !! da_Key a = None →
  (size (b_requests (broker s)) < 64)%nat → 1 ≤ slen (da_Key a) ≤ 128 →
  good s (insert_request (da_Key a)
            {| rq_Digest := delegate_digest a; rq_RunID := ""; rq_Terminal := false;
               rq_Summary := summary_zero |} s).2.
Proof.
  intros Hs Ha Hk Hsz Hlen. apply good_insert_open; try done.
  - intros k' r' Hk' _. by apply (Ha k').
  - intros r0. by rewrite Hk.
  - rewrite map_size_insert_None by done. lia.
Qed.

(** ** Which calls reach the platform *)

Definition is_call (x : invocation) : Prop := match x with InvCall _ _ _ => True | _ => False end.

(** The invocations of one operation. *)
Definition fresh (s s' : bstate W) : list invocation := drop (length (log s)) (log s').

(** An operation that reads at most. *)
Definition reads_only (s s' : bstate W) : Prop :=
  ∃ l, log s' = log s ++ l ∧ Forall (λ x, ¬ is_call x) l.

Lemma reads_refl s s' : log s' = log s → reads_only s s'.
Proof. intros Hl. exists []. by rewrite Hl, app_nil_r. Qed.
Lemma reads_trans s1 s2 s3 : reads_only s1 s2 → reads_only s2 s3 → reads_only s1 s3.
Proof.
  intros (l & H1 & F1) (l' & H2 & F2). exists (l ++ l'). rewrite H2, H1, (assoc_L (++)).
  split; [done|]. by apply Forall_app.
Qed.
Lemma reads_read d id s : reads_only s (ReadRun d id s).2.
Proof.
  unfold ReadRun. destruct (cb_ReadRun d id (world s)). eexists. split; [reflexivity|].
  apply Forall_singleton. by intros [].
Qed.
Lemma reads_wait d s : reads_only s (wait d s).2.
Proof. unfold wait. destruct (cb_wait d (world s)). by apply reads_refl. Qed.

Lemma settle_reads un ac d l s : reads_only s (settle un ac d l s).2.
Proof.
  revert s. induction l as [|[k r] l IH]; intros s; simpl; [by apply reads_refl|].
  destruct (rq_Terminal r); [done|]. case_bool_decide; [by apply reads_refl|].
  unfold mbind at 1, stM_bind at 1. pose proof (reads_read d (rq_RunID r) s) as Hr.
  destruct (ReadRun d (rq_RunID r) s) as [[x|e] s1]; [|done]. simpl in Hr.
  destruct (terminalRun x); simpl; [|done]. eapply reads_trans; [done|].
  unfold mbind, stM_bind. simpl. eapply reads_trans; [|apply IH]. by apply reads_refl.
Qed.

Lemma fresh_reads s s' x : reads_only s s' → x ∈ fresh s s' → ¬ is_call x.
Proof.
  intros (l & Hl & Hf) Hx. unfold fresh in Hx. rewrite Hl, drop_app_length in Hx.
  rewrite list.Forall_forall in Hf. exact (Hf x Hx).
Qed.

Lemma call_fresh d t i o s : log (CallAgent d t i o s).2 = log s ++ [InvCall t i o].
Proof. unfold CallAgent. by destruct (cb_CallAgent d t i o (world s)). Qed.

Lemma create_child_log d bound a ex s :
  log (create_child d bound a ex s).2 =
  log s ++ [InvCall (da_Target a) (default [] (da_Input a)) (call_options (b_runID (broker s)) a bound)].
Proof.
  unfold create_child. unfold mbind at 1, stM_bind at 1, get_broker.
  unfold mbind at 1, stM_bind at 1, st_try. rewrite <-(call_fresh d).
  destruct (CallAgent _ _ _ _ s) as [[enc|e] s1]; cbn [snd].
  - destruct enc as [j|]; [|done]. destruct (summary_unmarshal j); [|done]. by case_match.
  - by case_match.
Qed.

(** The two outcomes of the admission checks: nothing but reads happened, or
    the request's own entry is open and [create_child] runs. *)
Lemma delegate_admission d bound a s x s' :
  binv s → delegate d bound a s = (x, s') →
  (good s s' ∧ reads_only s s') ∨
  ∃ s2 r ex, good s s2 ∧ reads_only s s2 ∧ delegate_valid (broker s) bound a = true ∧
    create_child d bound a ex s2 = (x, s') ∧
    b_requests (broker s2) !! da_Key a = Some r ∧ ¬ resolved r ∧ rq_Terminal r = false.
Proof.
  intros Hs. unfold delegate. unfold mbind at 1, stM_bind at 1, get_broker.
  destruct (delegate_valid (broker s) bound a) eqn:Hv; cbn [negb]; unfold st_fail;
    [|intros; simplify_eq; left; split; [by apply good_refl|by apply reads_refl]].
  destruct (b_requests (broker s) !! da_Key a) as [r|] eqn:Hk.
  - case_bool_decide; simpl; [|intros; simplify_eq; left; split; [by apply good_refl|by apply reads_refl]].
    case_bool_decide as Hid; simpl;
      [|unfold mret, stM_ret; intros; simplify_eq; left; split; [by apply good_refl|by apply reads_refl]].
    intros Hrun. right. exists s, r, true. split_and!; auto using good_refl, reads_refl.
    destruct (rq_Terminal r) eqn:E; [|done]. destruct (inv_request s Hs _ _ Hk) as (_ & _ & Ht).
    by destruct (Ht E).
  - case_match eqn:Hsz; [intros; simplify_eq; left; split; [by apply good_refl|by apply reads_refl]|]. go_bool.
    unfold mbind at 1, stM_bind at 1.
    pose proof (settle_reads errUnresolvedFirst (λ _, errActiveFirst) d (go_range (b_requests (broker s))) s) as Hr.
    destruct (settle _ _ _ _ s) as [y s1] eqn:Hset. simpl in Hr.
    apply settle_requests in Hset as (Hg & Hd & Ha); [|done].
    destruct y as [[]|e]; [|intros; simplify_eq; by left]. specialize (Ha eq_refl).
    unfold mbind at 1, stM_bind at 1. simpl. intros Hrun. right.
    set (s2 := with_broker s1 _) in Hrun.
    eexists s2, _, false. split_and!; [|eapply reads_trans; [done|by apply reads_refl]|done|exact Hrun| | |].
    + eapply good_trans; [done|]. apply good_open_request; [apply Hg|done| | |by eapply valid_key].
      * apply not_elem_of_dom. rewrite Hd. by apply not_elem_of_dom.
      * rewrite <-size_dom, Hd, size_dom. lia.
    + simpl. by rewrite lookup_insert_eq.
    + by intros [].
    + done.
Qed.

Lemma delegate_valid_evolves s s' bound a :
  evolves s s' → delegate_valid (broker s') bound a = delegate_valid (broker s) bound a.
Proof. intros He. unfold delegate_valid, target_allowed. by rewrite (ev_targets _ _ He). Qed.

Lemma delegate_good d bound a s x s' :
  binv s → (∀ t, bound = Some t → t ∈ b_boundTools (broker s)) →
  delegate d bound a s = (x, s') → good s s'.
Proof.
  intros Hs Hb Hrun. apply delegate_admission in Hrun as [[? _]|(s2 & r & ex & Hg & _ & Hv & Hrun & Hk & Hnr & Ht)];
    [done| |done].
  eapply good_trans; [done|]. eapply create_child_good in Hrun; [apply Hrun|apply Hg|done..| |].
  - rewrite (delegate_valid_evolves s s2); [done|apply Hg].
  - rewrite (ev_tools s s2) by apply Hg. done.
Qed.

(** A creation [delegate] asks for: its options, and that every other request
    is final. *)
Lemma delegate_creations d bound a s x s' t i o :
  binv s → (∀ t, bound = Some t → t ∈ b_boundTools (broker s)) →
  delegate d bound a s = (x, s') → InvCall t i o ∈ fresh s s' →
  delegate_valid (broker s) bound a = true ∧ t = da_Target a ∧
  o = call_options (b_runID (broker s)) a bound ∧ others_terminal (da_Key a) (b_requests (broker s')).
Proof.
  intros Hs Hb Hrun Hin.
  apply delegate_admission in Hrun as [[_ Hr]|(s2 & r & ex & Hg & Hr & Hv & Hrun & Hk & Hnr & Ht)]; [| |done].
  { eapply fresh_reads in Hin; [|done]. by destruct Hin. }
  pose proof (create_child_log d bound a ex s2) as Hlog. rewrite Hrun in Hlog. simpl in Hlog.
  destruct Hr as (l & Hl & Hf). rewrite list.Forall_forall in Hf.
  unfold fresh in Hin. rewrite Hlog, Hl, <-(assoc_L (++)), drop_app_length in Hin.
  apply elem_of_app in Hin as [Hin|Hin]; [by destruct (Hf _ Hin)|].
  apply list_elem_of_singleton in Hin. simplify_eq. rewrite (ev_runID s s2) by apply Hg.
  eapply create_child_good in Hrun; [|apply Hg|done..| |]; [by destruct Hrun| |].
  - rewrite (delegate_valid_evolves s s2); [done|apply Hg].
  - rewrite (ev_tools s s2) by apply Hg. done.
Qed.

(** ** Reading a child *)

Lemma uuid_nonempty id : uuidPattern id = true → id ≠ "".
Proof. by intros Hu ->. Qed.

Lemma good_wait d s : binv s → good s (wait d s).2.
Proof. intros. unfold wait. destruct (cb_wait d (world s)). simpl. by apply good_frame. Qed.

Lemma read_pass_good rc dl id last s x s' :
  binv s → id ≠ "" → read_pass rc dl id last s = (x, s') → good s s'.
Proof.
  intros Hs Hid. unfold read_pass. unfold mbind at 1, stM_bind at 1, st_try.
  pose proof (good_read rc id s Hs) as Hg.
  destruct (ReadRun rc id s) as [[[run|]|e] s1] eqn:Hread; simpl in Hg; unfold st_fail.
  2: { intros; by simplify_eq. }
  2: { unfold mbind, stM_bind, st_get, mret, stM_ret. destruct last; [case_match|]; intros; by simplify_eq. }
  unfold mbind at 1, stM_bind at 1, get_broker.
  set (s2 := if terminalRun (Some run)
             then (put_requests (markTerminal id (b_requests (broker s1))) s1).2 else s1).
  assert (Hg2 : good s s2).
  { subst s2. destruct (terminalRun (Some run)) eqn:Ht; [|done]. eapply good_trans; [done|].
    apply good_markTerminal; [apply Hg|done|]. exists run. eauto using read_seen. }
  assert ((if terminalRun (Some run) then put_requests (markTerminal id (b_requests (broker s1))) else mret tt) s1
          = (Ok tt, s2)) as Hm by (subst s2; by destruct (terminalRun (Some run))).
  unfold mbind at 1, stM_bind at 1. rewrite Hm.
  unfold mbind at 1, stM_bind at 1, now. cbn zeta beta iota. destruct (negb _ || _).
  { unfold mret, stM_ret. intros; by simplify_eq. }
  unfold mbind, stM_bind. intros Hrun. eapply good_trans; [done|].
  pose proof (good_wait (Z.min second (dl - cb_now (world s2))) s2 (proj1 Hg2)) as Hw.
  destruct (wait _ s2) as [[[]|e] s3]; simpl in *; unfold mret, stM_ret in Hrun; by simplify_eq.
Qed.

Lemma read_loop_good fuel rc dl id last s x s' :
  binv s → id ≠ "" → read_loop fuel rc dl id last s = (x, s') → good s s'.
Proof.
  intros Hs Hid. revert last s Hs. induction fuel as [|fuel IH]; intros last s Hs; simpl.
  { unfold st_fail. intros; simplify_eq. by apply good_refl. }
  unfold mbind, stM_bind. destruct (read_pass rc dl id last s) as [y s1] eqn:Hp.
  apply read_pass_good in Hp as Hg; [|done..]. destruct y as [[run|run]|e].
  - unfold mret, stM_ret. intros; by simplify_eq.
  - intros Hrun. eapply good_trans; [done|]. eapply IH; [apply Hg|done].
  - intros; by simplify_eq.
Qed.

Lemma read_run_good c g a s x s' : binv s → read_run c g a s = (x, s') → good s s'.
Proof.
  intros Hs. unfold read_run. destruct (read_valid g a) eqn:Hv; cbn [negb].
  - unfold mbind at 1, stM_bind at 1, now. apply read_loop_good; [done|].
    unfold read_valid in Hv. go_bool. by apply uuid_nonempty.
  - unfold st_fail. intros; simplify_eq. by apply good_refl.
Qed.

Lemma read_pass_reads rc dl id last s : reads_only s (read_pass rc dl id last s).2.
Proof.
  unfold read_pass. unfold mbind at 1, stM_bind at 1, st_try.
  pose proof (reads_read rc id s) as Hr.
  destruct (ReadRun rc id s) as [[[run|]|e] s1]; simpl in Hr; [|done|].
  2: { unfold mbind, stM_bind, st_get. by repeat case_match. }
  unfold mbind at 1, stM_bind at 1, get_broker. unfold mbind at 1, stM_bind at 1.
  assert (∃ s2, (if terminalRun (Some run) then put_requests (markTerminal id (b_requests (broker s1))) else mret tt) s1
          = (Ok tt, s2) ∧ log s2 = log s1) as (s2 & -> & Hl) by (destruct (terminalRun _); eexists; by split).
  unfold mbind at 1, stM_bind at 1, now. cbn zeta beta iota.
  eapply reads_trans; [exact Hr|]. eapply reads_trans; [by apply reads_refl|].
  destruct (negb _ || _); [by apply reads_refl|]. unfold mbind, stM_bind.
  pose proof (reads_wait (Z.min second (dl - cb_now (world s2))) s2) as Hw.
  destruct (wait _ s2) as [[[]|e] s3]; done.
Qed.

Lemma read_loop_reads fuel rc dl id last s : reads_only s (read_loop fuel rc dl id last s).2.
Proof.
  revert last s. induction fuel as [|fuel IH]; intros last s; simpl; [by apply reads_refl|].
  unfold mbind, stM_bind. pose proof (read_pass_reads rc dl id last s) as Hp.
  destruct (read_pass rc dl id last s) as [[[run|run]|e] s1]; simpl in *; [done| |done].
  eapply reads_trans; [done|apply IH].
Qed.

Lemma read_run_reads c g a s x s' : read_run c g a s = (x, s') → reads_only s s'.
Proof.
  intros Hrun. apply (f_equal snd) in Hrun. simpl in Hrun. rewrite <-Hrun. unfold read_run.
  destruct (negb _); [by apply reads_refl|]. unfold mbind at 1, stM_bind at 1, now. apply read_loop_reads.
Qed.

(** ** The transition system *)

Lemma callWithBinding_good name raw bound s x s' :
  binv s → (∀ t, bound = Some t → t ∈ b_boundTools (broker s)) →
  callWithBinding name raw bound s = (x, s') → good s s'.
Proof.
  intros Hs Hb. unfold callWithBinding. unfold mbind at 1, stM_bind at 1, st_get, st_fail.
  destruct (ctx_err s); [intros; simplify_eq; by apply good_refl|].
  unfold mbind at 1, stM_bind at 1, now. case_bool_decide.
  { unfold mbind at 1, stM_bind at 1, st_lift. case_match; [|intros; simplify_eq; by apply good_refl].
    unfold mbind, stM_bind. destruct (delegate _ _ _ s) as [y s1] eqn:Hd. apply delegate_good in Hd; [|done..].
    destruct y; unfold mret, stM_ret; intros; by simplify_eq. }
  case_match; [|intros; simplify_eq; by apply good_refl].
  unfold mbind at 1, stM_bind at 1, st_lift. case_match; [|intros; simplify_eq; by apply good_refl].
  unfold mbind, stM_bind. destruct (read_run _ _ _ s) as [y s1] eqn:Hd. apply read_run_good in Hd; [|done..].
  destruct y; unfold mret, stM_ret; intros; by simplify_eq.
Qed.

(** The atomic steps: a tool call under the mutex, the readiness mark, a
    completion check, the close, and any change of the world outside. *)
Inductive bstep (s : bstate W) : bstate W → Prop :=
  | step_call name raw bound :
      (∀ t, bound = Some t → t ∈ b_boundTools (broker s)) →
      bstep s (callWithBinding name raw bound s).2
  | step_ready : bstep s (mark_ready s).2
  | step_ensure : bstep s (EnsureComplete s).2
  | step_close : bstep s (Close s).2
  | step_world w : bstep s {| broker := broker s; world := w; log := log s |}.

(** A broker as [StartBound] leaves it. *)
Definition initial (s : bstate W) : Prop := b_requests (broker s) = ∅ ∧ log s = [].

Lemma initial_inv s : initial s → binv s.
Proof.
  intros [Hr Hl]. split; rewrite ?Hr, ?Hl.
  - rewrite map_size_empty. lia.
  - apply map_Forall_empty.
  - done.
  - done.
  - intros ??? []%not_elem_of_nil.
Qed.

Lemma bstep_good s s' : binv s → bstep s s' → good s s'.
Proof.
  intros Hs [name raw bound Hb| | | |w].
  - destruct (callWithBinding name raw bound s) eqn:E. by eapply callWithBinding_good.
  - by apply good_frame.
  - unfold EnsureComplete. unfold mbind at 1, stM_bind at 1, get_broker. case_match; [by apply good_refl|].
    unfold mbind, stM_bind, now. destruct (settle _ _ _ _ s) eqn:E. by apply settle_requests in E as (? & _).
  - by apply good_frame.
  - by apply good_frame.
Qed.

Lemma bsteps_good s s' : binv s → rtc bstep s s' → good s s'.
Proof.
  intros Hs Hst. revert Hs. induction Hst as [s|s s1 s2 Hst _ IH]; intros Hs; [by apply good_refl|].
  pose proof (bstep_good s s1 Hs Hst) as Hg. eapply good_trans; [done|]. apply IH, Hg.
Qed.

(** ** The client's operations are sequences of steps *)

Definition runs {A} (m : M (W:=W) A) : Prop := ∀ s, rtc bstep s (m s).2.

Lemma runs_ret {A} (a : A) : runs (mret a).
Proof. intros s. apply rtc_refl. Qed.
Lemma runs_fail {A} e : runs (st_fail (A:=A) e).
Proof. intros s. apply rtc_refl. Qed.
Lemma runs_lift {A} (r : result A) : runs (st_lift r).
Proof. intros s. apply rtc_refl. Qed.
Lemma runs_get : runs get_broker.
Proof. intros s. apply rtc_refl. Qed.
Lemma runs_ready : runs mark_ready.
Proof. intros s. apply rtc_once, step_ready. Qed.
Lemma runs_hook h : runs (run_hook h).
Proof.
  intros s. unfold run_hook. destruct h as [f|]; [|apply rtc_refl].
  destruct (f (world s)). apply rtc_once, step_world.
Qed.
Lemma runs_try {A} (m : M A) : runs m → runs (st_try m).
Proof. intros Hm s. specialize (Hm s). unfold st_try. by destruct (m s). Qed.
Lemma runs_bind {A B} (m : M A) (f : A → M B) : runs m → (∀ a, runs (f a)) → runs (m ≫= f).
Proof.
  intros Hm Hf s. specialize (Hm s). unfold mbind, stM_bind. destruct (m s) as [[a|e] s']; [|done].
  etrans; [done|]. apply Hf.
Qed.
Lemma runs_call name raw : runs (call name raw).
Proof. intros s. apply rtc_once, step_call. done. Qed.

Lemma callBound_runs tool raw s :
  tool ∈ b_boundTools (broker s) → rtc bstep s (callBound tool raw s).2.
Proof.
  intros Hin. unfold callBound. unfold mbind at 1, stM_bind at 1, get_broker.
  set (m := if b_toolsReady (broker s) then mret tt else _).
  assert (Hm : runs m).
  { subst m. case_match; [apply runs_ret|]. apply runs_bind; [apply runs_hook|intros; apply runs_ready]. }
  assert (Hb : b_boundTools (broker (m s).2) = b_boundTools (broker s)).
  { subst m. case_match; [done|]. unfold mbind, stM_bind, run_hook. destruct cb_onTools as [f|]; [|done].
    by destruct (f (world s)) as [[e|] w]. }
  specialize (Hm s). unfold mbind at 1, stM_bind at 1. destruct (m s) as [[[]|e] s1]; simpl in *; [|done].
  etrans; [exact Hm|]. unfold mbind at 1, stM_bind at 1, st_lift.
  destruct (decodeArguments bound_fields bound_zero raw) as [args|e]; [|apply rtc_refl].
  destruct (ba_Arguments args) as [ar|]; [|apply rtc_refl]. destruct (_ || _); [apply rtc_refl|].
  unfold mbind at 1, stM_bind at 1.
  set (raw' := parse _).
  assert (Hc : rtc bstep s1 (callWithBinding "delegate_agent" raw' (Some tool) s1).2).
  { apply rtc_once, step_call. intros t ?; simplify_eq. by rewrite Hb. }
  destruct (callWithBinding "delegate_agent" raw' (Some tool) s1) as [[v|e] s2]; simpl in *; [|done].
  etrans; [exact Hc|]. destruct v; try apply rtc_refl.
  refine (runs_bind _ _ _ _ s2); [apply runs_call|]. intros v. destruct v; try apply runs_fail.
  destruct (run_Status r); try apply runs_fail; [apply runs_ret|].
  apply runs_bind; [apply runs_hook|intros; apply runs_ret].
Qed.

Lemma callTool_runs name raw : runs (callTool name raw).
Proof.
  intros s. unfold callTool. unfold mbind, stM_bind, get_broker.
  destruct (find _ _) as [t|] eqn:Hf.
  - apply find_some in Hf as [Hin _]. apply callBound_runs. by apply list_elem_of_In.
  - case_bool_decide; [apply rtc_refl|apply runs_call].
Qed.

Lemma dispatch_runs request : runs (dispatch request).
Proof.
  unfold dispatch. repeat case_match; try apply runs_fail; try apply runs_ret.
  - apply runs_bind; [apply runs_try, runs_hook|]. intros [[]|e]; [|apply runs_fail].
    apply runs_bind; [apply runs_ready|]. intros _. apply runs_bind; [apply runs_get|]. intros; apply runs_ret.
  - apply runs_bind; [apply runs_lift|]. intros c.
    apply runs_bind; [apply runs_try, callTool_runs|]. intros; apply runs_ret.
Qed.

Lemma serve_runs lines : runs (serve lines).
Proof.
  induction lines as [|line lines IH]; simpl; [apply runs_ret|]. case_match; [apply runs_ret|].
  apply runs_bind; [|intros [[j|]|]; [|done|apply runs_ret]].
  - unfold serve_line. repeat case_match; try apply runs_ret.
    apply runs_bind; [apply runs_try, dispatch_runs|]. intros; apply runs_ret.
  - apply runs_bind; [done|]. intros; apply runs_ret.
Qed.


(** ** The theorems *)

Definition reachable (s : bstate W) : Prop := ∃ s0, initial s0 ∧ rtc bstep s0 s.

Lemma reachable_inv s : reachable s → binv s.
Proof. intros (s0 & H1 & H2). eapply bsteps_good; [by apply initial_inv|done]. Qed.

(** C1: in every state the broker reaches by tool calls on any number of
    connections, readiness marks, completion checks and the close, in any
    order: at most 64 requests are kept, every key has 1 to 128 bytes, a
    resolved request carries the UUID of its summary, at most one request is
    not final, a request is final only after its child was read in a final
    state, and every creation asked of the platform was for an allowed target
    with the options derived from the Run and the request key. *)
Theorem broker_invariant s : reachable s → binv s.
Proof. apply reachable_inv. Qed.

(** C2: a request key creates at most one child. Once a key is resolved, any
    later valid request with that key, whatever happened between, returns the
    recorded summary or, when its arguments differ, a conflict; either way
    nothing is called and no state changes. *)
Theorem creation_at_most_once s s' k r d bound a :
  reachable s → b_requests (broker s) !! k = Some r → resolved r → rtc bstep s s' →
  delegate_valid (broker s') bound a = true → da_Key a = k →
  delegate d bound a s' =
    (if decide (rq_Digest r = delegate_digest a) then Ok (rq_Summary r)
     else Err (ESafe "request_key conflicts with a previous request"), s').
Proof.
  intros Hre Hk Hr Hst Hv <-. destruct (bsteps_good s s' (reachable_inv s Hre) Hst) as [_ He].
  destruct (ev_requests _ _ He _ _ Hk Hr) as (r' & Hk' & Hd & Hid & Hsum & _).
  unfold delegate, mbind, stM_bind, get_broker. rewrite Hv, Hk', Hd. cbn [negb].
  destruct (decide (rq_Digest r = delegate_digest a)).
  - rewrite bool_decide_true by done. cbn [negb]. rewrite bool_decide_false by (by rewrite Hid).
    cbn [negb]. by rewrite Hsum.
  - by rewrite bool_decide_false.
Qed.

(** C3: one live child. When a tool call asks the platform for a child, the
    call was [delegate_agent] with valid arguments for an allowed target, the
    idempotency key is the one of the request key, and afterwards every other
    request is final. *)
Theorem one_live_child s name raw bound x s' t i o :
  reachable s → (∀ t, bound = Some t → t ∈ b_boundTools (broker s)) →
  callWithBinding name raw bound s = (x, s') → InvCall t i o ∈ fresh s s' →
  ∃ a, name = "delegate_agent" ∧ decodeArguments delegate_fields delegate_zero raw = Ok a ∧
    target_allowed (broker s) bound t = true ∧ t = da_Target a ∧
    IdempotencyKey o = idempotency_key (b_runID (broker s)) (da_Key a) ∧
    others_terminal (da_Key a) (b_requests (broker s')).
Proof.
  intros Hre%reachable_inv Hb Hrun Hin.
  assert (Hno : ¬ reads_only s s').
  { intros Hr. eapply fresh_reads in Hin; [|done]. by destruct Hin. }
  revert Hrun. unfold callWithBinding. unfold mbind at 1, stM_bind at 1, st_get, st_fail.
  destruct (ctx_err s); [intros; simplify_eq; by destruct Hno; apply reads_refl|].
  unfold mbind at 1, stM_bind at 1, now. case_bool_decide.
  - unfold mbind at 1, stM_bind at 1, st_lift.
    destruct (decodeArguments _ _ raw) as [a|] eqn:Ha; [|intros; simplify_eq; by destruct Hno; apply reads_refl].
    unfold mbind, stM_bind. destruct (delegate _ _ _ s) as [y s1] eqn:Hd. intros Hrun.
    assert (s1 = s') as -> by (destruct y; unfold mret, stM_ret in Hrun; by simplify_eq).
    destruct (delegate_creations _ bound a s y s' t i o Hre Hb Hd Hin) as (Hv & -> & -> & Hoth). exists a.
    unfold delegate_valid in Hv. go_bool. by split_and!.
  - case_match; [|intros; simplify_eq; by destruct Hno; apply reads_refl].
    unfold mbind at 1, stM_bind at 1, st_lift. case_match; [|intros; simplify_eq; by destruct Hno; apply reads_refl].
    unfold mbind, stM_bind. destruct (read_run _ _ _ s) as [y s1] eqn:Hd. intros Hrun.
    assert (s1 = s') as -> by (destruct y; unfold mret, stM_ret in Hrun; by simplify_eq).
    destruct Hno. eapply read_run_reads, Hd.
Qed.

(** C4: [EnsureComplete] returns no error only when every request the broker
    holds is resolved and its child was read in a final state: neither an
    unresolved creation nor a live child is ever reported as complete, and
    with selected tools it also means they were discovered. *)
Theorem ensure_complete_sound s s' :
  reachable s → EnsureComplete s = (Ok tt, s') →
  (b_boundTools (broker s) ≠ [] → ToolsDiscovered s = true) ∧
  dom (b_requests (broker s')) = dom (b_requests (broker s)) ∧
  ∀ k r, b_requests (broker s') !! k = Some r → resolved r ∧ rq_Terminal r = true ∧ seen_final (log s') r.
Proof.
  intros Hre%reachable_inv. unfold EnsureComplete. unfold mbind at 1, stM_bind at 1, get_broker.
  destruct (negb _ && negb _) eqn:Hc; [done|]. unfold mbind, stM_bind, now. intros Hset.
  apply settle_requests in Hset as ([Hi' _] & Hd & Ha); [|done]. split_and!; [|done|].
  - intros Hne. unfold ToolsDiscovered. apply andb_false_iff in Hc as [Hc|Hc]; go_bool; [by destruct Hne|done].
  - intros k r Hk. specialize (Ha eq_refl k r Hk). simpl in Ha. split_and!; [|done|].
    + by apply (inv_request _ Hi' k r Hk).
    + by eapply (inv_seen _ Hi').
Qed.

(** serving a connection is a sequence of the atomic steps, whatever the
    lines it receives: no message takes the broker outside the transition
    system the invariant is proved of. *)
Theorem serve_is_steps lines s : rtc bstep s (serve lines s).2.
Proof. apply serve_runs. Qed.

(** ** The polling loop ends *)

(** The clock: a read does not turn it back, and a sleep that is not
    interrupted lasts at least as long as asked. *)
Class ClockLaws : Prop := {
  read_monotone : ∀ d id w, cb_now w ≤ cb_now (cb_ReadRun d id w).2;
  wait_advances : ∀ d w w', cb_wait d w = (None, w') → cb_now w + d ≤ cb_now w';
}.

Section clock.
Context `{Hclock : !ClockLaws}.
#[local] Set Default Proof Using "Type + Hclock".

Lemma read_now d id s : cb_now (world s) ≤ cb_now (world (ReadRun d id s).2).
Proof. unfold ReadRun. pose proof (read_monotone d id (world s)). by destruct (cb_ReadRun d id (world s)). Qed.

(** A pass that goes round again slept until the deadline or for a second. *)
Lemma read_pass_again rc dl id last s run s' :
  read_pass rc dl id last s = (Ok (inr run), s') →
  cb_now (world s) < dl ∧ Z.min dl (cb_now (world s) + second) ≤ cb_now (world s').
Proof.
  unfold read_pass. unfold mbind at 1, stM_bind at 1, st_try. pose proof (read_now rc id s) as Hr.
  destruct (ReadRun rc id s) as [[[run'|]|e] s1]; simpl in Hr; [|done|].
  2: { unfold mbind, stM_bind, st_get, mret, stM_ret. repeat case_match; intros; by simplify_eq. }
  unfold mbind at 1, stM_bind at 1, get_broker. unfold mbind at 1, stM_bind at 1.
  assert (∃ s2, (if terminalRun (Some run') then put_requests (markTerminal id (b_requests (broker s1))) else mret tt) s1
          = (Ok tt, s2) ∧ world s2 = world s1) as (s2 & -> & Hw) by (destruct (terminalRun _); eexists; by split).
  unfold mbind at 1, stM_bind at 1, now. cbn zeta beta iota.
  destruct (negb _ || _) eqn:Hend; [by intros|]. go_bool.
  unfold mbind, stM_bind, wait.
  destruct (cb_wait (Z.min second (dl - cb_now (world s2))) (world s2)) as [[e|] w'] eqn:Hwait; [by intros|].
  intros Heq. unfold mret, stM_ret in Heq. simplify_eq. simpl. apply wait_advances in Hwait.
  rewrite Hw in *. unfold second in *. lia.
Qed.

Lemma read_loop_enough n extra rc dl id last s :
  dl - cb_now (world s) ≤ Z.of_nat n * second →
  read_loop (S n + extra) rc dl id last s = read_loop (S n) rc dl id last s.
Proof.
  revert last s. induction n as [|n IH]; intros last s Hn.
  - simpl. unfold mbind, stM_bind.
    destruct (read_pass rc dl id last s) as [[[run|run]|e] s1] eqn:Hp; [done| |done].
    apply read_pass_again in Hp. lia.
  - change (S (S n) + extra)%nat with (S (S n + extra)). cbn [read_loop]. unfold mbind, stM_bind.
    destruct (read_pass rc dl id last s) as [[[run|run]|e] s1] eqn:Hp; [done| |done].
    apply read_pass_again in Hp as [? ?]. apply IH. unfold second in *. lia.
Qed.
End clock.

(** the polling loop of [wait_delegated_run] ends: thirty-two passes are
    enough for every accepted request, and more fuel changes nothing, so the
    model's bound is never what stops a wait. *)
Theorem wait_loop_terminates `{!ClockLaws} extra c g a s :
  read_valid g a = true →
  read_loop (read_fuel + extra) c (cb_now (world s) + read_duration g a) (ra_RunID a) None s =
  read_loop read_fuel c (cb_now (world s) + read_duration g a) (ra_RunID a) None s.
Proof.
  intros Hv. apply (read_loop_enough 31).
  unfold read_valid, read_duration, millisecond, second in *. go_bool. case_match; lia.
Qed.

(** ** Error texts *)

(** The texts the broker itself writes; none depends on a callback's error. *)
Definition safe_texts : list string :=
  ["invalid JSON-RPC version"; "unknown delegation MCP method"; "tool readiness could not be recorded";
   "invalid delegation arguments"; "invalid delegation request";
   "request_key conflicts with a previous request"; "delegation request limit reached";
   "retry the unresolved delegation request first"; "wait for the active delegated Run first";
   "invalid delegated Run response"; "invalid delegated Run read"; "missing delegated Run result";
   "unknown delegation tool"; "unknown MCP tool"; "arguments and request_key are required";
   "invalid MCP execution response"; "missing MCP execution result";
   "MCP tool execution failed. Its access may have changed; ask the Agent owner to review the tool configuration.";
   "Delegation rejected: permission denied. No child was created; you may continue or choose another allowed Agent.";
   "Delegation rejected: authorization is invalid. No child was created.";
   "Delegation rejected: invalid request. No child was created; correct the request before retrying.";
   "Delegation rejected: rate limit reached. No child was created; retry later.";
   genericFailure; overLimit].

Definition foreign (e : go_error) : Prop := ∀ m, e ≠ ESafe m.

(** [safeToolError] is not exported: no callback and no context returns one. *)
Class ForeignErrors : Prop := {
  foreign_call : ∀ d t i o w e, (cb_CallAgent d t i o w).1 = Err e → foreign e;
  foreign_read : ∀ d id w e, (cb_ReadRun d id w).1 = Err e → foreign e;
  foreign_used : ∀ f t w e, cb_BoundToolUsed = Some f → (f t w).1 = Some e → foreign e;
  foreign_tools : ∀ f w e, cb_onTools = Some f → (f w).1 = Some e → foreign e;
  foreign_wait : ∀ d w e, (cb_wait d w).1 = Some e → foreign e;
  foreign_parent : ∀ w e, cb_parent_err w = Some e → foreign e;
}.

Definition calm (s : bstate W) : Prop := ∀ e, b_cancelled (broker s) = Some e → foreign e.

Definition fixed {A} (m : M (W:=W) A) : Prop := ∀ s x s', calm s → m s = (x, s') →
  calm s' ∧ ∀ msg, x = Err (ESafe msg) → msg ∈ safe_texts.

Section texts.
Context `{Hforeign : !ForeignErrors}.
#[local] Set Default Proof Using "Type + Hforeign".

Lemma fixed_ret {A} (a : A) : fixed (mret a).
Proof. intros s x s' Hc Hr. unfold mret, stM_ret in Hr. by simplify_eq. Qed.
Lemma fixed_get : fixed get_broker.
Proof. intros s x s' Hc Hr. unfold get_broker in Hr. by simplify_eq. Qed.
Lemma fixed_state : fixed st_get.
Proof. intros s x s' Hc Hr. unfold st_get in Hr. by simplify_eq. Qed.
Lemma fixed_now : fixed now.
Proof. intros s x s' Hc Hr. unfold now in Hr. by simplify_eq. Qed.
Lemma fixed_safe {A} m : m ∈ safe_texts → fixed (st_fail (A:=A) (ESafe m)).
Proof. intros Hm s x s' Hc Hr. unfold st_fail in Hr. simplify_eq. split; [done|]. intros; by simplify_eq. Qed.
Lemma fixed_foreign {A} e : foreign e → fixed (st_fail (A:=A) e).
Proof. intros Hm s x s' Hc Hr. unfold st_fail in Hr. simplify_eq. split; [done|]. intros; simplify_eq. by destruct (Hm msg). Qed.
Lemma fixed_decode {R} (fs : list (field R)) z raw : fixed (st_lift (decodeArguments fs z raw)).
Proof.
  intros s x s' Hc Hr. unfold st_lift, decodeArguments, of_option in Hr. simplify_eq. split; [done|].
  intros msg. case_match; intros; simplify_eq. set_solver.
Qed.
Lemma fixed_bind {A B} (m : M A) (f : A → M B) : fixed m → (∀ a, fixed (f a)) → fixed (m ≫= f).
Proof.
  intros Hm Hf s x s' Hc. unfold mbind, stM_bind. destruct (m s) as [[a|e] s1] eqn:E;
    apply Hm in E as [Hc1 He]; [|done| |done].
  - intros Hr. by eapply Hf.
  - intros; simplify_eq. split; [done|]. intros; simplify_eq. eauto.
Qed.
Lemma fixed_insert k r : fixed (insert_request k r).
Proof. intros s x s' Hc Hr. unfold insert_request in Hr. by simplify_eq. Qed.
Lemma fixed_delete k : fixed (delete_request k).
Proof. intros s x s' Hc Hr. unfold delete_request in Hr. by simplify_eq. Qed.
Lemma fixed_put m : fixed (put_requests m).
Proof. intros s x s' Hc Hr. unfold put_requests in Hr. by simplify_eq. Qed.
Lemma fixed_ready : fixed mark_ready.
Proof. intros s x s' Hc Hr. unfold mark_ready in Hr. by simplify_eq. Qed.

Lemma fixed_read d id : fixed (ReadRun d id).
Proof.
  intros s x s' Hc. unfold ReadRun. pose proof (foreign_read d id (world s)) as Hf.
  destruct (cb_ReadRun d id (world s)). intros; simplify_eq/=. split; [done|].
  intros msg ->. by destruct (Hf _ eq_refl msg).
Qed.
Lemma fixed_wait d : fixed (wait d).
Proof.
  intros s x s' Hc. unfold wait. pose proof (foreign_wait d (world s)) as Hf.
  destruct (cb_wait d (world s)) as [[e|] w]; intros; simplify_eq/=; (split; [done|]); [|done].
  intros msg ?; simplify_eq. by destruct (Hf _ eq_refl msg).
Qed.
Lemma fixed_hook h :
  (∀ f w e, h = Some f → (f w).1 = Some e → foreign e) → fixed (run_hook h).
Proof.
  intros Hh s x s' Hc. unfold run_hook. destruct h as [f|]; [|intros; by simplify_eq].
  pose proof (Hh f (world s)) as Hf.
  destruct (f (world s)) as [[e|] w]; intros; simplify_eq/=; (split; [done|]); [|done].
  intros msg ?; simplify_eq. by destruct (Hf _ eq_refl eq_refl msg).
Qed.
(** Where the code inspects a callback's error. *)
Lemma fixed_try_call {A} d t i o (f : result (option json) → M A) :
  (∀ y, (∀ e, y = Err e → foreign e) → fixed (f y)) → fixed (st_try (CallAgent d t i o) ≫= f).
Proof.
  intros Hf s x s' Hc. unfold mbind, stM_bind, st_try, CallAgent.
  pose proof (foreign_call d t i o (world s)) as Hq.
  destruct (cb_CallAgent d t i o (world s)) as [r w]. simpl in *. intros Hr. refine (Hf r _ _ x s' _ Hr); [by eauto|exact Hc].
Qed.
Lemma fixed_try_read {A} d id (f : result (option DelegatedRun) → M A) :
  (∀ y, (∀ e, y = Err e → foreign e) → fixed (f y)) → fixed (st_try (ReadRun d id) ≫= f).
Proof.
  intros Hf s x s' Hc. unfold mbind, stM_bind, st_try, ReadRun.
  pose proof (foreign_read d id (world s)) as Hq.
  destruct (cb_ReadRun d id (world s)) as [r w]. simpl in *. intros Hr. refine (Hf r _ _ x s' _ Hr); [by eauto|exact Hc].
Qed.
Lemma fixed_try {A} (m : M A) : fixed m → fixed (st_try m).
Proof.
  intros Hm s x s' Hc. unfold st_try. destruct (m s) as [r s1] eqn:E. apply Hm in E as [? _]; [|done].
  intros; by simplify_eq.
Qed.

#[local] Hint Resolve fixed_ret fixed_get fixed_state fixed_now fixed_decode fixed_insert fixed_delete
  fixed_put fixed_ready fixed_read fixed_wait fixed_foreign : fixed.
#[local] Hint Extern 1 (fixed (st_fail (ESafe _))) => apply fixed_safe; apply (bool_decide_unpack _); vm_compute; exact I : fixed.

#[local] Hint Extern 1 (foreign _) => intros ?; discriminate : fixed.

Ltac fixed_step :=
  first [ solve [eauto with fixed] | apply fixed_bind; [|intros ?] | case_match ].
Ltac fixed_auto := repeat fixed_step.

Lemma fixed_settle un ac d l :
  fixed (st_fail (A:=unit) un) → (∀ id, fixed (st_fail (A:=unit) (ac id))) → fixed (settle un ac d l).
Proof. intros Hu Ha. induction l as [|[k r] l IH]; simpl; fixed_auto. Qed.

Lemma rejection_safe e : definiteRejection e = "" ∨ definiteRejection e ∈ safe_texts.
Proof.
  unfold definiteRejection. destruct (errors_As_api e) as [[[st code] msg]|]; [|by left].
  repeat case_match; try (by left); right; apply (bool_decide_unpack _); vm_compute; exact I.
Qed.

Lemma fixed_create d bound a ex : fixed (create_child d bound a ex).
Proof.
  unfold create_child. apply fixed_bind; [fixed_auto|]. intros b. apply fixed_try_call. intros r Hr.
  destruct r as [enc|e]; [fixed_auto|]. cbn zeta. destruct (negb _ && negb ex) eqn:Hc; [|eauto with fixed]. go_bool.
  apply fixed_bind; [fixed_auto|]. intros _. destruct (rejection_safe e) as [|Hs]; [done|]. by apply fixed_safe.
Qed.

Lemma fixed_delegate d bound a : fixed (delegate d bound a).
Proof.
  unfold delegate. apply fixed_bind; [fixed_auto|]. intros b.
  case_match; [eauto with fixed|]. case_match.
  - case_match; [eauto with fixed|]. case_match; [eauto with fixed|apply fixed_create].
  - case_match; [eauto with fixed|]. apply fixed_bind; [|intros _; apply fixed_bind; [fixed_auto|intros _; apply fixed_create]].
    apply fixed_settle; [|intros _]; unfold errUnresolvedFirst, errActiveFirst; eauto with fixed.
Qed.

Lemma fixed_pass rc dl id last : fixed (read_pass rc dl id last).
Proof.
  unfold read_pass. apply fixed_try_read. intros r Hr.
  destruct r as [[run|]|e]; [fixed_auto|fixed_auto|]. specialize (Hr e eq_refl). fixed_auto.
Qed.

Lemma fixed_loop fuel rc dl id last : fixed (read_loop fuel rc dl id last).
Proof.
  revert last. induction fuel as [|fuel IH]; intros last; simpl; [by apply fixed_foreign|].
  apply fixed_bind; [apply fixed_pass|]. intros [run|run]; [fixed_auto|apply IH].
Qed.

Lemma fixed_read_run c g a : fixed (read_run c g a).
Proof.
  unfold read_run. case_match; [eauto with fixed|]. apply fixed_bind; [fixed_auto|]. intros; apply fixed_loop.
Qed.

Lemma fixed_callWithBinding name raw bound : fixed (callWithBinding name raw bound).
Proof.
  intros s x s' Hc. unfold callWithBinding. unfold mbind at 1, stM_bind at 1, st_get.
  destruct (ctx_err s) as [e|] eqn:He.
  { apply (fixed_foreign e); [|done]. unfold ctx_err in He. case_match; simplify_eq; [by apply Hc|].
    by eapply foreign_parent. }
  revert s x s' Hc He. intros s x s' Hc _. revert s x s' Hc.
  change (fixed (t ← now; let callCtx := t + 30 * second in
    if bool_decide (name = "delegate_agent") then
      r ← st_lift (decodeArguments delegate_fields delegate_zero raw);
      summary ← delegate callCtx bound r; mret (VSummary summary)
    else if bool_decide (name = "get_delegated_run") || bool_decide (name = "wait_delegated_run") then
      r ← st_lift (decodeArguments read_fields read_zero raw);
      run ← read_run callCtx (bool_decide (name = "get_delegated_run")) r; mret (VRun run)
    else st_fail (ESafe "unknown delegation tool"))).
  apply fixed_bind; [fixed_auto|]. intros t. cbn zeta. case_match; [|case_match].
  - apply fixed_bind; [fixed_auto|]. intros a. apply fixed_bind; [apply fixed_delegate|eauto with fixed].
  - apply fixed_bind; [fixed_auto|]. intros a. apply fixed_bind; [apply fixed_read_run|eauto with fixed].
  - eauto with fixed.
Qed.

Lemma fixed_callTool name raw : fixed (callTool name raw).
Proof.
  unfold callTool. apply fixed_bind; [fixed_auto|]. intros b. case_match;
    [|case_match; [eauto with fixed|apply fixed_callWithBinding]].
  unfold callBound. apply fixed_bind; [fixed_auto|]. intros b'. apply fixed_bind.
  { case_match; [fixed_auto|]. apply fixed_bind; [apply fixed_hook; eauto using foreign_tools|fixed_auto]. }
  intros _. apply fixed_bind; [fixed_auto|]. intros args. case_match; [|eauto with fixed].
  case_match; [eauto with fixed|]. apply fixed_bind; [apply fixed_callWithBinding|]. intros v.
  destruct v; try (eauto with fixed). apply fixed_bind; [apply fixed_callWithBinding|]. intros v.
  destruct v as [|run|]; try (eauto with fixed). destruct (run_Status run); eauto with fixed.
  apply fixed_bind; [|eauto with fixed]. apply fixed_hook. intros f w e Hf He.
  apply fmap_Some in Hf as (g & Hg & ->). by eapply foreign_used.
Qed.
End texts.

Definition error_result (text : string) : json :=
  go_obj [("isError", JBool true); ("content", JArr [go_obj [("type", JStr "text"); ("text", JStr text)]])].

(** nothing a callback's error says reaches the model: whatever the
    request, an RPC error's text is one of the broker's own fixed texts, and a
    tool call answers with the marshalled value or with an error result whose
    text is one of them. *)
Theorem dispatch_never_leaks `{!ForeignErrors} request s x s' :
  calm s → dispatch request s = (x, s') →
  match x with
  | Err e => ∃ m, e = ESafe m ∧ m ∈ safe_texts
  | Ok j => Method request = "tools/call" →
      (∃ v jv, value_marshal v = Some jv ∧ j = tool_result (Ok v)) ∨
      (∃ m, m ∈ safe_texts ∧ j = error_result m)
  end.
Proof.
  intros Hc. unfold dispatch, st_fail.
  assert (Hin : ∀ m, bool_decide (m ∈ safe_texts) = true → ∃ m', ESafe m = ESafe m' ∧ m' ∈ safe_texts).
  { intros m Hm%bool_decide_eq_true. eauto. }
  case_bool_decide as Hm0; cbn [negb]; [|intros; simplify_eq; by apply Hin].
  case_bool_decide as Hm1; [unfold mret, stM_ret; intros; simplify_eq; by rewrite Hm1|].
  case_bool_decide as Hm2; [unfold mret, stM_ret; intros; simplify_eq; by rewrite Hm2|].
  case_bool_decide as Hm3.
  { unfold mbind at 1, stM_bind at 1, st_try. destruct (run_hook cb_onTools s) as [[[]|e] s1].
    - unfold mbind, stM_bind, mark_ready, get_broker, mret, stM_ret. intros; simplify_eq. by rewrite Hm3.
    - intros; simplify_eq. by apply Hin. }
  case_bool_decide as Hm4; [|intros; simplify_eq; by apply Hin].
  unfold mbind at 1, stM_bind at 1, st_lift. unfold decodeArguments, of_option.
  destruct (Params request ≫= _) as [c|]; [|intros; simplify_eq; by apply Hin].
  unfold mbind, stM_bind, st_try. destruct (callTool _ _ s) as [y s1] eqn:Hcall.
  apply fixed_callTool in Hcall as [_ Hsafe]; [|done]. unfold mret, stM_ret. intros; simplify_eq. intros _.
  destruct y as [v|e].
  - destruct (value_marshal v) as [jv|] eqn:Hv; [left; exists v, jv; split; [exact Hv|reflexivity]|right].
    exists overLimit. split; [by apply (bool_decide_eq_true (_ ∈ _))|]. unfold tool_result, tool_text. by rewrite Hv.
  - right. destruct e; try (exists genericFailure; split; [by apply (bool_decide_eq_true (_ ∈ _))|reflexivity]).
    exists msg. split; [by apply Hsafe|reflexivity].
Qed.
End broker_props.

(** ** Starting a broker leaves nothing behind when it fails *)
Section start_props.
Context `{!SDK, !StartOS}.

Definition same_resources (s s' : resources) : Prop :=
  rs_dirs s' = rs_dirs s ∧ rs_listeners s' = rs_listeners s.

(** What a started broker holds. *)
Definition started_ok (root runID : string) (targets : list string) (bound : list BoundTool)
    (s s' : resources) (socket : string) (b : Broker) : Prop :=
  ∃ d, socket = d +:+ "/mcp.sock" ∧ os_MkdirTemp root "ol-d-" = Ok d ∧
    rs_dirs s' = {[ d ]} ∪ rs_dirs s ∧ rs_listeners s' = {[ socket ]} ∪ rs_listeners s ∧
    (∃ mode, delegationSocketMode root d = Ok mode ∧ rs_modes s' !! socket = Some mode) ∧
    start_checks root runID targets bound true true = Ok tt ∧
    b_targets b = targets ∧ b_boundTools b = bound ∧ b_runID b = runID ∧
    b_requests b = ∅ ∧ b_toolsReady b = false ∧ b_cancelled b = None.

Lemma socket_ne d : d +:+ "/mcp.sock" ≠ d.
Proof.
  intros Heq. apply (f_equal slen) in Heq. rewrite slen_app in Heq.
  change (slen "/mcp.sock") with 9 in Heq. lia.
Qed.

(** [StartBound] either fails and leaves no directory and no listener
    behind that was not there before, whichever system call failed, or
    returns a broker with the validated configuration, no requests, its
    socket listening with the mode [delegationSocketMode] chose. *)
Theorem start_leaves_nothing root runID targets bound s x s' :
  (∀ d, os_MkdirTemp root "ol-d-" = Ok d → d ∉ rs_dirs s ∧ (d +:+ "/mcp.sock") ∉ rs_listeners s) →
  StartBound root runID targets bound true true s = (x, s') →
  match x with
  | Err _ => same_resources s s'
  | Ok (socket, b) => started_ok root runID targets bound s s' socket b
  end.
Proof.
  intros Hfresh. unfold StartBound. unfold mbind at 1, stM_bind at 1, st_lift.
  destruct (start_checks _ _ _ _ _ _) as [[]|e] eqn:Hchk; [|intros; by simplify_eq].
  unfold mbind at 1, stM_bind at 1, MkdirTemp.
  destruct (os_MkdirTemp root "ol-d-") as [d|e] eqn:Hd; [|intros; by simplify_eq].
  destruct (Hfresh d eq_refl) as [Hnd Hnl].
  unfold mbind at 1, stM_bind at 1, or_cleanup, st_try.
  assert (Hdir : ({[ d ]} ∪ rs_dirs s) ∖ {[ d ]} = rs_dirs s) by set_solver.
  assert (Hlis : ({[ d +:+ "/mcp.sock" ]} ∪ rs_listeners s) ∖ {[ d +:+ "/mcp.sock" ]} = rs_listeners s) by set_solver.
  unfold st_lift. destruct (delegationSocketMode root d) as [mode|e] eqn:Hm;
    unfold mbind at 1, stM_bind at 1; [|simpl; intros; by simplify_eq/=].
  unfold mbind at 1, stM_bind at 1, mret, stM_ret. cbn zeta.
  unfold mbind at 1, stM_bind at 1, Listen.
  destruct (os_Listen _) as [e|] eqn:Hl; [simpl; intros; by simplify_eq/=|].
  unfold mbind at 1, stM_bind at 1. unfold mbind at 1, stM_bind at 1.
  unfold Chmod at 1. cbn [rs_dirs rs_listeners rs_modes].
  destruct (os_Chmod (d +:+ "/mcp.sock") mode) as [e|] eqn:Hc; [simpl; intros; by simplify_eq/=|].
  destruct (mode =? mode660).
  - unfold mbind, stM_bind, Chmod. cbn [rs_dirs rs_listeners rs_modes].
    destruct (os_Chmod d mode710) as [e|] eqn:Hc2; [simpl; intros; by simplify_eq/=|].
    intros Heq; simplify_eq. cbn [rs_modes]. exists d. split_and!; try done. exists mode. split; [done|].
    cbn [rs_modes]. rewrite lookup_insert_ne, lookup_insert_eq; [done|]. intros Hd'. by apply (socket_ne d).
  - unfold mbind, stM_bind. intros Heq; simplify_eq. exists d. split_and!; try done. exists mode. split; [done|].
    cbn [rs_modes]. by rewrite lookup_insert_eq.
Qed.
End start_props.

(** ** Concrete instances *)
Module BrokerWitness.
Definition f64 : Float64 := Some.
Definition sdk : SDK := {|
  RunSummary := string; summary_zero := ""; summary_RunID := λ s, s; summary_marshal := λ s, Some (JStr s);
  summary_unmarshal := λ j, match j with JStr s => Some s | _ => None end;
  DelegatedRun := RunStatus; run_Status := λ r, r; run_Output := λ _, Some JNull; run_marshal := λ _, Some JNull;
|}.
Definition child : string := "22222222-2222-4222-8222-222222222222".
Definition agent : string := "33333333-3333-4333-8333-333333333333".
(** The world is a clock; every creation succeeds and every child has ended. *)
Definition callbacks : @Callbacks sdk Z := @Build_Callbacks sdk Z
  (λ _ _ _ _ w, (Ok (Some (JStr child)), w)) (λ _ _ w, (Ok (Some RuntimeRunSuccess), w))
  None None (λ w, w) (λ _, None) (λ d w, (None, w + d)).

#[local] Existing Instances f64 sdk callbacks.

Definition demo : bstate Z :=
  {| broker := {| b_runID := probe_id; b_targets := [agent]; b_boundTools := []; b_toolsReady := false;
                  b_requests := ∅; b_cancelled := None |}; world := 0; log := [] |}.
Definition request : delegateArgs :=
  {| da_Target := agent; da_Input := Some []; da_Reason := ""; da_Key := "k1" |}.
Definition raw : option json :=
  Some (JObj [("target_agent_id", JStr agent); ("input", JObj []); ("request_key", JStr "k1")]).
Definition created : bstate Z := (callWithBinding "delegate_agent" raw None demo).2.

Lemma created_steps : rtc bstep demo created.
Proof. apply rtc_once, step_call. done. Qed.
Lemma created_reachable : reachable created.
Proof. exists demo. split; [done|apply created_steps]. Qed.

#[local] Instance clock : @ClockLaws sdk Z callbacks.
Proof. split; simpl; [lia|]. intros; simplify_eq. lia. Qed.
#[local] Instance quiet : @ForeignErrors sdk Z callbacks.
Proof. by split. Qed.

Lemma broker_invariant_witness : binv created.
Proof. apply broker_invariant, created_reachable. Defined.

Lemma creation_at_most_once_witness :
  ∃ r, b_requests (broker created) !! "k1" = Some r ∧
    delegate 0 None request created =
      (if decide (rq_Digest r = delegate_digest request) then Ok (rq_Summary r)
       else Err (ESafe "request_key conflicts with a previous request"), created).
Proof.
  destruct (b_requests (broker created) !! "k1") as [r|] eqn:Hk.
  - exists r. split; [reflexivity|].
    refine (creation_at_most_once created created "k1" r 0 None request created_reachable Hk _ (rtc_refl _ _) _ _).
    + intros Hr. assert (Hid : rq_RunID <$> b_requests (broker created) !! "k1" = Some child) by (vm_compute; reflexivity).
      rewrite Hk in Hid. simpl in Hid. rewrite Hr in Hid. discriminate.
    + vm_compute; reflexivity.
    + reflexivity.
  - exfalso. revert Hk. vm_compute. discriminate.
Defined.

Lemma one_live_child_witness :
  ∃ a, decodeArguments delegate_fields delegate_zero raw = Ok a ∧
    others_terminal (da_Key a) (b_requests (broker created)).
Proof.
  destruct (one_live_child demo "delegate_agent" raw None (callWithBinding "delegate_agent" raw None demo).1 created
    agent [] (call_options probe_id request None)) as (a & _ & Ha & _ & _ & _ & Ho).
  - exists demo. split; [done|apply rtc_refl].
  - done.
  - unfold created. by destruct (callWithBinding _ _ _ _).
  - vm_compute. apply list_elem_of_here.
  - exists a. by split.
Defined.

Lemma ensure_complete_sound_witness :
  ∃ r, b_requests (broker (EnsureComplete created).2) !! "k1" = Some r ∧ resolved r ∧ rq_Terminal r = true.
Proof.
  destruct (b_requests (broker (EnsureComplete created).2) !! "k1") as [r|] eqn:Hk.
  - exists r. split; [reflexivity|].
    destruct (ensure_complete_sound created (EnsureComplete created).2 created_reachable) as (_ & _ & H).
    + assert ((EnsureComplete created).1 = Ok tt) as He by (vm_compute; reflexivity).
      destruct (EnsureComplete created). simpl in *. by rewrite He.
    + destruct (H "k1" r Hk) as (? & ? & _). by split.
  - exfalso. revert Hk. vm_compute. discriminate.
Defined.

Definition poll : readArgs := {| ra_RunID := child; ra_WaitMS := 0 |}.
Lemma wait_loop_terminates_witness :
  read_loop (read_fuel + 5) 0 (cb_now (world demo) + read_duration false poll) (ra_RunID poll) None demo =
  read_loop read_fuel 0 (cb_now (world demo) + read_duration false poll) (ra_RunID poll) None demo.
Proof. apply wait_loop_terminates. vm_compute. reflexivity. Defined.

Definition bad_method : rpcRequest :=
  {| JSONRPC := "2.0"; ID := Some (JNum "1"); Method := "nope"; Params := None |}.
Lemma dispatch_never_leaks_witness :
  ∃ m, Err (A:=json) errUnknownMethod = Err (ESafe m) ∧ m ∈ safe_texts.
Proof.
  destruct (dispatch_never_leaks bad_method demo (Err errUnknownMethod) demo) as (m & -> & Hm).
  - done.
  - reflexivity.
  - by exists m.
Defined.

Definition os : StartOS := {|
  os_IsAbs := λ _, true; os_MkdirTemp := λ _ _, Ok "/tmp/ol-d-1"; os_Lstat := λ _, Err (ENew "none");
  os_Geteuid := 0; os_Listen := λ _, Some (ENew "refused"); os_Chmod := λ _ _, None;
|}.
#[local] Existing Instance os.
Definition none : resources := {| rs_dirs := ∅; rs_listeners := ∅; rs_modes := ∅ |}.
Lemma start_leaves_nothing_witness :
  same_resources none (StartBound "" probe_id [agent] [] true true none).2.
Proof.
  pose proof (start_leaves_nothing "" probe_id [agent] [] none
    (StartBound "" probe_id [agent] [] true true none).1 (StartBound "" probe_id [agent] [] true true none).2) as H.
  destruct (StartBound "" probe_id [agent] [] true true none) as [x s'] eqn:E.
  assert (He : is_Ok x → False).
  { apply (f_equal fst) in E. vm_compute in E. simpl in E. subst x. by intros [? ?]. }
  simpl in *. destruct x as [p|e]; [destruct He; by exists p|]. apply H; [|reflexivity].
  intros d _. split; set_solver.
Defined.
End BrokerWitness.
