(* ===== verification/CodexRpc.v ===== *)
(** * The Codex app-server transport

    pkg/adapters/codexrpc/client.go: a JSON-RPC client over the pipes of one
    process.  Two pumps (read, write) and any number of concurrent calls share
    the state [client]; channels are bounded lists, a closed [done] channel is
    [err <> None], and each step below is one critical section or channel
    operation.  Ghost fields record what was written and which server requests
    were read; no operation looks at them. *)

From S2P Require Import Prelude GoStrings Json.
From stdpp Require Import options.

Open Scope Z_scope.

Definition MaxOutputBytes : Z := Z.shiftl 4 20.
Definition maxQueuedMessages : nat := 128.

(** [codexrpc.Error] and [codexrpc.Message]; a raw message is a JSON value. *)
Record RpcError := { e_Code : Z; e_Message : string; e_Data : option json }.
Record Message := {
  m_ID : option json;
  m_Method : string;
  m_Params : option json;
  m_Result : option json;
  m_Error : option RpcError;
}.

Definition zero_error : RpcError := {| e_Code := 0; e_Message := ""; e_Data := None |}.
Definition zero_message : Message :=
  {| m_ID := None; m_Method := ""; m_Params := None; m_Result := None; m_Error := None |}.

(** [func (e *Error) Error()]: the code, never the provider's text. *)
Definition rpc_error_text (code : Z) : string :=
  "Codex RPC rejected the request (code " +:+ Itoa code +:+ ")".

(** The text an RPC error carries as a Go error: [errors.As] reaches
    [e_Message], [Error()] does not. *)
Definition rpc_go_error (e : RpcError) : go_error :=
  ERpc (e_Code e) (e_Message e) (rpc_error_text (e_Code e)).

Section decoding.
Context `{!Float64}.

Definition error_fields : list (field RpcError) :=
  [f_int "code" (λ v e, {| e_Code := v; e_Message := e_Message e; e_Data := e_Data e |});
   f_string "message" (λ v e, {| e_Code := e_Code e; e_Message := v; e_Data := e_Data e |});
   f_raw "data" (λ v e, {| e_Code := e_Code e; e_Message := e_Message e; e_Data := v |})].

Definition set_error (v : option RpcError) (m : Message) : Message :=
  {| m_ID := m_ID m; m_Method := m_Method m; m_Params := m_Params m; m_Result := m_Result m; m_Error := v |}.

Definition message_fields : list (field Message) :=
  [f_raw "id" (λ v m, {| m_ID := v; m_Method := m_Method m; m_Params := m_Params m;
     m_Result := m_Result m; m_Error := m_Error m |});
   f_string "method" (λ v m, {| m_ID := m_ID m; m_Method := v; m_Params := m_Params m;
     m_Result := m_Result m; m_Error := m_Error m |});
   f_raw "params" (λ v m, {| m_ID := m_ID m; m_Method := m_Method m; m_Params := v;
     m_Result := m_Result m; m_Error := m_Error m |});
   f_raw "result" (λ v m, {| m_ID := m_ID m; m_Method := m_Method m; m_Params := m_Params m;
     m_Result := v; m_Error := m_Error m |});
   ("error", λ j m, match j with
                    | JNull => Some (set_error None m)
                    | _ => e ← decode_struct false error_fields (default zero_error (m_Error m)) j;
                           Some (set_error (Some e) m)
                    end)].

Definition decode_message (line : string) : option Message :=
  j ← parse line; decode_struct false message_fields zero_message j.
End decoding.

(** [string(message.ID)]: a request ID is a decimal number, and only a number
    literal has such a text. *)
Definition id_text (id : json) : string :=
  match id with JNum lit => lit | _ => marshal id end.

Record client := {
  next : Z;
  pending : gmap string (option Message);
  err : option go_error;
  events : list Message;
  writes : list Message;
  stopped : nat;                (* calls of [stop] *)
  sent : list Message;          (* ghost: messages the write pump encoded *)
  asked : list Message;         (* ghost: server requests that were answered *)
}.

Definition New : client :=
  {| next := 0; pending := ∅; err := None; events := []; writes := []; stopped := 0; sent := []; asked := [] |}.

Definition set_pending (p : gmap string (option Message)) (c : client) : client :=
  {| next := next c; pending := p; err := err c; events := events c; writes := writes c;
     stopped := stopped c; sent := sent c; asked := asked c |}.
Definition set_writes (w : list Message) (c : client) : client :=
  {| next := next c; pending := pending c; err := err c; events := events c; writes := w;
     stopped := stopped c; sent := sent c; asked := asked c |}.
Definition set_events (e : list Message) (c : client) : client :=
  {| next := next c; pending := pending c; err := err c; events := e; writes := writes c;
     stopped := stopped c; sent := sent c; asked := asked c |}.

(** [fail]: the first failure wins and stops the process once. *)
Definition fail (e : go_error) (c : client) : client :=
  match err c with
  | Some _ => c
  | None => {| next := next c; pending := pending c; err := Some e; events := events c;
               writes := writes c; stopped := S (stopped c); sent := sent c; asked := asked c |}
  end.

(** [Close] *)
Definition Close (c : client) : client := fail io_EOF c.

(** [denyRequest] *)
Definition no_interaction : RpcError :=
  {| e_Code := -32601; e_Message := "Interactive requests and dynamic tools are unavailable in this Worker";
     e_Data := None |}.
Definition reply (id : option json) (r : option json) (e : option RpcError) : Message :=
  {| m_ID := id; m_Method := ""; m_Params := None; m_Result := r; m_Error := e |}.
Definition denyRequest (request : Message) : Message :=
  let method := m_Method request in
  if bool_decide (method = "item/commandExecution/requestApproval") ||
     bool_decide (method = "item/fileChange/requestApproval")
  then reply (m_ID request) (Some (JObj [("decision", JStr "decline")])) None
  else if bool_decide (method = "mcpServer/elicitation/request")
  then reply (m_ID request) (Some (JObj [("action", JStr "decline"); ("content", JNull)])) None
  else if bool_decide (method = "item/permissions/requestApproval")
  then reply (m_ID request) (Some (JObj [("permissions", JObj []); ("scope", JStr "turn")])) None
  else if bool_decide (method = "item/tool/requestUserInput")
  then reply (m_ID request) (Some (JObj [("answers", JObj [])])) None
  else reply (m_ID request) None (Some no_interaction).

Definition errOutputLimit : go_error := ENew "Codex RPC output exceeds size limit".
Definition errMalformed : go_error := ENew "Codex RPC emitted malformed JSON".
Definition errReplyQueue : go_error := ENew "Codex RPC reply queue exceeded".
Definition errEventQueue : go_error := ENew "Codex RPC notification queue exceeded".
Definition errInvalidResponse : go_error := ENew "Codex RPC emitted an invalid response".
Definition errDuplicate : go_error := ENew "Codex RPC emitted a duplicate response".
Definition errReadFailed : go_error := ENew "Codex RPC stream read failed".
Definition errWriteFailed : go_error := ENew "Codex RPC write failed".

Section client.
Context `{!Float64}.

(** A decoded message in the read pump; the boolean says whether it goes on.
    A [select] with room in the channel and a closed [done] may take either
    case: [prefer_done] is that choice. *)
Definition read_message (prefer_done : bool) (m : Message) (c : client) : bool * client :=
  let done := match err c with Some _ => true | None => false end in
  match m_ID m, bool_decide (m_Method m = "") with
  | Some _, false =>
      if (length (writes c) <? maxQueuedMessages)%nat && negb (done && prefer_done) then
        (true, {| next := next c; pending := pending c; err := err c; events := events c;
                  writes := writes c ++ [denyRequest m]; stopped := stopped c;
                  sent := sent c; asked := asked c ++ [m] |})
      else if done then (false, c)
      else (false, fail errReplyQueue c)
  | None, false =>
      if (length (events c) <? maxQueuedMessages)%nat && negb (done && prefer_done) then
        (true, set_events (events c ++ [m]) c)
      else if done then (false, c)
      else (false, fail errEventQueue c)
  | None, true => (false, fail errInvalidResponse c)
  | Some id, true =>
      match m_Error m, m_Result m with
      | None, None => (false, fail errInvalidResponse c)
      | _, _ =>
          match pending c !! id_text id with
          | None => (true, c)
          | Some None => (true, set_pending (<[id_text id := Some m]> (pending c)) c)
          | Some (Some _) => (false, fail errDuplicate c)
          end
      end
  end.

(** One line of [read]. *)
Definition read_line (prefer_done : bool) (line : string) (c : client) : bool * client :=
  if MaxOutputBytes <? slen line then (false, fail errOutputLimit c)
  else match decode_message line with
       | None => (false, fail errMalformed c)
       | Some m => read_message prefer_done m c
       end.

(** [read] over the lines of the pipe, [bad] when the scanner ended with an error. *)
Fixpoint read (lines : list (bool * string)) (bad : bool) (c : client) : client :=
  match lines with
  | [] => fail (if bad then errReadFailed else io_EOF) c
  | (pd, line) :: lines' =>
      let '(go, c') := read_line pd line c in
      if go then read lines' bad c' else c'
  end.

(** One pass of [write]; [ok] is whether the encoder could write. *)
Definition write (ok : bool) (c : client) : client :=
  match err c, writes c with
  | Some _, _ => c
  | None, [] => c
  | None, m :: ms =>
      if ok then {| next := next c; pending := pending c; err := err c; events := events c;
                    writes := ms; stopped := stopped c; sent := sent c ++ [m]; asked := asked c |}
      else fail errWriteFailed (set_writes ms c)
  end.

(** What a [select] of [send] may do: the case it takes is [choice]. *)
Inductive send_choice := SendCtx (e : go_error) | SendDone | SendWrite.

Definition send (choice : send_choice) (m : Message) (c : client) : option (option go_error * client) :=
  match choice with
  | SendCtx e => Some (Some e, c)
  | SendDone => match err c with Some e => Some (Some e, c) | None => None end
  | SendWrite => if (length (writes c) <? maxQueuedMessages)%nat
                 then Some (None, set_writes (writes c ++ [m]) c) else None
  end.

(** [Notify]: a request without an ID; no answer is registered for it. *)
Definition Notify (choice : send_choice) (method : string) (params : json) (c : client) : option (option go_error * client) :=
  send choice {| m_ID := None; m_Method := method; m_Params := Some params; m_Result := None; m_Error := None |} c.

Definition errRequestLimit : go_error := ENew "Codex RPC request exceeds size limit".
Definition errPendingLimit : go_error := ENew "Codex RPC pending request limit exceeded".

Definition uint64 (z : Z) : Z := z mod 2 ^ 64.

(** [Call] up to the unlock: check the limits and register a response channel. *)
Definition call_register (params : json) (c : client) : result string * client :=
  if MaxOutputBytes <? slen (marshal params) then (Err errRequestLimit, c)
  else if (maxQueuedMessages <=? size (pending c))%nat then (Err errPendingLimit, c)
  else
    let n := uint64 (next c + 1) in
    let id := Itoa n in
    (Ok id, {| next := n; pending := <[id := None]> (pending c); err := err c; events := events c;
               writes := writes c; stopped := stopped c; sent := sent c; asked := asked c |}).

Definition call_message (id method : string) (params : json) : Message :=
  {| m_ID := Some (JNum id); m_Method := method; m_Params := Some params; m_Result := None; m_Error := None |}.

(** The deferred delete. *)
Definition call_finish (id : string) (c : client) : client := set_pending (delete id (pending c)) c.

(** The final [select] of [Call]. *)
Inductive await_choice := AwaitCtx (e : go_error) | AwaitDone | AwaitResponse.
Definition call_await (choice : await_choice) (id : string) (c : client) : option (result Message * client) :=
  match choice with
  | AwaitCtx e => Some (Err e, c)
  | AwaitDone => match err c with Some e => Some (Err e, c) | None => None end
  | AwaitResponse =>
      match pending c !! id with
      | Some (Some m) => Some (Ok m, set_pending (<[id := None]> (pending c)) c)
      | _ => None
      end
  end.

Definition errMissingResult : go_error := ENew "Codex RPC response is missing result".
Definition errInvalidShape : go_error := ENew "Codex RPC response has an invalid shape".

(** What [Call] makes of the response it received; [decode] is nil when the
    caller wants no result. *)
Definition call_result {A} (decode : option (json → option A)) (m : Message) : result (option A) :=
  match m_Error m with
  | Some e => Err (rpc_go_error e)
  | None =>
      match decode with
      | None => Ok None
      | Some d =>
          match m_Result m with
          | None => Err errMissingResult
          | Some j => match d j with Some a => Ok (Some a) | None => Err errInvalidShape end
          end
      end
  end.
End client.

(** ** The client as a transition system *)
Section system.
Context `{!Float64}.

(** The client with its read pump and the calls in flight. *)
Record sys := { cl : client; reading : bool; calls : gset string }.
Definition sys_init : sys := {| cl := New; reading := true; calls := ∅ |}.
Definition on_client (s : sys) (c : client) : sys := {| cl := c; reading := reading s; calls := calls s |}.

Inductive sstep (s : sys) : sys → Prop :=
  | st_read pd line :
      reading s = true →
      sstep s {| cl := (read_line pd line (cl s)).2; reading := (read_line pd line (cl s)).1; calls := calls s |}
  | st_read_end bad :
      reading s = true → sstep s {| cl := read [] bad (cl s); reading := false; calls := calls s |}
  | st_write ok : sstep s (on_client s (write ok (cl s)))
  | st_register params id c :
      call_register params (cl s) = (Ok id, c) →
      sstep s {| cl := c; reading := reading s; calls := {[ id ]} ∪ calls s |}
  | st_send choice m e c :
      m_Method m ≠ "" → send choice m (cl s) = Some (e, c) → sstep s (on_client s c)
  | st_await choice id r c :
      id ∈ calls s → call_await choice id (cl s) = Some (r, c) →
      sstep s {| cl := call_finish id c; reading := reading s; calls := calls s ∖ {[ id ]} |}
  | st_event m ms : events (cl s) = m :: ms → sstep s (on_client s (set_events ms (cl s)))
  | st_close : sstep s (on_client s (Close (cl s))).

Definition is_reply (m : Message) : Prop := m_Method m = "".
#[export] Instance is_reply_dec m : Decision (is_reply m).
Proof. unfold is_reply. apply _. Defined.

(** A response waits only in the channel of the call with its ID. *)
Definition routed (p : gmap string (option Message)) : Prop :=
  ∀ id m, p !! id = Some (Some m) → ∃ j, m_ID m = Some j ∧ id_text j = id.

Record cinv (c : client) : Prop := {
  ci_events : (length (events c) ≤ maxQueuedMessages)%nat;
  ci_writes : (length (writes c) ≤ maxQueuedMessages)%nat;
  ci_pending : (size (pending c) ≤ maxQueuedMessages)%nat;
  ci_routed : routed (pending c);
  ci_ids : ∀ id, is_Some (pending c !! id) → ∃ n, id = Itoa n ∧ n ≤ next c;
  ci_stopped : stopped c = match err c with Some _ => 1 | None => 0 end%nat;
  ci_denied : err c = None → filter is_reply (sent c ++ writes c) = map denyRequest (asked c);
}.

Lemma cinv_New : cinv New.
Proof.
  split; simpl; try (unfold maxQueuedMessages; lia); try done.
  - rewrite map_size_empty. lia.
  - intros id [? Hm]. by rewrite lookup_empty in Hm.
Qed.

Lemma cinv_fail e c : cinv c → cinv (fail e c).
Proof.
  intros Hc. unfold fail. destruct (err c) eqn:He; [done|]. destruct Hc. rewrite He in *. by split; simpl; try lia.
Qed.

Lemma cinv_set_events es c : (length es ≤ maxQueuedMessages)%nat → cinv c → cinv (set_events es c).
Proof. intros ? []. by split. Qed.

Lemma cinv_set_pending p c :
  (size p ≤ maxQueuedMessages)%nat → routed p → (∀ id, is_Some (p !! id) → is_Some (pending c !! id)) →
  cinv c → cinv (set_pending p c).
Proof. intros ??? []. split; simpl; auto. Qed.

Lemma routed_insert_None p id : routed p → routed (<[id := None]> p).
Proof. intros Hr id' m [[_ ?]|[_ ?]]%lookup_insert_Some; [done|eauto]. Qed.

Lemma deny_is_reply m : is_reply (denyRequest m).
Proof. unfold denyRequest, is_reply. by repeat case_match. Qed.

Lemma cinv_read_message pd m c : cinv c → cinv (read_message pd m c).2.
Proof.
  intros Hc. unfold read_message. cbn zeta.
  destruct (m_ID m) as [id|] eqn:Hid; [|case_bool_decide as Hm].
  - case_bool_decide as Hm.
    + destruct (m_Error m), (m_Result m); try (by apply cinv_fail);
        (destruct (pending c !! id_text id) as [[?|]|] eqn:Hp; [by apply cinv_fail| |done]);
        (apply cinv_set_pending; [| | |done];
          [rewrite map_size_insert_Some by eauto; apply Hc
          |intros id' m' [[<- ?]|[_ ?]]%lookup_insert_Some; [simplify_eq; eauto|by apply Hc]
          |intros id' Hs; destruct (decide (id_text id = id')) as [<-|];
             [by eexists|by rewrite lookup_insert_ne in Hs]]).
    + destruct (_ && _) eqn:Hroom; [|destruct (err c) eqn:He; [done|by apply cinv_fail]].
      apply andb_true_iff in Hroom as [Hroom _]. apply Nat.ltb_lt in Hroom. destruct Hc.
      split; simpl; try done.
      * rewrite length_app. simpl. lia.
      * intros He. rewrite (assoc_L (++)), list.filter_app, ci_denied0, map_app by done. simpl.
        by rewrite filter_cons_True by apply deny_is_reply.
  - by apply cinv_fail.
  - destruct (_ && _) eqn:Hroom; [|destruct (err c) eqn:He; [done|by apply cinv_fail]].
    apply andb_true_iff in Hroom as [Hroom _]. apply Nat.ltb_lt in Hroom.
    apply cinv_set_events; [|done]. rewrite length_app. simpl. lia.
Qed.

Lemma cinv_read_line pd line c : cinv c → cinv (read_line pd line c).2.
Proof.
  intros Hc. unfold read_line. case_match; [by apply cinv_fail|].
  destruct (decode_message line); [by apply cinv_read_message|by apply cinv_fail].
Qed.

Lemma cinv_write ok c : cinv c → cinv (write ok c).
Proof.
  intros Hc. unfold write. destruct (err c) eqn:He; [done|]. destruct (writes c) as [|m ms] eqn:Hw; [done|].
  destruct Hc. rewrite Hw in *. simpl in *. destruct ok.
  - split; simpl; rewrite ?He in *; try done; try lia. intros _. rewrite <-ci_denied0 by done. by rewrite <-(assoc_L (++)).
  - unfold fail, set_writes. simpl. rewrite He in *. by split; simpl; try lia.
Qed.

Lemma cinv_send choice m c e c' :
  m_Method m ≠ "" → send choice m c = Some (e, c') → cinv c → cinv c'.
Proof.
  intros Hm Hsend Hc. destruct choice; simpl in Hsend; [by simplify_eq| |].
  - destruct (err c); by simplify_eq.
  - case_match eqn:Hroom; simplify_eq. apply Nat.ltb_lt in Hroom. destruct Hc. split; simpl; try done.
    + rewrite length_app. simpl. lia.
    + intros He. rewrite (assoc_L (++)), list.filter_app, ci_denied0 by done.
      rewrite filter_cons_False by done. by rewrite list.filter_nil, app_nil_r.
Qed.

(** ID allocation does not wrap: fewer than 2^64 calls so far. *)
Definition no_wrap (c : client) : Prop := 0 ≤ next c < 2 ^ 64 - 1.

Lemma register_fresh params c id c' :
  cinv c → no_wrap c → call_register params c = (Ok id, c') →
  pending c !! id = None ∧ id = Itoa (next c + 1) ∧ (size (pending c) < maxQueuedMessages)%nat ∧
  c' = {| next := next c + 1; pending := <[id := None]> (pending c); err := err c; events := events c;
          writes := writes c; stopped := stopped c; sent := sent c; asked := asked c |}.
Proof.
  intros Hc Hw. unfold call_register. case_match; [done|]. case_match eqn:Hsz; [done|]. intros Hr. simplify_eq.
  apply Nat.leb_gt in Hsz.
  assert (Hn : uint64 (next c + 1) = next c + 1) by (unfold uint64; apply Z.mod_small; unfold no_wrap in Hw; lia).
  rewrite Hn. split_and!; try done.
  apply eq_None_not_Some. intros (n & Hid & Hle)%(ci_ids c Hc).
  apply (inj Itoa) in Hid. lia.
Qed.

Record sinv (s : sys) : Prop := {
  si_client : cinv (cl s);
  si_calls : dom (pending (cl s)) = calls s;
}.

(** Operations that touch neither the channels of calls nor the counter. *)
Lemma fail_frame e c : pending (fail e c) = pending c ∧ next (fail e c) = next c.
Proof. unfold fail. by destruct (err c). Qed.
Lemma write_frame ok c : pending (write ok c) = pending c ∧ next (write ok c) = next c.
Proof. unfold write, fail. repeat case_match; by simplify_eq/=. Qed.
Lemma send_frame choice m c e c' :
  send choice m c = Some (e, c') → pending c' = pending c ∧ next c' = next c.
Proof. destruct choice; simpl; intros; repeat case_match; by simplify_eq/=. Qed.
Lemma read_message_frame pd m c :
  dom (pending (read_message pd m c).2) = dom (pending c) ∧ next (read_message pd m c).2 = next c.
Proof.
  assert (Hf : ∀ e, dom (pending (fail e c)) = dom (pending c) ∧ next (fail e c) = next c).
  { intros e. by destruct (fail_frame e c) as [-> ->]. }
  unfold read_message. cbn zeta. destruct (m_ID m) as [id|]; case_bool_decide.
  - destruct (m_Error m), (m_Result m); try apply Hf;
      (destruct (pending c !! id_text id) as [[?|]|] eqn:Hp; [apply Hf| |done]);
      (split; [|done]); cbn [snd pending set_pending]; by rewrite dom_insert_lookup_L by (by eexists).
  - destruct (_ && _); [done|]. destruct (err c); [done|apply Hf].
  - apply Hf.
  - destruct (_ && _); [done|]. destruct (err c); [done|apply Hf].
Qed.

Lemma read_line_frame pd line c :
  dom (pending (read_line pd line c).2) = dom (pending c) ∧ next (read_line pd line c).2 = next c.
Proof.
  unfold read_line. case_match; [cbn [snd]; by destruct (fail_frame errOutputLimit c) as [-> ->]|].
  destruct (decode_message line) as [m|]; [apply read_message_frame|].
  cbn [snd]. by destruct (fail_frame errMalformed c) as [-> ->].
Qed.

Lemma sstep_sinv s s' :
  sinv s → no_wrap (cl s) → sstep s s' → sinv s' ∧ next (cl s) ≤ next (cl s') ≤ next (cl s) + 1.
Proof.
  intros [Hc Hd] Hw [pd line _|bad _|ok|params id c Hr|choice m e c Hm Hsd|choice id r c Hin Ha|m ms He|].
  - destruct (read_line_frame pd line (cl s)) as [H1 H2]. simpl. rewrite H2. split; [|lia].
    split; simpl; [by apply cinv_read_line|congruence].
  - simpl. destruct (fail_frame (if bad then errReadFailed else io_EOF) (cl s)) as [H1 H2]. rewrite H2.
    split; [|lia]. split; simpl; [by apply cinv_fail|congruence].
  - simpl. destruct (write_frame ok (cl s)) as [H1 H2]. rewrite H2. split; [|lia].
    split; simpl; [by apply cinv_write|congruence].
  - simpl. pose proof (register_fresh params (cl s) id c Hc Hw Hr) as (Hf & Hid & Hsz & ->).
    cbn [next]. split; [|lia]. split; cbn [cl pending calls]; [|rewrite dom_insert_L; congruence].
    destruct Hc. split; simpl in *; try done.
    + rewrite map_size_insert_None by done. lia.
    + by apply routed_insert_None.
    + intros id' [Hs|[? Hs]]%lookup_insert_is_Some; [subst; by eexists|].
      destruct (ci_ids0 id' Hs) as (n & ? & ?). exists n. split; [done|lia].
  - destruct (send_frame _ _ _ _ _ Hsd) as [H1 H2]. simpl. rewrite H2. split; [|lia].
    split; simpl; [by eapply cinv_send|congruence].
  - assert (Hp : next c = next (cl s) ∧ cinv c ∧ dom (pending c) = dom (pending (cl s))).
    { destruct choice; simpl in Ha; [by simplify_eq|destruct (err (cl s)); by simplify_eq|].
      destruct (pending (cl s) !! id) as [[m|]|] eqn:Hp; simplify_eq. split; [done|]. split.
      - apply cinv_set_pending; [| | |done].
        + rewrite map_size_insert_Some by eauto. apply Hc.
        + apply routed_insert_None, Hc.
        + intros id' [->|[_ ?]]%lookup_insert_is_Some; [by eexists|done].
      - simpl. rewrite dom_insert_L. apply elem_of_dom_2 in Hp. set_solver. }
    destruct Hp as (Hn & Hc' & Hd'). simpl. rewrite Hn. split; [|lia]. split; simpl.
    + apply cinv_set_pending; [| | |done].
      * etrans; [apply size_delete_le|apply Hc'].
      * intros id' m [_ ?]%lookup_delete_Some. by apply Hc'.
      * intros id' [m [_ ?]%lookup_delete_Some]. by eexists.
    + rewrite dom_delete_L. congruence.
  - simpl. split; [|lia]. split; simpl; [|done]. apply cinv_set_events; [|done].
    pose proof (ci_events _ Hc) as Hl. rewrite He in Hl. simpl in Hl. lia.
  - simpl. destruct (fail_frame io_EOF (cl s)) as [H1 H2]. unfold Close. rewrite H2. split; [|lia].
    split; simpl; [by apply cinv_fail|congruence].
Qed.

Lemma nsteps_sinv n s s' :
  nsteps sstep n s s' → sinv s → 0 ≤ next (cl s) → next (cl s) + Z.of_nat n < 2 ^ 64 → sinv s'.
Proof.
  induction 1 as [|n s s1 s2 Hst _ IH]; intros Hs Hpos Hn; [done|].
  destruct (sstep_sinv s s1 Hs) as [Hs1 Hnext]; [unfold no_wrap; lia|done|].
  apply IH; [done|lia|lia].
Qed.

(** Reached in fewer than 2^64 steps, so the request counter has not wrapped. *)
Definition sreachable (s : sys) : Prop := ∃ n, nsteps sstep n sys_init s ∧ Z.of_nat n < 2 ^ 64.

Lemma sreachable_sinv s : sreachable s → sinv s.
Proof.
  intros (n & Hn & Hb). eapply nsteps_sinv; [done| |done|done]. split; [apply cinv_New|done].
Qed.

(** in every state the client reaches, under any interleaving of its pumps,
    its calls and its consumer: all three queues hold at most 128 messages, a
    stored response sits in the channel of the call with its ID, the process was
    stopped once if and only if the client failed, and, until it fails, the
    replies sent and queued are exactly the refusals of the server's requests,
    one each and in their order. *)
Theorem rpc_client_invariant s : sreachable s → sinv s.
Proof. apply sreachable_sinv. Qed.

(** C5: a call gets its own response: the message [Call] receives carries the
    call's request ID, and a new call's ID belongs to no call in flight, so a
    late response of a cancelled call reaches nobody. *)
Theorem rpc_response_belongs_to_call s :
  sreachable s →
  (∀ id m c, call_await AwaitResponse id (cl s) = Some (Ok m, c) →
     id ∈ calls s ∧ ∃ j, m_ID m = Some j ∧ id_text j = id) ∧
  (∀ params id c, no_wrap (cl s) → call_register params (cl s) = (Ok id, c) → id ∉ calls s).
Proof.
  intros [Hc Hd]%sreachable_sinv. split.
  - simpl. intros id m c. destruct (pending (cl s) !! id) as [[m'|]|] eqn:Hp; [|done..].
    intros ?; simplify_eq. split; [|by apply (ci_routed _ Hc)]. rewrite <-Hd. by apply elem_of_dom_2 in Hp.
  - intros params id c Hw Hr. destruct (register_fresh params (cl s) id c Hc Hw Hr) as (Hf & _).
    rewrite <-Hd. by apply not_elem_of_dom.
Qed.

Lemma err_fail e e' c : err c = Some e → err (fail e' c) = Some e.
Proof. intros He. unfold fail. by rewrite He. Qed.

Lemma err_read_line pd line e c : err c = Some e → err (read_line pd line c).2 = Some e.
Proof.
  intros He. unfold read_line. case_match; [by apply err_fail|].
  destruct (decode_message line) as [m|]; [|by apply err_fail]. unfold read_message. rewrite He. cbn zeta.
  repeat first [case_match | progress simpl]; try done; try by apply err_fail.
Qed.

(** the first failure is final: once the client has failed with an error,
    no later step of either pump, of a call or of [Close] replaces it. *)
Theorem rpc_first_failure_sticks s s' e :
  err (cl s) = Some e → rtc sstep s s' → err (cl s') = Some e.
Proof.
  intros He Hst. revert He. induction Hst as [s|s s1 s2 Hst _ IH]; intros He; [done|]. apply IH. clear IH.
  destruct Hst as [pd line _|bad _|ok|params id c Hr|choice m e' c Hm Hsd|choice id r c Hin Ha|m ms Hev|]; simpl.
  - by apply err_read_line.
  - by apply err_fail.
  - unfold write. by rewrite He.
  - revert Hr. unfold call_register. repeat case_match; intros; by simplify_eq.
  - destruct choice; simpl in Hsd; repeat case_match; by simplify_eq/=.
  - destruct choice; simpl in Ha; repeat case_match; by simplify_eq/=.
  - done.
  - by apply err_fail.
Qed.
End system.

(** ** Concrete instances *)
Module RpcWitness.
Definition f64 : Float64 := Some.
#[local] Existing Instance f64.

Definition registered : sys :=
  {| cl := (call_register (JObj []) New).2; reading := true; calls := {[ "1" ]} ∪ ∅ |}.
Lemma registered_reachable : sreachable registered.
Proof.
  exists 1%nat. split; [|lia]. econstructor; [|constructor]. apply (st_register sys_init (JObj [])). reflexivity.
Qed.

Lemma rpc_client_invariant_witness : sinv registered.
Proof. apply rpc_client_invariant, registered_reachable. Defined.

Lemma rpc_response_belongs_to_call_witness : "2" ∉ calls registered.
Proof.
  destruct (rpc_response_belongs_to_call registered registered_reachable) as [_ H].
  apply (H (JObj []) "2" (call_register (JObj []) (cl registered)).2); [split; vm_compute; congruence|reflexivity].
Defined.

Definition broken : sys := on_client registered (Close (cl registered)).
Lemma rpc_first_failure_sticks_witness : err (Close (cl broken)) = Some io_EOF.
Proof.
  apply (rpc_first_failure_sticks broken (on_client broken (Close (cl broken))) io_EOF);
    [reflexivity|]. apply rtc_once, st_close.
Defined.
End RpcWitness.
