(* ===== verification/CodexTurn.v ===== *)
(** * One Codex app-server turn

    pkg/adapters/codexturn/turn.go: the protocol of one turn over the client of
    CodexRpc, and the shutdown that follows on every path.  The decoders of the
    generated schema types that the turn uses are the fields of the class
    [CodexProtocol]; CodexTypes has the types and an instance.  The process, the pipes, the client
    calls and the request context are the class [TurnEnv] over worlds [W]. *)

From S2P Require Import Prelude GoStrings Json CodexRpc.
From stdpp Require Import options.

Open Scope Z_scope.

Definition ErrSessionMissing : go_error :=
  ESentinel "codexturn.ErrSessionMissing" "Codex native session no longer exists".
Definition ErrProcessCleanup : go_error :=
  ESentinel "codexturn.ErrProcessCleanup" "Codex native process cleanup failed".
Definition ErrResponseMessageLimit : go_error :=
  ESentinel "codexturn.ErrResponseMessageLimit" "Codex upstream response reached its message limit (max_messages)".

(** The fields of the generated notification types the turn reads.  [ti_json]
    is [json.Marshal] of the item. *)
Record ThreadItem := { ti_Type : string; ti_Text : option string; ti_Phase : option string; ti_json : json }.
Record ItemNotification := { in_ThreadID : string; in_TurnID : string; in_Item : ThreadItem }.
Record ErrorNotification := {
  en_ThreadID : string; en_TurnID : string; en_Message : string; en_Details : option string; en_WillRetry : bool;
}.
Record Turn := { tu_ID : string; tu_Status : string; tu_Items : list ThreadItem }.
Record TurnNotification := { tn_ThreadID : string; tn_Turn : Turn }.

Class CodexProtocol := {
  dec_item : json → option ItemNotification;
  dec_error : json → option ErrorNotification;
  dec_turn_event : json → option TurnNotification;
  dec_initialize : json → option unit;
  dec_thread : json → option string;
  dec_resumed : json → option string;
  dec_turn : json → option Turn;
  dec_interrupt : json → option unit;
}.

(** [codexRPCFinal] *)
Definition codexRPCFinal (item : ThreadItem) : string :=
  match ti_Text item with
  | Some text =>
      if bool_decide (ti_Type item = "agentMessage") &&
         match ti_Phase item with Some p => bool_decide (p = "final_answer") | None => true end
      then TrimSpace text else ""
  | None => ""
  end.

(** The last non-empty final text of [items], or [final]. *)
Definition last_final (items : list ThreadItem) (final : string) : string :=
  foldl (λ f i, if bool_decide (codexRPCFinal i = "") then f else codexRPCFinal i) final items.

Section handle.
Context `{!Float64, !CodexProtocol}.

(** What [handle] changes: the final text, the emitted events and the lines the
    observer got. *)
Record hstate := {
  final : string;
  emitted : list (string * json);
  observed : list string;
}.
Record hconfig := { h_thread : string; h_turn : string; h_emit : bool; h_observe : bool }.

Definition set_final (f : string) (s : hstate) : hstate :=
  {| final := f; emitted := emitted s; observed := observed s |}.
Definition emit (c : hconfig) (kind : string) (j : json) (s : hstate) : hstate :=
  if h_emit c then {| final := final s; emitted := emitted s ++ [(kind, j)]; observed := observed s |} else s.
Definition observe (c : hconfig) (line : string) (s : hstate) : hstate :=
  if h_observe c then {| final := final s; emitted := emitted s; observed := observed s ++ [line] |} else s.

(** The item as the observer expects it: snake-case tool types. *)
Definition observed_type (j : json) : json :=
  match j with
  | JStr s => JStr (if bool_decide (s = "commandExecution") then "command_execution"
                    else if bool_decide (s = "mcpToolCall") then "mcp_tool_call"
                    else if bool_decide (s = "webSearch") then "web_search" else s)
  | _ => j
  end.
Definition safe_source (item : json) : json :=
  match unmarshal_any item with
  | Some (JObj kvs) => JObj (map (λ kv, (kv.1, if bool_decide (kv.1 = "type") then observed_type kv.2 else kv.2)) kvs)
  | _ => JNull
  end.
Definition observer_line (method : string) (item : ThreadItem) : string :=
  marshal (go_obj [("type", JStr (ReplaceByte method "/" ".")); ("item", safe_source (ti_json item))]).

Definition incomplete : string := "Incomplete response returned, reason: max_messages".
Definition is_limit (e : ErrorNotification) : bool :=
  HasSuffix (TrimSpace (en_Message e)) incomplete ||
  match en_Details e with Some d => HasSuffix (TrimSpace d) incomplete | None => false end.
Definition limit_event : json :=
  go_obj [("provider", JStr "codex"); ("status", JStr "provider_failed"); ("phase", JStr "failed");
          ("provider_error_kind", JStr "incomplete_response"); ("provider_error_reason", JStr "max_messages")].
Definition retry_event : json :=
  go_obj [("provider", JStr "codex"); ("status", JStr "provider_retrying"); ("phase", JStr "retrying")].

Definition errInvalidItem : go_error := ENew "Codex emitted an invalid item event".
Definition errInvalidNotification : go_error := ENew "Codex emitted an invalid error notification".
Definition errInvalidCompleted : go_error := ENew "Codex emitted an invalid completed turn".
Definition errNoFinal : go_error := ENew "Codex completed without a final message".
Definition errFailedTurn : go_error := ENew "Codex reported a failed turn".
Definition errTurnStatus : go_error := ENew "Codex completed with an invalid turn status".

(** The closure [handle]: done, error, and the new state. *)
Definition handle_item (c : hconfig) (m : Message) (s : hstate) : bool * option go_error * hstate :=
  match m_Params m ≫= dec_item with
  | None => (false, Some errInvalidItem, s)
  | Some i =>
      if negb (bool_decide (in_ThreadID i = h_thread c)) || negb (bool_decide (in_TurnID i = h_turn c))
      then (false, None, s)
      else
        let text := codexRPCFinal (in_Item i) in
        let s1 := if bool_decide (m_Method m = "item/completed") && negb (bool_decide (text = ""))
                  then set_final text s else s in
        (false, None, observe c (observer_line (m_Method m) (in_Item i)) s1)
  end.

Definition handle_error (c : hconfig) (m : Message) (s : hstate) : bool * option go_error * hstate :=
  match m_Params m ≫= dec_error with
  | None => (false, Some errInvalidNotification, s)
  | Some f =>
      if negb (bool_decide (en_ThreadID f = h_thread c)) || negb (bool_decide (en_TurnID f = h_turn c))
      then (false, None, s)
      else if is_limit f
      then (true, Some ErrResponseMessageLimit, set_final "" (emit c "run.status.changed" limit_event s))
      else if en_WillRetry f then (false, None, emit c "run.status.changed" retry_event s)
      else (false, None, s)
  end.

Definition handle_completed (c : hconfig) (m : Message) (s : hstate) : bool * option go_error * hstate :=
  match m_Params m ≫= dec_turn_event with
  | None => (false, Some errInvalidCompleted, s)
  | Some t =>
      if negb (bool_decide (tn_ThreadID t = h_thread c)) || negb (bool_decide (tu_ID (tn_Turn t) = h_turn c))
      then (false, None, s)
      else if bool_decide (tu_Status (tn_Turn t) = "completed") then
        let s1 := set_final (last_final (tu_Items (tn_Turn t)) (final s)) s in
        if bool_decide (final s1 = "") then (true, Some errNoFinal, s1) else (true, None, s1)
      else if bool_decide (tu_Status (tn_Turn t) = "interrupted") then (true, Some context_Canceled, s)
      else if bool_decide (tu_Status (tn_Turn t) = "failed") then (true, Some errFailedTurn, s)
      else (true, Some errTurnStatus, s)
  end.

Definition handle (c : hconfig) (m : Message) (s : hstate) : bool * option go_error * hstate :=
  if bool_decide (m_Method m = "item/started") || bool_decide (m_Method m = "item/completed")
  then handle_item c m s
  else if bool_decide (m_Method m = "error") then handle_error c m s
  else if bool_decide (m_Method m = "turn/completed") then handle_completed c m s
  else (false, None, s).

(** One round of the event loop: the first [select] had an event, or the second
    took the context, an event, or the end of the client, after which one more
    event may still be queued. *)
Inductive pick :=
  | PFirst (m : Message)
  | PEvent (m : Message)
  | PCtx (e : go_error)
  | PDone (queued : option Message) (e : go_error).

(** The result of the loop: the final text returned and the error. *)
Definition loop_event (c : hconfig) (m : Message) (s : hstate)
    (k : hstate → option (string * option go_error) * hstate) : option (string * option go_error) * hstate :=
  let '(done, e, s') := handle c m s in
  match done, e with
  | false, None => k s'
  | _, _ => (Some (final s', e), s')
  end.

(** [None]: the loop is still running when the rounds given are used up. *)
Fixpoint loop (c : hconfig) (rounds : list pick) (s : hstate) : option (string * option go_error) * hstate :=
  match rounds with
  | [] => (None, s)
  | PFirst m :: rs | PEvent m :: rs | PDone (Some m) _ :: rs => loop_event c m s (loop c rs)
  | PCtx e :: _ => (Some ("", Some e), s)
  | PDone None e :: _ => (Some ("", Some e), s)
  end.
End handle.

(** ** The whole turn *)

Inductive taction :=
  | AStop | ACloseStdin | ACloseStdout | AStart | ATrack | ACall (method : string) (params : json)
  | ANotify (method : string) | ABefore | ADrain (grace_ms : Z) | AClose | AFinish | AWait | ACleanup.

Record prepared := { p_command : bool; p_Workspace : string; p_Cleanup : bool; p_Track : bool }.

(** One round of the interrupt's waits. *)
Inductive ipick := IEvent (m : Message) | IStop.

Class TurnEnv (W : Type) := {
  te_ctx_err : W → option go_error;
  te_Prepare : W → prepared * option go_error * W;
  te_StdinPipe : W → option go_error * W;
  te_StdoutPipe : W → option go_error * W;
  te_Start : W → option go_error * W;
  te_Track : W → option go_error * W;
  te_Finish : W → option go_error * W;
  te_Call : string → json → W → result Message * W;
  te_Notify : string → W → option go_error * W;
  te_Before : option (W → option go_error * W);
  te_ThreadConfig : W → list (string * json);
  te_rounds : W → list pick;
  te_learn : W → list ipick;
  te_client_err : W → option go_error;
}.

(** [codexturn.Config] *)
Record Config := {
  c_Prepare : bool;
  c_SessionID : string; c_Prompt : string; c_Sandbox : string; c_Model : string; c_Approval : string;
  c_Persistent : bool;
  c_UseConfiguredPermissions : bool;
  c_Observer : bool;
  c_Emit : bool;
}.

Section run.
Context `{!Float64, !CodexProtocol} {W : Type} `{!TurnEnv W}.

Record tst := { tw : W; acts : list taction; th : hstate }.

(** The named results, and the variables the deferred shutdown reads. *)
Record outcome := {
  o_thread : string; o_final : string; o_err : option go_error; o_turn : string; o_requested : bool;
}.
Definition failed (e : go_error) : outcome :=
  {| o_thread := ""; o_final := ""; o_err := Some e; o_turn := ""; o_requested := false |}.

Definition act (a : taction) (s : tst) : tst := {| tw := tw s; acts := acts s ++ [a]; th := th s |}.
Definition with_w (w : W) (s : tst) : tst := {| tw := w; acts := acts s; th := th s |}.

(** A call of the environment that may fail. *)
Definition try_env (f : W → option go_error * W) (s : tst) : option go_error * tst :=
  let '(e, w) := f (tw s) in (e, with_w w s).

(** [client.Call] with a typed result. *)
Definition rpc {A} (method : string) (params : json) (dec : json → option A) (s : tst) : result A * tst :=
  let '(r, w) := te_Call method params (tw s) in
  (m ← r; o ← call_result (Some dec) m; of_option errInvalidShape o,
   act (ACall method params) (with_w w s)).

Definition opt (k : string) (j : option json) : list (string * json) :=
  match j with Some v => [(k, v)] | None => [] end.

Definition initialize_params : json :=
  JObj [("capabilities", JObj [("optOutNotificationMethods",
           JArr (map JStr ["item/agentMessage/delta"; "item/reasoning/summaryTextDelta";
                           "item/reasoning/summaryPartAdded"; "item/reasoning/textDelta"]))]);
        ("clientInfo", JObj [("name", JStr "openlinker_worker"); ("version", JStr "1")])].

(** The fields [thread/start] and [thread/resume] share, in the schema's order. *)
Definition thread_params (c : Config) (workspace : string) (config : list (string * json))
    (mid : list (string * json)) (tail : list (string * json)) : json :=
  let model := TrimSpace (c_Model c) in
  JObj ([("approvalPolicy", JStr (if bool_decide (c_Approval c = "") then "never" else c_Approval c))]
        ++ opt "config" (match config with [] => None | _ => Some (go_obj config) end)
        ++ [("cwd", JStr workspace)] ++ mid
        ++ opt "model" (if bool_decide (model = "") then None else Some (JStr model))
        ++ opt "sandbox" (if c_UseConfiguredPermissions c then None else Some (JStr (c_Sandbox c)))
        ++ tail).
Definition resume_params (c : Config) (workspace : string) (config : list (string * json)) : json :=
  thread_params c workspace config [("excludeTurns", JBool true)] [("threadId", JStr (c_SessionID c))].
Definition start_params (c : Config) (workspace : string) (config : list (string * json)) : json :=
  thread_params c workspace config [("ephemeral", JBool (negb (c_Persistent c)))] [].
Definition turn_params (threadID prompt : string) : json :=
  JObj [("input", JArr [JObj [("text", JStr prompt); ("type", JStr "text")]]); ("threadId", JStr threadID)].
Definition interrupt_params (threadID turnID : string) : json :=
  JObj [("threadId", JStr threadID); ("turnId", JStr turnID)].

Definition missing_session (sessionID : string) (e : go_error) : bool :=
  match errors_As_rpc e with
  | Some (code, msg) =>
      (code =? -32600) && (bool_decide (msg = "no rollout found for thread id " +:+ sessionID) ||
                           bool_decide (msg = "thread not found: " +:+ sessionID))
  | None => false
  end.

Definition valid_id (id : string) : bool := negb (bool_decide (TrimSpace id = "")) && (slen id <=? 256).

Definition errDifferentThread : go_error := ENew "Codex resumed a different thread".
Definition errThreadID : go_error := ENew "Codex returned an invalid thread ID".
Definition errTurnID : go_error := ENew "Codex returned an invalid turn ID".
Definition errStillRunning : go_error := ESentinel "codexturn.running" "the turn has not ended yet".

(** [thread/resume] or [thread/start]. *)
Definition open_thread (c : Config) (workspace : string) (s : tst) : result string * tst :=
  if negb (bool_decide (c_SessionID c = "")) then
    let '(r, s1) := rpc "thread/resume" (resume_params c workspace (te_ThreadConfig (tw s))) dec_resumed s in
    (match r with
     | Err e => Err (if missing_session (c_SessionID c) e then ErrSessionMissing else e)
     | Ok id => if bool_decide (id = c_SessionID c) then Ok id else Err errDifferentThread
     end, s1)
  else rpc "thread/start" (start_params c workspace (te_ThreadConfig (tw s))) dec_thread s.

(** [turn/start] and the event loop, once the thread is open. *)
Definition run_loop (c : Config) (threadID turnID : string) (s : tst) : outcome * tst :=
  let hc := {| h_thread := threadID; h_turn := turnID; h_emit := c_Emit c; h_observe := c_Observer c |} in
  let '(r, h) := loop hc (te_rounds (tw s)) (th s) in
  let '(f, e) := default ("", Some errStillRunning) r in
  ({| o_thread := threadID; o_final := f; o_err := e; o_turn := turnID; o_requested := true |},
   {| tw := tw s; acts := acts s; th := h |}).

Definition start_turn (c : Config) (threadID : string) (s : tst) : outcome * tst :=
  let '(r, s1) := rpc "turn/start" (turn_params threadID (c_Prompt c)) dec_turn s in
  let ended e turnID := {| o_thread := threadID; o_final := ""; o_err := Some e; o_turn := turnID; o_requested := true |} in
  match r with
  | Err e => (ended e "", s1)
  | Ok t => if valid_id (tu_ID t) then run_loop c threadID (tu_ID t) s1 else (ended errTurnID (tu_ID t), s1)
  end.

(** From [initialize] to the end of the loop. *)
Definition body (c : Config) (workspace : string) (s : tst) : outcome * tst :=
  let '(r0, s0) := rpc "initialize" initialize_params dec_initialize s in
  match r0 with
  | Err e => (failed e, s0)
  | Ok _ =>
      let '(e1, s1) := try_env (te_Notify "initialized") (act (ANotify "initialized") s0) in
      match e1 with
      | Some e => (failed e, s1)
      | None =>
          let '(e2, s2) := match te_Before with
                           | None => (None, s1)
                           | Some f => try_env f (act ABefore s1)
                           end in
          match e2 with
          | Some e => (failed e, s2)
          | None =>
              let '(r3, s3) := open_thread c workspace s2 in
              match r3 with
              | Err e => (failed e, s3)
              | Ok id => if valid_id id then start_turn c id s3 else (failed errThreadID, s3)
              end
          end
      end
  end.

(** [interruptCodexRPC]: learn the turn from a scoped [turn/started], then
    interrupt it; the wait for the acknowledgement only consumes events. *)
Fixpoint learn_turn (threadID : string) (l : list ipick) : string :=
  match l with
  | [] | IStop :: _ => ""
  | IEvent m :: l' =>
      match (if bool_decide (m_Method m = "turn/started") then m_Params m ≫= dec_turn_event else None) with
      | Some t => if bool_decide (tn_ThreadID t = threadID) && negb (bool_decide (tu_ID (tn_Turn t) = ""))
                  then tu_ID (tn_Turn t) else learn_turn threadID l'
      | None => learn_turn threadID l'
      end
  end.
Definition interruptCodexRPC (threadID turnID : string) (s : tst) : tst :=
  if bool_decide (threadID = "") then s
  else
    let id := if bool_decide (turnID = "") then learn_turn threadID (te_learn (tw s)) else turnID in
    if bool_decide (id = "") then s
    else (rpc "turn/interrupt" (interrupt_params threadID id) dec_interrupt s).2.

(** The deferred shutdown. *)
Definition was_interrupted (o : outcome) (s : tst) : bool :=
  match te_ctx_err (tw s) with Some _ => true | None => false end ||
  match o_err o with Some e => errors_Is e ErrResponseMessageLimit | None => false end.
Definition interrupt_turn (interrupted : bool) (o : outcome) (s : tst) : tst :=
  if interrupted && o_requested o then interruptCodexRPC (o_thread o) (o_turn o) s else s.
Definition drain_output (interrupted : bool) (o : outcome) (s : tst) : tst :=
  if interrupted || match o_err o with None => true | Some _ => false end
  then act (ADrain (if interrupted then 500 else 2000)) (act ACloseStdin s) else s.
Definition finish_descendants (track : bool) (s : tst) : option go_error * tst :=
  if track then try_env te_Finish (act AFinish s) else (None, s).
Definition shutdown (track : bool) (o : outcome) (s : tst) : outcome * tst :=
  let interrupted := was_interrupted o s in
  let s2 := drain_output interrupted o (interrupt_turn interrupted o s) in
  let '(fe, s4) := finish_descendants track (act AClose s2) in
  let err1 := match fe with
              | Some e => errors_Join [o_err o; Some ErrProcessCleanup; Some e]
              | None => o_err o
              end in
  let s5 := act AWait s4 in
  let err2 := match err1 with
              | Some e => Some e
              | None => match te_client_err (tw s5) with
                        | Some e => if errors_Is e io_EOF then None else Some e
                        | None => None
                        end
              end in
  ({| o_thread := o_thread o; o_final := o_final o; o_err := err2; o_turn := o_turn o; o_requested := o_requested o |}, s5).

(** Everything between the preparation and the deferred cleanup. *)
Definition launch (c : Config) (p : prepared) (s : tst) : outcome * tst :=
  if negb (p_command p) then (failed (ENew "Codex command factory returned no command"), s)
  else
    let '(e1, s1) := try_env te_StdinPipe s in
    match e1 with
    | Some e => (failed e, s1)
    | None =>
        let '(e2, s2) := try_env te_StdoutPipe s1 in
        match e2 with
        | Some e => (failed e, act ACloseStdin s2)
        | None =>
            match te_ctx_err (tw s2) with
            | Some e => (failed e, act ACloseStdout (act ACloseStdin s2))
            | None =>
                let '(e3, s3) := try_env te_Start s2 in
                match e3 with
                | Some e => (failed e, act ACloseStdout (act ACloseStdin s3))
                | None =>
                    let s4 := act AStart s3 in
                    let '(e5, s5) := if p_Track p then try_env te_Track (act ATrack s4) else (None, s4) in
                    match e5 with
                    | Some e => (failed e, act AWait (act ACloseStdout (act ACloseStdin (act AStop s5))))
                    | None =>
                        let '(o, s6) := body c (p_Workspace p) s5 in
                        shutdown (p_Track p) o s6
                    end
                end
            end
        end
    end.

(** [Run] *)
Definition Run (c : Config) (s : tst) : outcome * tst :=
  match te_ctx_err (tw s) with
  | Some e => (failed e, s)
  | None =>
      if negb (c_Prepare c) then (failed (ENew "Codex command factory is required"), s)
      else
        let '(p, e, w) := te_Prepare (tw s) in
        let s0 := with_w w s in
        let '(o, s1) := match e with
                        | Some e => (failed e, s0)
                        | None => launch c p s0
                        end in
        (o, if p_Cleanup p then act ACleanup s1 else s1)
  end.
End run.
Global Arguments tst : clear implicits.

(** ** What the event loop returns *)
Section loop_props.
Context `{!Float64, !CodexProtocol}.
Implicit Types (c : hconfig) (m : Message) (s : hstate) (rs : list pick).

(** A well-formed event of another thread or turn, or of a kind the turn ignores. *)
Definition foreign_event c m : bool :=
  if bool_decide (m_Method m = "item/started") || bool_decide (m_Method m = "item/completed")
  then match m_Params m ≫= dec_item with
       | Some i => negb (bool_decide (in_ThreadID i = h_thread c)) || negb (bool_decide (in_TurnID i = h_turn c))
       | None => false
       end
  else if bool_decide (m_Method m = "error")
  then match m_Params m ≫= dec_error with
       | Some f => negb (bool_decide (en_ThreadID f = h_thread c)) || negb (bool_decide (en_TurnID f = h_turn c))
       | None => false
       end
  else if bool_decide (m_Method m = "turn/completed")
  then match m_Params m ≫= dec_turn_event with
       | Some t => negb (bool_decide (tn_ThreadID t = h_thread c)) || negb (bool_decide (tu_ID (tn_Turn t) = h_turn c))
       | None => false
       end
  else true.

Lemma handle_foreign c m s : foreign_event c m = true → handle c m s = (false, None, s).
Proof.
  unfold foreign_event, handle, handle_item, handle_error, handle_completed. intros Hf.
  repeat (case_match; try done).
Qed.

Definition pick_message (p : pick) : option Message :=
  match p with PFirst m | PEvent m | PDone (Some m) _ => Some m | _ => None end.
Definition foreign_pick c (p : pick) : bool :=
  match pick_message p with Some m => foreign_event c m | None => false end.

Lemma loop_cons_event c p m rs s :
  pick_message p = Some m → loop c (p :: rs) s = loop_event c m s (loop c rs).
Proof. destruct p as [| | |[]]; simpl; intros; by simplify_eq. Qed.

(** events of other threads and turns, and notifications the turn does not
    know, cannot influence it: the result, the final text, the emitted events and
    the observed lines are those of the rounds without them. *)
Theorem turn_ignores_foreign_events c rs s :
  loop c rs s = loop c (List.filter (λ p, negb (foreign_pick c p)) rs) s.
Proof.
  revert s. induction rs as [|p rs IH]; intros s; [done|]. simpl (List.filter _ _).
  destruct (foreign_pick c p) eqn:Hf; cbn [negb].
  - unfold foreign_pick in Hf. destruct (pick_message p) as [m|] eqn:Hm; [|done].
    rewrite (loop_cons_event c p m) by done. unfold loop_event. rewrite handle_foreign by done. apply IH.
  - destruct (pick_message p) as [m|] eqn:Hm.
    + rewrite !(loop_cons_event c p m) by done. unfold loop_event.
      destruct (handle c m s) as [[d e] s']. destruct d, e; auto.
    + destruct p as [| | |[]]; simpl in *; done.
Qed.

(** The turn's own completed items and its completion, as a specification reads them. *)
Definition own_items c (p : pick) : list ThreadItem :=
  match pick_message p with
  | Some m =>
      if bool_decide (m_Method m = "item/completed") then
        match m_Params m ≫= dec_item with
        | Some i => if bool_decide (in_ThreadID i = h_thread c) && bool_decide (in_TurnID i = h_turn c)
                    then [in_Item i] else []
        | None => []
        end
      else []
  | None => []
  end.
Definition own_completion c (p : pick) : option Turn :=
  match pick_message p with
  | Some m =>
      if bool_decide (m_Method m = "turn/completed") then
        t ← m_Params m ≫= dec_turn_event;
        if bool_decide (tn_ThreadID t = h_thread c) && bool_decide (tu_ID (tn_Turn t) = h_turn c)
        then Some (tn_Turn t) else None
      else None
  | None => None
  end.

Lemma last_final_app l1 l2 f : last_final (l1 ++ l2) f = last_final l2 (last_final l1 f).
Proof. unfold last_final. by rewrite foldl_app. Qed.

(** A round that goes on: the final text follows the turn's own completed items. *)
Lemma handle_continues c p m s s' :
  pick_message p = Some m → handle c m s = (false, None, s') → final s' = last_final (own_items c p) (final s).
Proof.
  intros Hp Hh. unfold own_items. rewrite Hp. revert Hh. unfold handle, handle_item, handle_error, handle_completed.
  assert (Hemit : ∀ k j x, final (emit c k j x) = final x) by (intros; unfold emit; by case_match).
  assert (Hobs : ∀ l x, final (observe c l x) = final x) by (intros; unfold observe; by case_match).
  destruct (bool_decide (m_Method m = "item/completed")) eqn:Hc.
  - go_bool. rewrite Hc. rewrite bool_decide_false by done. cbn [orb].
    destruct (m_Params m ≫= dec_item) as [i|]; [|done].
    destruct (bool_decide (in_ThreadID i = h_thread c)), (bool_decide (in_TurnID i = h_turn c));
      cbn [negb orb andb]; intros; simplify_eq; try done.
    rewrite Hobs. unfold last_final. simpl.
    destruct (bool_decide (codexRPCFinal (in_Item i) = "")); done.
  - rewrite orb_false_r. intros Hh. repeat case_match; simplify_eq; rewrite ?Hobs, ?Hemit; done.
Qed.

(** A round that ends the turn without an error is the turn's own completion. *)
Lemma handle_succeeds c p m s s' :
  pick_message p = Some m → handle c m s = (true, None, s') →
  ∃ t, own_completion c p = Some t ∧ tu_Status t = "completed" ∧
       final s' = last_final (tu_Items t) (final s) ∧ final s' ≠ "".
Proof.
  intros Hp. unfold own_completion. rewrite Hp. unfold handle, handle_item, handle_error.
  case_match; [intros; repeat case_match; by simplify_eq|].
  case_match; [intros; repeat case_match; by simplify_eq|].
  destruct (bool_decide (m_Method m = "turn/completed")); [|done]. unfold handle_completed.
  destruct (m_Params m ≫= dec_turn_event) as [t|]; [|done]. simpl.
  destruct (bool_decide (tn_ThreadID t = h_thread c)), (bool_decide (tu_ID (tn_Turn t) = h_turn c));
    cbn [negb orb andb]; try done.
  destruct (bool_decide (tu_Status (tn_Turn t) = "completed")) eqn:Hs; [|intros Hh; exfalso; repeat case_match; by simplify_eq].
  intros Hh. case_match eqn:Hf; simplify_eq. go_bool. eauto.
Qed.

(** C7: a turn succeeds only by its own completion. When the loop returns
    without an error, some round is a [turn/completed] of this thread and turn
    with status "completed", the text returned is not empty, and it is the last
    final message among the turn's own completed items before that round
    followed by the items of the completion itself. *)
Theorem turn_success_is_own_completion c rs s f s' :
  loop c rs s = (Some (f, None), s') →
  ∃ before p after t, rs = before ++ p :: after ∧ own_completion c p = Some t ∧ tu_Status t = "completed" ∧
    f ≠ "" ∧ f = last_final (concat (map (own_items c) before) ++ tu_Items t) (final s).
Proof.
  revert s. induction rs as [|p rs IH]; intros s; [done|].
  destruct (pick_message p) as [m|] eqn:Hp; [|destruct p as [| | |[]]; simpl in *; intros; by simplify_eq].
  rewrite (loop_cons_event c p m) by done. unfold loop_event.
  destruct (handle c m s) as [[d e] s1] eqn:Hh. destruct d.
  - intros Hr. simplify_eq. destruct (handle_succeeds c p m s s' Hp Hh) as (t & Ht & Hst & Hf & Hne).
    exists [], p, rs, t. by split_and!.
  - destruct e as [e|]; [done|]. intros Hr. apply IH in Hr as (before & q & after & t & -> & Ht & Hst & Hne & ->).
    exists (p :: before), q, after, t. split_and!; try done. simpl.
    rewrite (handle_continues c p m s s1 Hp Hh). by rewrite <-(assoc_L (++)), (last_final_app (own_items c p)).
Qed.
End loop_props.

(** ** The life cycle of the process *)
Section run_props.
Context `{Hf64 : !Float64, Hproto : !CodexProtocol} {W : Type} `{Henv : !TurnEnv W}.
Implicit Types (s : tst W) (c : Config) (o : outcome).

(** The messages sent, in order. *)
Definition rpc_log (l : list taction) : list string :=
  omap (λ a, match a with ACall m _ | ANotify m => Some m | _ => None end) l.

Definition protocol c : list string :=
  ["initialize"; "initialized"; if bool_decide (c_SessionID c = "") then "thread/start" else "thread/resume"; "turn/start"].

(** [s'] extends the actions of [s] by [l]. *)
Definition extends (l : list taction) (s s' : tst W) : Prop := acts s' = acts s ++ l.

Lemma extends_trans l1 l2 s1 s2 s3 : extends l1 s1 s2 → extends l2 s2 s3 → extends (l1 ++ l2) s1 s3.
Proof. unfold extends. intros H1 H2. by rewrite H2, H1, (assoc_L (++)). Qed.
Lemma extends_act a s : extends [a] s (act a s).
Proof. done. Qed.
Lemma extends_env f s e s' : try_env f s = (e, s') → extends [] s s'.
Proof. unfold try_env. destruct (f (tw s)). intros; simplify_eq. unfold extends. by rewrite app_nil_r. Qed.
Lemma extends_rpc {A} m p (d : json → option A) s r s' : rpc m p d s = (r, s') → extends [ACall m p] s s'.
Proof. unfold rpc. destruct (te_Call m p (tw s)). intros; by simplify_eq. Qed.
Lemma rpc_log_app l1 l2 : rpc_log (l1 ++ l2) = rpc_log l1 ++ rpc_log l2.
Proof. apply omap_app. Qed.

Lemma open_thread_log c ws s r s' :
  open_thread c ws s = (r, s') → ∃ p, extends [ACall (if bool_decide (c_SessionID c = "") then "thread/start" else "thread/resume") p] s s'.
Proof.
  unfold open_thread. case_bool_decide; cbn [negb]; [intros Hr; eauto using extends_rpc|].
  destruct (rpc _ _ _ s) as [x s1] eqn:Hr. intros; simplify_eq. eauto using extends_rpc.
Qed.

Lemma start_turn_log c id s o s' :
  start_turn c id s = (o, s') → o_requested o = true ∧ ∃ p, extends [ACall "turn/start" p] s s'.
Proof.
  unfold start_turn. destruct (rpc _ _ _ s) as [x s1] eqn:Hr. apply extends_rpc in Hr.
  destruct x as [t|e]; [|intros; simplify_eq; eauto]. case_match; [|intros; simplify_eq; eauto].
  unfold run_loop. destruct (loop _ _ _) as [y h]. destruct (default _ y) as [f e]. intros; simplify_eq. eauto.
Qed.

(** The body sends a prefix of the protocol, all of it when a turn was asked for. *)
Lemma body_log c ws s o s' :
  body c ws s = (o, s') →
  ∃ l, extends l s s' ∧ rpc_log l `prefix_of` protocol c ∧ (o_requested o = true → rpc_log l = protocol c) ∧
       AStart ∉ l.
Proof.
  unfold body, protocol. set (tm := if bool_decide _ then _ else _).
  destruct (rpc _ _ _ s) as [r0 s0] eqn:H0. apply extends_rpc in H0.
  destruct r0 as [[]|e]; [|intros; simplify_eq; exists [ACall "initialize" initialize_params];
    split_and!; [done|by eexists|done|set_solver]].
  destruct (try_env _ _) as [e1 s1] eqn:H1. apply extends_env in H1.
  pose proof (extends_trans _ _ _ _ _ (extends_trans _ _ _ _ _ H0 (extends_act (ANotify "initialized") s0)) H1) as Ha.
  simpl in Ha. clear H0 H1. destruct e1; [intros; simplify_eq; eexists; split_and!; [done|by eexists|done|set_solver]|].
  destruct (match te_Before with Some _ => _ | None => _ end) as [e2 s2] eqn:H2.
  assert (Hb : ∃ l, extends l s s2 ∧ rpc_log l = ["initialize"; "initialized"] ∧ AStart ∉ l).
  { destruct te_Before as [f|]; [|simplify_eq; eexists; split_and!; [done|done|set_solver]].
    apply extends_env in H2. pose proof (extends_trans _ _ _ _ _ (extends_trans _ _ _ _ _ Ha (extends_act ABefore s1)) H2) as Hb.
    eexists; split_and!; [exact Hb|done|set_solver]. }
  destruct Hb as (l & Hl & Hlog & Hns). clear Ha H2.
  destruct e2; [intros; simplify_eq; exists l; split_and!; [done|rewrite Hlog; by eexists|done|done]|].
  destruct (open_thread c ws s2) as [r3 s3] eqn:H3. apply open_thread_log in H3 as [p H3]. fold tm in H3.
  pose proof (extends_trans _ _ _ _ _ Hl H3) as Hc.
  assert (Hlog3 : rpc_log (l ++ [ACall tm p]) = ["initialize"; "initialized"; tm]) by (by rewrite rpc_log_app, Hlog).
  destruct r3 as [id|e]; [|intros; simplify_eq; eexists; split_and!; [done|rewrite Hlog3; by eexists|done|set_solver]].
  case_match; [|intros; simplify_eq; eexists; split_and!; [done|rewrite Hlog3; by eexists|done|set_solver]].
  intros [Hreq [q Hq]]%start_turn_log. pose proof (extends_trans _ _ _ _ _ Hc Hq) as Hd.
  assert (Hlog4 : rpc_log ((l ++ [ACall tm p]) ++ [ACall "turn/start" q]) = ["initialize"; "initialized"; tm; "turn/start"]).
  { by rewrite rpc_log_app, Hlog3. }
  eexists; split_and!; [exact Hd|rewrite Hlog4; by eexists|by intros _|set_solver].
Qed.

Lemma interrupt_log t u s :
  ∃ l, extends l s (interruptCodexRPC t u s) ∧ (l = [] ∨ ∃ p, l = [ACall "turn/interrupt" p]).
Proof.
  assert (Hnil : extends [] s s) by (unfold extends; by rewrite app_nil_r).
  unfold interruptCodexRPC. case_match; [eauto|]. cbn zeta. case_match; [eauto|].
  match goal with |- context [rpc ?m ?p ?d s] => destruct (rpc m p d s) as [r s1] eqn:Hr; exists [ACall m p] end.
  apply extends_rpc in Hr. eauto.
Qed.

Lemma extends_nil s : extends [] s s.
Proof. unfold extends. by rewrite app_nil_r. Qed.

Lemma interrupt_turn_log i o s :
  ∃ l, extends l s (interrupt_turn i o s) ∧ (l = [] ∨ o_requested o = true ∧ ∃ p, l = [ACall "turn/interrupt" p]).
Proof.
  unfold interrupt_turn. destruct (i && o_requested o) eqn:Hi; [|eauto using extends_nil].
  apply andb_true_iff in Hi as [_ Hreq].
  destruct (interrupt_log (o_thread o) (o_turn o) s) as (l & Hl & Hor). exists l. naive_solver.
Qed.
Lemma drain_log i o s : ∃ l, extends l s (drain_output i o s) ∧ rpc_log l = [].
Proof.
  unfold drain_output. case_match; [|eauto using extends_nil].
  eexists. split; [eapply extends_trans; apply extends_act|done].
Qed.
Lemma finish_log track s e s' :
  finish_descendants track s = (e, s') → extends (if track then [AFinish] else []) s s'.
Proof.
  unfold finish_descendants. destruct track; [|intros; simplify_eq; apply extends_nil].
  intros Hf%extends_env. pose proof (extends_trans _ _ _ _ _ (extends_act AFinish s) Hf) as He. done.
Qed.

(** The shutdown: an interrupt only if a turn was asked for, then the close, the
    descendants and the wait, in this order. *)
Lemma shutdown_log track o s o' s' :
  shutdown track o s = (o', s') →
  ∃ l1 l2, extends (l1 ++ l2 ++ [AClose] ++ (if track then [AFinish] else []) ++ [AWait]) s s' ∧
    (l1 = [] ∨ o_requested o = true ∧ ∃ p, l1 = [ACall "turn/interrupt" p]) ∧ rpc_log l2 = [].
Proof.
  unfold shutdown. cbn zeta.
  destruct (interrupt_turn_log (was_interrupted o s) o s) as (l1 & Hl1 & Hcase).
  destruct (drain_log (was_interrupted o s) o (interrupt_turn (was_interrupted o s) o s)) as (l2 & Hl2 & Hlog).
  set (s2 := drain_output _ _ _) in *.
  destruct (finish_descendants track (act AClose s2)) as [fe s4] eqn:Hf. apply finish_log in Hf.
  intros Hr. apply (f_equal snd) in Hr. simpl in Hr. subst s'. exists l1, l2. split_and!; try done.
  rewrite (assoc_L (++)). eapply extends_trans; [by eapply extends_trans|].
  eapply extends_trans; [apply extends_act|]. eapply extends_trans; [done|apply extends_act].
Qed.

(** What a run may do.  Before the process is started nothing is sent, and only the
    pipes are closed.  Once it is started it is waited for, and the requests follow
    the protocol; if anything was sent, the wait comes after the close of the client
    and, when descendants are tracked, after they are ended. *)
Definition lifecycle c (cleanup track : bool) (l : list taction) : Prop :=
  let last := if cleanup then [ACleanup] else [] in
  (∃ l', l = l' ++ last ∧ ∀ a, a ∈ l' → a = ACloseStdin ∨ a = ACloseStdout) ∨
  (∃ l', l = l' ++ [AWait] ++ last ∧ AStart ∈ l' ∧
     (rpc_log l `prefix_of` protocol c ∨ rpc_log l = protocol c ++ ["turn/interrupt"]) ∧
     (rpc_log l ≠ [] → ∃ l'', l' = l'' ++ [AClose] ++ (if track then [AFinish] else []))).

Lemma launch_log c p s o s' :
  launch c p s = (o, s') →
  ∃ l, extends l s s' ∧ lifecycle c false (p_Track p) l.
Proof.
  assert (∀ l, Forall (λ a, a = ACloseStdin ∨ a = ACloseStdout) l → lifecycle c false (p_Track p) l) as Hunstarted.
  { intros l Hl. left. exists l. split; [by rewrite app_nil_r|by apply list.Forall_forall]. }
  unfold launch. destruct (p_command p); cbn [negb].
  2: { intros; simplify_eq. exists []. split; [apply extends_nil|]. by apply Hunstarted. }
  destruct (try_env te_StdinPipe s) as [e1 s1] eqn:H1. apply extends_env in H1.
  destruct e1. { intros; simplify_eq. exists []. split; [done|]. by apply Hunstarted. }
  destruct (try_env te_StdoutPipe s1) as [e2 s2] eqn:H2. apply extends_env in H2.
  pose proof (extends_trans _ _ _ _ _ H1 H2) as H12. clear H1 H2. simpl in H12.
  destruct e2. { intros; simplify_eq. exists [ACloseStdin]. split; [by apply (extends_trans [] _ _ s2)|]. apply Hunstarted. apply list.Forall_forall; set_solver. }
  assert (∀ s3, extends [] s s3 → extends [ACloseStdin; ACloseStdout] s (act ACloseStdout (act ACloseStdin s3))) as Hclose.
  { intros s3 H3. apply (extends_trans [] _ _ s3); [done|]. by apply (extends_trans [ACloseStdin] [ACloseStdout] _ (act ACloseStdin s3)). }
  destruct (te_ctx_err (tw s2)).
  { intros; simplify_eq. exists [ACloseStdin; ACloseStdout]. split; [by apply Hclose|]. apply Hunstarted. apply list.Forall_forall; set_solver. }
  destruct (try_env te_Start s2) as [e3 s3] eqn:H3. apply extends_env in H3.
  pose proof (extends_trans _ _ _ _ _ H12 H3) as H13. clear H12 H3. simpl in H13.
  destruct e3.
  { intros; simplify_eq. exists [ACloseStdin; ACloseStdout]. split; [by apply Hclose|]. apply Hunstarted. apply list.Forall_forall; set_solver. }
  pose proof (extends_trans _ _ _ _ _ H13 (extends_act AStart s3)) as H14. clear H13. simpl in H14.
  destruct (if p_Track p then _ else _) as [e5 s5] eqn:H5.
  assert (∃ l, extends (AStart :: l) s s5 ∧ rpc_log (AStart :: l) = []) as (l & Hl & Hlog).
  { destruct (p_Track p); [|simplify_eq; by exists []]. apply extends_env in H5.
    exists [ATrack]. split; [|done]. exact (extends_trans [AStart] [ATrack] _ _ _ H14 (extends_trans [ATrack] [] _ _ _ (extends_act ATrack _) H5)). }
  destruct e5.
  { intros; simplify_eq. eexists. split.
    - eapply extends_trans; [exact Hl|]. eapply extends_trans; [apply extends_act|].
      eapply extends_trans; [apply extends_act|]. eapply extends_trans; [apply extends_act|apply extends_act].
    - right. exists ((AStart :: l) ++ [AStop; ACloseStdin; ACloseStdout]). split; [by rewrite <-(assoc_L (++))|].
      rewrite rpc_log_app, Hlog. split; [set_solver|]. split; [left; apply prefix_nil|done]. }
  destruct (body c (p_Workspace p) s5) as [o6 s6] eqn:H6. apply body_log in H6 as (lb & Hb & Hpre & Hfull & _).
  intros (l1 & l2 & Hs & Hint & Hl2)%shutdown_log.
  eexists. split; [eapply extends_trans; [exact Hl|eapply extends_trans; [exact Hb|exact Hs]]|].
  set (fin := if p_Track p then [AFinish] else []).
  assert (Hfin : rpc_log fin = []) by (subst fin; by destruct (p_Track p)).
  right. exists ((AStart :: l) ++ lb ++ l1 ++ l2 ++ [AClose] ++ fin). split; [by rewrite <-!(assoc_L (++))|]. split; [set_solver|]. split.
  - rewrite !rpc_log_app, Hlog, Hl2, Hfin. simpl. rewrite !app_nil_r.
    destruct Hint as [->|[Hreq [q ->]]]; simpl; [left; by rewrite app_nil_r|right; by rewrite Hfull].
  - intros _. exists ((AStart :: l) ++ lb ++ l1 ++ l2). by rewrite <-!(assoc_L (++)).
Qed.

(** C6: whatever fails and whenever the request is cancelled, a run that started
    the process waits for it, last but for the factory's cleanup; the requests it
    sent are a prefix of initialize, initialized, thread/start or thread/resume,
    turn/start, possibly followed by one turn/interrupt after a turn was asked
    for; a run that sent anything closed the client and, exactly when the factory
    tracks descendants, ended them, between its last request and the wait.  A run
    that did not start the process closed its pipes at most, and the factory's
    cleanup runs last in every case the factory asked for it. *)
Theorem turn_lifecycle c s o s' :
  acts s = [] → Run c s = (o, s') →
  match te_ctx_err (tw s), c_Prepare c with
  | None, true => let p := (te_Prepare (tw s)).1.1 in lifecycle c (p_Cleanup p) (p_Track p) (acts s')
  | _, _ => acts s' = []
  end.
Proof.
  intros H0. unfold Run. destruct (te_ctx_err (tw s)); [by intros; simplify_eq|].
  destruct (c_Prepare c); cbn [negb]; [|by intros; simplify_eq].
  destruct (te_Prepare (tw s)) as [[p e] w]. cbn zeta. cbn [fst].
  destruct (match e with Some _ => _ | None => _ end) as [o1 s1] eqn:H1.
  assert (∃ l, extends l (with_w w s) s1 ∧ lifecycle c false (p_Track p) l) as (l & Hl & Hlc).
  { destruct e; [|by eapply launch_log]. simplify_eq. exists []. split; [apply extends_nil|]. left. exists []. set_solver. }
  intros; simplify_eq. unfold extends in Hl. simpl in Hl. rewrite H0 in Hl. simpl in Hl.
  destruct (p_Cleanup p); [|by rewrite Hl]. simpl. rewrite Hl.
  destruct Hlc as [(l' & -> & Ha)|(l' & -> & Hst & Hp & Hc)]; [left|right]; exists l'.
  - by rewrite app_nil_r.
  - assert (rpc_log ((l' ++ [AWait] ++ []) ++ [ACleanup]) = rpc_log (l' ++ [AWait] ++ [])) as Hr by (rewrite (rpc_log_app _ [ACleanup]); apply app_nil_r).
    rewrite Hr. split; [by rewrite <-!(assoc_L (++))|done].
Qed.

(** the shutdown reports what went wrong: an error of the turn stays
    recognisable after it, and a failure to end the descendant processes is
    always reported as [ErrProcessCleanup], also for a turn that succeeded or
    was cancelled. *)
Theorem shutdown_reports_errors track o s o' s' :
  shutdown track o s = (o', s') →
  (∀ e t, o_err o = Some e → errors_Is e t = true → ∃ e', o_err o' = Some e' ∧ errors_Is e' t = true) ∧
  (track = true → (∀ w, (te_Finish w).1 ≠ None) →
   ∃ e', o_err o' = Some e' ∧ errors_Is e' ErrProcessCleanup = true) ∧
  o_thread o' = o_thread o ∧ o_final o' = o_final o.
Proof.
  unfold shutdown. cbn zeta. destruct (finish_descendants _ _) as [fe s4] eqn:Hf. intros Hr. simplify_eq. simpl.
  split_and!; [| |done|done].
  - intros e t -> Ht. destruct fe as [e'|]; simpl; [|eauto].
    eexists. split; [done|]. apply (errors_Is_join e); [by left|done].
  - intros -> Hfail. unfold finish_descendants, try_env in Hf.
    destruct (te_Finish _) as [x w] eqn:E. simplify_eq.
    destruct fe as [e'|]; [|by destruct (Hfail _ (f_equal fst E))].
    destruct (o_err o) as [e0|]; cbn; eexists; (split; [reflexivity|]);
      (apply (errors_Is_join ErrProcessCleanup); [set_solver|done]).
Qed.
(** The thread of a turn that succeeded: a valid identifier, the saved one when a
    session was resumed. *)
Definition own_thread c o : Prop :=
  o_err o = None → valid_id (o_thread o) = true ∧ (c_SessionID c ≠ "" → o_thread o = c_SessionID c).

Lemma failed_thread c e : own_thread c (failed e).
Proof. done. Qed.

Lemma start_turn_thread c id s o s' : start_turn c id s = (o, s') → o_thread o = id.
Proof.
  unfold start_turn. destruct (rpc _ _ _ s) as [r s1]. destruct r as [t|e]; [|intros; by simplify_eq].
  destruct (valid_id (tu_ID t)); [|intros; by simplify_eq]. unfold run_loop.
  destruct (loop _ _ _) as [r h]. destruct (default _ r) as [f e]. intros; by simplify_eq.
Qed.

Lemma body_thread c workspace s o s' : body c workspace s = (o, s') → own_thread c o.
Proof.
  unfold body. destruct (rpc _ _ _ s) as [[?|?] s0]; [|intros; by simplify_eq]. destruct (try_env _ _) as [[?|] s1]; [intros; by simplify_eq|].
  destruct (match te_Before with Some _ => _ | None => _ end) as [[?|] s2]; [intros; by simplify_eq|].
  destruct (open_thread c workspace s2) as [[id|?] s3] eqn:Ho; [|intros; by simplify_eq].
  destruct (valid_id id) eqn:Hv; [|intros; by simplify_eq]. intros Hs%start_turn_thread _. rewrite Hs. split; [done|].
  intros Hne. revert Ho. unfold open_thread. rewrite bool_decide_false by done. cbn [negb].
  destruct (rpc _ _ _ s2) as [[id'|?] s4]; [|done]. case_bool_decide; intros; by simplify_eq.
Qed.

Lemma launch_thread c p s o s' : launch c p s = (o, s') → own_thread c o.
Proof.
  unfold launch. destruct (p_command p); cbn [negb]; [|intros; by simplify_eq].
  destruct (try_env _ s) as [[?|] s1]; [intros; by simplify_eq|]. destruct (try_env _ s1) as [[?|] s2]; [intros; by simplify_eq|].
  destruct (te_ctx_err (tw s2)); [intros; by simplify_eq|]. destruct (try_env _ s2) as [[?|] s3]; [intros; by simplify_eq|].
  destruct (if p_Track p then _ else _) as [[?|] s5]; [intros; by simplify_eq|].
  destruct (body c (p_Workspace p) s5) as [o1 s6] eqn:Hb. apply body_thread in Hb. unfold shutdown. cbn zeta.
  destruct (finish_descendants _ _) as [fe s7]. intros [= <- _] He. cbn [o_thread o_err] in *. apply Hb.
  destruct fe as [e|]; [|destruct (o_err o1); done]. by destruct (o_err o1).
Qed.

Lemma Run_thread c s o s' : Run c s = (o, s') → own_thread c o.
Proof.
  unfold Run. destruct (te_ctx_err (tw s)); [intros; by simplify_eq|]. destruct (c_Prepare c); cbn [negb]; [|intros; by simplify_eq].
  destruct (te_Prepare (tw s)) as [[p e] w]. destruct (match e with Some _ => _ | None => _ end) as [o1 s1] eqn:H1. intros [= <- _].
  destruct e; [by simplify_eq|]. by apply launch_thread in H1.
Qed.
End run_props.

(** ** Concrete instances *)
Module TurnWitness.
Definition f64 : Float64 := Some.
#[local] Existing Instance f64.
Definition own (id : string) : Turn :=
  {| tu_ID := "turn"; tu_Status := "completed";
     tu_Items := [{| ti_Type := "agentMessage"; ti_Text := Some id; ti_Phase := None; ti_json := JObj [] |}] |}.
Definition protocol_instance : CodexProtocol := {|
  dec_item := λ _, None; dec_error := λ _, None;
  dec_turn_event := λ _, Some {| tn_ThreadID := "thread"; tn_Turn := own "answer" |};
  dec_initialize := λ _, Some tt; dec_thread := λ _, Some "thread"; dec_resumed := λ _, Some "thread"; dec_turn := λ _, Some (own "");
  dec_interrupt := λ _, Some tt;
|}.
#[local] Existing Instance protocol_instance.
Definition completed : Message :=
  {| m_ID := None; m_Method := "turn/completed"; m_Params := Some (JObj []); m_Result := None; m_Error := None |}.
Definition answer : Message :=
  {| m_ID := None; m_Method := ""; m_Params := None; m_Result := Some (JObj []); m_Error := None |}.
Definition hc : hconfig := {| h_thread := "thread"; h_turn := "turn"; h_emit := true; h_observe := true |}.
Definition h0 : hstate := {| final := ""; emitted := []; observed := [] |}.

Lemma turn_success_is_own_completion_witness :
  ∃ before p after t, [PFirst completed] = before ++ p :: after ∧ own_completion hc p = Some t ∧
    tu_Status t = "completed" ∧ "answer" ≠ "" ∧
    "answer" = last_final (concat (map (own_items hc) before) ++ tu_Items t) (final h0).
Proof. apply (turn_success_is_own_completion hc [PFirst completed] h0 "answer" (loop hc [PFirst completed] h0).2). reflexivity. Defined.

(** The world says whether ending the descendants fails. *)
Definition env : TurnEnv bool := {|
  te_ctx_err := λ _, None;
  te_Prepare := λ w, ({| p_command := true; p_Workspace := "/w"; p_Cleanup := true; p_Track := true |}, None, w);
  te_StdinPipe := λ w, (None, w); te_StdoutPipe := λ w, (None, w); te_Start := λ w, (None, w); te_Track := λ w, (None, w);
  te_Finish := λ w, (Some (ENew "left over"), w);
  te_Call := λ _ _ w, (Ok answer, w); te_Notify := λ _ w, (None, w); te_Before := None;
  te_ThreadConfig := λ _, []; te_rounds := λ _, [PFirst completed]; te_learn := λ _, []; te_client_err := λ _, None;
|}.
#[local] Existing Instance env.
Definition config : Config := {|
  c_Prepare := true; c_SessionID := ""; c_Prompt := "hi"; c_Sandbox := "read-only"; c_Model := ""; c_Approval := "";
  c_Persistent := false; c_UseConfiguredPermissions := false; c_Observer := true; c_Emit := true |}.
Definition start : tst bool := {| tw := true; acts := []; th := h0 |}.

Lemma turn_lifecycle_witness : lifecycle config true true (acts (Run config start).2).
Proof. exact (turn_lifecycle config start (Run config start).1 (Run config start).2 eq_refl (surjective_pairing _)). Defined.

Definition good : outcome := {| o_thread := "thread"; o_final := "answer"; o_err := None; o_turn := "turn"; o_requested := true |}.
Lemma shutdown_reports_errors_witness :
  ∃ e', o_err (shutdown true good start).1 = Some e' ∧ errors_Is e' ErrProcessCleanup = true.
Proof.
  destruct (shutdown_reports_errors true good start (shutdown true good start).1 (shutdown true good start).2) as (_ & H & _).
  - by destruct (shutdown true good start).
  - apply H; [reflexivity|]. intros w Hw. discriminate Hw.
Defined.
End TurnWitness.
