(* ===== verification/GoNet.v ===== *)
(** * Packages net and net/http

    What the two local servers use of Go's network packages: IP address parsing
    (for the loopback test), canonical header keys, a header map, and a response
    as a client would see it. *)

From S2P Require Import Prelude GoStrings Json.
From stdpp Require Import options.

Open Scope Z_scope.

(** ** net.ParseIP *)

Definition hex_value (c : ascii) : option Z :=
  let b := byte_val c in
  if (48 <=? b) && (b <=? 57) then Some (b - 48)
  else if (97 <=? b) && (b <=? 102) then Some (b - 87)
  else if (65 <=? b) && (b <=? 70) then Some (b - 55)
  else None.

Fixpoint hex_number (acc : Z) (s : string) : option Z :=
  match s with
  | EmptyString => Some acc
  | String c s' => v ← hex_value c; hex_number (acc * 16 + v) s'
  end.

(** One field of a dotted address: no leading zero, at most 255. *)
Definition ipv4_field (s : string) : option Z :=
  v ← parse_digits s;
  if (String.length s <=? 3)%nat && (v <=? 255) &&
     negb ((1 <? Z.of_nat (String.length s)) && HasPrefix s "0")
  then Some v else None.

Definition parse_ipv4 (s : string) : option (list Z) :=
  match Split s "." with
  | [a; b; c; d] => a' ← ipv4_field a; b' ← ipv4_field b; c' ← ipv4_field c; d' ← ipv4_field d;
                    Some [a'; b'; c'; d']
  | _ => None
  end.

(** Sixteen-bit groups separated by colons; only the last may be a dotted address. *)
Fixpoint ipv6_groups (fields : list string) : option (list Z) :=
  match fields with
  | [] => Some []
  | f :: fs =>
      match fs, parse_ipv4 f with
      | [], Some [a; b; c; d] => Some [a * 256 + b; c * 256 + d]
      | _, _ =>
          if bool_decide (f = "") || (4 <? Z.of_nat (String.length f)) then None
          else v ← hex_number 0 f; rest ← ipv6_groups fs; Some (v :: rest)
      end
  end.

(** Cut at the first double colon. *)
Fixpoint cut_ellipsis (s : string) : option (string * string) :=
  match s with
  | EmptyString => None
  | String c s' =>
      if HasPrefix s "::" then Some ("", str_drop 2 s)
      else (λ p, (String c p.1, p.2)) <$> cut_ellipsis s'
  end.

Definition side (s : string) : option (list Z) :=
  if bool_decide (s = "") then Some [] else ipv6_groups (Split s ":").

Definition parse_ipv6 (s : string) : option (list Z) :=
  match cut_ellipsis s with
  | None => g ← ipv6_groups (Split s ":"); if (length g =? 8)%nat then Some g else None
  | Some (a, b) =>
      if Contains b "::" || Contains a "." then None
      else
        l ← side a; r ← side b;
        if (length l + length r <? 8)%nat
        then Some (l ++ replicate (8 - length l - length r) 0 ++ r) else None
  end.

Inductive IP := IPv4 (bytes : list Z) | IPv6 (groups : list Z).

Definition ParseIP (s : string) : option IP :=
  match parse_ipv4 s with
  | Some b => Some (IPv4 b)
  | None => IPv6 <$> parse_ipv6 s
  end.

(** [IP.IsLoopback]: 127.0.0.0/8, also as a mapped IPv6 address, and ::1. *)
Definition IsLoopback (ip : IP) : bool :=
  match ip with
  | IPv4 (127 :: _) => true
  | IPv4 _ => false
  | IPv6 [0; 0; 0; 0; 0; 0xFFFF; hi; _] => hi / 256 =? 127
  | IPv6 g => bool_decide (g = [0; 0; 0; 0; 0; 0; 0; 1])
  end.

(** ** Headers *)

(** Bytes of an RFC 7230 token. *)
Definition is_token (c : ascii) : bool :=
  let b := byte_val c in
  is_digit c || ((65 <=? b) && (b <=? 90)) || ((97 <=? b) && (b <=? 122)) ||
  in_cutset "!#$%&'*+-.^_`|~" c.

Definition upper_byte (c : ascii) : ascii :=
  let b := byte_val c in if (97 <=? b) && (b <=? 122) then byte_of (b - 32) else c.
Definition lower_byte (c : ascii) : ascii :=
  let b := byte_val c in if (65 <=? b) && (b <=? 90) then byte_of (b + 32) else c.

Fixpoint canonical (up : bool) (s : string) : string :=
  match s with
  | EmptyString => EmptyString
  | String c s' => String (if up then upper_byte c else lower_byte c) (canonical (bool_decide (c = "-"%char)) s')
  end.

(** [textproto.CanonicalMIMEHeaderKey] *)
Definition CanonicalKey (s : string) : string :=
  if str_forallb is_token s then canonical true s else s.

(** [http.Header]: the keys a server reads are canonical. *)
Notation Header := (gmap string (list string)).
Definition Header_Values (h : Header) (key : string) : list string := default [] (h !! CanonicalKey key).
Definition Header_Get (h : Header) (key : string) : string := default "" (head (Header_Values h key)).
Definition Header_Del (key : string) (h : Header) : Header := delete (CanonicalKey key) h.
Definition Header_Set (key value : string) (h : Header) : Header := <[CanonicalKey key := [value]]> h.

(** ** http.ResponseWriter

    The response of the server: the final status, the informational ones before
    it, the header when the status was written, and the body. *)
Record Response := {
  r_status : option Z;
  r_info : list Z;
  r_header : Header;
  r_body : string;
}.
Definition empty_response : Response := {| r_status := None; r_info := []; r_header := ∅; r_body := "" |}.

Definition informational (status : Z) : bool := (100 <=? status) && (status <=? 199) && negb (status =? 101).
Definition body_allowed (status : Z) : bool :=
  negb (((100 <=? status) && (status <=? 199)) || (status =? 204) || (status =? 304)).

Definition set_header (h : Header) (r : Response) : Response :=
  {| r_status := r_status r; r_info := r_info r; r_header := h; r_body := r_body r |}.
Definition WriteHeader (status : Z) (r : Response) : Response :=
  match r_status r with
  | Some _ => r
  | None =>
      if informational status
      then {| r_status := None; r_info := r_info r ++ [status]; r_header := r_header r; r_body := r_body r |}
      else {| r_status := Some status; r_info := r_info r; r_header := r_header r; r_body := r_body r |}
  end.
Definition WriteBody (body : string) (r : Response) : Response :=
  let r' := WriteHeader 200 r in
  match r_status r' with
  | Some s => if body_allowed s
              then {| r_status := r_status r'; r_info := r_info r'; r_header := r_header r'; r_body := r_body r' +:+ body |}
              else r'
  | None => r'
  end.
Definition FlushResponse (r : Response) : Response := WriteHeader 200 r.

(** [json.NewEncoder(w).Encode(value)] after the content type and the status. *)
Definition write_json (content_type : string) (status : Z) (value : json) (r : Response) : Response :=
  WriteBody (marshal value +:+ str_of_bytes [10])
    (WriteHeader status (set_header (Header_Set "Content-Type" content_type (r_header r)) r)).

(** ** Requests *)
Record Request := {
  q_Method : string;
  q_Path : string;
  q_Header : Header;
  (** The body: its bytes, or a read error after them. *)
  q_Body : option (string * bool);
  q_ContentLength : Z;
}.

Example parse_loopback : IsLoopback <$> ParseIP "127.1.2.3" = Some true.
Proof. reflexivity. Qed.
Example parse_loopback6 : IsLoopback <$> ParseIP "::1" = Some true.
Proof. reflexivity. Qed.
Example parse_any6 : IsLoopback <$> ParseIP "::" = Some false.
Proof. reflexivity. Qed.
Example parse_mapped : IsLoopback <$> ParseIP "::ffff:127.0.0.1" = Some true.
Proof. reflexivity. Qed.
Example parse_leading_zero : ParseIP "127.0.0.01" = None.
Proof. reflexivity. Qed.
Example canonical_key : CanonicalKey "x-openlinker-agent-node-token" = "X-Openlinker-Agent-Node-Token".
Proof. reflexivity. Qed.

Lemma WriteHeader_status s r :
  informational s = false → r_status (WriteHeader s r) = Some (default s (r_status r)).
Proof. unfold WriteHeader. intros Hs. destruct (r_status r) eqn:E; [done|]. by rewrite Hs. Qed.
