(* ===== verification/PublicA2A.v ===== *)
(** * The public A2A listener

    internal/agentnode/public_a2a_server.go: the life cycle of the listener and
    of the SDK proxy it owns, the response writer that converts the proxy's
    unavailable answer, and the request handlers. *)

From S2P Require Import Prelude GoStrings Json JsonRoundtrip GoNet.
From stdpp Require Import options.

Open Scope Z_scope.

Definition maxPublicA2ARequestBodyBytes : Z := 1024 * 1024.
Definition maxPublicA2AProxyErrorBodyBytes : Z := 64 * 1024.

Definition publicA2AHopByHopHeaders : list string :=
  ["Connection"; "Proxy-Connection"; "Keep-Alive"; "Proxy-Authenticate"; "Proxy-Authorization"; "Te";
   "Trailer"; "Transfer-Encoding"; "Upgrade"].

(** [publicA2AHostIsLoopback] *)
Definition publicA2AHostIsLoopback (host : string) : bool :=
  EqualFold (TrimSpace host) "localhost" ||
  match ParseIP (Trim (TrimSpace host) "[]") with Some ip => IsLoopback ip | None => false end.

(** ** The life cycle

    Proxies and server generations are numbered.  The work a stop does after it
    released the mutex is an entry of [stopping]: the server to shut down, then the
    proxy to close.  Ghosts: [accepted] are the proxies [setProxy] took, [closed] the
    calls of [proxy.Close], [listening] the generations whose listener is open. *)
Module Lifecycle.
Record stop_work := { sw_id : nat; sw_server : option nat; sw_proxy : option nat }.
Record PublicA2AServer := {
  Host : string; Port : Z; Slug : string; Name : string; Description : string; Token : string;
  server : option nat;
  baseURL : string;
  proxy : option nat;
  generations : nat;
  accepted : list nat;
  closed : list nat;
  listening : gset nat;
  stopping : list stop_work;
  stops : nat;
}.

Definition new (host : string) (port : Z) (slug name description token : string) : PublicA2AServer :=
  {| Host := host; Port := port; Slug := slug; Name := name; Description := description; Token := token;
     server := None; baseURL := ""; proxy := None; generations := 0; accepted := []; closed := []; listening := ∅;
     stopping := []; stops := 0 |}.

(** [setProxy]; [None] is a nil interface. *)
Definition setProxy (p : option nat) (s : PublicA2AServer) : option go_error * PublicA2AServer :=
  match p with
  | None => (Some (ENew "public A2A server requires SDK Runtime A2A proxy"), s)
  | Some id =>
      match server s, proxy s with
      | Some _, _ => (Some (ENew "public A2A server is already started"), s)
      | None, Some _ => (Some (ENew "public A2A server already has an SDK Runtime A2A proxy"), s)
      | None, None =>
          (None, {| Host := Host s; Port := Port s; Slug := Slug s; Name := Name s; Description := Description s;
                    Token := Token s; server := None; baseURL := baseURL s; proxy := Some id;
                    generations := generations s; accepted := accepted s ++ [id]; closed := closed s;
                    listening := listening s; stopping := stopping s; stops := stops s |})
      end
  end.

(** The defaults [Start] fills in. *)
Definition defaults (s : PublicA2AServer) : PublicA2AServer :=
  let slug := TrimSpace (Slug s) in
  let slug' := if bool_decide (slug = "") then "agent-node" else slug in
  {| Host := if bool_decide (Host s = "") then "127.0.0.1" else Host s; Port := Port s; Slug := slug';
     Name := if bool_decide (Name s = "") then slug' else Name s; Description := Description s; Token := Token s;
     server := server s; baseURL := baseURL s; proxy := proxy s; generations := generations s;
     accepted := accepted s; closed := closed s; listening := listening s; stopping := stopping s; stops := stops s |}.

(** Under the mutex: take the proxy, and the server if there is one, and leave the
    rest to be done after the unlock. *)
Definition take (s : PublicA2AServer) : PublicA2AServer :=
  {| Host := Host s; Port := Port s; Slug := Slug s; Name := Name s; Description := Description s; Token := Token s;
     server := None; baseURL := baseURL s; proxy := None; generations := generations s;
     accepted := accepted s; closed := closed s; listening := listening s;
     stopping := {| sw_id := stops s; sw_server := server s; sw_proxy := proxy s |} :: stopping s; stops := S (stops s) |}.

(** [failStartLocked]: [Start] calls it without a server. *)
Definition failStartLocked (e : go_error) (s : PublicA2AServer) : option go_error * PublicA2AServer := (Some e, take s).

(** What [net.Listen] returned: an error, a listener without a TCP address, or
    the base URL of its address. *)
Inductive listen_result := ListenErr (e : go_error) | ListenOther | ListenTCP (url : string).

Definition errNoTCP : go_error := ENew "public A2A listener did not return a TCP address".
Definition errTokenRequired : go_error :=
  ENew "public A2A token is required when binding to non-loopback host".

(** [Start], which holds the mutex while it listens. *)
Definition Start (listen : listen_result) (s0 : PublicA2AServer) : option go_error * PublicA2AServer :=
  match server s0 with
  | Some _ => (Some (ENew "public A2A server is already started"), s0)
  | None =>
      let s := defaults s0 in
      if negb (publicA2AHostIsLoopback (Host s)) && bool_decide (TrimSpace (Token s) = "")
      then failStartLocked errTokenRequired s
      else
        match proxy s with
        | None => (Some (ENew "public A2A server requires SDK Runtime A2A proxy"), s)
        | Some p =>
            match listen with
            | ListenErr e => failStartLocked e s
            | ListenOther => failStartLocked errNoTCP s
            | ListenTCP url =>
                let g := generations s in
                (None, {| Host := Host s; Port := Port s; Slug := Slug s; Name := Name s;
                          Description := Description s; Token := Token s; server := Some g; baseURL := url;
                          proxy := Some p; generations := S g; accepted := accepted s; closed := closed s;
                          listening := {[ g ]} ∪ listening s; stopping := stopping s; stops := stops s |})
            end
        end
  end.

(** [stopGeneration] up to the unlock; [Stop] expects nothing. *)
Definition stopGeneration (expected : option nat) (s : PublicA2AServer) : PublicA2AServer :=
  match expected with
  | Some g => if bool_decide (server s = Some g) then take s else s
  | None => take s
  end.
Definition Stop (s : PublicA2AServer) : PublicA2AServer := stopGeneration None s.

(** [stopGeneration] after the unlock, for the entry [w] with [rest] the others:
    [server.Shutdown] closes the listener (or leaves it to [Serve], which has not begun
    then and closes it on return), then [proxy.Close]. *)
Definition set_work (l : gset nat) (c : list nat) (ws : list stop_work) (s : PublicA2AServer) : PublicA2AServer :=
  {| Host := Host s; Port := Port s; Slug := Slug s; Name := Name s; Description := Description s; Token := Token s;
     server := server s; baseURL := baseURL s; proxy := proxy s; generations := generations s;
     accepted := accepted s; closed := c; listening := l; stopping := ws; stops := stops s |}.
Definition shutdown_server (w : stop_work) (g : nat) (rest : list stop_work) (s : PublicA2AServer) : PublicA2AServer :=
  set_work (listening s ∖ {[ g ]}) (closed s) ({| sw_id := sw_id w; sw_server := None; sw_proxy := sw_proxy w |} :: rest) s.
Definition close_proxy (w : stop_work) (rest : list stop_work) (s : PublicA2AServer) : PublicA2AServer :=
  set_work (listening s) (closed s ++ option_list (sw_proxy w)) rest s.

(** The work of the stops in progress, one step of one of them. *)
Inductive work_step (s : PublicA2AServer) : PublicA2AServer → Prop :=
  | ws_shutdown w g rest : stopping s ≡ₚ w :: rest → sw_server w = Some g → work_step s (shutdown_server w g rest s)
  | ws_close w rest : stopping s ≡ₚ w :: rest → sw_server w = None → work_step s (close_proxy w rest s).

(** The steps of the owner, of a generation's lifetime goroutine when its parent
    context ends, however late that is, and of the stops in progress. *)
Inductive lstep (s : PublicA2AServer) : PublicA2AServer → Prop :=
  | ls_set p : p ∉ accepted s → lstep s (setProxy (Some p) s).2
  | ls_set_nil : lstep s (setProxy None s).2
  | ls_start r : lstep s (Start r s).2
  | ls_stop : lstep s (Stop s)
  | ls_parent_done g : (g < generations s)%nat → lstep s (stopGeneration (Some g) s)
  | ls_work s' : work_step s s' → lstep s s'.

(** The generations and the proxies of the stops in progress. *)
Definition stopping_servers (s : PublicA2AServer) : list nat := omap sw_server (stopping s).
Definition stopping_proxies (s : PublicA2AServer) : list nat := omap sw_proxy (stopping s).
Definition live_servers (s : PublicA2AServer) : list nat := option_list (server s) ++ stopping_servers s.

Record linv (s : PublicA2AServer) : Prop := {
  li_proxies : accepted s ≡ₚ closed s ++ option_list (proxy s) ++ stopping_proxies s;
  li_nodup : NoDup (accepted s);
  li_serving : is_Some (server s) → is_Some (proxy s);
  li_listening g : g ∈ listening s ↔ g ∈ live_servers s;
  li_live : NoDup (live_servers s);
  li_generation g : g ∈ live_servers s → (g < generations s)%nat;
  li_ids : NoDup (sw_id <$> stopping s);
  li_stops w : w ∈ stopping s → (sw_id w < stops s)%nat;
  li_token : is_Some (server s) → publicA2AHostIsLoopback (Host s) = true ∨ TrimSpace (Token s) ≠ "";
}.

Lemma linv_new h p sl n d t : linv (new h p sl n d t).
Proof. split; cbn; try done; try (by intros []); try constructor; set_solver. Qed.

Lemma linv_defaults s : server s = None → linv s → linv (defaults s).
Proof. intros Hs []. unfold live_servers, stopping_servers, stopping_proxies in *. split; cbn; try done. by rewrite Hs; intros []. Qed.

Lemma linv_take s : linv s → linv (take s).
Proof.
  intros [H1 H2 _ H4 H5 H6 H7 H8 _]. unfold live_servers, stopping_servers, stopping_proxies in *. split; cbn; try done; try (by intros []).
  - rewrite H1. apply Permutation_app_head. by destruct (proxy s).
  - intros g. rewrite H4. by destruct (server s).
  - by destruct (server s).
  - intros g Hg. apply H6. by destruct (server s).
  - constructor; [|done]. intros (w & Hw & Hin)%list_elem_of_fmap. specialize (H8 w Hin). rewrite <- Hw in H8. lia.
  - intros w [->|Hin]%elem_of_cons; cbn; [lia|]. specialize (H8 w Hin). lia.
Qed.

Lemma stopping_split s w rest : linv s → stopping s ≡ₚ w :: rest →
  stopping_proxies s ≡ₚ option_list (sw_proxy w) ++ omap sw_proxy rest ∧
  stopping_servers s ≡ₚ option_list (sw_server w) ++ omap sw_server rest ∧
  sw_id <$> stopping s ≡ₚ sw_id w :: (sw_id <$> rest).
Proof.
  intros _ Hp. unfold stopping_proxies, stopping_servers. rewrite Hp. cbn. split_and!; [by destruct (sw_proxy w)|by destruct (sw_server w)|done].
Qed.

Lemma work_step_linv s s' : linv s → work_step s s' → linv s'.
Proof.
  intros Hi Hs. destruct Hs as [w g rest Hp Hg|w rest Hp Hg]; destruct (stopping_split s w rest Hi Hp) as (Hpr & Hsv & Hid);
    destruct Hi as [H1 H2 H3 H4 H5 H6 H7 H8 H9]; rewrite Hg in Hsv; cbn [option_list app] in Hsv.
  - assert (live_servers s ≡ₚ g :: option_list (server s) ++ omap sw_server rest) as Hl.
    { unfold live_servers. rewrite Hsv. by rewrite Permutation_middle. }
    rewrite Hl in H5. apply list.NoDup_cons in H5 as [Hng Hnd].
    split; cbn; unfold live_servers, stopping_servers, stopping_proxies; cbn; try done.
    + rewrite H1, Hpr. by destruct (sw_proxy w).
    + intros x. rewrite elem_of_difference, elem_of_singleton, H4, Hl, elem_of_cons. split; [tauto|]. intros Hx. split; [by right|]. by intros ->.
    + intros x Hx. apply H6. rewrite Hl. by right.
    + by rewrite <- Hid.
    + intros x [->|Hx]%elem_of_cons; cbn; apply H8; rewrite Hp; [by left|by right].
  - split; cbn; unfold live_servers, stopping_servers, stopping_proxies; cbn; try done.
    + rewrite H1, Hpr, <- (assoc_L (++)). apply Permutation_app_head. rewrite !(assoc_L (++)). apply Permutation_app_tail, Permutation_app_comm.
    + intros x. rewrite H4. unfold live_servers. by rewrite Hsv.
    + unfold live_servers in H5. by rewrite Hsv in H5.
    + intros x Hx. apply H6. unfold live_servers. by rewrite Hsv.
    + rewrite Hid in H7. by apply list.NoDup_cons in H7 as [_ ?].
    + intros x Hx. apply H8. rewrite Hp. by right.
Qed.

Lemma lstep_linv s s' : linv s → lstep s s' → linv s'.
Proof.
  intros Hi [p Hp| |r| |g Hg|s1 Hw].
  - simpl. destruct (server s) eqn:Hs; [done|]. destruct (proxy s) eqn:Hpr; [done|].
    destruct Hi as [H1 H2 H3 H4 H5 H6 H7 H8 H9]. unfold live_servers, stopping_servers, stopping_proxies in *. rewrite Hs, Hpr in *.
    split; cbn; try done.
    + rewrite H1. cbn. rewrite <- (assoc_L (++)). apply Permutation_app_head. apply (Permutation_app_comm _ [p]).
    + apply list.NoDup_app. split_and!; [done|set_solver|apply list.NoDup_singleton].
  - done.
  - unfold Start. destruct (server s) eqn:Hs; [done|].
    pose proof (linv_defaults s Hs Hi) as Hd. set (sd := defaults s) in *.
    assert (Hsd : server sd = None) by done. destruct (_ && _) eqn:Htok; [by apply linv_take|].
    destruct (proxy sd) as [p|] eqn:Hpr; [|done]. destruct r as [e| |url]; [by apply linv_take..|].
    destruct Hd as [H1 H2 H3 H4 H5 H6 H7 H8 H9]. clearbody sd. unfold live_servers, stopping_servers, stopping_proxies in *.
    rewrite Hsd in *. split; cbn; try done.
    + by rewrite H1, Hpr.
    + intros g. rewrite elem_of_union, elem_of_singleton, H4, elem_of_cons. done.
    + constructor; [|done]. intros Hin%H6. lia.
    + intros g [->|Hin]%elem_of_cons; [lia|]. specialize (H6 g Hin). lia.
    + intros _. apply andb_false_iff in Htok as [Htok|Htok]; go_bool; auto.
  - by apply linv_take.
  - unfold stopGeneration. case_bool_decide; [by apply linv_take|done].
  - by eapply work_step_linv.
Qed.

(** The stops in progress can always finish, without the owner or one another. *)
Lemma stops_finish s : ∃ s', rtc work_step s s' ∧ stopping s' = [] ∧ server s' = server s ∧ proxy s' = proxy s.
Proof.
  remember (length (stopping s)) as n eqn:Hn. revert s Hn. induction n as [|n IH]; intros s Hn.
  { exists s. split_and!; [done|by destruct (stopping s)|done|done]. }
  destruct (stopping s) as [|w rest] eqn:Hs; [done|]. injection Hn as Hn.
  assert (∃ s1, rtc work_step s s1 ∧ stopping s1 = rest ∧ server s1 = server s ∧ proxy s1 = proxy s) as (s1 & H1 & Hr & Hsv & Hp).
  { destruct (sw_server w) as [g|] eqn:Hg.
    - set (w' := {| sw_id := sw_id w; sw_server := None; sw_proxy := sw_proxy w |}).
      exists (close_proxy w' rest (shutdown_server w g rest s)). split; [|done].
      eapply rtc_l; [apply (ws_shutdown s w g rest); [by rewrite Hs|done]|]. apply rtc_once, (ws_close _ w' rest); done.
    - exists (close_proxy w rest s). split; [apply rtc_once, (ws_close s w rest); [by rewrite Hs|done]|done]. }
  destruct (IH s1 ltac:(by rewrite Hr)) as (s2 & H2 & He & Hsv' & Hp'). exists s2. split_and!; [by etrans|done|congruence|congruence].
Qed.

(** C23: however starts, stops, failed starts and late cancellations of earlier
    generations interleave, with the shutdowns and closes they do after releasing the
    mutex in any order: every proxy the server accepted is closed exactly once, or is
    the current one, or is about to be closed by one stop in progress; a serving
    generation has a proxy; exactly the serving generation and those being shut down
    listen; a server that binds a non-loopback host has a token; and the stops in
    progress can finish by themselves, after which only the serving generation listens
    and only the current proxy is open. *)
Theorem a2a_lifecycle h p sl n d t s :
  rtc lstep (new h p sl n d t) s →
  (NoDup (accepted s) ∧ accepted s ≡ₚ closed s ++ option_list (proxy s) ++ stopping_proxies s) ∧
  (is_Some (server s) → is_Some (proxy s)) ∧
  (∀ g, g ∈ listening s ↔ server s = Some g ∨ g ∈ stopping_servers s) ∧
  (is_Some (server s) → publicA2AHostIsLoopback (Host s) = true ∨ TrimSpace (Token s) ≠ "") ∧
  ∃ s', rtc work_step s s' ∧ stopping s' = [] ∧ server s' = server s ∧ proxy s' = proxy s ∧
    accepted s' ≡ₚ closed s' ++ option_list (proxy s') ∧ ∀ g, g ∈ listening s' ↔ server s' = Some g.
Proof.
  intros Hs. assert (linv s) as Hi.
  { pose proof (linv_new h p sl n d t) as H0. revert H0 Hs. generalize (new h p sl n d t). intros s0 H0 Hs. induction Hs; eauto using lstep_linv. }
  assert (∀ s1 g, linv s1 → g ∈ listening s1 ↔ server s1 = Some g ∨ g ∈ stopping_servers s1) as Hl.
  { intros s1 g Hi1. rewrite (li_listening _ Hi1). unfold live_servers. rewrite elem_of_app. destruct (server s1); cbn; set_solver. }
  destruct (stops_finish s) as (s' & Hw & He & Hsv & Hp).
  assert (linv s') as Hi' by (clear -Hw Hi; induction Hw; eauto using work_step_linv).
  split; [split; apply Hi|]. split; [apply Hi|]. split; [intros g; by apply Hl|]. split; [apply Hi|].
  exists s'. split_and!; try done.
  - rewrite (li_proxies _ Hi'). unfold stopping_proxies. by rewrite He, app_nil_r.
  - intros g. rewrite (Hl s' g Hi'). unfold stopping_servers. rewrite He. cbn. rewrite elem_of_nil. tauto.
Qed.

Lemma a2a_lifecycle_witness :
  let s := (Start (ListenTCP "http://127.0.0.1:1") (setProxy (Some 7%nat) (new "" 0 "" "" "" "")).2).2 in
  listening (Stop s) = {[0%nat]} ∧ ∃ s', rtc work_step (Stop s) s' ∧ stopping s' = [] ∧ closed s' ≡ₚ [7%nat].
Proof.
  cbn zeta. set (s := (Start _ _).2). split; [reflexivity|].
  destruct (a2a_lifecycle "" 0 "" "" "" "" (Stop s)) as (_ & _ & _ & _ & s' & Hw & He & _ & Hp & Ha & _).
  - eapply rtc_l; [apply (ls_set _ 7%nat); apply not_elem_of_nil|]. eapply rtc_l; [apply (ls_start _ (ListenTCP "http://127.0.0.1:1"))|]. apply rtc_once, ls_stop.
  - exists s'. split; [exact Hw|]. split; [exact He|]. assert (accepted s' = [7%nat]) as Hacc.
    { assert (∀ a b, work_step a b → accepted b = accepted a) as H1 by (intros a b []; reflexivity).
      clear - Hw H1. change [7%nat] with (accepted (Stop s)). induction Hw as [|a b c Hab _ IH]; [reflexivity|]. rewrite IH. by apply H1. }
    rewrite Hacc, Hp in Ha. cbn in Ha. rewrite app_nil_r in Ha. by symmetry.
Defined.
End Lifecycle.

(** ** The response writer *)
Module ProxyWriter.
Record writer := {
  target : Response;
  status : Z;
  wroteHeader : bool;
  holdError : bool;
  held : string;
}.
Definition new (t : Response) : writer :=
  {| target := t; status := 0; wroteHeader := false; holdError := false; held := "" |}.

Definition on_target (f : Response → Response) (w : writer) : writer :=
  {| target := f (target w); status := status w; wroteHeader := wroteHeader w; holdError := holdError w; held := held w |}.

(** [WriteHeader] *)
Definition WriteHeader (st : Z) (w : writer) : writer :=
  if wroteHeader w then w
  else if st =? 502
  then {| target := target w; status := st; wroteHeader := true; holdError := true; held := held w |}
  else {| target := GoNet.WriteHeader st (target w); status := st; wroteHeader := true;
          holdError := holdError w; held := held w |}.

(** [flushHeldError] *)
Definition flushHeldError (w : writer) : writer :=
  if negb (holdError w) then w
  else
    let t := GoNet.WriteHeader (status w) (target w) in
    {| target := if bool_decide (held w = "") then t else WriteBody (held w) t;
       status := status w; wroteHeader := wroteHeader w; holdError := false; held := "" |}.

(** [Write] *)
Definition Write (body : string) (w0 : writer) : writer :=
  let w := if wroteHeader w0 then w0 else WriteHeader 200 w0 in
  if negb (holdError w) then on_target (WriteBody body) w
  else if slen (held w) + slen body <=? maxPublicA2AProxyErrorBodyBytes
  then {| target := target w; status := status w; wroteHeader := wroteHeader w; holdError := true;
          held := held w +:+ body |}
  else on_target (WriteBody body) (flushHeldError w).

(** [Flush] *)
Definition Flush (w0 : writer) : writer :=
  let w := if wroteHeader w0 then w0 else WriteHeader 200 w0 in
  if holdError w then w else on_target FlushResponse w.

(** [runtimeA2AProxyUnavailable] *)
Definition code_fields : list (field string) := [f_string "code" (λ v _, v)].
Definition envelope_fields : list (field string) :=
  [("error", λ j code, match j with
                       | JNull => Some code
                       | _ => decode_struct false code_fields code j
                       end)].
Definition runtimeA2AProxyUnavailable (body : string) : bool :=
  match (j ← parse body; decode_struct false envelope_fields "" j) with
  | Some code => bool_decide (code = "A2A_PROXY_UNAVAILABLE")
  | None => false
  end.

Definition writeA2AJSON (st : Z) (value : json) (r : Response) : Response :=
  write_json "application/a2a+json" st value r.
Definition a2a_error (code message : string) : json :=
  go_obj [("error", go_obj [("code", JStr code); ("message", JStr message)])].
Definition writeA2AError (st : Z) (code message : string) (r : Response) : Response :=
  writeA2AJSON st (a2a_error code message) r.

(** [jsonRPCID] *)
Definition jsonRPCID (id : option json) (validRequest : bool) : json :=
  match id with Some j => if validRequest then j else JNull | None => JNull end.

Definition rpc_error (id : option json) (code : Z) (message : string) (data : option json) : json :=
  JObj [("jsonrpc", JStr "2.0"); ("id", jsonRPCID id true);
        ("error", JObj ([("code", JNum (Itoa code)); ("message", JStr message)]
                        ++ match data with Some d => [("data", d)] | None => [] end))].
Definition writePublicA2AJSONRPCError (id : option json) (code : Z) (message : string) (data : option json)
    (r : Response) : Response :=
  writeA2AJSON 200 (rpc_error id code message data) r.
Definition rpc_result (id : option json) (result : json) : json :=
  JObj [("jsonrpc", JStr "2.0"); ("id", jsonRPCID id true); ("result", result)].
Definition writePublicA2AJSONRPCResult (id : option json) (result : json) (r : Response) : Response :=
  writeA2AJSON 200 (rpc_result id result) r.

(** The end of a proxied request: [unavailable] writes the envelope that
    replaces the proxy's answer. *)
Definition finish (unavailable : Response → Response) (w : writer) : Response :=
  if negb (holdError w) then
    if wroteHeader w then target w else GoNet.WriteHeader 200 (target w)
  else if negb (runtimeA2AProxyUnavailable (held w)) then target (flushHeldError w)
  else unavailable (set_header (Header_Del "Content-Length" (r_header (target w))) (target w)).

(** [finishHTTP] *)
Definition http_unavailable : Response → Response :=
  writeA2AError 502 "A2A_PROXY_UNAVAILABLE" "Core A2A service is unavailable".
Definition finishHTTP (w : writer) : Response := finish http_unavailable w.

(** [finishJSONRPC] *)
Definition rpc_unavailable (id : json) : Response → Response :=
  writePublicA2AJSONRPCError (Some id) (-32013) "Core A2A service is unavailable"
    (Some (go_obj [("code", JStr "A2A_PROXY_UNAVAILABLE"); ("http_status", JNum "502")])).
Definition finishJSONRPC (id : json) (w : writer) : Response := finish (rpc_unavailable id) w.

(** A change of the map [Header] returns, which is the target's: after the status was
    sent it has no effect (trailers are not modelled). *)
Definition change_header (f : Header → Header) (r : Response) : Response :=
  match r_status r with Some _ => r | None => set_header (f (r_header r)) r end.
Definition ChangeHeader (f : Header → Header) (w : writer) : writer := on_target (change_header f) w.

(** What a proxy does with a response writer. *)
Inductive op := OSet (f : Header → Header) | OHeader (st : Z) | OWrite (body : string) | OFlush.
Definition apply (o : op) (w : writer) : writer :=
  match o with OSet f => ChangeHeader f w | OHeader st => WriteHeader st w | OWrite b => Write b w | OFlush => Flush w end.
Definition run (ops : list op) (w : writer) : writer := foldl (λ w o, apply o w) w ops.

(** The same operations on the response itself: the specification. *)
Definition direct (o : op) (r : Response) : Response :=
  match o with
  | OSet f => change_header f r | OHeader st => GoNet.WriteHeader st r | OWrite b => WriteBody b r | OFlush => FlushResponse r
  end.
Definition run_direct (ops : list op) (r : Response) : Response := foldl (λ r o, direct o r) r ops.

(** The body a proxy wrote. *)
Definition written (ops : list op) : string :=
  foldr (λ o b, match o with OWrite c => c +:+ b | _ => b end) "" ops.

(** No informational status, see [informational_loses_status], and no change of the
    header after this, see [held_header_is_sent]. *)
Definition final_only (o : op) : Prop := match o with OHeader st => informational st = false | OSet _ => False | _ => True end.

(** The three phases of the writer against the response written directly, with the
    body [b] written so far. *)
Inductive related (r0 : Response) (b : string) (w : writer) : Response → Prop :=
  | rel_start : wroteHeader w = false → target w = r0 → holdError w = false → held w = "" → b = "" → related r0 b w r0
  | rel_hold :
      wroteHeader w = true → holdError w = true → target w = r0 → status w = 502 → held w = b →
      slen b <= maxPublicA2AProxyErrorBodyBytes →
      related r0 b w {| r_status := Some 502; r_info := r_info r0; r_header := r_header r0; r_body := r_body r0 +:+ b |}
  | rel_live r :
      wroteHeader w = true → holdError w = false → target w = r → is_Some (r_status r) →
      (r_status r = Some 502 → maxPublicA2AProxyErrorBodyBytes < slen b) → related r0 b w r.

Lemma flush_held r0 w :
  r_status r0 = None → target w = r0 → status w = 502 → holdError w = true →
  target (flushHeldError w) =
    {| r_status := Some 502; r_info := r_info r0; r_header := r_header r0; r_body := r_body r0 +:+ held w |}.
Proof.
  intros Hr0 Ht Hs Hhold. unfold flushHeldError. rewrite Hhold, Hs, Ht. cbn [negb].
  unfold GoNet.WriteHeader. rewrite Hr0. cbn. case_bool_decide as Hb; [|done]. by rewrite Hb, str_app_nil_r.
Qed.

Lemma WriteHeader_done st r : is_Some (r_status r) → GoNet.WriteHeader st r = r.
Proof. intros [x Hx]. unfold GoNet.WriteHeader. by rewrite Hx. Qed.
Lemma WriteBody_done b r : is_Some (r_status r) → is_Some (r_status (WriteBody b r)).
Proof. intros Hr. unfold WriteBody. rewrite WriteHeader_done by done. destruct Hr as [x Hx]. rewrite Hx. case_match; simpl; by rewrite ?Hx. Qed.

Lemma WriteBody_status b r : r_status (WriteBody b r) = r_status (GoNet.WriteHeader 200 r).
Proof. unfold WriteBody. destruct (r_status (GoNet.WriteHeader 200 r)) eqn:Hr; [case_match; by rewrite ?Hr|done]. Qed.

(** The first status: hold a bad gateway, pass anything else on. *)
Lemma related_header st r0 w :
  r_status r0 = None → informational st = false → wroteHeader w = false → target w = r0 → holdError w = false →
  held w = "" → related r0 "" (WriteHeader st w) (GoNet.WriteHeader st r0).
Proof.
  intros Hr0 Hi Hw Ht Hh He. unfold WriteHeader. rewrite Hw. case_match eqn:Hst; go_bool.
  - subst st. unfold GoNet.WriteHeader. rewrite Hr0. cbn. rewrite <- (str_app_nil_r (r_body r0)).
    by apply (rel_hold r0 "" {| target := target w; status := 502; wroteHeader := true; holdError := true; held := held w |}).
  - assert (r_status (GoNet.WriteHeader st r0) = Some st) as Hst' by (rewrite WriteHeader_status by done; by rewrite Hr0).
    apply rel_live; simpl; try done; [by rewrite Ht|]. intros H. congruence.
Qed.

(** One operation after the first status. *)
Lemma related_after o r0 b w r :
  r_status r0 = None → final_only o → wroteHeader w = true → related r0 b w r →
  related r0 (b +:+ written [o]) (apply o w) (direct o r).
Proof.
  intros Hr0 Hf Hw Hrel. destruct Hrel as [Hw'|_ Hh Ht Hs Hb Hle|r _ Hh Ht Hsome Hlt]; [congruence| |].
  - destruct o as [f|st|c|]; cbn [apply direct written foldr]; rewrite ?str_app_nil_r; [done| | |].
    + unfold WriteHeader. rewrite Hw. rewrite WriteHeader_done by by eexists. by apply rel_hold.
    + unfold Write. rewrite Hw, Hh. cbn [negb]. case_match eqn:Hlen; go_bool.
      * unfold WriteBody. cbn. rewrite <-str_app_assoc.
        apply (rel_hold r0 (b +:+ c) {| target := target w; status := status w; wroteHeader := wroteHeader w;
                              holdError := true; held := held w +:+ c |}); try done; simpl; [by rewrite Hb|].
        rewrite slen_app, <- Hb. lia.
      * rewrite <- Hb, <-(flush_held r0 w) by done. apply rel_live.
        -- unfold flushHeldError. by rewrite Hh.
        -- unfold flushHeldError. by rewrite Hh.
        -- done.
        -- apply WriteBody_done. rewrite (flush_held r0) by done. by eexists.
        -- intros _. rewrite slen_app. lia.
    + unfold Flush. rewrite Hw, Hh. unfold FlushResponse. rewrite WriteHeader_done by by eexists. by apply rel_hold.
  - subst r. destruct o as [f|st|c|]; cbn [apply direct written foldr]; rewrite ?str_app_nil_r; [done| | |].
    + unfold WriteHeader. rewrite Hw. rewrite WriteHeader_done by done. by apply rel_live.
    + unfold Write. rewrite Hw, Hh. cbn [negb]. apply rel_live; try done; [by apply WriteBody_done|].
      rewrite WriteBody_status, WriteHeader_done by done. intros H%Hlt. rewrite slen_app. pose proof (slen_nonneg c). lia.
    + unfold Flush. rewrite Hw, Hh. apply rel_live; try done; simpl; unfold FlushResponse; by rewrite WriteHeader_done.
Qed.

(** Writing or flushing first sends the status 200. *)
Lemma implicit_status o r0 b w r :
  r_status r0 = None → final_only o → related r0 b w r → wroteHeader w = false →
  related r0 (b +:+ written [o]) (apply o w) (direct o r).
Proof.
  intros Hr0 Hf Hrel Hw. destruct Hrel as [_ Ht Hh He Hb|Hw'|? Hw']; [|congruence..]. subst b.
  pose proof (related_header 200 r0 w Hr0 eq_refl Hw Ht Hh He) as H200.
  assert (Hw200 : wroteHeader (WriteHeader 200 w) = true) by (unfold WriteHeader; by rewrite Hw).
  pose proof (related_after o r0 _ _ _ Hr0 Hf Hw200 H200) as H.
  assert (is_Some (r_status (GoNet.WriteHeader 200 r0))) as Hsome by (rewrite WriteHeader_status by done; by eexists).
  destruct o as [f|st|c|]; simpl in *; [done| | |].
  - by apply related_header.
  - unfold Write in H at 1. rewrite Hw200 in H. unfold Write. rewrite Hw.
    replace (WriteBody c r0) with (WriteBody c (GoNet.WriteHeader 200 r0)); [done|].
    unfold WriteBody. by rewrite (WriteHeader_done 200 (GoNet.WriteHeader 200 r0)).
  - unfold Flush in H at 1. rewrite Hw200 in H. unfold Flush. rewrite Hw.
    unfold FlushResponse in *. by rewrite WriteHeader_done in H.
Qed.

Lemma written_cons o ops : written (o :: ops) = written [o] +:+ written ops.
Proof. destruct o; [done..| |done]. cbn. by rewrite str_app_nil_r. Qed.

Lemma related_run r0 ops b w r :
  r_status r0 = None → Forall final_only ops → related r0 b w r →
  related r0 (b +:+ written ops) (run ops w) (run_direct ops r).
Proof.
  intros Hr0 Hf. revert b w r. induction Hf as [|o ops Ho _ IH]; intros b w r Hrel.
  { unfold written. cbn. by rewrite str_app_nil_r. }
  rewrite written_cons, str_app_assoc. simpl. apply IH.
  destruct (wroteHeader w) eqn:Hw; [by apply related_after|by apply implicit_status].
Qed.

(** The changes of the header made before anything else are the target's. *)
Lemma run_changes hs r0 :
  r_status r0 = None →
  run (OSet <$> hs) (new r0) = new (set_header (foldl (λ h f, f h) (r_header r0) hs) r0) ∧
  run_direct (OSet <$> hs) r0 = set_header (foldl (λ h f, f h) (r_header r0) hs) r0.
Proof.
  revert r0. induction hs as [|f hs IH]; intros r0 Hr0; [by destruct r0|]. simpl.
  unfold ChangeHeader, on_target, change_header. cbn. rewrite Hr0. apply (IH (set_header (f (r_header r0)) r0) Hr0).
Qed.

(** What is sent when the handler returned without a status. *)
Definition default_status (r : Response) : Response := GoNet.WriteHeader 200 r.

(** The envelope is recognised by its code, whatever the message. *)
Lemma unavailable_envelope code m :
  ValidString code = true → ValidString m = true →
  runtimeA2AProxyUnavailable (marshal (a2a_error code m)) = bool_decide (code = "A2A_PROXY_UNAVAILABLE").
Proof.
  intros Hc Hm. unfold runtimeA2AProxyUnavailable. rewrite marshal_parse; [reflexivity| |by vm_compute].
  change (a2a_error code m) with (JObj [("error", JObj [("code", JStr code); ("message", JStr m)])]).
  apply En_obj. apply list.Forall_singleton. split; [done|]. apply En_obj.
  rewrite !list.Forall_cons, list.Forall_nil. split_and!; try done; by apply En_str.
Qed.

(** C25: the response writer is transparent: for any changes of the header, followed by
    any sequence of status, body and flush operations with final statuses, the client
    gets the same status, header and body as from the same operations on the response
    itself, except that a 502 whose whole body has at most 64 KiB and is recognised as
    the proxy-unavailable envelope is replaced by the listener's own envelope, with the
    proxy's header less Content-Length and none of its body; and an error envelope is
    recognised exactly when its code is A2A_PROXY_UNAVAILABLE. *)
Theorem proxy_writer_transparent hs ops r0 unavailable :
  r_status r0 = None → Forall final_only ops →
  let d := run_direct ((OSet <$> hs) ++ ops) r0 in
  finish unavailable (run ((OSet <$> hs) ++ ops) (new r0)) =
    (if bool_decide (r_status d = Some 502) && (slen (written ops) <=? 64 * 1024) && runtimeA2AProxyUnavailable (written ops)
     then unavailable (set_header (Header_Del "Content-Length" (foldl (λ h f, f h) (r_header r0) hs)) r0)
     else default_status d) ∧
  ∀ code m, ValidString code = true → ValidString m = true →
    runtimeA2AProxyUnavailable (marshal (a2a_error code m)) = bool_decide (code = "A2A_PROXY_UNAVAILABLE").
Proof.
  intros Hr0 Hf d. split; [|by apply unavailable_envelope]. subst d. change (64 * 1024) with maxPublicA2AProxyErrorBodyBytes. unfold run_direct, run. rewrite !foldl_app.
  fold (run (OSet <$> hs) (new r0)) (run_direct (OSet <$> hs) r0). destruct (run_changes hs r0 Hr0) as [-> ->].
  set (r1 := set_header _ r0). fold (run ops (new r1)) (run_direct ops r1).
  pose proof (related_run r1 ops "" (new r1) r1 Hr0 Hf) as Hrel. change ("" +:+ written ops) with (written ops) in Hrel.
  destruct Hrel as [Hw Ht Hh He _|Hw Hh Ht Hs He Hle|r Hw Hh Ht Hsome Hlt]; [by apply rel_start| | |]; unfold finish; rewrite Hw, Hh; cbn [negb].
  - rewrite Ht, bool_decide_eq_false_2; [done|]. cbn. by rewrite Hr0.
  - rewrite He. rewrite bool_decide_eq_true_2 by done. rewrite (proj2 (Z.leb_le _ _) Hle). cbn [andb].
    destruct (runtimeA2AProxyUnavailable (written ops)); cbn [negb]; [by rewrite Ht|].
    rewrite (flush_held r1), He by done. unfold default_status. rewrite WriteHeader_done; [done|by eexists].
  - replace (bool_decide _ && _) with false; [unfold default_status; by rewrite WriteHeader_done, Ht|].
    symmetry. apply andb_false_iff. case_bool_decide as H5; [right|by left]. apply Z.leb_gt. apply (Hlt H5).
Qed.

(** the writer takes an informational status for the final one: after a 1xx
    header, the final status of the proxied response is dropped and the client
    gets 200 with the body, whatever that status was. *)
Theorem informational_loses_status info st body r0 :
  r_status r0 = None → informational info = true →
  r_status (finishHTTP (run [OHeader info; OHeader st; OWrite body] (new r0))) = Some 200.
Proof.
  intros Hr0 Hi. unfold run. simpl. unfold WriteHeader. cbn [wroteHeader new].
  assert (Hne : (info =? 502) = false) by (unfold informational in Hi; go_bool; apply Z.eqb_neq; lia). rewrite Hne.
  cbn. unfold finishHTTP, finish, GoNet.WriteHeader. rewrite Hr0, Hi. cbn. done.
Qed.

(** While a 502 is held, changes of the header still reach the client, where the
    response itself would ignore them. *)
Example held_header_is_sent :
  let ops := [OHeader 502; OSet (Header_Set "X-Late" "1")] in
  r_header (finishHTTP (run ops (new empty_response))) = Header_Set "X-Late" "1" ∅ ∧ r_header (run_direct ops empty_response) = ∅.
Proof. split; reflexivity. Qed.

Lemma proxy_writer_transparent_witness :
  let ops := (OSet <$> [Header_Set "Content-Length" "64"]) ++ [OHeader 502; OFlush; OWrite (marshal (a2a_error "A2A_PROXY_UNAVAILABLE" "no route"))] in
  finishHTTP (run ops (new empty_response)) = http_unavailable empty_response ∧
  finishHTTP (run ((OSet <$> []) ++ [OHeader 404; OWrite "x"]) (new empty_response)) = run_direct [OHeader 404; OWrite "x"] empty_response.
Proof.
  split.
  - destruct (proxy_writer_transparent [Header_Set "Content-Length" "64"]
      [OHeader 502; OFlush; OWrite (marshal (a2a_error "A2A_PROXY_UNAVAILABLE" "no route"))] empty_response http_unavailable eq_refl) as [H _];
      [by repeat constructor|]. unfold finishHTTP. rewrite H. vm_compute. reflexivity.
  - destruct (proxy_writer_transparent [] [OHeader 404; OWrite "x"] empty_response http_unavailable eq_refl) as [H _];
      [by repeat constructor|]. unfold finishHTTP. rewrite H. reflexivity.
Defined.

Lemma informational_loses_status_witness :
  r_status (finishHTTP (run [OHeader 103; OHeader 404; OWrite "missing"] (new empty_response))) = Some 200 ∧
  r_status (run_direct [OHeader 103; OHeader 404; OWrite "missing"] empty_response) = Some 404.
Proof. split; [by apply informational_loses_status|reflexivity]. Defined.
End ProxyWriter.

(** ** The request handlers *)
Module Handlers.
Import ProxyWriter.

(** The listener as a handler reads it; the proxy turns a request into the
    operations on its response writer. *)
Record listener := {
  l_Slug : string; l_Name : string; l_Description : string; l_Token : string; l_baseURL : string;
  l_proxy : option (Request → list op);
}.

(** [agentCard] *)
Definition agentCard (s : listener) (extended : bool) : json :=
  let url := JStr (l_baseURL s) in
  go_obj
    [("name", JStr (l_Name s)); ("description", JStr (l_Description s)); ("url", url); ("version", JStr "v1");
     ("protocolVersion", JStr "1.0"); ("protocolVersions", JArr [JStr "1.0"]);
     ("preferredTransport", JStr "JSONRPC");
     ("additionalInterfaces", JArr [go_obj [("url", url); ("transport", JStr "JSONRPC")];
                                    go_obj [("url", url); ("transport", JStr "HTTP+JSON")]]);
     ("supportedInterfaces",
       JArr [go_obj [("url", url); ("protocolBinding", JStr "JSONRPC"); ("protocolVersion", JStr "1.0")];
             go_obj [("url", url); ("protocolBinding", JStr "HTTP+JSON"); ("protocolVersion", JStr "1.0")]]);
     ("capabilities", go_obj [("streaming", JBool true); ("pushNotifications", JBool true);
                              ("extendedAgentCard", JBool true)]);
     ("defaultInputModes", JArr [JStr "text/plain"; JStr "application/json"]);
     ("defaultOutputModes", JArr [JStr "application/json"; JStr "text/plain"]);
     ("skills", JArr [go_obj [("id", JStr (l_Slug s)); ("name", JStr (l_Name s)); ("description", JStr (l_Description s))]]);
     ("supportsAuthenticatedExtendedCard", JBool true);
     ("openlinker", go_obj [("agent_node", JBool true); ("extended", JBool extended)])].

(** [authorized] *)
Definition authorized (s : listener) (r : Request) : bool :=
  let expectedToken := TrimSpace (l_Token s) in
  bool_decide (expectedToken = "") ||
  bool_decide (TrimSpace (Header_Get (q_Header r) "Authorization") = "Bearer " +:+ expectedToken).

Definition notAllowed (w : Response) : Response :=
  writeA2AError 405 "UnsupportedOperationError" "method not allowed" w.
Definition authRequired (w : Response) : Response :=
  writeA2AError 401 "AuthRequiredError" "authorization required" w.

(** [handleAgentCard] *)
Definition handleAgentCard (s : listener) (r : Request) (w : Response) : Response :=
  if negb (bool_decide (q_Method r = "GET")) then notAllowed w
  else writeA2AJSON 200 (agentCard s false) w.

(** [handleExtendedAgentCard] *)
Definition handleExtendedAgentCard (s : listener) (r : Request) (w : Response) : Response :=
  if negb (bool_decide (q_Method r = "GET")) then notAllowed w
  else if negb (authorized s r) then authRequired w
  else writeA2AJSON 200 (agentCard s true) w.

(** [removePublicA2AHopByHopHeaders] *)
Definition connection_names (h : Header) : list string :=
  List.filter (λ n, negb (bool_decide (n = "")))
    (concat (map (λ v, map TrimSpace (Split v ",")) (Header_Values h "Connection"))).
Definition removePublicA2AHopByHopHeaders (h : Header) : Header :=
  foldl (λ h n, Header_Del n h) h (connection_names h ++ publicA2AHopByHopHeaders).

(** [preparePublicA2AProxyRequest]: the error response, or the body and the
    request the proxy gets. *)
Definition preparePublicA2AProxyRequest (r : Request) (w : Response) : Response + (string * Request) :=
  let forward body length :=
    (default "" (fst <$> q_Body r),
     {| q_Method := q_Method r; q_Path := q_Path r; q_Header := removePublicA2AHopByHopHeaders (q_Header r);
        q_Body := body; q_ContentLength := length |}) in
  match q_Body r with
  | None => inr (forward None (q_ContentLength r))
  | Some (bytes, bad) =>
      if maxPublicA2ARequestBodyBytes <? slen bytes
      then inl (writeA2AError 413 "RequestBodyTooLargeError" "request body exceeds 1 MiB" w)
      else if bad : bool
      then inl (writeA2AError 400 "InvalidRequestBodyError" "request body could not be read" w)
      else inr (forward (Some (bytes, false)) (slen bytes))
  end.

(** [decodePublicA2AJSONRPCRequest]: the ID and the method of a valid request. *)
Record rpcRequest := { p_JSONRPC : string; p_ID : option json; p_Method : string }.
Definition rpc_zero : rpcRequest := {| p_JSONRPC := ""; p_ID := None; p_Method := "" |}.
Definition rpc_fields : list (field rpcRequest) :=
  [f_string "jsonrpc" (λ v r, {| p_JSONRPC := v; p_ID := p_ID r; p_Method := p_Method r |});
   f_raw "id" (λ v r, {| p_JSONRPC := p_JSONRPC r; p_ID := v; p_Method := p_Method r |});
   f_string "method" (λ v r, {| p_JSONRPC := p_JSONRPC r; p_ID := p_ID r; p_Method := v |})].
Definition decodePublicA2AJSONRPCRequest (body : string) : option rpcRequest :=
  r ← (j ← parse body; decode_struct false rpc_fields rpc_zero j);
  if bool_decide (p_JSONRPC r = "2.0") && negb (bool_decide (TrimSpace (p_Method r) = "")) then Some r else None.

(** [publicA2AExtendedCardMethod] *)
Definition publicA2AExtendedCardMethod (method : string) : bool :=
  bool_decide (TrimSpace method = "GetExtendedAgentCard") ||
  bool_decide (TrimSpace method = "agent/getExtendedCard").

(** [handleProxy]: the response and the request the proxy got, if any. *)
Definition handleProxy (s : listener) (r : Request) (w : Response) : Response * option Request :=
  let root := bool_decide (q_Path r = "/") in
  if root && negb (bool_decide (q_Method r = "POST")) then (notAllowed w, None)
  else if negb (authorized s r) then
    ((if root then writePublicA2AJSONRPCError (Some JNull) (-32010) "authorization required" None w
      else authRequired w), None)
  else
    match preparePublicA2AProxyRequest r w with
    | inl w' => (w', None)
    | inr (body, r') =>
        let request := if root then decodePublicA2AJSONRPCRequest body else None in
        match (q ← request; if publicA2AExtendedCardMethod (p_Method q) then Some q else None) with
        | Some q => (writePublicA2AJSONRPCResult (p_ID q) (agentCard s true) w, None)
        | None =>
            match l_proxy s with
            | None => (writeA2AError 503 "A2AProxyUnavailableError" "Core A2A proxy is unavailable" w, None)
            | Some proxy =>
                let response := run (proxy r') (new w) in
                (if root
                 then finishJSONRPC (jsonRPCID (request ≫= p_ID) (bool_decide (is_Some request))) response
                 else finishHTTP response, Some r')
            end
        end
    end.

(** The mux of [Start]. *)
Definition serve (s : listener) (r : Request) : Response * option Request :=
  if bool_decide (q_Path r ∈ ["/.well-known/agent-card.json"; "/agent-card.json"])
  then (handleAgentCard s r empty_response, None)
  else if bool_decide (q_Path r = "/extendedAgentCard") then (handleExtendedAgentCard s r empty_response, None)
  else handleProxy s r empty_response.

Lemma foldl_del names (h : Header) k :
  foldl (λ h n, Header_Del n h) h names !! k =
  if decide (k ∈ map CanonicalKey names) then None else h !! k.
Proof.
  revert h. induction names as [|n names IH]; intros h; simpl; [done|]. rewrite IH. unfold Header_Del.
  destruct (decide (k ∈ map CanonicalKey names)) as [Hin|Hin]; [by rewrite decide_True by (by right)|].
  destruct (decide (k = CanonicalKey n)) as [->|Hne].
  - rewrite decide_True by left. by rewrite lookup_delete_eq.
  - rewrite decide_False by set_solver. by rewrite lookup_delete_ne.
Qed.

(** C24: what reaches Core: a request is forwarded only when it is authorized,
    with a body of at most 1 MiB that is the client's and a matching length, and
    with exactly the client's headers less the hop-by-hop ones and those its
    Connection header names. *)
Theorem forwarded_request_sanitized s r w q :
  serve s r = (w, Some q) →
  authorized s r = true ∧ q_Method q = q_Method r ∧ q_Path q = q_Path r ∧
  (∀ body bad, q_Body r = Some (body, bad) →
     q_Body q = Some (body, false) ∧ q_ContentLength q = slen body ∧ slen body ≤ maxPublicA2ARequestBodyBytes) ∧
  ∀ k, q_Header q !! k =
    if decide (k ∈ map CanonicalKey (connection_names (q_Header r) ++ publicA2AHopByHopHeaders))
    then None else q_Header r !! k.
Proof.
  unfold serve. case_bool_decide; [done|]. case_bool_decide; [done|].
  unfold handleProxy. case_match; [done|]. destruct (authorized s r) eqn:Ha; cbn [negb]; [|done].
  destruct (preparePublicA2AProxyRequest r empty_response) as [|[body r']] eqn:Hp; [done|].
  destruct (q ← _; _) as [?|] in |- *; [done|]. destruct (l_proxy s) as [proxy|]; [|done].
  intros Heq. simplify_eq. split; [done|]. unfold preparePublicA2AProxyRequest in Hp.
  destruct (q_Body r) as [[bytes bad]|] eqn:Hb.
  - case_match eqn:Hlen; [done|]. destruct bad; [done|]. simplify_eq. simpl. go_bool. split_and!; try done.
    + intros ?? [=<- <-]. split_and!; [done|done|lia].
    + intros k. apply foldl_del.
  - simplify_eq. simpl. split_and!; try done. intros k. apply foldl_del.
Qed.

Definition demo : listener :=
  {| l_Slug := "s"; l_Name := "n"; l_Description := "d"; l_Token := "t"; l_baseURL := "http://127.0.0.1:1";
     l_proxy := Some (λ _, [OHeader 200; OWrite "ok"]) |}.
Definition demo_request : Request :=
  {| q_Method := "GET"; q_Path := "/tasks"; q_Header := Header_Set "Connection" "X-Hop" (Header_Set "Authorization" "Bearer t" ∅);
     q_Body := Some ("", false); q_ContentLength := 0 |}.
Lemma forwarded_request_sanitized_witness :
  ∃ w q, serve demo demo_request = (w, Some q) ∧ authorized demo demo_request = true.
Proof.
  destruct (serve demo demo_request) as [w [q|]] eqn:E.
  - exists w, q. split; [reflexivity|]. by apply (forwarded_request_sanitized demo demo_request w q E).
  - exfalso. apply (f_equal snd) in E. vm_compute in E. discriminate.
Defined.
End Handlers.
