(* ===== verification/Paths.v ===== *)
(** * Package path/filepath on Unix

    The lexical operations the sources use: [Clean], [Join], [Dir], [Base],
    [IsAbs] and [Rel], over the elements of a path. *)

From S2P Require Import Prelude GoStrings.
From stdpp Require Import options.

Open Scope Z_scope.

Definition IsAbs (p : string) : bool := HasPrefix p "/".

(** The elements of a path that matter: not empty and not ".". *)
Definition elements (p : string) : list string :=
  List.filter (λ e, negb (bool_decide (e = "")) && negb (bool_decide (e = "."))) (Split p "/").

(** Push one element on the reversed list of kept elements. *)
Definition push (rooted : bool) (stack : list string) (e : string) : list string :=
  if bool_decide (e = "..") then
    match stack with
    | [] => if rooted then [] else [".."]
    | top :: rest => if bool_decide (top = "..") then ".." :: stack else rest
    end
  else e :: stack.

Definition resolve (rooted : bool) (es : list string) : list string :=
  reverse (foldl (push rooted) [] es).

Definition render (rooted : bool) (es : list string) : string :=
  if rooted then "/" +:+ Join es "/"
  else match es with [] => "." | _ => Join es "/" end.

(** [filepath.Clean] *)
Definition Clean (p : string) : string := render (IsAbs p) (resolve (IsAbs p) (elements p)).

(** [filepath.Join] *)
Definition JoinPath (es : list string) : string :=
  match List.filter (λ e, negb (bool_decide (e = ""))) es with
  | [] => ""
  | ne => Clean (Join ne "/")
  end.

(** [filepath.Dir]: the cleaned text before the last slash. *)
Fixpoint last_slash (s : string) : option string :=
  match s with
  | EmptyString => None
  | String c s' =>
      match last_slash s' with
      | Some d => Some (String c d)
      | None => if bool_decide (c = "/"%char) then Some "" else None
      end
  end.
Definition Dir (p : string) : string :=
  match last_slash p with
  | Some d => Clean (d +:+ "/")
  | None => "."
  end.

(** [filepath.Base] *)
Definition Base (p : string) : string :=
  if bool_decide (p = "") then "."
  else match TrimRight p "/" with
       | EmptyString => "/"
       | q => default "" (head (reverse (Split q "/")))
       end.

(** The elements [Rel] works on: a cleaned path without the root, "." empty. *)
Definition clean_elements (p : string) : list string := resolve (IsAbs p) (elements p).

Fixpoint strip_common (a b : list string) : list string * list string :=
  match a, b with
  | x :: a', y :: b' => if bool_decide (x = y) then strip_common a' b' else (a, b)
  | _, _ => (a, b)
  end.

(** [filepath.Rel]: an error when one path is rooted and the other is not, or
    when the base would have to leave an unknown directory. *)
Definition Rel (base targ : string) : option string :=
  if negb (Bool.eqb (IsAbs base) (IsAbs targ)) then None
  else
    let '(up, down) := strip_common (clean_elements base) (clean_elements targ) in
    if bool_decide (".." ∈ up) then None
    else Some (match replicate (length up) ".." ++ down with [] => "." | l => Join l "/" end).

(** ** Facts *)

Definition plain (e : string) : Prop := e ≠ "" ∧ e ≠ "." ∧ str_forallb (λ c, negb (bool_decide (c = "/"%char))) e = true.

Lemma Split_no_sep e c :
  str_forallb (λ d, negb (bool_decide (d = c))) e = true → Split e c = [e].
Proof.
  induction e as [|d e IH]; simpl; [done|]. intros [Hd He]%andb_true_iff. go_bool.
  rewrite bool_decide_false by done. by rewrite IH.
Qed.

Lemma Split_app_sep e c s :
  str_forallb (λ d, negb (bool_decide (d = c))) e = true → Split (e +:+ String c s) c = e :: Split s c.
Proof.
  induction e as [|d e IH]; [intros _; simpl; by rewrite bool_decide_true|].
  rewrite str_app_cons. simpl. intros [Hd He]%andb_true_iff. go_bool.
  rewrite bool_decide_false by done. by rewrite IH.
Qed.

Lemma Split_elements s c e : e ∈ Split s c → str_forallb (λ d, negb (bool_decide (d = c))) e = true.
Proof.
  revert e. induction s as [|d s IH]; intros e; simpl; [by intros ->%list_elem_of_singleton|].
  case_bool_decide as Hd.
  - intros [->|He]%elem_of_cons; auto.
  - destruct (Split s c) as [|w ws] eqn:Hs.
    + intros ->%list_elem_of_singleton. simpl. by rewrite bool_decide_false.
    + intros [->|He]%elem_of_cons; [|apply IH; by right]. simpl. rewrite bool_decide_false by done. simpl. apply IH. by left.
Qed.

Lemma Split_Join es :
  es ≠ [] → Forall plain es → Split (Join es "/") "/" = es.
Proof.
  induction es as [|e es IH]; [done|]. intros _ [He Hes]%list.Forall_cons. destruct He as (_ & _ & He).
  destruct es as [|e' es]; [by apply Split_no_sep|].
  change (Join (e :: e' :: es) "/") with (e +:+ "/" +:+ Join (e' :: es) "/").
  change ("/" +:+ Join (e' :: es) "/") with (String "/" (Join (e' :: es) "/")).
  rewrite Split_app_sep by done. by rewrite IH.
Qed.

Lemma elements_plain p : Forall plain (elements p).
Proof.
  apply list.Forall_forall. intros e He. unfold elements in He.
  apply list_elem_of_In, filter_In in He as [Hin Hk]. go_bool.
  split_and!; [done..|]. eapply Split_elements. by apply list_elem_of_In.
Qed.

Lemma filter_plain es :
  Forall plain es → List.filter (λ e, negb (bool_decide (e = "")) && negb (bool_decide (e = "."))) es = es.
Proof.
  induction 1 as [|e es (H1 & H2 & _) _ IH]; [done|]. simpl.
  rewrite !bool_decide_false by done. simpl. by rewrite IH.
Qed.

Lemma dotdot_plain : plain "..".
Proof. by split_and!. Qed.

(** The normal form of [resolve], as a stack: ".." only at the bottom, and not
    at all under a root. *)
Inductive normal (rooted : bool) : list string → Prop :=
  | normal_ups n : (rooted = true → n = 0%nat) → normal rooted (replicate n "..")
  | normal_push e st : plain e → e ≠ ".." → normal rooted st → normal rooted (e :: st).

Lemma normal_tail rooted e st : normal rooted (e :: st) → e ≠ ".." → normal rooted st.
Proof. intros Hn He. inversion Hn as [n Hr Heq|]; subst; [|done]. destruct n; simplify_eq/=. Qed.

Lemma push_normal rooted st e : plain e → normal rooted st → normal rooted (push rooted st e).
Proof.
  intros He Hn. unfold push. case_bool_decide as Hd; [|by apply normal_push].
  destruct st as [|top rest].
  - destruct rooted; [apply (normal_ups true 0); done|apply (normal_ups false 1); done].
  - case_bool_decide as Htop; [|by eapply normal_tail].
    subst top. inversion Hn as [n Hr Heq|]; subst; [|done].
    apply (normal_ups rooted (S n)). intros Hrt. specialize (Hr Hrt). by subst n.
Qed.

Lemma foldl_normal rooted es st :
  Forall plain es → normal rooted st → normal rooted (foldl (push rooted) st es).
Proof. intros Hes. revert st. induction Hes; intros st Hst; simpl; auto using push_normal. Qed.

Lemma normal_plain rooted st : normal rooted st → Forall plain st.
Proof.
  induction 1; [|by constructor]. apply Forall_replicate, dotdot_plain.
Qed.

Lemma foldl_push_replicate n st :
  (∀ x, head st = Some x → x = "..") → foldl (push false) st (replicate n "..") = replicate n ".." ++ st.
Proof.
  revert st. induction n as [|n IH]; intros st Hst; [done|]. simpl.
  assert (push false st ".." = ".." :: st) as ->.
  { unfold push. rewrite bool_decide_true by done. destruct st as [|x st]; [done|].
    by rewrite (Hst x eq_refl), bool_decide_true. }
  rewrite IH by (intros x; simpl; congruence).
  change (".." :: (replicate n ".." ++ st)) with ((replicate (S n) "..") ++ st).
  by rewrite replicate_S_end, <-(assoc_L (++)).
Qed.

(** Resolving a normal form again gives it back. *)
Lemma resolve_normal rooted st : normal rooted st → foldl (push rooted) [] (reverse st) = st.
Proof.
  induction 1 as [n Hr|e st He Hne Hn IH].
  - rewrite reverse_replicate. destruct rooted; [by rewrite (Hr eq_refl)|].
    rewrite foldl_push_replicate by done. by rewrite app_nil_r.
  - rewrite reverse_cons, foldl_app, IH. simpl. unfold push. by rewrite bool_decide_false.
Qed.

Lemma resolve_resolve rooted es :
  Forall plain es → resolve rooted (resolve rooted es) = resolve rooted es.
Proof.
  intros Hes. unfold resolve. f_equal.
  apply resolve_normal, foldl_normal; [done|]. apply (normal_ups rooted 0). done.
Qed.

Lemma resolve_plain rooted es : Forall plain es → Forall plain (resolve rooted es).
Proof.
  intros Hes. unfold resolve. apply Forall_reverse, (normal_plain rooted), foldl_normal; [done|].
  by apply (normal_ups rooted 0).
Qed.

Lemma IsAbs_render rooted es :
  Forall plain es → IsAbs (render rooted es) = rooted.
Proof.
  intros Hes. destruct rooted; [apply prefix_app|]. simpl. destruct es as [|e es]; [done|].
  apply list.Forall_cons in Hes as [(He & _ & Hs) _]. unfold IsAbs, HasPrefix.
  destruct e as [|c e]; [done|]. simpl in Hs. apply andb_true_iff in Hs as [Hc _].
  apply negb_true_iff, bool_decide_eq_false in Hc.
  assert (Hne : ∀ s, String.prefix "/" (String c s) = false).
  { intros s. cbn [String.prefix]. by destruct (Stdlib.Strings.Ascii.ascii_dec "/" c) as [<-|]. }
  destruct es as [|e2 es]; [apply Hne|]. change (Join (String c e :: e2 :: es) "/") with (String c e +:+ "/" +:+ Join (e2 :: es) "/").
  rewrite str_app_cons. apply Hne.
Qed.

Lemma elements_render rooted es :
  Forall plain es → elements (render rooted es) = es.
Proof.
  intros Hes. unfold elements, render. destruct rooted.
  - change ("/" +:+ Join es "/") with (String "/" (Join es "/")). simpl.
    destruct es as [|e es]; [done|]. rewrite Split_Join by done. by apply filter_plain.
  - destruct es as [|e es]; [done|]. rewrite Split_Join by done. by apply filter_plain.
Qed.

(** [Clean] is idempotent: a cleaned path is its own canonical form, which
    is what makes the session keys and workspace comparisons built on it stable. *)
Theorem Clean_idempotent p : Clean (Clean p) = Clean p.
Proof.
  pose proof (elements_plain p) as Hp. pose proof (resolve_plain (IsAbs p) _ Hp) as Hr.
  unfold Clean at 1. unfold Clean at 1 2 3. rewrite IsAbs_render, elements_render by done.
  by rewrite resolve_resolve.
Qed.

(** ** Relative paths that only go down *)

Definition down (es : list string) : Prop := es ≠ [] ∧ Forall (λ e, plain e ∧ e ≠ "..") es.

Lemma down_app a b : down a → Forall (λ e, plain e ∧ e ≠ "..") b → down (a ++ b).
Proof. intros [Hne Ha] Hb. split; [by destruct a|]. by apply Forall_app. Qed.

Lemma down_plain es : down es → Forall plain es.
Proof. intros [_ H]. by eapply list.Forall_impl; [exact H|intros e []]. Qed.

Lemma down_render es : down es → render false es = Join es "/".
Proof. intros [Hne _]. by destruct es. Qed.

Lemma down_resolve es : down es → resolve false es = es.
Proof.
  intros [_ He]. unfold resolve.
  assert (normal false (reverse es)) as Hn.
  { apply Forall_reverse in He. induction He as [|e st [Hp Hd] _ IH]; [by apply (normal_ups false 0)|by apply normal_push]. }
  apply resolve_normal in Hn. rewrite reverse_involutive in Hn. by rewrite Hn, reverse_involutive.
Qed.

Lemma Clean_down es : down es → Clean (Join es "/") = Join es "/".
Proof.
  intros Hd. pose proof (down_plain es Hd) as Hp. rewrite <-down_render by done.
  unfold Clean. by rewrite IsAbs_render, elements_render, down_resolve by done.
Qed.

Lemma Join_app a b : a ≠ [] → b ≠ [] → Join (a ++ b) "/" = Join a "/" +:+ "/" +:+ Join b "/".
Proof.
  intros Ha Hb. induction a as [|x a IH]; [done|]. destruct a as [|y a].
  - simpl. by destruct b.
  - change (Join ((x :: y :: a) ++ b) "/") with (x +:+ "/" +:+ Join ((y :: a) ++ b) "/").
    rewrite IH by done. change (Join (x :: y :: a) "/") with (x +:+ "/" +:+ Join (y :: a) "/").
    by rewrite !str_app_assoc.
Qed.

Lemma down_nonempty es : down es → Join es "/" ≠ "".
Proof.
  intros [Hne He]. destruct es as [|e es]; [done|]. apply list.Forall_cons in He as [[(Hn & _) _] _].
  destruct e as [|c e]; [done|]. by destruct es.
Qed.

Lemma JoinPath_down a b : down a → down b → JoinPath [Join a "/"; Join b "/"] = Join (a ++ b) "/".
Proof.
  intros Ha Hb. unfold JoinPath. simpl. rewrite !bool_decide_false by (by apply down_nonempty). simpl.
  change (Clean (Join a "/" +:+ "/" +:+ Join b "/") = Join (a ++ b) "/").
  rewrite <-Join_app by (by destruct Ha, Hb). apply Clean_down. destruct Hb. by apply down_app.
Qed.

Lemma Join_down_inj a b : down a → down b → Join a "/" = Join b "/" → a = b.
Proof.
  intros Ha Hb Heq. rewrite <-(Split_Join a), <-(Split_Join b), Heq by (try apply down_plain; by destruct Ha, Hb). done.
Qed.

Lemma last_slash_none e : str_forallb (λ c, negb (bool_decide (c = "/"%char))) e = true → last_slash e = None.
Proof.
  induction e as [|c e IH]; [done|]. cbn [str_forallb last_slash]. intros [Hc He]%andb_true_iff. go_bool.
  rewrite IH by done. by rewrite bool_decide_false.
Qed.

Lemma last_slash_app s e :
  str_forallb (λ c, negb (bool_decide (c = "/"%char))) e = true → last_slash (s +:+ String "/" e) = Some s.
Proof.
  intros He. induction s as [|c s IH].
  - change (last_slash (String "/" e) = Some ""). cbn [last_slash]. rewrite last_slash_none by done.
    by rewrite bool_decide_true.
  - rewrite str_app_cons. cbn [last_slash]. by rewrite IH.
Qed.

Lemma Split_trailing es :
  es ≠ [] → Forall plain es → Split (Join es "/" +:+ "/") "/" = es ++ [""].
Proof.
  intros Hne Hp. induction Hp as [|e es (H1 & H2 & H3) Hes IH]; [done|]. destruct es as [|e' es].
  - change ("/" : string) with (String "/" EmptyString) at 2. by rewrite Split_app_sep.
  - change (Join (e :: e' :: es) "/") with (e +:+ String "/" (Join (e' :: es) "/")).
    rewrite <-str_app_assoc, str_app_cons, Split_app_sep by done. by rewrite IH.
Qed.

Lemma Dir_down es e : down es → plain e → Dir (Join (es ++ [e]) "/") = Join es "/".
Proof.
  intros Hd (H1 & H2 & H3). pose proof (down_plain es Hd) as Hp. pose proof Hd as [Hne _].
  rewrite Join_app by done. unfold Dir. change ("/" +:+ Join [e] "/") with (String "/" e). rewrite last_slash_app by done.
  unfold Clean. assert (IsAbs (Join es "/" +:+ "/") = false) as ->.
  { pose proof (IsAbs_render false es Hp) as Ha. rewrite down_render in Ha by done.
    destruct (Join es "/") as [|c r] eqn:Hj; [by apply down_nonempty in Hj|]. rewrite str_app_cons.
    revert Ha. unfold IsAbs, HasPrefix. cbn [String.prefix]. by destruct (Stdlib.Strings.Ascii.ascii_dec "/" c); destruct r. }
  unfold elements. rewrite Split_trailing by done. rewrite List.filter_app, filter_plain by done. simpl.
  rewrite app_nil_r, down_resolve by done. by apply down_render.
Qed.

(** [contains] of sessionsandbox/config.go *)
Definition contains (parent child : string) : bool :=
  match Rel parent child with
  | Some r => negb (bool_decide (r = "..")) && negb (HasPrefix r "../")
  | None => false
  end.

Lemma normal_rooted st : normal true st → ".." ∉ st.
Proof.
  induction 1 as [n Hr|e st He Hne _ IH]; [rewrite (Hr eq_refl); set_solver|].
  intros [Heq|?]%elem_of_cons; [by destruct Hne|done].
Qed.

Lemma clean_elements_rooted p : IsAbs p = true → Forall plain (clean_elements p) ∧ ".." ∉ clean_elements p.
Proof.
  intros Hp. unfold clean_elements. rewrite Hp. split; [apply resolve_plain, elements_plain|].
  unfold resolve. intros Hin. apply elem_of_reverse in Hin. rewrite ?reverse_involutive in Hin. revert Hin.
  apply normal_rooted, foldl_normal; [apply elements_plain|]. by apply (normal_ups true 0).
Qed.

Lemma strip_common_app a b :
  ∃ pre, a = pre ++ (strip_common a b).1 ∧ b = pre ++ (strip_common a b).2 ∧
    (a `prefix_of` b ↔ (strip_common a b).1 = []).
Proof.
  revert b. induction a as [|x a IH]; intros b; simpl.
  { exists []. split_and!; [done|done|]. split; [done|]. intros _. apply prefix_nil. }
  destruct b as [|y b]; simpl.
  { exists []. split_and!; [done|done|]. split; [by intros ?%prefix_nil_not|done]. }
  case_bool_decide as Hxy; simpl.
  - subst y. destruct (IH b) as (pre & Ha & Hb & Hiff). exists (x :: pre). simpl.
    split_and!; [by f_equal|by f_equal|]. rewrite <-Hiff. split; [by intros ?%prefix_cons_inv_2|by apply prefix_cons].
  - exists []. split_and!; [done|done|]. split; [by intros ?%prefix_cons_inv_1|done].
Qed.

(** A path that goes up starts with "..", one that goes down does not. *)
Lemma join_up n down :
  let r := Join (replicate (S n) ".." ++ down) "/" in r = ".." ∨ HasPrefix r "../" = true.
Proof.
  simpl. destruct (replicate n ".." ++ down) as [|e es]; [by left|right].
  change (Join (".." :: e :: es) "/") with (".." +:+ "/" +:+ Join (e :: es) "/").
  rewrite str_app_assoc. change (".." +:+ "/") with "../". apply prefix_app.
Qed.
Lemma join_down e es :
  Forall plain (e :: es) → e ≠ ".." → Join (e :: es) "/" ≠ ".." ∧ HasPrefix (Join (e :: es) "/") "../" = false.
Proof.
  intros Hp Hne. pose proof (Split_Join (e :: es) ltac:(done) Hp) as Hs. split.
  - intros Heq. rewrite Heq in Hs. change (Split ".." "/") with [".."] in Hs. by simplify_eq.
  - destruct (HasPrefix _ _) eqn:Hpre; [|done]. apply prefix_inv in Hpre as Ht. set (t := str_drop _ _) in Ht. rewrite Ht in Hs.
    change ("../" +:+ t) with (".." +:+ String "/" t) in Hs.
    rewrite Split_app_sep in Hs by done. by simplify_eq.
Qed.

Lemma contains_iff parent child :
  IsAbs parent = true → IsAbs child = true →
  contains parent child = true ↔ clean_elements parent `prefix_of` clean_elements child.
Proof.
  intros Hp Hc. unfold contains, Rel. rewrite Hp, Hc. cbn [Bool.eqb negb].
  destruct (clean_elements_rooted parent Hp) as [_ Hnp]. destruct (clean_elements_rooted child Hc) as [Hpc Hnc].
  destruct (strip_common_app (clean_elements parent) (clean_elements child)) as (pre & Ha & Hb & Hiff).
  destruct (strip_common _ _) as [up down]. simpl in *. rewrite Hiff.
  rewrite bool_decide_false by (rewrite Ha in Hnp; set_solver).
  destruct up as [|u up]; simpl.
  - split; [done|intros _]. destruct down as [|e es]; [done|].
    assert (Forall plain (e :: es)) as Hpe by (rewrite Hb in Hpc; by apply Forall_app in Hpc as [_ ?]).
    assert (e ≠ "..") as Hne by (intros ->; apply Hnc; rewrite Hb; set_solver).
    destruct (join_down e es Hpe Hne) as [H1 H2]. cbn [Join] in H1, H2.
    by rewrite bool_decide_false, H2.
  - split; [|done]. intros Hk. exfalso. go_bool.
    by destruct (join_up (length up) down) as [Heq|Heq]; simpl in Heq; [|rewrite Heq in *].
Qed.

(** the containment test of the sandbox is exact for absolute paths: a path
    contains another exactly when its cleaned elements are a prefix of the
    other's, so neither a sibling with a common name prefix nor a path with ".."
    elements is taken for a descendant. *)
Theorem contains_iff_prefix parent child :
  IsAbs parent = true → IsAbs child = true →
  contains parent child = true ↔ clean_elements parent `prefix_of` clean_elements child.
Proof. apply contains_iff. Qed.

Lemma contains_iff_prefix_witness :
  contains "/srv/sessions" "/srv/sessions-other/../sessions/a" = true ↔
  clean_elements "/srv/sessions" `prefix_of` clean_elements "/srv/sessions-other/../sessions/a".
Proof. apply contains_iff_prefix; reflexivity. Defined.

Example contains_sibling : contains "/srv/sessions" "/srv/sessions-other" = false.
Proof. reflexivity. Qed.
Example clean_example : Clean "/a/./b//../../../c/" = "/c".
Proof. reflexivity. Qed.
