(* ===== verification/HelperServer.v ===== *)
(** * The local helper server

    internal/agentnode/helper_server.go and runtime_bridge_util.go: the sessions
    a run gets, the bearer tokens that identify them, and the two endpoints a
    provider process may call while its run is active. *)

From S2P Require Import Prelude GoStrings Json GoNet.
From stdpp Require Import options.

Open Scope Z_scope.

Definition maxHelperBodyBytes : Z := 1024 * 1024.

(** ** Tokens *)

(** The alphabet of [base64.RawURLEncoding]. *)
Definition base64url_digit (z : Z) : ascii :=
  if z <? 26 then byte_of (65 + z)
  else if z <? 52 then byte_of (97 + (z - 26))
  else if z <? 62 then byte_of (48 + (z - 52))
  else if z =? 62 then "-"%char else "_"%char.

(** [base64.RawURLEncoding.EncodeToString]: three bytes give four digits, a rest
    of one or two bytes gives two or three, without padding. *)
Fixpoint base64url (l : list Z) : string :=
  match l with
  | a :: b :: c :: l' =>
      String (base64url_digit (Z.shiftr a 2))
        (String (base64url_digit (Z.lor (Z.shiftl (Z.land a 3) 4) (Z.shiftr b 4)))
           (String (base64url_digit (Z.lor (Z.shiftl (Z.land b 15) 2) (Z.shiftr c 6)))
              (String (base64url_digit (Z.land c 63)) (base64url l'))))
  | [a; b] =>
      String (base64url_digit (Z.shiftr a 2))
        (String (base64url_digit (Z.lor (Z.shiftl (Z.land a 3) 4) (Z.shiftr b 4)))
           (String (base64url_digit (Z.shiftl (Z.land b 15) 2)) ""))
  | [a] => String (base64url_digit (Z.shiftr a 2)) (String (base64url_digit (Z.shiftl (Z.land a 3) 4)) "")
  | [] => ""
  end.

(** [randomToken] on the 24 bytes [rand.Read] filled in. *)
Definition randomToken (bytes : list Z) : string := base64url bytes.

(** ** Idempotency keys and runtime errors *)

Definition errKeyRequired : go_error := ENew "idempotency key is required for delegated Agent calls".
Definition errKeyInvalid : go_error :=
  ENew "idempotency key must contain 1 to 255 printable ASCII bytes without surrounding spaces".

(** The first and the last byte of a non-empty string. *)
Definition first_is_space (s : string) : bool := HasPrefix s " ".
Definition last_is_space (s : string) : bool := HasSuffix s " ".

Definition validateDelegatedIdempotencyKey (key : string) : option go_error :=
  if slen key =? 0 then Some errKeyRequired
  else if (255 <? slen key) || first_is_space key || last_is_space key then Some errKeyInvalid
  else if str_existsb (λ c, (byte_val c <? 0x20) || (0x7e <? byte_val c)) key then Some errKeyInvalid
  else None.

Definition scrubRuntimeError (err : go_error) : go_error :=
  match errors_As_api err with
  | Some (status, code, _) => ENew (code +:+ " (HTTP " +:+ Itoa status +:+ ")")
  | None => err
  end.

(** ** Run contexts

    The part of a [RunContext] the helper server uses: its callbacks, each with
    the run it acts for.  [emitChecked] and [Emit] may be nil. *)
Record CallAgentOptions := { IdempotencyKey : string; Reason : string; o_Metadata : json }.
Record RunContext := {
  rc_run : string;
  emitChecked : option (string → json → option go_error);
  Emit : bool;
  CallAgent : string → json → CallAgentOptions → result json;
}.
Record helperSessionState := { runID : string; runCtx : RunContext }.

(** What a request does to a run. *)
Inductive effect :=
  | EfEmit (run eventType : string) (payload : json)
  | EfCall (run target : string) (input : json) (options : CallAgentOptions).
Definition effect_run (e : effect) : string := match e with EfEmit r _ _ | EfCall r _ _ _ => r end.

(** ** Requests *)
Section Handlers.
Context {Hf64 : Float64} {Hlow : UnicodeLower}.
(** The errors of package encoding/json and of a body reader. *)
Context (json_error : string → go_error) (errBodyRead : go_error).

Record eventBody := { ev_RunID : string; EventType : string; Payload : json }.
Definition event_fields : list (field eventBody) :=
  [f_string "run_id" (λ v b, {| ev_RunID := v; EventType := EventType b; Payload := Payload b |});
   f_string "event_type" (λ v b, {| ev_RunID := ev_RunID b; EventType := v; Payload := Payload b |});
   f_any "payload" (λ v b, {| ev_RunID := ev_RunID b; EventType := EventType b; Payload := v |})].
Definition event_zero : eventBody := {| ev_RunID := ""; EventType := ""; Payload := JNull |}.

Record callBody := {
  c_RunID : string; TargetAgentID : string; c_Key : string; c_Reason : string; c_Input : json; c_Metadata : json;
}.
Definition call_fields : list (field callBody) :=
  [f_string "run_id" (λ v b, {| c_RunID := v; TargetAgentID := TargetAgentID b; c_Key := c_Key b;
     c_Reason := c_Reason b; c_Input := c_Input b; c_Metadata := c_Metadata b |});
   f_string "target_agent_id" (λ v b, {| c_RunID := c_RunID b; TargetAgentID := v; c_Key := c_Key b;
     c_Reason := c_Reason b; c_Input := c_Input b; c_Metadata := c_Metadata b |});
   f_string "idempotency_key" (λ v b, {| c_RunID := c_RunID b; TargetAgentID := TargetAgentID b; c_Key := v;
     c_Reason := c_Reason b; c_Input := c_Input b; c_Metadata := c_Metadata b |});
   f_string "reason" (λ v b, {| c_RunID := c_RunID b; TargetAgentID := TargetAgentID b; c_Key := c_Key b;
     c_Reason := v; c_Input := c_Input b; c_Metadata := c_Metadata b |});
   f_any "input" (λ v b, {| c_RunID := c_RunID b; TargetAgentID := TargetAgentID b; c_Key := c_Key b;
     c_Reason := c_Reason b; c_Input := v; c_Metadata := c_Metadata b |});
   f_any "metadata" (λ v b, {| c_RunID := c_RunID b; TargetAgentID := TargetAgentID b; c_Key := c_Key b;
     c_Reason := c_Reason b; c_Input := c_Input b; c_Metadata := v |})].
Definition call_zero : callBody :=
  {| c_RunID := ""; TargetAgentID := ""; c_Key := ""; c_Reason := ""; c_Input := JNull; c_Metadata := JNull |}.

(** [appfiles.DecodeStrictJSON] into a struct: unknown fields and trailing values
    are refused. *)
Definition DecodeStrictJSON {R} (fs : list (field R)) (zero : R) (raw : string) : result R :=
  match parse raw with
  | Some j => of_option (json_error raw) (decode_struct true fs zero j)
  | None => Err (json_error raw)
  end.

Definition errBodyTooLarge : go_error := ENew ("request body exceeds " +:+ Itoa maxHelperBodyBytes +:+ " bytes").

(** [decodeHelperJSON]: at most one byte more than the limit is read, so a body
    over the limit is refused before its read error is met. *)
Definition decodeHelperJSON {R} (fs : list (field R)) (zero : R) (r : Request) : result R :=
  let '(bytes, bad) := default ("", false) (q_Body r) in
  if maxHelperBodyBytes <? slen bytes then Err errBodyTooLarge
  else if bad : bool then Err errBodyRead
  else DecodeStrictJSON fs zero bytes.

(** The token a request presents. *)
Definition presented (r : Request) : string :=
  let auth := Header_Get (q_Header r) "authorization" in
  let token := if HasPrefix (ToLower auth) "bearer " then TrimSpace (str_drop 7 auth) else "" in
  if bool_decide (token = "") then Header_Get (q_Header r) "x-openlinker-agent-node-token" else token.

(** [authenticate] *)
Definition authenticate (sessions : gmap string helperSessionState) (r : Request) : option helperSessionState :=
  let token := presented r in
  if bool_decide (token = "") then None else sessions !! token.

Definition writeJSON (status : Z) (value : json) : Response :=
  write_json "application/json" status value empty_response.
Definition fail_json (status : Z) (code message : string) : Response :=
  writeJSON status (go_obj [("error", go_obj [("code", JStr code); ("message", JStr message)])]).

Definition foreign (session : helperSessionState) (run : string) : bool :=
  negb (bool_decide (run = "")) && negb (bool_decide (run = runID session)).

(** [handleEvent] after the method and the token were checked. *)
Definition accept_event (session : helperSessionState) (r : Request) : Response * list effect :=
  match decodeHelperJSON event_fields event_zero r with
  | Err e => (fail_json 400 "INVALID_JSON" (error_text e), [])
  | Ok body =>
      if foreign session (ev_RunID body)
      then (fail_json 409 "RUN_MISMATCH" "helper token belongs to a different run", [])
      else if bool_decide (EventType body = "")
      then (fail_json 400 "INVALID_EVENT" "event_type is required", [])
      else
        let emitted := [EfEmit (rc_run (runCtx session)) (EventType body) (Payload body)] in
        let ok := writeJSON 200 (go_obj [("ok", JBool true); ("run_id", JStr (runID session))]) in
        match emitChecked (runCtx session) with
        | Some emit =>
            match emit (EventType body) (Payload body) with
            | Some e => (fail_json 422 "EVENT_REJECTED" (error_text (scrubRuntimeError e)), emitted)
            | None => (ok, emitted)
            end
        | None =>
            if Emit (runCtx session) then (ok, emitted)
            else (fail_json 503 "EVENT_UNAVAILABLE" "event sink is unavailable", [])
        end
  end.

(** [handleCallAgent] after the method and the token were checked. *)
Definition accept_call (session : helperSessionState) (r : Request) : Response * list effect :=
  match decodeHelperJSON call_fields call_zero r with
  | Err e => (fail_json 400 "INVALID_JSON" (error_text e), [])
  | Ok body =>
      if foreign session (c_RunID body)
      then (fail_json 409 "RUN_MISMATCH" "helper token belongs to a different run", [])
      else if bool_decide (TargetAgentID body = "")
      then (fail_json 400 "INVALID_TARGET_AGENT" "target_agent_id is required", [])
      else
        match validateDelegatedIdempotencyKey (c_Key body) with
        | Some e => (fail_json 400 "INVALID_IDEMPOTENCY_KEY" (error_text e), [])
        | None =>
            let options := {| IdempotencyKey := c_Key body; Reason := c_Reason body; o_Metadata := c_Metadata body |} in
            let called := [EfCall (rc_run (runCtx session)) (TargetAgentID body) (c_Input body) options] in
            match CallAgent (runCtx session) (TargetAgentID body) (c_Input body) options with
            | Err e => (fail_json 502 "A2A_CALL_FAILED" (error_text e), called)
            | Ok value => (writeJSON 200 value, called)
            end
        end
  end.

Inductive endpoint := Events | CallEndpoint.
Definition accept (e : endpoint) : helperSessionState → Request → Response * list effect :=
  match e with Events => accept_event | CallEndpoint => accept_call end.

(** [handleEvent] and [handleCallAgent]: both check the method, then the token. *)
Definition guarded (accept : helperSessionState → Request → Response * list effect)
    (sessions : gmap string helperSessionState) (r : Request) : Response * list effect :=
  if negb (bool_decide (q_Method r = "POST"))
  then (fail_json 405 "METHOD_NOT_ALLOWED" "method not allowed", [])
  else match authenticate sessions r with
       | None => (fail_json 401 "UNAUTHORIZED" "invalid helper token", [])
       | Some session => accept session r
       end.
Definition handleEvent := guarded accept_event.
Definition handleCallAgent := guarded accept_call.
Definition handle (e : endpoint) := match e with Events => handleEvent | CallEndpoint => handleCallAgent end.

(** ** Authorization *)

Lemma WriteBody_keeps_status b r st : r_status r = Some st → r_status (WriteBody b r) = Some st.
Proof. intros Hr. unfold WriteBody, WriteHeader. rewrite Hr, Hr. by case_match. Qed.

Lemma writeJSON_status st v : informational st = false → r_status (writeJSON st v) = Some st.
Proof. intros Hs. apply WriteBody_keeps_status. by rewrite WriteHeader_status. Qed.

(** A decoded body was within the limit and is an object of known members, or null. *)
Lemma decode_ok {R} (fs : list (field R)) zero r b :
  decodeHelperJSON fs zero r = Ok b →
  slen (default ("", false) (q_Body r)).1 <= maxHelperBodyBytes ∧
  ∃ j, parse (default ("", false) (q_Body r)).1 = Some j ∧ decode_struct true fs zero j = Some b.
Proof.
  unfold decodeHelperJSON. destruct (default _ _) as [bytes bad]. case_match; [done|]. destruct bad; [done|]. go_bool.
  unfold DecodeStrictJSON. cbn [fst]. destruct (parse bytes) as [j|]; [|done]. unfold of_option.
  destruct (decode_struct true fs zero j) eqn:Hd; [|done]. intros <-%Ok_inj. eauto with lia.
Qed.

(** ** What a body says, by the names of its members alone: the last string, or the
    last value, of the members that match the name. *)
Definition string_member (name : string) (kvs : list (string * json)) : string :=
  foldl (λ s kv, if EqualFold kv.1 name then match kv.2 with JStr t => t | _ => s end else s) "" kvs.
Definition any_member (name : string) (kvs : list (string * json)) : json :=
  foldl (λ x kv, if EqualFold kv.1 name then default x (unmarshal_any kv.2) else x) JNull kvs.

(** An idempotency key: 1 to 255 printable ASCII bytes without surrounding spaces. *)
Definition key_valid (key : string) : Prop :=
  1 <= slen key <= 255 ∧ str_forallb (λ c, (0x20 <=? byte_val c) && (byte_val c <=? 0x7e)) key = true ∧
  ∀ s, key ≠ " " +:+ s ∧ key ≠ s +:+ " ".

Definition body_names (e : endpoint) : list string :=
  match e with
  | Events => ["run_id"; "event_type"; "payload"]
  | CallEndpoint => ["run_id"; "target_agent_id"; "idempotency_key"; "reason"; "input"; "metadata"]
  end.

(** The effect is the one the request asks for, of the session's own run: its body is
    a JSON object within the limit of members the endpoint knows, names no other run,
    and has what the effect carries. *)
Definition permitted (e : endpoint) (session : helperSessionState) (r : Request) (ef : effect) : Prop :=
  let body := (default ("", false) (q_Body r)).1 in
  effect_run ef = rc_run (runCtx session) ∧ slen body <= maxHelperBodyBytes ∧
  ∃ kvs, parse body = Some (JObj kvs) ∧ Forall (λ kv, ∃ n, n ∈ body_names e ∧ EqualFold kv.1 n = true) kvs ∧
    (string_member "run_id" kvs = "" ∨ string_member "run_id" kvs = runID session) ∧
    match e, ef with
    | Events, EfEmit _ eventType payload =>
        eventType = string_member "event_type" kvs ∧ eventType ≠ "" ∧ payload = any_member "payload" kvs
    | CallEndpoint, EfCall _ target input options =>
        target = string_member "target_agent_id" kvs ∧ target ≠ "" ∧ input = any_member "input" kvs ∧
        IdempotencyKey options = string_member "idempotency_key" kvs ∧ key_valid (IdempotencyKey options) ∧
        Reason options = string_member "reason" kvs ∧ o_Metadata options = any_member "metadata" kvs
    | _, _ => False
    end.

(** One field of a decoded body is what the body says. *)
Lemma string_field {R} (fs : list (field R)) (get : R → string) name kvs zero b :
  NoDup (map (λ f, fold_key f.1) fs) → name ∈ map fst fs → get zero = "" →
  Forall (stores get name (λ v s, match v with JStr t => t | _ => s end)) fs →
  decode_struct true fs zero (JObj kvs) = Some b → get b = string_member name kvs.
Proof. intros Hnd Hin Hz Hst Hd. rewrite (decode_members_get get name _ true fs kvs zero b Hnd Hin Hst Hd). by rewrite Hz. Qed.
Lemma any_field {R} (fs : list (field R)) (get : R → json) name kvs zero b :
  NoDup (map (λ f, fold_key f.1) fs) → name ∈ map fst fs → get zero = JNull →
  Forall (stores get name (λ v x, default x (unmarshal_any v))) fs →
  decode_struct true fs zero (JObj kvs) = Some b → get b = any_member name kvs.
Proof. intros Hnd Hin Hz Hst Hd. rewrite (decode_members_get get name _ true fs kvs zero b Hnd Hin Hst Hd). by rewrite Hz. Qed.

Ltac stores_tac :=
  repeat apply list.Forall_cons_2; [..|apply list.Forall_nil_2]; intros v r r'; cbn -[unmarshal_any];
  let finish := (let Hs := fresh in intros Hs; first [discriminate Hs|injection Hs as <-; reflexivity]) in
  first [solve [destruct (unmarshal_any v); finish]|solve [destruct v; finish]].
Ltac field_tac lem := apply lem; [assumption|refine (bool_decide_unpack _ _); vm_compute; exact I|reflexivity|stores_tac|assumption].

Lemma event_decoded kvs b :
  decode_struct true event_fields event_zero (JObj kvs) = Some b →
  ev_RunID b = string_member "run_id" kvs ∧ EventType b = string_member "event_type" kvs ∧ Payload b = any_member "payload" kvs.
Proof.
  assert (NoDup (map (λ f : field eventBody, fold_key f.1) event_fields)) by (refine (bool_decide_unpack _ _); by vm_compute).
  intros Hd. split_and!.
  - field_tac (string_field event_fields ev_RunID "run_id" kvs event_zero b).
  - field_tac (string_field event_fields EventType "event_type" kvs event_zero b).
  - field_tac (any_field event_fields Payload "payload" kvs event_zero b).
Qed.

Lemma call_decoded kvs b :
  decode_struct true call_fields call_zero (JObj kvs) = Some b →
  (c_RunID b = string_member "run_id" kvs ∧ TargetAgentID b = string_member "target_agent_id" kvs ∧
   c_Key b = string_member "idempotency_key" kvs ∧ c_Reason b = string_member "reason" kvs) ∧
  c_Input b = any_member "input" kvs ∧ c_Metadata b = any_member "metadata" kvs.
Proof.
  assert (NoDup (map (λ f : field callBody, fold_key f.1) call_fields)) by (refine (bool_decide_unpack _ _); by vm_compute).
  intros Hd. split; split_and!.
  - field_tac (string_field call_fields c_RunID "run_id" kvs call_zero b).
  - field_tac (string_field call_fields TargetAgentID "target_agent_id" kvs call_zero b).
  - field_tac (string_field call_fields c_Key "idempotency_key" kvs call_zero b).
  - field_tac (string_field call_fields c_Reason "reason" kvs call_zero b).
  - field_tac (any_field call_fields c_Input "input" kvs call_zero b).
  - field_tac (any_field call_fields c_Metadata "metadata" kvs call_zero b).
Qed.

Lemma idempotency_key_valid key : validateDelegatedIdempotencyKey key = None → key_valid key.
Proof.
  unfold validateDelegatedIdempotencyKey, first_is_space, last_is_space. case_match eqn:H0; [done|].
  destruct (_ || _ || _) eqn:H1; [done|]. case_match eqn:H2; [done|]. intros _. go_bool.
  pose proof (slen_nonneg key). split; [lia|]. split.
  - clear - H2. revert H2.
    induction key as [|c k IH]; [done|]. cbn [str_existsb str_forallb]. rewrite orb_false_iff. intros [Hc Hk].
    rewrite (IH Hk), andb_true_r. apply orb_false_iff in Hc as [?%Z.ltb_ge ?%Z.ltb_ge]. apply andb_true_iff. split; apply Z.leb_le; lia.
  - intros t. split; intros ->.
    + unfold HasPrefix in *. rewrite prefix_app in *. done.
    + rewrite HasSuffix_app in *. done.
Qed.

Lemma accept_effects e session r resp effs :
  accept e session r = (resp, effs) →
  (effs = [] ∧ r_status resp ≠ Some 200) ∨ ∃ ef, effs = [ef] ∧ permitted e session r ef.
Proof.
  assert (∀ st code m, st ≠ 200 → informational st = false → r_status (fail_json st code m) ≠ Some 200) as Hne.
  { intros st code m Hst Hi. unfold fail_json. rewrite writeJSON_status by done. congruence. }
  destruct e; simpl; [unfold accept_event|unfold accept_call];
    (destruct (decodeHelperJSON _ _ r) as [b|err] eqn:Hd; [|intros [= <- <-]; left; split; [done|by apply Hne]]);
    apply decode_ok in Hd as (Hsz & j & Hp & Hd);
    (destruct (foreign _ _) eqn:Hf; [intros [= <- <-]; left; split; [done|by apply Hne]|]);
    (case_bool_decide as Hne'; [intros [= <- <-]; left; split; [done|by apply Hne]|]);
    (destruct j as [| | | | |kvs]; try done; [cbn in Hd; simplify_eq; done|]);
    pose proof (decode_strict_known _ _ _ _ Hd) as Hk;
    [apply event_decoded in Hd as (Hrun & Ht & Hpl)|apply call_decoded in Hd as ((Hrun & Ht & Hkey & Hre) & Hin & Hme)];
    (assert (string_member "run_id" kvs = "" ∨ string_member "run_id" kvs = runID session) as Hown
      by (rewrite <- Hrun; unfold foreign in Hf; apply andb_false_iff in Hf as [Hf|Hf]; go_bool; auto)).
  - assert (permitted Events session r (EfEmit (rc_run (runCtx session)) (EventType b) (Payload b))) as Hper.
    { split; [done|]. split; [done|]. exists kvs. by split_and!. }
    destruct (emitChecked _) as [emit|]; [destruct (emit _ _)|destruct (Emit _)]; intros [= <- <-]; eauto.
  - destruct (validateDelegatedIdempotencyKey _) eqn:Hv; [intros [= <- <-]; left; split; [done|by apply Hne]|].
    apply idempotency_key_valid in Hv. set (o := {| IdempotencyKey := c_Key b; Reason := c_Reason b; o_Metadata := c_Metadata b |}).
    assert (permitted CallEndpoint session r (EfCall (rc_run (runCtx session)) (TargetAgentID b) (c_Input b) o)) as Hper.
    { split; [done|]. split; [done|]. exists kvs. by split_and!. }
    destruct (CallAgent _ _ _ _); intros [= <- <-]; right; eexists; by split.
Qed.

(** C8: no request of a provider process reaches a run other than the one whose
    live token it presents: whatever the endpoint and the registered sessions, a
    request has at most one effect, and only when it is a POST whose bearer or
    header token is registered; the effect is on that session's run, and the body
    is an object within 1 MiB of members the endpoint knows, whose run_id member is
    absent, empty or the session's own, and whose other members are the effect's
    event type and payload, or its target, input, reason, metadata and a valid
    idempotency key; and a 200 is never answered without an effect. *)
Theorem helper_effects_authorized e sessions r resp effs :
  handle e sessions r = (resp, effs) →
  (effs = [] ∧ r_status resp ≠ Some 200) ∨
  ∃ session ef, q_Method r = "POST" ∧ presented r ≠ "" ∧ sessions !! presented r = Some session ∧
    effs = [ef] ∧ permitted e session r ef.
Proof.
  assert (handle e = guarded (accept e)) as -> by by destruct e.
  unfold guarded, authenticate. case_bool_decide as Hm; simpl.
  2:{ intros [= <- <-]. left. unfold fail_json. by rewrite writeJSON_status. }
  case_bool_decide as Ht.
  { intros [= <- <-]. left. unfold fail_json. by rewrite writeJSON_status. }
  destruct (sessions !! presented r) as [session|] eqn:Hs.
  - intros [?|(ef & -> & Hef)]%accept_effects; [by left|right]. by exists session, ef.
  - intros [= <- <-]. left. unfold fail_json. by rewrite writeJSON_status.
Qed.

End Handlers.

(** ** The server *)
Record LocalHelperServer := {
  Host : string;
  Port : Z;
  (** [server], by generation *)
  server : option nat;
  baseURL : string;
  (** [None] is the nil map of the zero value *)
  sessions : option (gmap string helperSessionState);
  generations : nat;
  (** ghosts: the generations whose listener is open, and those a [Stop] took and has
      not shut down yet *)
  listening : gset nat;
  shutting : list nat;
}.
Definition sessions_of (s : LocalHelperServer) : gmap string helperSessionState := default ∅ (sessions s).

(** [Start]; [listen] is the outcome of [net.Listen].  The source locks only while it
    makes the map and then sets the fields without the lock; a [Stop] of another
    goroutine in between has the effect of one before the call. *)
Definition Start (listen : result string) (s : LocalHelperServer) : option go_error * LocalHelperServer :=
  let host := if bool_decide (Host s = "") then "127.0.0.1" else Host s in
  match listen with
  | Err e => (Some e, {| Host := host; Port := Port s; server := server s; baseURL := baseURL s;
                         sessions := Some (sessions_of s); generations := generations s;
                         listening := listening s; shutting := shutting s |})
  | Ok url => (None, {| Host := host; Port := Port s; server := Some (generations s); baseURL := url;
                        sessions := Some (sessions_of s); generations := S (generations s);
                        listening := {[ generations s ]} ∪ listening s; shutting := shutting s |})
  end.

(** [Stop] under its lock: it wipes the sessions and takes the server. *)
Definition Stop (s : LocalHelperServer) : LocalHelperServer :=
  {| Host := Host s; Port := Port s; server := None; baseURL := baseURL s; sessions := Some ∅;
     generations := generations s; listening := listening s; shutting := option_list (server s) ++ shutting s |}.
(** [Stop] after the unlock: [server.Shutdown] of the generation it took, which closes
    the listener; [rest] are the others. *)
Definition Shutdown (g : nat) (rest : list nat) (s : LocalHelperServer) : LocalHelperServer :=
  {| Host := Host s; Port := Port s; server := server s; baseURL := baseURL s; sessions := sessions s;
     generations := generations s; listening := listening s ∖ {[ g ]}; shutting := rest |}.

Definition set_sessions (m : option (gmap string helperSessionState)) (s : LocalHelperServer) : LocalHelperServer :=
  {| Host := Host s; Port := Port s; server := server s; baseURL := baseURL s; sessions := m;
     generations := generations s; listening := listening s; shutting := shutting s |}.

Record HelperInfo := {
  BaseURL : string; Token : string; Headers : gmap string string; e_CallAgent : string; e_Events : string;
}.

(** [CreateSession] with the bytes of [randomToken]; an assignment to the nil map
    panics ([None]). *)
Definition CreateSession (bytes : list Z) (run : string) (rc : RunContext) (s : LocalHelperServer)
    : option (HelperInfo * LocalHelperServer) :=
  let token := "olh_" +:+ randomToken bytes in
  m ← sessions s;
  Some ({| BaseURL := baseURL s; Token := token; Headers := {["authorization" := "Bearer " +:+ token]};
           e_CallAgent := baseURL s +:+ "/a2a/call"; e_Events := baseURL s +:+ "/events" |},
        set_sessions (Some (<[token := {| runID := run; runCtx := rc |}]> m)) s).

(** [LocalHelperSession.Close]; [delete] on a nil map does nothing. *)
Definition Close (token : string) (s : LocalHelperServer) : LocalHelperServer :=
  set_sessions (delete token <$> sessions s) s.

(** *** A session's own credentials *)

Lemma base64url_digit_graphic z : 0 <= z < 64 → graphic (base64url_digit z) = true.
Proof.
  intros Hz. unfold base64url_digit, graphic.
  repeat case_match; go_bool; try done; rewrite byte_val_of by lia; apply andb_true_iff; lia.
Qed.

Definition is_byte (z : Z) : Prop := 0 <= z < 256.

Lemma shiftr_small a k : 2 <= k → is_byte a → 0 <= Z.shiftr a k < 64.
Proof.
  intros Hk Ha. unfold is_byte in Ha. rewrite Z.shiftr_div_pow2 by lia.
  assert (2 ^ 2 <= 2 ^ k) as Hp by (apply Z.pow_le_mono_r; lia). change (2 ^ 2) with 4 in Hp.
  split; [apply Z.div_pos; lia|]. apply Z.div_lt_upper_bound; lia.
Qed.
Lemma land_small a n : 0 <= n → 0 <= Z.land a (Z.ones n) < 2 ^ n.
Proof. intros Hn. rewrite Z.land_ones by done. apply Z.mod_pos_bound, Z.pow_pos_nonneg; lia. Qed.

Lemma lor_below a b n : 0 < n → 0 <= a < 2 ^ n → 0 <= b < 2 ^ n → 0 <= Z.lor a b < 2 ^ n.
Proof.
  intros Hn Ha Hb. assert (0 <= Z.lor a b) as H0 by (apply Z.lor_nonneg; lia). split; [done|].
  destruct (Z.eq_dec (Z.lor a b) 0) as [->|Hz]; [lia|].
  apply Z.log2_lt_pow2; [lia|]. rewrite Z.log2_lor by lia. apply Z.max_lub_lt.
  - destruct (Z.eq_dec a 0) as [->|]; [simpl; lia|]. apply Z.log2_lt_pow2; lia.
  - destruct (Z.eq_dec b 0) as [->|]; [simpl; lia|]. apply Z.log2_lt_pow2; lia.
Qed.

(** The four digits of a group are below 64. *)
Lemma sextets a b c :
  is_byte a → is_byte b → is_byte c →
  0 <= Z.shiftr a 2 < 64 ∧ 0 <= Z.lor (Z.shiftl (Z.land a 3) 4) (Z.shiftr b 4) < 64 ∧
  0 <= Z.lor (Z.shiftl (Z.land b 15) 2) (Z.shiftr c 6) < 64 ∧ 0 <= Z.land c 63 < 64 ∧
  0 <= Z.shiftl (Z.land a 3) 4 < 64 ∧ 0 <= Z.shiftl (Z.land b 15) 2 < 64.
Proof.
  intros Ha Hb Hc.
  pose proof (land_small a 2 ltac:(lia)) as Ha3. pose proof (land_small b 4 ltac:(lia)) as Hb15.
  pose proof (land_small c 6 ltac:(lia)) as Hc63.
  change (Z.ones 2) with 3 in *. change (Z.ones 4) with 15 in *. change (Z.ones 6) with 63 in *.
  assert (Z.shiftl (Z.land a 3) 4 = Z.land a 3 * 16) as Hs1 by (by rewrite Z.shiftl_mul_pow2).
  assert (Z.shiftl (Z.land b 15) 2 = Z.land b 15 * 4) as Hs2 by (by rewrite Z.shiftl_mul_pow2).
  pose proof (shiftr_small a 2 ltac:(lia) Ha). pose proof (shiftr_small b 4 ltac:(lia) Hb).
  pose proof (shiftr_small c 6 ltac:(lia) Hc).
  change (2 ^ 2) with 4 in *. change (2 ^ 4) with 16 in *. change (2 ^ 6) with 64 in *.
  split_and!; try lia; apply (lor_below _ _ 6); change (2 ^ 6) with 64; lia.
Qed.

Lemma base64url_graphic l : Forall is_byte l → str_forallb graphic (base64url l) = true.
Proof.
  remember (length l) as n eqn:Hn. revert l Hn.
  induction (lt_wf n) as [n _ IH]; intros l -> Hl.
  destruct l as [|a [|b [|c l]]]; [done| | |].
  - apply list.Forall_cons in Hl as [Ha _]. destruct (sextets a a a Ha Ha Ha) as (?&?&?&?&?&?).
    cbn. by rewrite !base64url_digit_graphic.
  - apply list.Forall_cons in Hl as [Ha [Hb _]%list.Forall_cons]. destruct (sextets a b b Ha Hb Hb) as (?&?&?&?&?&?).
    cbn. by rewrite !base64url_digit_graphic.
  - apply list.Forall_cons in Hl as [Ha [Hb [Hc Hl]%list.Forall_cons]%list.Forall_cons].
    destruct (sextets a b c Ha Hb Hc) as (?&?&?&?&?&?).
    cbn [base64url str_forallb]. rewrite !base64url_digit_graphic by done. simpl.
    apply (IH (length l)); [simpl; lia|done|done].
Qed.

Lemma bearer_lower `{!UnicodeLower} s : HasPrefix (ToLower ("Bearer " +:+ s)) "bearer " = true.
Proof.
  change ("Bearer " +:+ s) with
    (String "B" (String "e" (String "a" (String "r" (String "e" (String "r" (String " " s))))))).
  unfold ToLower. rewrite !runes_ascii_cons by (vm_compute; reflexivity).
  cbn [map string_of_runes foldr]. unfold HasPrefix.
  change (String.prefix "bearer " ("bearer " +:+ string_of_runes (map rune_lower (runes s))) = true).
  apply prefix_app.
Qed.

(** a provider that copies the header of its own session information
    authenticates as that session: the token survives the case-insensitive
    scheme test, the trimming and the lookup. *)
Theorem session_token_authenticates `{!UnicodeLower} bytes run rc s info s' r :
  Forall is_byte bytes →
  CreateSession bytes run rc s = Some (info, s') →
  Headers info !! "authorization" = Some (Header_Get (q_Header r) "authorization") →
  authenticate (sessions_of s') r = Some {| runID := run; runCtx := rc |}.
Proof.
  unfold CreateSession, mbind, option_bind. intros Hb Hc Hh. destruct (sessions s) as [m|]; [|done].
  set (token := "olh_" +:+ randomToken bytes) in *. simplify_eq. simpl in Hh.
  rewrite lookup_singleton_eq in Hh. apply (inj Some) in Hh.
  assert (str_forallb graphic token = true) as Hg.
  { unfold token. rewrite str_forallb_app. unfold randomToken. by rewrite base64url_graphic. }
  assert (presented r = token) as Hp.
  { unfold presented. rewrite <-Hh, bearer_lower.
    change (str_drop 7 ("Bearer " +:+ token)) with token. rewrite TrimSpace_graphic by done.
    by rewrite bool_decide_false. }
  unfold authenticate. rewrite Hp, bool_decide_false by done.
  unfold sessions_of. simpl. by rewrite lookup_insert_eq.
Qed.

(** *** The server among concurrent requests

    [pending] are the goroutines of [Start] that have not yet called
    [s.server.Serve], [inflight] the requests that passed [authenticate].  The
    ghost fields record the tokens handed out, the ones closed or wiped, and the
    effects with the session they were admitted under. *)
Record world := {
  w_server : LocalHelperServer;
  pending : list nat;
  crashed : bool;
  inflight : list (endpoint * Request * helperSessionState);
  issued : list (string * helperSessionState);
  ended : gset string;
  effects : list (helperSessionState * effect);
}.

Definition fresh_server (host : string) (port : Z) : LocalHelperServer :=
  {| Host := host; Port := port; server := None; baseURL := ""; sessions := None; generations := 0;
     listening := ∅; shutting := [] |}.
Definition initial (host : string) (port : Z) : world :=
  {| w_server := fresh_server host port; pending := []; crashed := false; inflight := []; issued := []; ended := ∅;
     effects := [] |}.

(** The abstract contract: the registered sessions are the ones handed out and
    not ended, and an effect belongs to the run of a session that was handed out. *)
Record helper_contract (w : world) : Prop := {
  hc_exact t st : sessions_of (w_server w) !! t = Some st ↔ (t, st) ∈ issued w ∧ t ∉ ended w;
  hc_unique : NoDup (issued w).*1;
  hc_ended t : t ∈ ended w → t ∈ (issued w).*1;
  hc_own t st : (t, st) ∈ issued w → rc_run (runCtx st) = runID st;
  hc_inflight e r st : (e, r, st) ∈ inflight w → st ∈ (issued w).*2;
  hc_effects st ef : (st, ef) ∈ effects w → st ∈ (issued w).*2 ∧ effect_run ef = runID st;
}.

(** *** What listens *)

(** A server whose starts and stops alternate: exactly the current generation and
    those being shut down listen. *)
Record helper_up (s : LocalHelperServer) : Prop := {
  hu_listening g : g ∈ listening s ↔ g ∈ option_list (server s) ++ shutting s;
  hu_live : NoDup (option_list (server s) ++ shutting s);
  hu_generation g : g ∈ option_list (server s) ++ shutting s → (g < generations s)%nat;
}.

Lemma helper_up_start listen s err s' :
  server s = None → helper_up s → Start listen s = (err, s') → helper_up s'.
Proof.
  intros Hs [H1 H2 H3]. rewrite Hs in *. cbn in *. unfold Start. destruct listen; intros [= <- <-]; split; cbn; rewrite ?Hs; cbn; try done.
  - intros g. rewrite elem_of_union, elem_of_singleton, H1, elem_of_cons. done.
  - constructor; [|done]. intros Hin%H3. lia.
  - intros g [->|Hin]%elem_of_cons; [lia|]. specialize (H3 g Hin). lia.
Qed.
Lemma helper_up_stop s : helper_up s → helper_up (Stop s).
Proof. intros []. by split. Qed.
Lemma helper_up_shutdown g rest s : helper_up s → shutting s ≡ₚ g :: rest → helper_up (Shutdown g rest s).
Proof.
  intros [H1 H2 H3] Hp.
  assert (option_list (server s) ++ shutting s ≡ₚ g :: option_list (server s) ++ rest) as Hl by (rewrite Hp; by rewrite Permutation_middle).
  rewrite Hl in H2. apply list.NoDup_cons in H2 as [Hg Hnd]. split; cbn; [|done|].
  - intros x. rewrite elem_of_difference, elem_of_singleton, H1, Hl, elem_of_cons. split; [tauto|]. intros Hx. split; [by right|]. by intros ->.
  - intros x Hx. apply H3. rewrite Hl. by right.
Qed.

Lemma contract_initial h p : helper_contract (initial h p).
Proof.
  split; simpl.
  - intros t st. unfold sessions_of. simpl. rewrite lookup_empty. split; [done|]. by intros [?%not_elem_of_nil _].
  - constructor.
  - by intros t ?%not_elem_of_empty.
  - by intros t st ?%not_elem_of_nil.
  - by intros e r st ?%not_elem_of_nil.
  - by intros st ef ?%not_elem_of_nil.
Qed.

Lemma Start_sessions listen s err s' : Start listen s = (err, s') → sessions_of s' = sessions_of s.
Proof. unfold Start. destruct listen; by intros [= <- <-]. Qed.

Lemma contract_create w bytes rc info s' :
  helper_contract w → CreateSession bytes (rc_run rc) rc (w_server w) = Some (info, s') →
  Token info ∉ (issued w).*1 → Token info ∉ ended w → ∀ t st,
  sessions_of s' !! t = Some st ↔
  (t, st) ∈ (Token info, {| runID := rc_run rc; runCtx := rc |}) :: issued w ∧ t ∉ ended w.
Proof.
  intros Hw Hc Hf He t st. unfold CreateSession, mbind, option_bind in Hc.
  destruct (sessions (w_server w)) as [m|] eqn:Hm; [|done]. simplify_eq. simpl in *.
  pose proof (hc_exact w Hw t st) as Hx. unfold sessions_of in *. rewrite Hm in Hx. simpl in Hx.
  rewrite elem_of_cons. destruct (decide (t = "olh_" +:+ randomToken bytes)) as [->|Hne].
  - simpl. rewrite lookup_insert_eq. split; [intros [= <-]; auto|].
    intros [[[= ->]|Hin] _]; [done|]. by apply (list_elem_of_fmap_2' fst _ _ ("olh_" +:+ randomToken bytes)) in Hin.
  - simpl. rewrite lookup_insert_ne by done. rewrite Hx. naive_solver.
Qed.

(** *** Interleavings *)
Section World.
Context {Hf64 : Float64} {Hlow : UnicodeLower}.
Context (json_error : string → go_error) (errBodyRead : go_error).
Notation accept := (accept json_error errBodyRead).

Inductive step (w : world) : world → Prop :=
  | step_start listen err s' :
      crashed w = false → Start listen (w_server w) = (err, s') →
      step w {| w_server := s';
                pending := match err with None => generations (w_server w) :: pending w | Some _ => pending w end;
                crashed := false; inflight := inflight w; issued := issued w; ended := ended w; effects := effects w |}
  (** The locked part of a [Stop], from the node or from the goroutine that waits for the context *)
  | step_stop :
      crashed w = false →
      step w {| w_server := Stop (w_server w); pending := pending w; crashed := false; inflight := inflight w;
                issued := issued w; ended := ended w ∪ list_to_set (issued w).*1; effects := effects w |}
  (** A [Stop] shuts down the server it took. *)
  | step_shutdown g rest :
      crashed w = false → shutting (w_server w) ≡ₚ g :: rest →
      step w {| w_server := Shutdown g rest (w_server w); pending := pending w; crashed := false; inflight := inflight w;
                issued := issued w; ended := ended w; effects := effects w |}
  (** The serving goroutine evaluates [s.server.Serve]: a nil server panics. *)
  | step_serve g rest :
      crashed w = false → pending w ≡ₚ g :: rest →
      step w {| w_server := w_server w; pending := rest;
                crashed := bool_decide (server (w_server w) = None);
                inflight := inflight w; issued := issued w; ended := ended w; effects := effects w |}
  (** [Handle] opens a session for its own run; random tokens do not repeat. *)
  | step_create bytes rc info s' :
      crashed w = false → CreateSession bytes (rc_run rc) rc (w_server w) = Some (info, s') →
      Token info ∉ (issued w).*1 →
      step w {| w_server := s'; pending := pending w; crashed := false; inflight := inflight w;
                issued := (Token info, {| runID := rc_run rc; runCtx := rc |}) :: issued w;
                ended := ended w; effects := effects w |}
  | step_close token :
      crashed w = false → token ∈ (issued w).*1 →
      step w {| w_server := Close token (w_server w); pending := pending w; crashed := false; inflight := inflight w;
                issued := issued w; ended := {[token]} ∪ ended w; effects := effects w |}
  | step_authenticate e r session :
      crashed w = false → q_Method r = "POST" → authenticate (sessions_of (w_server w)) r = Some session →
      step w {| w_server := w_server w; pending := pending w; crashed := false;
                inflight := (e, r, session) :: inflight w; issued := issued w; ended := ended w; effects := effects w |}
  | step_respond e r session rest resp effs :
      crashed w = false → inflight w ≡ₚ (e, r, session) :: rest → accept e session r = (resp, effs) →
      step w {| w_server := w_server w; pending := pending w; crashed := false; inflight := rest; issued := issued w;
                ended := ended w; effects := map (λ ef, (session, ef)) effs ++ effects w |}.

Lemma step_contract w w' : helper_contract w → step w w' → helper_contract w'.
Proof.
  intros Hw Hstep. pose proof Hw as [Hx Hu He Ho Hi Hf].
  destruct Hstep as [listen err s' _ Hs| _ |g rest _ _|g rest _ _|bytes rc info s' _ Hs Hfr|token _ Hin
    |e r session _ _ Ha|e r session rest resp effs _ Hp Ha]; split; simpl; try done.
  - by rewrite (Start_sessions _ _ _ _ Hs).
  - intros t st. unfold sessions_of. simpl. rewrite lookup_empty. split; [done|]. intros [Hin Hn].
    apply (list_elem_of_fmap_2' fst _ _ t) in Hin; [|done]. set_solver.
  - intros t [?|?%elem_of_list_to_set]%elem_of_union; auto.
  - apply (contract_create w bytes); try done. intros Hin. by apply Hfr, He.
  - by constructor.
  - intros t Ht. right. auto.
  - intros t st [[= -> ->]|?]%elem_of_cons; [done|eauto].
  - intros e r st Hin. right. eauto.
  - intros st ef [? ?]%Hf. split; [by right|done].
  - intros t st. rewrite elem_of_union, elem_of_singleton. unfold Close, sessions_of. simpl.
    specialize (Hx t st). unfold sessions_of in Hx.
    destruct (sessions (w_server w)) as [m|]; simpl in *; [|naive_solver].
    rewrite lookup_delete_Some, Hx. naive_solver.
  - intros t [->%elem_of_singleton|?]%elem_of_union; auto.
  - intros e' r' st [[= -> -> ->]|?]%elem_of_cons; [|eauto].
    unfold authenticate in Ha. case_bool_decide; [done|].
    apply Hx in Ha as [Hin _]. by apply (list_elem_of_fmap_2' snd _ _ session) in Hin.
  - intros e' r' st Hin. apply (Hi e' r'). rewrite Hp. by right.
  - intros st ef [Hin|Hin]%elem_of_app; [|by apply Hf].
    apply list_elem_of_fmap in Hin as (ef' & [= -> ->] & Hin).
    assert (session ∈ (issued w).*2) as Hs by (apply (Hi e r); rewrite Hp; by left).
    split; [done|]. apply list_elem_of_fmap in Hs as ([t st] & -> & Hin'). simpl in *.
    apply (accept_effects json_error errBodyRead) in Ha as [[-> _]|(ef0 & -> & Hef & _)]; [by apply not_elem_of_nil in Hin|].
    apply list_elem_of_singleton in Hin as ->. rewrite Hef. eauto.
Qed.

(** C9: through any interleaving of starts, stops, sessions of runs and requests,
    the sessions a token can authenticate are exactly those handed out and neither
    closed nor wiped by a stop, and every event or call that was ever admitted acts
    on the run of a session that was handed out for it. *)
Theorem helper_sessions_exact host port w :
  rtc step (initial host port) w → helper_contract w.
Proof.
  intros H. assert (helper_contract (initial host port)) as Hi by apply contract_initial.
  revert Hi. induction H as [|w1 w2 w3 Hs _ IH]; [done|]. intros Hi. by eapply IH, step_contract.
Qed.

(** the goroutine that serves evaluates [s.server] only when it is scheduled,
    and [Stop] (or a cancelled context) sets that field to nil: a stop that comes
    first makes it call [Serve] on a nil server, which panics. *)
Theorem serve_goroutine_can_panic host port :
  ∃ w, rtc step (initial host port) w ∧ crashed w = true.
Proof.
  eexists. split; [|shelve].
  eapply rtc_l; [apply (step_start _ (Ok "http://127.0.0.1:4000")); reflexivity|].
  eapply rtc_l; [apply step_stop; reflexivity|].
  eapply rtc_l; [apply (step_serve _ O []); reflexivity|]. apply rtc_refl.
  Unshelve. reflexivity.
Qed.
End World.

(** ** Witnesses *)
Module HelperWitness.
Definition floats : Float64 := Some.
Definition rc : RunContext :=
  {| rc_run := "run-1"; emitChecked := Some (λ _ _, None); Emit := true; CallAgent := λ _ _ _, Ok JNull |}.
Definition session : helperSessionState := {| runID := "run-1"; runCtx := rc |}.
Definition request : Request :=
  {| q_Method := "POST"; q_Path := "/events"; q_Header := {["Authorization" := ["bearer  olh_x "]]};
     q_Body := Some (marshal (JObj [("event_type", JStr "run.note")]), false); q_ContentLength := 27 |}.
Definition json_err (s : string) : go_error := ENew "invalid JSON".
Notation handle_demo := (@handle floats latin_lower json_err (ENew "read")).

Lemma helper_effects_authorized_witness :
  ∃ resp effs, handle_demo Events {["olh_x" := session]} request = (resp, effs) ∧ effs ≠ [] ∧
  ((effs = [] ∧ r_status resp ≠ Some 200) ∨
   ∃ s ef, q_Method request = "POST" ∧ @presented latin_lower request ≠ "" ∧
     ({["olh_x" := session]} : gmap string helperSessionState) !! @presented latin_lower request = Some s ∧
     effs = [ef] ∧ @permitted floats Events s request ef).
Proof.
  eexists _, _. split; [vm_compute; reflexivity|]. split; [done|].
  eapply (@helper_effects_authorized floats latin_lower json_err (ENew "read") Events). vm_compute. reflexivity.
Defined.

Definition started : LocalHelperServer := (Start (Ok "http://127.0.0.1:4000") (fresh_server "" 0)).2.
Definition token_bytes : list Z := replicate 24 250.
Definition own_request : Request :=
  {| q_Method := "POST"; q_Path := "/events";
     q_Header := {["Authorization" := ["Bearer olh_" +:+ base64url token_bytes]]}; q_Body := None; q_ContentLength := 0 |}.

Lemma session_token_authenticates_witness :
  ∃ info s', CreateSession token_bytes "run-1" rc started = Some (info, s') ∧
    @authenticate latin_lower (sessions_of s') own_request = Some session.
Proof.
  eexists _, _. split; [reflexivity|].
  eapply (@session_token_authenticates latin_lower token_bytes "run-1" rc started).
  - unfold token_bytes. repeat constructor; unfold is_byte; lia.
  - reflexivity.
  - reflexivity.
Defined.

Lemma helper_sessions_exact_witness :
  ∃ w, issued w ≠ [] ∧ @helper_contract w.
Proof.
  eexists. split; [|eapply (@helper_sessions_exact floats latin_lower json_err (ENew "read") "" 0)].
  2:{ eapply rtc_l; [apply (step_start _ _ _ (Ok "http://127.0.0.1:4000")); reflexivity|].
      eapply rtc_l; [eapply (step_create _ _ _ token_bytes rc); [reflexivity|reflexivity|simpl; set_solver]|].
      apply rtc_refl. }
  done.
Defined.
End HelperWitness.
