(* ===== verification/PrivateFiles.v ===== *)
(** * Private application files

    pkg/adapters/appfiles/files.go: files that only their owner can read, written
    by atomic replacement, and the secrets read back from them; lock_unix.go: the
    ownership lock between processes ([lock_file_exclusive]). *)

From S2P Require Import Prelude GoStrings.
From stdpp Require Import options.

Open Scope Z_scope.

(** ** The file system

    One node per path.  [perm] are the permission bits, [owned] is
    [OwnedByCurrentUser]: the file belongs to the effective user. *)
Inductive kind := KRegular | KDirectory | KSymlink | KOther.
#[export] Instance kind_eq_dec : EqDecision kind.
Proof. solve_decision. Defined.
Record inode := { i_kind : kind; i_perm : Z; i_owned : bool; i_content : string }.
Notation filesystem := (gmap string inode).

(** Octal permission constants. *)
Definition octal (u g o : Z) : Z := u * 64 + g * 8 + o.

Definition is_regular (i : inode) : bool := bool_decide (i_kind i = KRegular).
Definition owner_only (i : inode) : bool := Z.land (i_perm i) (octal 0 7 7) =? 0.
Definition private_file (content : string) : inode :=
  {| i_kind := KRegular; i_perm := octal 6 0 0; i_owned := true; i_content := content |}.

(** ** Atomic replacement *)

(** The system calls of one write: each may fail with an error of the system;
    a failing [Write] may leave a part of the bytes. *)
Record write_env := {
  we_mkdir : option go_error;
  (** [Lstat] fails otherwise than with [ErrNotExist] *)
  we_lstat : option go_error;
  we_temp : result string;
  we_chmod : option go_error;
  we_write : option (go_error * string);
  we_sync : option go_error;
  we_close : option go_error;
  we_rename : option go_error;
  (** [os.Remove] of the temporary file succeeds *)
  we_remove : bool;
}.

(** From [os.CreateTemp] to the end of [WritePrivateFile], the deferred clean-up
    included: the temporary file is removed unless it replaced the target. *)
Definition replace_with (env : write_env) (path raw : string) (s : filesystem) : option go_error * filesystem :=
  match we_temp env with
  | Err e => (Some e, s)
  | Ok tmp =>
      let cleanup s' := if we_remove env then delete tmp s' else s' in
      let created := <[tmp := private_file ""]> s in
      match we_chmod env with
      | Some e => (Some e, cleanup created)
      | None =>
          match we_write env with
          | Some (e, part) => (Some e, cleanup (<[tmp := private_file part]> created))
          | None =>
              let written := <[tmp := private_file raw]> created in
              match we_sync env, we_close env, we_rename env with
              | Some e, _, _ => (Some e, cleanup written)
              | None, Some e, _ => (Some e, cleanup written)
              | None, None, Some e => (Some e, cleanup written)
              | None, None, None => (None, <[path := private_file raw]> (delete tmp written))
              end
          end
      end
  end.

Definition errNotRegular : go_error := ENew "destination is not a regular file".

(** [WritePrivateFile] *)
Definition WritePrivateFile (env : write_env) (path raw : string) (s : filesystem) : option go_error * filesystem :=
  match we_mkdir env, we_lstat env with
  | Some e, _ => (Some e, s)
  | None, Some e => (Some e, s)
  | None, None =>
      match s !! path with
      | Some i => if is_regular i then replace_with env path raw s else (Some errNotRegular, s)
      | None => replace_with env path raw s
      end
  end.

(** ** Reading a secret *)

(** What the calls of a reader see: [Lstat], and [Open] with the bytes read. *)
Record read_env := { re_lstat : result inode; re_open : result (result string) }.

(** Nobody else touches the file. *)
Definition undisturbed (s : filesystem) (path : string) : read_env :=
  match s !! path with
  | Some i => {| re_lstat := Ok i; re_open := Ok (Ok (i_content i)) |}
  | None => {| re_lstat := Err (ESentinel "os.ErrNotExist" "file does not exist");
               re_open := Err (ESentinel "os.ErrNotExist" "file does not exist") |}
  end.

Definition secretLimit : Z := 64 * 1024.

(** [ReadPrivateSecret] *)
Definition ReadPrivateSecret (env : read_env) : result string :=
  i ← re_lstat env;
  _ ← guard_err (is_regular i) (ENew "secret path must be a regular file and not a symlink");
  _ ← guard_err (owner_only i) (ENew "secret file must not be accessible by group or other users");
  _ ← guard_err (i_owned i) (ENew "secret file must be owned by the current user");
  _ ← guard_err (negb ((slen (i_content i) <=? 0) || (secretLimit <? slen (i_content i))))
        (ENew "secret file size is invalid");
  file ← re_open env;
  raw ← file;
  let value := TrimSpace (str_take (Z.to_nat (secretLimit + 1)) raw) in
  if bool_decide (value = "") then Err (ENew "secret file is empty") else Ok value.

(** ** The ownership lock *)

Definition ErrLockBusy : go_error :=
  ESentinel "appfiles.ErrLockBusy" "Agent state is already serving another Runtime Worker".
Inductive flock_result := FlockTaken | FlockBusy | FlockErr (e : go_error).
Record lock_env := { le_open : option go_error; le_stat : result inode; le_flock : flock_result }.

(** [AcquireLock]: the lock is held exactly when the result is [Ok]; every other
    return closes the descriptor. *)
Definition AcquireLock (env : lock_env) : result unit :=
  match le_open env with
  | Some e => Err (EWrap "open Agent mode ownership lock: " e "")
  | None =>
      let unsafe := Err (ENew "Agent mode ownership lock must be an owner-only regular file") in
      match le_stat env with
      | Err _ => unsafe
      | Ok i =>
          if is_regular i && owner_only i && i_owned i
          then match le_flock env with
               | FlockTaken => Ok tt
               | FlockBusy => Err ErrLockBusy
               | FlockErr e => Err (EWrap "lock Agent mode ownership: " e "")
               end
          else unsafe
      end
  end.

(** The kernel's side of the lock file: the open file description that holds the
    lock, the live [Lock] handles and the next description. *)
Record lock_table := { lt_holder : option nat; lt_handles : gset nat; lt_next : nat }.
Definition free_lock : lock_table := {| lt_holder := None; lt_handles := ∅; lt_next := 0 |}.
(** [flock(LOCK_EX|LOCK_NB)] of a fresh description. *)
Definition flock_outcome (t : lock_table) : flock_result :=
  match lt_holder t with None => FlockTaken | Some _ => FlockBusy end.
(** [AcquireLock] in a process: the handle is the description. *)
Definition acquire (open_err : option go_error) (stat : result inode) (t : lock_table) : result nat * lock_table :=
  match AcquireLock {| le_open := open_err; le_stat := stat; le_flock := flock_outcome t |} with
  | Err e => (Err e, {| lt_holder := lt_holder t; lt_handles := lt_handles t; lt_next := S (lt_next t) |})
  | Ok _ => (Ok (lt_next t), {| lt_holder := Some (lt_next t); lt_handles := {[lt_next t]} ∪ lt_handles t; lt_next := S (lt_next t) |})
  end.
(** [Lock.Release]: the file of the handle, [None] once released.  Closing the
    description drops its lock whatever the two calls answer. *)
Definition Lock_Release (unlock_err close_err : option go_error) (file : option nat) (t : lock_table)
    : option go_error * option nat * lock_table :=
  match file with
  | None => (None, None, t)
  | Some fd =>
      (match unlock_err with Some e => Some e | None => close_err end, None,
       {| lt_holder := if bool_decide (lt_holder t = Some fd) then None else lt_holder t;
          lt_handles := lt_handles t ∖ {[fd]}; lt_next := lt_next t |})
  end.
(** The variant of Windows (lock_windows.go): the handle shares nothing, so that
    opening the file is taking the lock. *)
Inductive create_result := Created (t : lock_table) | SharingViolation | CreateError (e : go_error).
Definition create_outcome (t : lock_table) : create_result :=
  match lt_holder t with
  | None => Created {| lt_holder := Some (lt_next t); lt_handles := {[lt_next t]} ∪ lt_handles t; lt_next := S (lt_next t) |}
  | Some _ => SharingViolation
  end.
(** [directory_or_reparse] is [None] when the file information cannot be read. *)
Definition AcquireLock_windows (path_err : option go_error) (create : create_result) (directory_or_reparse : option bool) (t : lock_table)
    : result nat * lock_table :=
  match path_err, create with
  | Some e, _ => (Err e, t)
  | None, SharingViolation => (Err ErrLockBusy, t)
  | None, CreateError _ => (Err (ENew "Agent state is already serving another Runtime Worker"), t)
  | None, Created t' =>
      if bool_decide (directory_or_reparse = Some false) then (Ok (lt_next t), t')
      else (Err (ENew "Agent mode ownership lock must be a regular non-reparse file"),
            {| lt_holder := lt_holder t; lt_handles := lt_handles t; lt_next := lt_next t' |})
  end.
Definition Lock_Release_windows (close_err : option go_error) (file : option nat) (t : lock_table) : option go_error * option nat * lock_table :=
  match file with None => (None, None, t) | Some _ => Lock_Release None close_err file t end.

(** Processes that take and drop the lock in any order. *)
Inductive lock_step (t : lock_table) : lock_table → Prop :=
  | step_acquire oe st : lock_step t (acquire oe st t).2
  | step_release ue ce file : lock_step t (Lock_Release ue ce file t).2.

(** ** Atomicity *)

Lemma replace_with_atomic env path raw s err s' :
  (∀ tmp, we_temp env = Ok tmp → s !! tmp = None ∧ tmp ≠ path) →
  replace_with env path raw s = (err, s') →
  (err = None ∧ s' = <[path := private_file raw]> s) ∨
  (err ≠ None ∧ (s' = s ∨ ∃ tmp, we_temp env = Ok tmp ∧ we_remove env = false ∧ delete tmp s' = s)).
Proof.
  unfold replace_with. intros Ht. destruct (we_temp env) as [tmp|e] eqn:Htmp; [|intros [= <- <-]; auto].
  destruct (Ht tmp eq_refl) as [Hfree Hne].
  assert (∀ c s1, s1 = <[tmp := private_file c]> s →
    (if we_remove env then delete tmp s1 else s1) = s ∨
    ∃ tmp0, Ok tmp = Ok tmp0 ∧ we_remove env = false ∧ delete tmp0 (if we_remove env then delete tmp s1 else s1) = s) as Hclean.
  { intros c s1 ->. destruct (we_remove env); [left; by apply delete_insert_id|right; exists tmp].
    split_and!; [done|done|by apply delete_insert_id]. }
  rewrite !insert_insert_eq.
  destruct (we_chmod env) as [e|]; [intros [= <- <-]; right; split; [done|]; by eapply Hclean|].
  destruct (we_write env) as [[e part]|].
  { rewrite insert_insert_eq. intros [= <- <-]; right; split; [done|]; by eapply Hclean. }
  destruct (we_sync env), (we_close env), (we_rename env); intros [= <- <-];
    try (right; split; [done|]; by eapply Hclean).
  left. split; [done|]. by rewrite delete_insert_id.
Qed.

(** a private write is all or nothing, whichever of its system calls fails:
    either it reports success and the target is an owner-only file with exactly the
    new bytes and nothing else changed, or it reports an error and the target is
    untouched; the temporary file stays behind only if its removal itself fails. *)
Theorem private_write_atomic env path raw s err s' :
  (∀ tmp, we_temp env = Ok tmp → s !! tmp = None ∧ tmp ≠ path) →
  WritePrivateFile env path raw s = (err, s') →
  (err = None ∧ s' = <[path := private_file raw]> s) ∨
  (err ≠ None ∧ (s' = s ∨ ∃ tmp, we_temp env = Ok tmp ∧ we_remove env = false ∧ delete tmp s' = s)).
Proof.
  intros Ht. unfold WritePrivateFile.
  destruct (we_mkdir env); [intros [= <- <-]; auto|]. destruct (we_lstat env); [intros [= <- <-]; auto|].
  destruct (s !! path) as [i|]; [destruct (is_regular i)|]; try (by apply replace_with_atomic).
  intros [= <- <-]; auto.
Qed.

Lemma str_take_all n s : (String.length s <= n)%nat → str_take n s = s.
Proof.
  revert n. induction s as [|c s IH]; intros [|n] Hn; try done; simpl in *; [lia|]. f_equal. apply IH. lia.
Qed.

(** a secret is read only from an owner-only regular file of the current user
    within the size limit, and a secret written by [WritePrivateFile] is read back
    without its surrounding space. *)
Theorem secret_roundtrip :
  (∀ env v, ReadPrivateSecret env = Ok v →
     v ≠ "" ∧ ∃ i, re_lstat env = Ok i ∧ is_regular i = true ∧ owner_only i = true ∧ i_owned i = true ∧
       0 < slen (i_content i) <= secretLimit) ∧
  (∀ env path raw s s', (∀ tmp, we_temp env = Ok tmp → s !! tmp = None ∧ tmp ≠ path) →
     WritePrivateFile env path raw s = (None, s') → slen raw <= secretLimit → TrimSpace raw ≠ "" →
     ReadPrivateSecret (undisturbed s' path) = Ok (TrimSpace raw)).
Proof.
  split.
  - intros env v. unfold ReadPrivateSecret. destruct (re_lstat env) as [i|]; [|done]. unfold guard_err, mbind, result_bind.
    destruct (is_regular i) eqn:?, (owner_only i) eqn:?, (i_owned i) eqn:?; try done.
    destruct (negb _) eqn:Hsz; [|done]. destruct (re_open env) as [[raw|]|]; try done.
    set (value := TrimSpace _). clearbody value.
    case_bool_decide; [done|]. intros [= <-]. split; [done|]. exists i. go_bool. repeat split; auto; lia.
  - intros env path raw s s' Ht Hw Hsz Hne.
    assert (s' = <[path := private_file raw]> s) as ->.
    { revert Hw. unfold WritePrivateFile. repeat (case_match; try done); intros Hw;
        by destruct (replace_with_atomic _ _ _ _ _ _ Ht Hw) as [[_ ?]|[? _]]. }
    unfold undisturbed. rewrite lookup_insert_eq. unfold ReadPrivateSecret, guard_err, mbind, result_bind.
    cbn [re_lstat re_open is_regular owner_only i_owned i_content private_file].
    assert (0 < slen raw) by (destruct raw; [done|]; unfold slen; simpl; lia).
    rewrite (proj2 (Z.leb_gt _ _)), (proj2 (Z.ltb_ge _ _)) by done.
    change (is_regular (private_file raw)) with true. change (owner_only (private_file raw)) with true.
    cbn [orb negb]. rewrite str_take_all by (unfold slen in *; lia). by rewrite bool_decide_false.
Qed.

(** ** The lock excludes *)
Definition lock_inv (t : lock_table) : Prop :=
  (∀ fd, fd ∈ lt_handles t ↔ lt_holder t = Some fd) ∧ ∀ fd, lt_holder t = Some fd → (fd < lt_next t)%nat.
Lemma acquire_inv oe st t : lock_inv t → lock_inv (acquire oe st t).2.
Proof.
  intros [Hh Hn]. unfold acquire. destruct (AcquireLock _) as [[]|e] eqn:Ha; cbn; [|split; [done|]; intros fd Hfd; specialize (Hn fd Hfd); cbn; lia].
  assert (lt_holder t = None) as Hnone.
  { unfold AcquireLock in Ha. cbn in Ha. repeat (case_match; try done). unfold flock_outcome in *. by destruct (lt_holder t). }
  split; cbn; [|intros fd [= <-]; lia]. intros fd. rewrite elem_of_union, elem_of_singleton, Hh, Hnone.
  split; [intros [->|]|intros [= ->]; left]; done.
Qed.
Lemma release_inv ue ce file t : lock_inv t → lock_inv (Lock_Release ue ce file t).2.
Proof.
  intros [Hh Hn]. destruct file as [f|]; [|done]. split; cbn.
  - intros fd. rewrite elem_of_difference, elem_of_singleton, Hh. case_bool_decide as Hf.
    + rewrite Hf. split; [|done]. intros [[= ->] Hne]. done.
    + split; [tauto|]. intros Hfd. split; [done|]. by intros ->.
  - intros fd. case_bool_decide; [done|apply Hn].
Qed.

(** The variant of Windows keeps the same account. *)
Lemma windows_inv pe info ce file t :
  lock_inv t → lock_inv (AcquireLock_windows pe (create_outcome t) info t).2 ∧ lock_inv (Lock_Release_windows ce file t).2.
Proof.
  intros Hi. split; [|destruct file; [by apply release_inv|done]]. destruct Hi as [Hh Hn]. unfold AcquireLock_windows, create_outcome.
  destruct pe; [done|]. destruct (lt_holder t) as [f|] eqn:Ho; [split; cbn; [intros fd; by rewrite Hh, ?Ho|by rewrite Ho]|].
  case_bool_decide; split; cbn.
  - intros fd. rewrite elem_of_union, elem_of_singleton, Hh, ?Ho. split; [intros [->|]|intros [= ->]; left]; done.
  - intros fd [= <-]. lia.
  - intros fd. by rewrite Hh, ?Ho.
  - intros ? ?. by rewrite ?Ho in *.
Qed.

(** However processes take and drop the lock, at most one handle is live, an attempt
    while one is live fails with [ErrLockBusy], and after the release of the live
    handle (even one that reports an error) the next attempt succeeds. *)
Theorem lock_file_exclusive t fd :
  rtc lock_step free_lock t → fd ∈ lt_handles t →
  lt_handles t = {[fd]} ∧
  ∀ i ue ce, is_regular i && owner_only i && i_owned i = true →
    (acquire None (Ok i) t).1 = Err ErrLockBusy ∧ is_Ok (acquire None (Ok i) (Lock_Release ue ce (Some fd) t).2).1.
Proof.
  intros Hs Hfd. assert (lock_inv t) as [Hh _].
  { assert (lock_inv free_lock) as H0 by (split; cbn; [intros ?; set_solver|done]). revert H0 Hs. clear. generalize free_lock. intros t0 H0 Hs.
    induction Hs as [|a b c Hab _ IH]; [done|]. apply IH. destruct Hab; auto using acquire_inv, release_inv. }
  pose proof (proj1 (Hh fd) Hfd) as Ho. split; [apply set_eq; intros x; rewrite elem_of_singleton, Hh, Ho; split; [by intros [= ->]|by intros ->]|].
  intros i ue ce Hi. unfold acquire, AcquireLock, flock_outcome. cbn. rewrite Hi, Ho, bool_decide_true by done. split; [done|by eexists].
Qed.

(** ** Witnesses *)
Module FilesWitness.
Definition held : lock_table := Eval vm_compute in (acquire None (Ok (private_file "")) free_lock).2.
Lemma lock_file_exclusive_witness : (acquire None (Ok (private_file "")) held).1 = Err ErrLockBusy ∧ lt_handles held = {[0%nat]}.
Proof.
  assert (rtc lock_step free_lock held) as Hs by (apply rtc_once; exact (step_acquire free_lock None (Ok (private_file "")))).
  destruct (lock_file_exclusive held 0%nat Hs ltac:(vm_compute; reflexivity)) as [Hl Hx].
  split; [|exact Hl]. exact (proj1 (Hx (private_file "") None None eq_refl)).
Defined.

Definition calm : write_env :=
  {| we_mkdir := None; we_lstat := None; we_temp := Ok "/d/.openlinker-1.tmp"; we_chmod := None; we_write := None;
     we_sync := None; we_close := None; we_rename := None; we_remove := true |}.
Definition full : write_env :=
  {| we_mkdir := None; we_lstat := None; we_temp := Ok "/d/.openlinker-1.tmp"; we_chmod := None;
     we_write := Some (ENew "no space left on device", "s"); we_sync := None; we_close := None; we_rename := None;
     we_remove := true |}.

Lemma fresh_temp env : we_temp env = Ok "/d/.openlinker-1.tmp" →
  ∀ tmp, we_temp env = Ok tmp → (∅ : filesystem) !! tmp = None ∧ tmp ≠ "/d/secret".
Proof. intros -> tmp [= <-]. done. Qed.

Lemma private_write_atomic_witness :
  ∃ err s', WritePrivateFile full "/d/secret" "s3cret" ∅ = (err, s') ∧ err ≠ None ∧ s' = ∅ ∧
  ((err = None ∧ s' = <["/d/secret" := private_file "s3cret"]> ∅) ∨
   (err ≠ None ∧ (s' = ∅ ∨ ∃ tmp, we_temp full = Ok tmp ∧ we_remove full = false ∧ delete tmp s' = ∅))).
Proof.
  eexists _, _. split; [reflexivity|]. split; [done|]. split; [reflexivity|].
  eapply (private_write_atomic full); [by apply fresh_temp|reflexivity].
Defined.

Example secret_read_back :
  ReadPrivateSecret (undisturbed (WritePrivateFile calm "/d/secret" " s3cret " ∅).2 "/d/secret") = Ok "s3cret".
Proof. vm_compute. reflexivity. Qed.
End FilesWitness.
