(* ===== verification/SessionStore.v ===== *)
(** * Provider sessions

    pkg/adapters/providersession/store.go and history.go, and the session
    policy of pkg/adapters/session.go: the keys that name a session, the private
    file that maps them to provider sessions, the cursor of the conversation
    history a session has seen, and the per-session lock. *)

From stdpp Require Import sorting.
From S2P Require Import Prelude GoStrings Sha256 Json JsonRoundtrip Paths PrivateFiles.
From stdpp Require Import options.

Open Scope Z_scope.

(** ** Keys *)

Definition nul : string := String "000" "".

(** The bytes [Key] hashes. *)
Definition key_preimage (provider workspace sessionKey : string) : string :=
  TrimSpace provider +:+ nul +:+ Clean workspace +:+ nul +:+ TrimSpace sessionKey.
Definition Key (provider workspace sessionKey : string) : string :=
  sha256_hex (key_preimage provider workspace sessionKey).
Definition KeyHash (provider workspace sessionKey : string) : string :=
  str_take 24 (Key provider workspace sessionKey).

(** [Path]; [cacheDir] is [os.UserCacheDir], [tempDir] is [os.TempDir]. *)
Definition Path (cacheDir : option string) (tempDir configured provider workspace : string) : string :=
  if bool_decide (TrimSpace configured ≠ "") then TrimSpace configured
  else
    let dir := match cacheDir with
               | Some d => if bool_decide (TrimSpace d = "") then tempDir else d
               | None => tempDir
               end in
    JoinPath [dir; "openlinker"; "session-map";
              provider +:+ "-" +:+ str_take 16 (sha256_hex (Clean workspace)) +:+ ".json"].

(** The bytes [sessionsandbox.Scope] hashes: every part is preceded by its length. *)
Fixpoint scope_parts (parts : list string) : string :=
  match parts with
  | [] => ""
  | p :: ps => "/" +:+ Itoa (slen p) +:+ ":" +:+ p +:+ scope_parts ps
  end.
Definition scope_preimage (parts : list string) : string := "openlinker/native-session/v1" +:+ scope_parts parts.
Definition Scope (parts : list string) : string := sha256_hex (scope_preimage parts).

(** ** The store *)

Record SessionRecord := {
  SessionID : string;
  SessionKeyHash : string;
  Workspace : string;
  ClientMode : string;
  ClientModeGeneration : Z;
  HistorySeen : list string;
  UpdatedAt : string;
}.
#[export] Instance SessionRecord_eq_dec : EqDecision SessionRecord.
Proof. solve_decision. Defined.
Notation Store := (gmap string SessionRecord).

Definition zero_record : SessionRecord :=
  {| SessionID := ""; SessionKeyHash := ""; Workspace := ""; ClientMode := ""; ClientModeGeneration := 0;
     HistorySeen := []; UpdatedAt := "" |}.

(** *** The file format *)

Definition omit_string (name value : string) : list (string * json) :=
  if bool_decide (value = "") then [] else [(name, JStr value)].

(** The struct tags of [Record]: three fields are omitted when empty. *)
Definition record_json (r : SessionRecord) : json :=
  JObj ([("session_id", JStr (SessionID r)); ("session_key_hash", JStr (SessionKeyHash r));
         ("workspace", JStr (Workspace r))] ++
        omit_string "client_mode" (ClientMode r) ++
        (if ClientModeGeneration r =? 0 then []
         else [("client_mode_generation", JNum (Itoa (ClientModeGeneration r)))]) ++
        (match HistorySeen r with [] => [] | l => [("history_seen", JArr (map JStr l))] end) ++
        [("updated_at", JStr (UpdatedAt r))]).

Definition sessions_json (st : Store) : list (string * json) :=
  merge_sort key_le (map (λ kv, (kv.1, record_json kv.2)) (map_to_list st)).
Definition store_json (st : Store) : json := JObj [("sessions", JObj (sessions_json st))].

(** A [uint64] field. *)
Definition f_uint {R} (name : string) (set : Z → R → R) : field R :=
  (name, λ j r, match j with
                | JNum lit => v ← parse_digits lit; if v <? 2 ^ 64 then Some (set v r) else None
                | JNull => Some r
                | _ => None
                end).

Definition set_SessionID v r := {| SessionID := v; SessionKeyHash := SessionKeyHash r; Workspace := Workspace r;
  ClientMode := ClientMode r; ClientModeGeneration := ClientModeGeneration r; HistorySeen := HistorySeen r; UpdatedAt := UpdatedAt r |}.
Definition set_SessionKeyHash v r := {| SessionID := SessionID r; SessionKeyHash := v; Workspace := Workspace r;
  ClientMode := ClientMode r; ClientModeGeneration := ClientModeGeneration r; HistorySeen := HistorySeen r; UpdatedAt := UpdatedAt r |}.
Definition set_Workspace v r := {| SessionID := SessionID r; SessionKeyHash := SessionKeyHash r; Workspace := v;
  ClientMode := ClientMode r; ClientModeGeneration := ClientModeGeneration r; HistorySeen := HistorySeen r; UpdatedAt := UpdatedAt r |}.
Definition set_ClientMode v r := {| SessionID := SessionID r; SessionKeyHash := SessionKeyHash r; Workspace := Workspace r;
  ClientMode := v; ClientModeGeneration := ClientModeGeneration r; HistorySeen := HistorySeen r; UpdatedAt := UpdatedAt r |}.
Definition set_Generation v r := {| SessionID := SessionID r; SessionKeyHash := SessionKeyHash r; Workspace := Workspace r;
  ClientMode := ClientMode r; ClientModeGeneration := v; HistorySeen := HistorySeen r; UpdatedAt := UpdatedAt r |}.
Definition set_HistorySeen v r := {| SessionID := SessionID r; SessionKeyHash := SessionKeyHash r; Workspace := Workspace r;
  ClientMode := ClientMode r; ClientModeGeneration := ClientModeGeneration r; HistorySeen := v; UpdatedAt := UpdatedAt r |}.
Definition set_UpdatedAt v r := {| SessionID := SessionID r; SessionKeyHash := SessionKeyHash r; Workspace := Workspace r;
  ClientMode := ClientMode r; ClientModeGeneration := ClientModeGeneration r; HistorySeen := HistorySeen r; UpdatedAt := v |}.

Definition record_fields : list (field SessionRecord) :=
  [f_string "session_id" set_SessionID; f_string "session_key_hash" set_SessionKeyHash;
   f_string "workspace" set_Workspace; f_string "client_mode" set_ClientMode;
   f_uint "client_mode_generation" set_Generation; f_strings "history_seen" set_HistorySeen;
   f_string "updated_at" set_UpdatedAt].

(** A [map\[string\]Record] value: every member is decoded into a zero record. *)
Fixpoint decode_sessions (kvs : list (string * json)) (m : Store) : option Store :=
  match kvs with
  | [] => Some m
  | (k, v) :: kvs' =>
      r ← decode_struct false record_fields zero_record v;
      decode_sessions kvs' (<[k := r]> m)
  end.
(** [None] is the nil map a [null] leaves. *)
Definition store_fields : list (field (option Store)) :=
  [("sessions", λ j st, match j with
                        | JNull => Some None
                        | JObj kvs => Some <$> decode_sessions kvs (default ∅ st)
                        | _ => None
                        end)].
Definition decode_store (raw : string) : option Store :=
  j ← parse raw; st ← decode_struct false store_fields (Some ∅) j; st.

(** *** Reading and writing *)

Definition MaxStoreBytes : Z := 8 * 1024 * 1024.

(** What [readStore] sees: [Lstat], then the opened file, whether it is the same
    file, and the bytes read from it. *)
Record store_view := {
  sv_lstat : option inode;
  sv_opened : option (inode * bool);
  sv_read : option string;
}.
Definition settled (s : filesystem) (path : string) : store_view :=
  {| sv_lstat := s !! path; sv_opened := (λ i, (i, true)) <$> s !! path; sv_read := i_content <$> s !! path |}.

Definition trusted (i : inode) : bool := is_regular i && owner_only i && i_owned i.

(** [readStore]: anything unsafe or unreadable is an empty store. *)
Definition readStore (v : store_view) : Store :=
  default ∅ (
    info ← sv_lstat v;
    if negb (trusted info) || (MaxStoreBytes <? slen (i_content info)) then None
    else
      '(opened, same) ← sv_opened v;
      if negb same || negb (trusted opened) then None
      else
        raw ← sv_read v;
        if MaxStoreBytes <? slen raw then None else decode_store raw).

Definition errUnsafeStore : go_error :=
  ENew "provider session store must be an owner-only regular non-symlink file".
Definition errStoreTooLarge : go_error := ENew "provider session store exceeds size limit".

(** [writeStore] *)
Definition writeStore (env : write_env) (path : string) (st : Store) (s : filesystem) : option go_error * filesystem :=
  match we_mkdir env, we_lstat env with
  | Some e, _ => (Some e, s)
  | None, Some e => (Some e, s)
  | None, None =>
      if match s !! path with Some i => negb (trusted i) | None => false end then (Some errUnsafeStore, s)
      else
        let raw := MarshalIndent (store_json st) in
        if MaxStoreBytes <? slen raw then (Some errStoreTooLarge, s) else replace_with env path raw s
  end.

(** [Read] and [Update] hold [storeMu]: one reader or writer of the process at a
    time.  [edit] is the caller's policy; [None] leaves the file untouched. *)
Definition Read (s : filesystem) (path : string) : Store := readStore (settled s path).
Definition Update (env : write_env) (path : string) (edit : Store → option Store) (s : filesystem)
    : option go_error * filesystem :=
  match edit (Read s path) with
  | None => (None, s)
  | Some st => writeStore env path st s
  end.

(** ** The history cursor *)

Section History.
(** A message as the JSON value [json.Marshal] encodes. *)
Definition HistoryKey (message : json) : string := sha256_hex (marshal message).

Definition bounded (limit : nat) (keys : list string) : list string := drop (length keys - limit) keys.

(** [RememberHistory] *)
Definition RememberHistory (keys : list string) (history : list json) (limit : nat) : list string :=
  foldl (λ keys message,
           let key := HistoryKey message in
           let keys := if bool_decide (key ∈ keys) then keys else keys ++ [key] in
           bounded limit keys) keys history.

(** [UnseenHistory] *)
Definition UnseenHistory (history : list json) (seen : list string) : list json :=
  List.filter (λ message, negb (bool_decide (HistoryKey message ∈ seen))) history.
End History.

(** ** Session policy (session.go) *)

Record ConversationContext := {
  cc_ID : string; cc_SessionKey : string; cc_ProtocolContextID : string; cc_RootContextID : string;
  cc_CurrentRunID : string; cc_CurrentProtocolTask : string; cc_HistoryBeforeCurrent : list json; cc_Truncated : bool;
  cc_Source : string;
}.
Record RunContext := {
  rx_RunID : string;
  rx_AgentID : string;
  (** [Authority.PrincipalScopeID]; [None] is a nil authority *)
  rx_Authority : option string;
  rx_Conversation : option ConversationContext;
  rx_SkillPackagesAlreadyLoaded : bool;
}.

(** [conversationSessionKey]: the first name that is not blank. *)
Definition conversationSessionKey (run : RunContext) : string :=
  match rx_Conversation run with
  | Some c =>
      default "" (head (List.filter (λ v, negb (bool_decide (v = "")))
        (map TrimSpace [cc_SessionKey c; cc_RootContextID c; cc_ProtocolContextID c; cc_ID c])))
  | None => ""
  end.

(** [providerSessionScope]; [sandboxed] is [config.sandbox != nil]. *)
Definition providerSessionScope (provider : string) (sandboxed : bool) (run : RunContext) : string * string :=
  if sandboxed then (provider, conversationSessionKey run)
  else
    let namespace := provider +:+ "/principal-v1" in
    match rx_Authority run, rx_Conversation run with
    | Some principal, Some c =>
        if bool_decide (TrimSpace principal = "") || bool_decide (TrimSpace (rx_AgentID run) = "") ||
           bool_decide (rx_RunID run = "") || negb (bool_decide (cc_Source c = "core")) ||
           negb (bool_decide (cc_CurrentRunID c = rx_RunID run)) || bool_decide (TrimSpace (cc_SessionKey c) = "")
        then (namespace, "")
        else (namespace, Scope ["provider-principal-v1"; rx_AgentID run; principal; conversationSessionKey run])
    | _, _ => (namespace, "")
    end.

Definition missingFragments : list string :=
  ["session not found"; "unknown session"; "no conversation found"; "invalid session id"; "no rollout found";
   "thread not found"].
(** [missingProviderSession] *)
Definition missingProviderSession `{!UnicodeLower} (diagnostic : string) : bool :=
  existsb (Contains (ToLower diagnostic)) missingFragments.

(** [sessionPersistenceError] *)
Definition sessionPersistenceError (provider : string) (e : go_error) : go_error :=
  EWrap ("persist " +:+ provider +:+ " session: ") e "".

Definition w64 (z : Z) : Z := z mod 2 ^ 64.

(** [loadSessionForClientMode]: the session to resume, the generation of the
    mode, and whether the mode changed. *)
Definition loadSessionForClientMode (st : Store) (provider workspace sessionKey clientMode : string)
    : string * Z * bool :=
  match st !! Key provider workspace sessionKey with
  | None => ("", 1, false)
  | Some r =>
      let generation := if ClientModeGeneration r =? 0 then 1 else ClientModeGeneration r in
      let storedMode := if bool_decide (TrimSpace (ClientMode r) = "") then "standard" else TrimSpace (ClientMode r) in
      if bool_decide (storedMode = clientMode) then (TrimSpace (SessionID r), generation, false)
      else ("", w64 (generation + 1), true)
  end.

Definition historyLimit : nat := 512.

(** The edit of [saveSessionForClientMode]; [now] is the time stamp. *)
Definition save_edit (now provider workspace sessionKey sessionID clientMode : string) (generation : Z)
    (runs : list RunContext) (st : Store) : option Store :=
  let key := Key provider workspace sessionKey in
  let previous := default zero_record (st !! key) in
  let seen0 := if bool_decide (SessionID previous = sessionID) then HistorySeen previous else [] in
  let seen := foldl (λ seen run, match rx_Conversation run with
                                 | Some c => RememberHistory seen (cc_HistoryBeforeCurrent c) historyLimit
                                 | None => seen
                                 end) seen0 runs in
  Some (<[key := {| SessionID := sessionID; SessionKeyHash := str_take 24 key; Workspace := Clean workspace;
                    ClientMode := TrimSpace clientMode; ClientModeGeneration := generation;
                    HistorySeen := seen; UpdatedAt := now |}]> st).

(** [saveSessionForClientMode] *)
Definition saveSessionForClientMode (env : write_env) (now path provider workspace sessionKey sessionID clientMode : string)
    (generation : Z) (runs : list RunContext) (s : filesystem) : option go_error * filesystem :=
  if bool_decide (TrimSpace sessionID = "") then (None, s)
  else
    Update env path
      (save_edit now provider workspace sessionKey (TrimSpace sessionID) clientMode
         (if generation =? 0 then 1 else generation) runs) s.

(** [deleteSessionID] *)
Definition deleteSessionID (env : write_env) (path provider workspace sessionKey : string) (s : filesystem)
    : option go_error * filesystem :=
  Update env path (λ st,
    let key := Key provider workspace sessionKey in
    match st !! key with Some _ => Some (delete key st) | None => None end) s.

(** [runWithSessionHistory] *)
Definition runWithSessionHistory (st : Store) (provider workspace key id : string) (run : RunContext) : RunContext :=
  let marked conv := {| rx_RunID := rx_RunID run; rx_AgentID := rx_AgentID run; rx_Authority := rx_Authority run;
                        rx_Conversation := conv; rx_SkillPackagesAlreadyLoaded := negb (bool_decide (id = "")) |} in
  match rx_Conversation run with
  | None => marked None
  | Some c =>
      let record := default zero_record (st !! Key provider workspace key) in
      if bool_decide (id = "") || negb (bool_decide (SessionID record = id)) then marked (Some c)
      else marked (Some {| cc_ID := cc_ID c; cc_SessionKey := cc_SessionKey c;
                           cc_ProtocolContextID := cc_ProtocolContextID c; cc_RootContextID := cc_RootContextID c;
                           cc_CurrentRunID := cc_CurrentRunID c;
                           cc_HistoryBeforeCurrent := UnseenHistory (cc_HistoryBeforeCurrent c) (HistorySeen record);
                           cc_CurrentProtocolTask := cc_CurrentProtocolTask c; cc_Truncated := cc_Truncated c;
                           cc_Source := cc_Source c |})
  end.

(** ** The file format round trip *)

Record wf_record (r : SessionRecord) : Prop := {
  wf_id : ValidString (SessionID r) = true;
  wf_hash : ValidString (SessionKeyHash r) = true;
  wf_workspace : ValidString (Workspace r) = true;
  wf_mode : ValidString (ClientMode r) = true;
  wf_generation : 0 <= ClientModeGeneration r < 2 ^ 64;
  wf_seen : Forall (λ k, ValidString k = true) (HistorySeen r);
  wf_updated : ValidString (UpdatedAt r) = true;
}.
Definition wf_store (st : Store) : Prop :=
  map_Forall (λ k r, ValidString k = true ∧ wf_record r) st.

Lemma decode_members_app {R} strict (fs : list (field R)) l1 l2 r :
  decode_members strict fs (l1 ++ l2) r = (r' ← decode_members strict fs l1 r; decode_members strict fs l2 r').
Proof.
  revert r. induction l1 as [|[k v] l1 IH]; intros r; [done|]. cbn [app decode_members].
  destruct (find_field fs k) as [f|]; [|destruct strict; [done|apply IH]].
  destruct (f.2 v r); [apply IH|done].
Qed.

Lemma decode_member {R} strict (fs : list (field R)) k v r f :
  find_field fs k = Some f → decode_members strict fs [(k, v)] r = f.2 v r.
Proof. intros Hf. cbn [decode_members]. rewrite Hf. by destruct (f.2 v r). Qed.

Lemma string_elements_map l : string_elements (map JStr l) = Some l.
Proof. induction l as [|x l IH]; [done|]. cbn. by rewrite IH. Qed.

Lemma decode_record r : wf_record r → decode_struct false record_fields zero_record (record_json r) = Some r.
Proof.
  intros Hr. unfold record_json, decode_struct. rewrite decode_members_app.
  assert (∀ r0, decode_members false record_fields
     [("session_id", JStr (SessionID r)); ("session_key_hash", JStr (SessionKeyHash r)); ("workspace", JStr (Workspace r))] r0
     = Some (set_Workspace (Workspace r) (set_SessionKeyHash (SessionKeyHash r) (set_SessionID (SessionID r) r0)))) as -> by done.
  cbn [mbind option_bind]. rewrite decode_members_app. set (r1 := set_Workspace _ _).
  assert (decode_members false record_fields (omit_string "client_mode" (ClientMode r)) r1 = Some (set_ClientMode (ClientMode r) r1)) as ->.
  { unfold omit_string. case_bool_decide as Hm; [by rewrite Hm|done]. }
  cbn [mbind option_bind]. rewrite decode_members_app. set (r2 := set_ClientMode _ _).
  assert (decode_members false record_fields
     (if ClientModeGeneration r =? 0 then [] else [("client_mode_generation", JNum (Itoa (ClientModeGeneration r)))]) r2
     = Some (set_Generation (ClientModeGeneration r) r2)) as ->.
  { destruct (ClientModeGeneration r =? 0) eqn:Hg; go_bool; [by rewrite Hg|].
    rewrite (decode_member _ _ _ _ _ (f_uint "client_mode_generation" set_Generation)) by done. cbn [f_uint snd].
    destruct (wf_generation r Hr) as [Hg0 Hg1]. rewrite (proj2 (Itoa_literal _ Hg0)). cbn [mbind option_bind].
    by rewrite (proj2 (Z.ltb_lt _ _) Hg1). }
  cbn [mbind option_bind]. rewrite decode_members_app. set (r3 := set_Generation _ _).
  assert (decode_members false record_fields
     (match HistorySeen r with [] => [] | l => [("history_seen", JArr (map JStr l))] end) r3
     = Some (set_HistorySeen (HistorySeen r) r3)) as ->.
  { destruct (HistorySeen r) as [|k l] eqn:Hh; [done|].
    rewrite (decode_member _ _ _ _ _ (f_strings "history_seen" set_HistorySeen)) by done. cbn [f_strings snd].
    by rewrite string_elements_map. }
  cbn [mbind option_bind]. rewrite (decode_member _ _ _ _ _ (f_string "updated_at" set_UpdatedAt)) by done.
  by destruct r.
Qed.

Lemma decode_sessions_insert l m :
  Forall (λ kv, wf_record kv.2) l →
  decode_sessions (map (λ kv, (kv.1, record_json kv.2)) l) m = Some (foldl (λ m kv, <[kv.1 := kv.2]> m) m l).
Proof.
  intros Hl. revert m. induction Hl as [|[k r] l Hr _ IH]; intros m; [done|]. cbn [map decode_sessions fst snd].
  rewrite decode_record by done. cbn [mbind option_bind]. apply IH.
Qed.

Lemma foldl_insert_perm (l : list (string * SessionRecord)) (m : Store) :
  NoDup l.*1 → foldl (λ (m : Store) kv, <[kv.1 := kv.2]> m) m l = (list_to_map l : Store) ∪ m.
Proof.
  revert m. induction l as [|[k r] l IH]; intros m; cbn [fmap list_fmap fst foldl list_to_map foldr snd].
  - intros _. by rewrite (left_id_L ∅ (∪)).
  - intros [Hk Hn]%list.NoDup_cons. rewrite IH by done.
    assert ((list_to_map l : Store) !! k = None) as Hl by by apply not_elem_of_list_to_map.
    rewrite <-insert_union_r by done. by rewrite insert_union_l.
Qed.

Lemma sessions_sorted st : ∃ l, l ≡ₚ map_to_list st ∧ sessions_json st = map (λ kv, (kv.1, record_json kv.2)) l.
Proof.
  pose proof (merge_sort_Permutation key_le (map (λ kv, (kv.1, record_json kv.2)) (map_to_list st))) as Hp.
  destruct (Permutation_map_inv _ _ Hp) as (l & Hl & Hlp). by exists l.
Qed.

Lemma wf_store_list st l : wf_store st → l ≡ₚ map_to_list st → Forall (λ kv, ValidString kv.1 = true ∧ wf_record kv.2) l.
Proof.
  intros Hst Hl. rewrite Hl. apply list.Forall_forall. intros [k r] Hin%elem_of_map_to_list. apply (Hst k r Hin).
Qed.

Lemma decode_store_json st : wf_store st → decode_struct false store_fields (Some ∅) (store_json st) = Some (Some st).
Proof.
  intros Hst. unfold store_json, decode_struct. destruct (sessions_sorted st) as (l & Hl & ->).
  set (f := λ j (st : option Store), match j with JNull => Some None | JObj kvs => Some <$> decode_sessions kvs (default ∅ st) | _ => None end).
  rewrite (decode_member _ _ _ _ _ ("sessions", f)) by done. cbn [snd]. unfold f. change (default ∅ (Some ∅)) with (∅ : Store).
  pose proof (wf_store_list st l Hst Hl) as Hwf.
  rewrite decode_sessions_insert by (apply (list.Forall_impl _ _ _ Hwf); by intros ? [_ ?]).
  rewrite foldl_insert_perm by (rewrite Hl; apply NoDup_fst_map_to_list).
  rewrite map_union_empty. rewrite (list_to_map_proper l (map_to_list st)); [by rewrite list_to_map_to_list| |done].
  rewrite Hl. apply NoDup_fst_map_to_list.
Qed.

Lemma Itoa_encodable z : 0 <= z → encodable (JNum (Itoa z)).
Proof. intros Hz. destruct (Itoa_literal z Hz) as [(rs & -> & Hrs) _]. by constructor. Qed.

Lemma record_encodable r : wf_record r → encodable (record_json r) ∧ nesting (record_json r) <= 2.
Proof.
  intros [Hid Hhash Hws Hmode Hgen Hseen Hup]. split.
  - constructor. unfold omit_string. rewrite !Forall_app. repeat split.
    + repeat constructor; done.
    + case_bool_decide; repeat constructor; done.
    + case_match; [constructor|]. constructor; [|constructor]. split; [done|]. apply Itoa_encodable, Hgen.
    + destruct (HistorySeen r) as [|k l]; [constructor|]. constructor; [|constructor]. split; [done|].
      constructor. apply list.Forall_fmap. apply (list.Forall_impl _ _ _ Hseen). intros x Hx. by constructor.
    + repeat constructor; done.
  - unfold record_json, omit_string. cbn [nesting]. rewrite !map_app, !foldr_app. cbn [map foldr nesting snd].
    case_bool_decide; destruct (ClientModeGeneration r =? 0); destruct (HistorySeen r) as [|k l]; cbn [map foldr nesting snd];
      try (assert (foldr Z.max 0 (map nesting (map JStr l)) = 0) as -> by (clear; induction l as [|? ? IH]; [done|cbn; by rewrite IH])); lia.
Qed.

Lemma store_encodable st : wf_store st → encodable (store_json st) ∧ nesting (store_json st) <= max_nesting.
Proof.
  intros Hst. unfold store_json. destruct (sessions_sorted st) as (l & Hl & ->).
  pose proof (wf_store_list st l Hst Hl) as Hwf. split.
  - constructor. constructor; [|constructor]. split; [done|]. constructor. apply list.Forall_fmap.
    apply (list.Forall_impl _ _ _ Hwf). intros [k r] [Hk Hr]. split; [done|]. by apply record_encodable.
  - cbn [nesting map foldr snd]. rewrite map_map.
    assert (0 <= foldr Z.max 0 (map (λ kv : string * SessionRecord, nesting (record_json kv.2)) l) <= 2) as Hb.
    { clear Hl. induction Hwf as [|[k r] l [_ Hr] _ IH]; cbn [map foldr snd]; [lia|].
      pose proof (record_encodable r Hr) as [_ ?]. lia. }
    unfold max_nesting. cbn [snd]. lia.
Qed.

Lemma store_text_roundtrip st : wf_store st → decode_store (MarshalIndent (store_json st)) = Some st.
Proof.
  intros Hst. destruct (store_encodable st Hst) as [He Hn]. unfold decode_store.
  rewrite MarshalIndent_parse by done. cbn [mbind option_bind]. by rewrite decode_store_json.
Qed.

Lemma Read_written s path st :
  wf_store st → slen (MarshalIndent (store_json st)) <= MaxStoreBytes →
  Read (<[path := private_file (MarshalIndent (store_json st))]> s) path = st.
Proof.
  intros Hst Hsz. unfold Read, readStore, settled. cbn [sv_lstat sv_opened sv_read]. rewrite lookup_insert_eq.
  cbn [mbind option_bind fmap option_fmap option_map]. cbn [i_content private_file].
  change (trusted (private_file _)) with true. cbn [negb orb].
  rewrite (proj2 (Z.ltb_ge _ _)) by done. cbn [negb orb].
  by rewrite store_text_roundtrip.
Qed.

(** Hexadecimal digests are valid text. *)
Lemma hex_digit_graphic z : 0 <= z < 16 → graphic (hex_digit z) = true.
Proof.
  intros Hz. unfold hex_digit, graphic. case_match; go_bool; rewrite byte_val_of by lia; apply andb_true_iff; lia.
Qed.
Lemma hex_encode_forallb (p : ascii → bool) s :
  (∀ z, 0 <= z < 16 → p (hex_digit z) = true) → str_forallb p (hex_encode s) = true.
Proof.
  intros Hp. induction s as [|c s IH]; [done|]. cbn [hex_encode str_forallb]. pose proof (byte_val_range c).
  rewrite !Hp, IH; [done| |].
  - change 0xF with (Z.ones 4). rewrite Z.land_ones by done. apply Z.mod_pos_bound. done.
  - rewrite Z.shiftr_div_pow2 by done. change (2 ^ 4) with 16. split; [apply Z.div_pos; lia|apply Z.div_lt_upper_bound; lia].
Qed.
Lemma hex_no_slash s : str_forallb (λ c, negb (bool_decide (c = "/"%char))) (hex_encode s) = true.
Proof.
  apply hex_encode_forallb. intros z Hz. rewrite bool_decide_false; [done|]. intros Heq. apply (f_equal byte_val) in Heq.
  change (byte_val "/") with 47 in Heq. unfold hex_digit in Heq.
  rewrite byte_val_of in Heq by (case_match; go_bool; lia). case_match; go_bool; lia.
Qed.
Lemma hex_encode_graphic s : str_forallb graphic (hex_encode s) = true.
Proof. apply hex_encode_forallb, hex_digit_graphic. Qed.
Lemma sha256_hex_valid s : ValidString (sha256_hex s) = true.
Proof. apply graphic_valid, hex_encode_graphic. Qed.
Lemma str_take_graphic n s : str_forallb graphic s = true → str_forallb graphic (str_take n s) = true.
Proof.
  revert n. induction s as [|c s IH]; intros [|n]; try done. cbn. intros [-> Hs]%andb_true_iff. by apply IH.
Qed.

(** ** The store file *)

Section StoreFile.
Context (env : write_env) (path : string) (s : filesystem).
Context (Hfresh : ∀ tmp, we_temp env = Ok tmp → s !! tmp = None ∧ tmp ≠ path).
#[local] Set Default Proof Using "Type*".

Lemma writeStore_spec st err s' :
  wf_store st → writeStore env path st s = (err, s') →
  (err = None ∧ s' = <[path := private_file (MarshalIndent (store_json st))]> s ∧ Read s' path = st) ∨
  (err ≠ None ∧ Read s' path = Read s path).
Proof.
  intros Hst. unfold writeStore.
  destruct (we_mkdir env); [intros [= <- <-]; auto|]. destruct (we_lstat env); [intros [= <- <-]; auto|].
  destruct (match s !! path with Some i => negb (trusted i) | None => false end); [intros [= <- <-]; auto|].
  destruct (MaxStoreBytes <? _) eqn:Hsz; [intros [= <- <-]; auto|]. go_bool.
  intros [[-> ->]|[He [->|(tmp & Htmp & _ & Hdel)]]]%replace_with_atomic; [| | |exact Hfresh].
  - left. split_and!; [done|done|]. by apply Read_written.
  - by right.
  - right. split; [done|]. unfold Read, settled. destruct (Hfresh tmp Htmp) as [_ Hne].
    by rewrite <-Hdel, lookup_delete_ne.
Qed.
End StoreFile.

(** C10: an update of the session file is atomic and loses nothing: on success
    reading the file gives exactly the edited store, through the JSON text on disk,
    and on any error, or when the policy declines, it gives what it gave before. *)
Theorem session_update_atomic env path edit s err s' :
  (∀ tmp, we_temp env = Ok tmp → s !! tmp = None ∧ tmp ≠ path) →
  (∀ st, edit (Read s path) = Some st → wf_store st) →
  Update env path edit s = (err, s') →
  Read s' path = match err with None => default (Read s path) (edit (Read s path)) | Some _ => Read s path end.
Proof.
  intros Hf Hwf. unfold Update. destruct (edit (Read s path)) as [st|] eqn:He; [|by intros [= <- <-]].
  intros Hw. destruct (writeStore_spec env path s Hf st err s' (Hwf st eq_refl) Hw) as [(-> & _ & ->)|[Hne ->]]; [done|].
  by destruct err.
Qed.

(** *** Saving and resuming a session *)

Lemma bounded_sub limit keys : bounded limit keys ⊆ keys.
Proof. unfold bounded. intros k Hk. rewrite <-(take_drop (length keys - limit) keys). apply elem_of_app. by right. Qed.

Lemma bounded_length limit keys : (length (bounded limit keys) <= limit)%nat.
Proof. unfold bounded. rewrite length_drop. lia. Qed.

Lemma RememberHistory_sub keys history limit k :
  k ∈ RememberHistory keys history limit → k ∈ keys ∨ ∃ m, m ∈ history ∧ k = HistoryKey m.
Proof.
  unfold RememberHistory. revert keys. induction history as [|m history IH]; intros keys; [by left|]. cbn [foldl].
  intros [Hk|(m' & Hm & ->)]%IH; [|right; exists m'; split; [by right|done]].
  apply bounded_sub in Hk. case_bool_decide; [by left|].
  apply elem_of_app in Hk as [?| ->%list_elem_of_singleton]; [by left|]. right. exists m. split; [by left|done].
Qed.

Lemma RememberHistory_length keys history limit :
  (length keys <= limit)%nat → (length (RememberHistory keys history limit) <= limit)%nat.
Proof.
  unfold RememberHistory. revert keys. induction history as [|m history IH]; intros keys Hk; [done|]. cbn [foldl].
  apply IH, bounded_length.
Qed.

Definition delivered (runs : list RunContext) : list json :=
  concat (map (λ run, match rx_Conversation run with Some c => cc_HistoryBeforeCurrent c | None => [] end) runs).

Definition remember_runs (seen0 : list string) (runs : list RunContext) : list string :=
  foldl (λ seen run, match rx_Conversation run with
                     | Some c => RememberHistory seen (cc_HistoryBeforeCurrent c) historyLimit
                     | None => seen
                     end) seen0 runs.

Lemma remember_runs_spec seen0 runs :
  (∀ k, k ∈ remember_runs seen0 runs → k ∈ seen0 ∨ ∃ m, m ∈ delivered runs ∧ k = HistoryKey m) ∧
  ((length seen0 <= historyLimit)%nat → (length (remember_runs seen0 runs) <= historyLimit)%nat).
Proof.
  unfold remember_runs. revert seen0. induction runs as [|run runs IH]; intros seen0; [split; [by left|done]|].
  cbn [foldl]. unfold delivered. cbn [map concat]. fold (delivered runs).
  destruct (IH (match rx_Conversation run with
                | Some c => RememberHistory seen0 (cc_HistoryBeforeCurrent c) historyLimit
                | None => seen0 end)) as [IH1 IH2]. split.
  - intros k [Hk|(m & Hm & ->)]%IH1.
    + destruct (rx_Conversation run) as [c|]; [|by left].
      apply RememberHistory_sub in Hk as [?|(m & Hm & ->)]; [by left|]. right. exists m.
      split; [by apply elem_of_app; left|done].
    + right. exists m. split; [by apply elem_of_app; right|done].
  - intros Hl. apply IH2. destruct (rx_Conversation run); [by apply RememberHistory_length|done].
Qed.

Lemma wf_saved now provider workspace sessionKey sessionID clientMode generation runs st st' :
  wf_store st → ValidString now = true → ValidString (Clean workspace) = true → ValidString sessionID = true →
  ValidString clientMode = true → 0 <= generation < 2 ^ 64 →
  save_edit now provider workspace sessionKey sessionID clientMode generation runs st = Some st' → wf_store st'.
Proof.
  intros Hst Hnow Hws Hid Hmode Hgen. unfold save_edit. set (key := Key provider workspace sessionKey).
  set (seen0 := if bool_decide _ then _ else _). fold (remember_runs seen0 runs). intros Hs. apply (inj Some) in Hs as <-.
  apply map_Forall_insert_2; [|done]. split; [apply sha256_hex_valid|].
  split; cbn [SessionID SessionKeyHash Workspace ClientMode ClientModeGeneration HistorySeen UpdatedAt]; try done.
  - apply graphic_valid, str_take_graphic, hex_encode_graphic.
  - by apply TrimSpace_ValidString.
  - apply list.Forall_forall. intros k [Hk|(m & _ & ->)]%(proj1 (remember_runs_spec seen0 runs)); [|apply sha256_hex_valid].
    revert k Hk. apply list.Forall_forall. unfold seen0. case_bool_decide; [|constructor].
    destruct (st !! key) as [r|] eqn:Hr; simpl; [|constructor]. apply (wf_seen r), (Hst key r Hr).
Qed.

Definition effective_mode (clientMode : string) : string :=
  if bool_decide (TrimSpace clientMode = "") then "standard" else TrimSpace clientMode.

(** What a save needs to be read back: a store that is well formed, a fresh name for
    the temporary file and texts that are valid UTF-8. *)
Record storable (env : write_env) (now path workspace sessionID clientMode : string) (generation : Z) (s : filesystem) : Prop := {
  sb_temp tmp : we_temp env = Ok tmp → s !! tmp = None ∧ tmp ≠ path;
  sb_store : wf_store (Read s path);
  sb_now : ValidString now = true;
  sb_workspace : ValidString (Clean workspace) = true;
  sb_id : ValidString sessionID = true;
  sb_mode : ValidString clientMode = true;
  sb_generation : 0 <= generation < 2 ^ 64;
}.

Lemma saved_session_loaded env now path provider workspace sessionKey sessionID clientMode generation runs s s' :
  storable env now path workspace sessionID clientMode generation s → TrimSpace sessionID ≠ "" →
  saveSessionForClientMode env now path provider workspace sessionKey sessionID clientMode generation runs s = (None, s') →
  let generation' := if generation =? 0 then 1 else generation in
  (∀ mode, loadSessionForClientMode (Read s' path) provider workspace sessionKey mode =
     if bool_decide (effective_mode clientMode = mode) then (TrimSpace sessionID, generation', false)
     else ("", w64 (generation' + 1), true)) ∧
  (∀ key, key ≠ Key provider workspace sessionKey → Read s' path !! key = Read s path !! key).
Proof.
  intros [Hf Hst Hnow Hws Hid Hmode Hgen] Hne. unfold saveSessionForClientMode. rewrite bool_decide_false by done.
  set (generation' := if generation =? 0 then 1 else generation).
  assert (0 <= generation' < 2 ^ 64 ∧ generation' ≠ 0) as [Hgen' Hgz].
  { unfold generation'. destruct (generation =? 0) eqn:Hg; go_bool; [split; [split; [lia|done]|lia]|done]. }
  unfold Update. destruct (save_edit _ _ _ _ _ _ _ _ _) as [st|] eqn:Hsave; [|done]. intros Hw.
  assert (wf_store st) as Hwf by (eapply wf_saved; [..|exact Hsave]; try done; by apply TrimSpace_ValidString).
  destruct (writeStore_spec env path s Hf st None s' Hwf Hw) as [(_ & _ & ->)|[? _]]; [|done].
  unfold save_edit in Hsave. apply (inj Some) in Hsave. cbn zeta. rewrite <-Hsave. split.
  - intros mode. unfold loadSessionForClientMode. rewrite lookup_insert_eq.
    cbn [ClientModeGeneration ClientMode SessionID]. rewrite (proj2 (Z.eqb_neq _ _) Hgz).
    rewrite !TrimSpace_idem by done. done.
  - intros key Hk. by rewrite lookup_insert_ne.
Qed.

(** a saved session is resumed exactly once more under the mode it was saved
    with: loading with that mode gives its identifier and generation, loading with
    any other mode gives no session and the next generation, and the records of
    other session keys are left as they were. *)
Theorem saved_session_resumed env now path provider workspace sessionKey sessionID clientMode generation runs s s' :
  (∀ tmp, we_temp env = Ok tmp → s !! tmp = None ∧ tmp ≠ path) →
  wf_store (Read s path) → ValidString now = true → ValidString (Clean workspace) = true →
  ValidString sessionID = true → ValidString clientMode = true → 0 <= generation < 2 ^ 64 →
  TrimSpace sessionID ≠ "" →
  saveSessionForClientMode env now path provider workspace sessionKey sessionID clientMode generation runs s = (None, s') →
  let generation' := if generation =? 0 then 1 else generation in
  (∀ mode, loadSessionForClientMode (Read s' path) provider workspace sessionKey mode =
     if bool_decide (effective_mode clientMode = mode) then (TrimSpace sessionID, generation', false)
     else ("", w64 (generation' + 1), true)) ∧
  (∀ key, key ≠ Key provider workspace sessionKey → Read s' path !! key = Read s path !! key).
Proof. intros. by apply (saved_session_loaded env now _ _ workspace _ sessionID clientMode generation runs s). Qed.

(** *** What a session is spared

    [served st log]: the store after a sequence of saves and deletions, with a
    ghost log of the messages each provider session was given. *)
Inductive served : Store → list (string * string * json) → Prop :=
  | served_init : served ∅ []
  | served_save st log now provider workspace sessionKey sessionID clientMode generation runs st' :
      served st log → sessionID ≠ "" →
      save_edit now provider workspace sessionKey sessionID clientMode generation runs st = Some st' →
      served st' (map (λ m, (Key provider workspace sessionKey, sessionID, m)) (delivered runs) ++ log)
  | served_delete st log key : served st log → served (delete key st) log.

Record cursor_ok (st : Store) (log : list (string * string * json)) : Prop := {
  co_seen key r k : st !! key = Some r → k ∈ HistorySeen r →
    ∃ m, (key, SessionID r, m) ∈ log ∧ HistoryKey m = k;
  co_bound key r : st !! key = Some r → (length (HistorySeen r) <= historyLimit)%nat;
  co_id key r : st !! key = Some r → SessionID r ≠ "";
}.

Lemma served_cursor st log : served st log → cursor_ok st log.
Proof.
  induction 1 as [|st log now provider workspace sessionKey sessionID clientMode generation runs st' _ [IH1 IH2 IH3] Hid Hs
    |st log key _ [IH1 IH2 IH3]].
  - by split.
  - unfold save_edit in Hs. apply (inj Some) in Hs. set (key := Key provider workspace sessionKey) in *.
    set (seen0 := if bool_decide _ then _ else _) in Hs. fold (remember_runs seen0 runs) in Hs.
    destruct (remember_runs_spec seen0 runs) as [Hr1 Hr2].
    assert (∀ k, k ∈ seen0 → ∃ m, (key, sessionID, m) ∈ log ∧ HistoryKey m = k) as Hs0.
    { unfold seen0. case_bool_decide as Hsame; [|by intros k ?%not_elem_of_nil].
      destruct (st !! key) as [r|] eqn:Hr; simpl in *; [|by intros k ?%not_elem_of_nil].
      intros k Hk. rewrite <-Hsame. by apply IH1. }
    assert (length seen0 <= historyLimit)%nat as Hl0.
    { unfold seen0. case_bool_decide; [|simpl; lia]. destruct (st !! key) as [r|] eqn:Hr; simpl; [by eapply IH2|lia]. }
    subst st'. split.
    + intros key' r k [[<- <-]|[Hne Hr]]%lookup_insert_Some Hk; simpl in *.
      * apply Hr1 in Hk as [(m & Hm & <-)%Hs0|(m & Hm & ->)].
        -- exists m. split; [apply elem_of_app; by right|done].
        -- exists m. split; [apply elem_of_app; left|done]. by apply (list_elem_of_fmap_2 (λ m, (key, sessionID, m))).
      * destruct (IH1 key' r k Hr Hk) as (m & Hm & Hk'). exists m. split; [apply elem_of_app; by right|done].
    + intros key' r [[<- <-]|[_ Hr]]%lookup_insert_Some; simpl; [by apply Hr2|by eapply IH2].
    + intros key' r [[<- <-]|[_ Hr]]%lookup_insert_Some; simpl; [done|by eapply IH3].
  - split.
    + intros key' r k [_ Hr]%lookup_delete_Some. by apply IH1.
    + intros key' r [_ Hr]%lookup_delete_Some. by eapply IH2.
    + intros key' r [_ Hr]%lookup_delete_Some. by eapply IH3.
Qed.

(** no message is withheld from a session that did not get it: whatever was
    saved and deleted before, a message of the conversation that
    [runWithSessionHistory] leaves out was delivered, with the same bytes up to the
    hash, to the same provider session under the same key; the cursor never holds
    more than 512 keys. *)
Theorem omitted_was_delivered st log provider workspace key id run c m :
  served st log → rx_Conversation run = Some c → m ∈ cc_HistoryBeforeCurrent c →
  (∃ c', rx_Conversation (runWithSessionHistory st provider workspace key id run) = Some c' ∧
         m ∈ cc_HistoryBeforeCurrent c') ∨
  (id ≠ "" ∧ ∃ m', (Key provider workspace key, id, m') ∈ log ∧ HistoryKey m' = HistoryKey m).
Proof.
  intros Hs Hc Hm. apply served_cursor in Hs as [Hs _ _]. unfold runWithSessionHistory. rewrite Hc.
  set (k := Key provider workspace key). case_bool_decide as Hid; [left; by exists c|]. cbn [orb].
  destruct (st !! k) as [r|] eqn:Hr; simpl.
  - case_bool_decide as Hsame; [|left; by exists c]. cbn [negb].
    destruct (decide (HistoryKey m ∈ HistorySeen r)) as [Hin|Hout].
    + right. split; [done|]. subst id. by apply (Hs k r).
    + left. eexists. split; [reflexivity|]. cbn [cc_HistoryBeforeCurrent]. unfold UnseenHistory.
      apply list_elem_of_In, filter_In. rewrite bool_decide_false by done. split; [by apply list_elem_of_In|done].
  - case_bool_decide as Hz; [|left; by exists c]. done.
Qed.

(** ** Keys and scopes do not collide *)

Definition without (c : ascii) (s : string) : bool := str_forallb (λ d, negb (bool_decide (d = c))) s.

Lemma separated_inj c a b x y :
  without c a = true → without c b = true → a +:+ String c x = b +:+ String c y → a = b ∧ x = y.
Proof.
  revert b. induction a as [|d a IH]; intros [|e b]; unfold without; cbn [str_forallb]; rewrite ?str_app_cons.
  - intros _ _ H. change ("" +:+ ?s) with s in H. by simplify_eq.
  - intros _ [He _]%andb_true_iff H. change ("" +:+ String c x) with (String c x) in H. go_bool. by simplify_eq.
  - intros [He _]%andb_true_iff _ H. change ("" +:+ String c y) with (String c y) in H. go_bool. by simplify_eq.
  - intros [_ Ha]%andb_true_iff [_ Hb]%andb_true_iff [= -> H]. by destruct (IH b Ha Hb H) as [-> ->].
Qed.

Lemma Itoa_without z : 0 <= z → without ":" (Itoa z) = true.
Proof.
  intros Hz. destruct (Itoa_literal z Hz) as [_ Hp]. unfold parse_digits in Hp.
  destruct (negb _ && _) eqn:Hd; [|done]. apply andb_true_iff in Hd as [_ Hd]. clear Hp. unfold without.
  induction (Itoa z) as [|c t IH]; [done|]. cbn [str_forallb] in *. apply andb_true_iff in Hd as [Hc Ht].
  rewrite IH by done. rewrite bool_decide_false; [done|]. by intros ->.
Qed.
Lemma Itoa_inj z z' : 0 <= z → 0 <= z' → Itoa z = Itoa z' → z = z'.
Proof.
  intros Hz Hz' Heq. destruct (Itoa_literal z Hz) as [_ H1], (Itoa_literal z' Hz') as [_ H2]. congruence.
Qed.

Lemma scope_parts_inj ps qs : scope_parts ps = scope_parts qs → ps = qs.
Proof.
  revert qs. induction ps as [|p ps IH]; intros [|q qs]; [done|done|done|]. cbn [scope_parts].
  change ("/" +:+ ?s) with (String "/" s). change (":" +:+ ?s) with (String ":" s). intros [= H].
  apply separated_inj in H as [Hl H]; [|apply Itoa_without, slen_nonneg..].
  apply Itoa_inj in Hl; [|apply slen_nonneg..].
  apply str_app_inv in H as [-> H]; [|unfold slen in Hl; lia]. f_equal. by apply IH.
Qed.

Lemma hex_digit_inj z z' : 0 <= z < 16 → 0 <= z' < 16 → hex_digit z = hex_digit z' → z = z'.
Proof.
  intros Hz Hz' H. apply (f_equal byte_val) in H. unfold hex_digit in H.
  do 2 case_match; go_bool; rewrite !byte_val_of in H by lia; lia.
Qed.
Lemma hex_encode_inj s t : hex_encode s = hex_encode t → s = t.
Proof.
  revert t. induction s as [|c s IH]; intros [|d t]; [done|done|done|]. cbn [hex_encode]. intros [= H1 H2 H3].
  pose proof (byte_val_range c). pose proof (byte_val_range d).
  assert (∀ a, Z.land a 0xF = a mod 16) as Hlo by (intros a; change 0xF with (Z.ones 4); by rewrite Z.land_ones).
  assert (∀ a, Z.shiftr a 4 = a / 16) as Hhi by (intros a; by rewrite Z.shiftr_div_pow2).
  rewrite !Hlo in H2. rewrite !Hhi in H1.
  apply hex_digit_inj in H1; [|Z.to_euclidean_division_equations; lia..].
  apply hex_digit_inj in H2; [|Z.to_euclidean_division_equations; lia..].
  f_equal; [|by apply IH]. apply byte_val_inj. Z.to_euclidean_division_equations. lia.
Qed.

#[local] Opaque sha256 sha256_hex.

(** These two byte strings are different and have one digest. *)
Definition sha256_collides (x y : string) : Prop := x ≠ y ∧ sha256 x = sha256 y.

Lemma sha256_hex_inj x y : sha256_hex x = sha256_hex y → x = y ∨ sha256_collides x y.
Proof.
  intros H. assert (sha256 x = sha256 y) as Hs by by apply hex_encode_inj.
  destruct (decide (x = y)) as [|Hne]; [by left|by right].
Qed.

Lemma Scope_inj ps qs : Scope ps = Scope qs → ps = qs ∨ sha256_collides (scope_preimage ps) (scope_preimage qs).
Proof.
  unfold Scope. intros H. apply sha256_hex_inj in H as [H|H]; [|by right]. left.
  unfold scope_preimage in H. apply str_app_inv in H as [_ H]; [|done]. by apply scope_parts_inj.
Qed.

#[local] Opaque Scope.

(** The text a shared session stands for: the Agent, the principal, the conversation. *)
Definition principal_text (run : RunContext) (p : string) : string :=
  scope_preimage ["provider-principal-v1"; rx_AgentID run; p; conversationSessionKey run].

(** C11: outside the sandbox two runs share a provider session only when both are runs
    the platform itself attests, each with a principal, and they have the same Agent,
    the same principal and the same conversation: anything else needs the texts of these
    two runs to be different and to have one SHA-256 digest. *)
Theorem provider_scope_isolated provider run run' ns key :
  providerSessionScope provider false run = (ns, key) → providerSessionScope provider false run' = (ns, key) →
  key ≠ "" →
  ∃ p c p' c', rx_Authority run = Some p ∧ rx_Authority run' = Some p' ∧ TrimSpace p ≠ "" ∧ TrimSpace p' ≠ "" ∧
    rx_Conversation run = Some c ∧ cc_CurrentRunID c = rx_RunID run ∧ cc_Source c = "core" ∧
    rx_Conversation run' = Some c' ∧ cc_CurrentRunID c' = rx_RunID run' ∧ cc_Source c' = "core" ∧
    ((p = p' ∧ rx_AgentID run = rx_AgentID run' ∧ conversationSessionKey run = conversationSessionKey run') ∨
     sha256_collides (principal_text run p) (principal_text run' p')).
Proof.
  assert (∀ run ns, providerSessionScope provider false run = (ns, key) → key ≠ "" →
    ∃ p c, rx_Authority run = Some p ∧ rx_Conversation run = Some c ∧ TrimSpace p ≠ "" ∧ cc_Source c = "core" ∧
      cc_CurrentRunID c = rx_RunID run ∧
      key = Scope ["provider-principal-v1"; rx_AgentID run; p; conversationSessionKey run]) as Hinv.
  { intros r n. unfold providerSessionScope. destruct (rx_Authority r) as [p|]; [|by intros [= _ <-]].
    destruct (rx_Conversation r) as [c|] eqn:Hc; [|by intros [= _ <-]].
    destruct (_ || bool_decide (TrimSpace (cc_SessionKey c) = "")) eqn:Hg; [by intros [= _ <-]|].
    intros [= _ <-] _. go_bool. by exists p, c. }
  intros H1 H2 Hne. destruct (Hinv run ns H1 Hne) as (p & c & Ha & Hc & Hp & Hsrc & Hcur & Hk).
  destruct (Hinv run' ns H2 Hne) as (p' & c' & Ha' & Hc' & Hp' & Hsrc' & Hcur' & Hk').
  exists p, c, p', c'. split_and!; try done.
  rewrite Hk in Hk'. apply Scope_inj in Hk' as [[= Hag Hpr Hco]|?]; [by left|by right].
Qed.

(** ** Witnesses *)
Module SessionWitness.
Definition env : write_env :=
  {| we_mkdir := None; we_lstat := None; we_temp := Ok "/c/.sessions-1.tmp"; we_chmod := None; we_write := None;
     we_sync := None; we_close := None; we_rename := None; we_remove := true |}.
Definition save (s : filesystem) : option go_error * filesystem :=
  saveSessionForClientMode env "2026-01-01T00:00:00Z" "/c/codex.json" "codex" "/w" "chat" " sess-1 " "standard" 0 [] s.
Definition saved : filesystem := Eval vm_compute in (save ∅).2.

Lemma store_fresh_temp (tmp : string) :
  we_temp env = Ok tmp → (∅ : filesystem) !! tmp = None ∧ tmp ≠ "/c/codex.json".
Proof. intros [= <-]. done. Qed.
Lemma wf_empty : wf_store (Read ∅ "/c/codex.json").
Proof. intros k r Hk. vm_compute in Hk. by destruct k. Qed.

Lemma saved_session_resumed_witness :
  loadSessionForClientMode (Read saved "/c/codex.json") "codex" "/w" "chat" "standard" = ("sess-1", 1, false).
Proof.
  assert (save ∅ = (None, saved)) as Hs by (vm_compute; reflexivity).
  assert (0 <= 0 < 2 ^ 64) as Hg by (split; [lia|done]).
  assert (TrimSpace " sess-1 " ≠ "") as Hne by done.
  destruct (saved_session_resumed env "2026-01-01T00:00:00Z" "/c/codex.json" "codex" "/w" "chat" " sess-1 " "standard" 0 []
    ∅ saved store_fresh_temp wf_empty eq_refl eq_refl eq_refl eq_refl Hg Hne Hs) as [Hl _].
  rewrite (Hl "standard"). vm_compute. reflexivity.
Defined.

Definition edit (st : Store) : option Store :=
  save_edit "2026-01-01T00:00:00Z" "codex" "/w" "chat" "sess-1" "standard" 1 [] st.
Lemma session_update_atomic_witness :
  ∃ err s', Update env "/c/codex.json" edit ∅ = (err, s') ∧ err = None ∧
    Read s' "/c/codex.json" = default (Read ∅ "/c/codex.json") (edit (Read ∅ "/c/codex.json")).
Proof.
  exists None, (Update env "/c/codex.json" edit ∅).2.
  assert (Update env "/c/codex.json" edit ∅ = (None, (Update env "/c/codex.json" edit ∅).2)) as Hu by (vm_compute; reflexivity).
  split; [exact Hu|]. split; [reflexivity|].
  refine (session_update_atomic env "/c/codex.json" edit ∅ None _ store_fresh_temp _ Hu).
  intros st Hst. refine (wf_saved _ _ _ _ _ _ _ _ _ _ wf_empty _ _ _ _ _ Hst); try (vm_compute; reflexivity). split; [lia|done].
Defined.

Definition message : json := JObj [("role", JStr "user")].
Definition talk : ConversationContext :=
  {| cc_ID := "c"; cc_SessionKey := "chat"; cc_ProtocolContextID := ""; cc_RootContextID := ""; cc_CurrentRunID := "r";
     cc_HistoryBeforeCurrent := [message]; cc_CurrentProtocolTask := ""; cc_Truncated := false; cc_Source := "core" |}.
Definition run : RunContext :=
  {| rx_RunID := "r"; rx_AgentID := "agent"; rx_Authority := Some "principal"; rx_Conversation := Some talk;
     rx_SkillPackagesAlreadyLoaded := false |}.

Lemma omitted_was_delivered_witness :
  ∃ st log, served st log ∧
  ((∃ c', rx_Conversation (runWithSessionHistory st "codex" "/w" "chat" "sess-1" run) = Some c' ∧
          message ∈ cc_HistoryBeforeCurrent c') ∨
   ("sess-1" ≠ "" ∧ ∃ m', (Key "codex" "/w" "chat", "sess-1", m') ∈ log ∧ HistoryKey m' = HistoryKey message)).
Proof.
  assert (∃ st, save_edit "now" "codex" "/w" "chat" "sess-1" "standard" 1 [run] ∅ = Some st) as [st Hs]
    by (eexists; unfold save_edit; reflexivity).
  eexists st, _. assert (served st _) as Hserved by (eapply served_save; [apply served_init| |exact Hs]; done).
  split; [exact Hserved|]. apply (omitted_was_delivered st _ "codex" "/w" "chat" "sess-1" run talk message Hserved).
  - reflexivity.
  - by left.
Defined.

Definition other_run : RunContext :=
  {| rx_RunID := "r"; rx_AgentID := "agent"; rx_Authority := Some "principal"; rx_Conversation := Some talk;
     rx_SkillPackagesAlreadyLoaded := true |}.
Lemma provider_scope_isolated_witness :
  ∃ ns key, providerSessionScope "codex" false run = (ns, key) ∧ key ≠ "" ∧
    rx_AgentID run = rx_AgentID other_run ∧ ¬ sha256_collides (principal_text run "principal") (principal_text other_run "principal").
Proof.
  exists (providerSessionScope "codex" false run).1, (providerSessionScope "codex" false run).2.
  assert (providerSessionScope "codex" false run =
    ((providerSessionScope "codex" false run).1, (providerSessionScope "codex" false run).2)) as Hp by (vm_compute; reflexivity).
  assert (providerSessionScope "codex" false other_run =
    ((providerSessionScope "codex" false run).1, (providerSessionScope "codex" false run).2)) as Hp' by (vm_compute; reflexivity).
  assert ((providerSessionScope "codex" false run).2 ≠ "") as Hne by (vm_compute; discriminate).
  split; [exact Hp|]. split; [exact Hne|].
  destruct (provider_scope_isolated "codex" run other_run _ _ Hp Hp' Hne)
    as (p & c & p' & c' & [= <-] & [= <-] & _ & _ & _ & _ & _ & _ & _ & _ & [(_ & Hag & _)|[Hd _]]).
  - split; [exact Hag|]. intros [Hd _]. exact (Hd eq_refl).
  - destruct (Hd eq_refl).
Defined.
End SessionWitness.
