(* ===== verification/SessionLock.v ===== *)
(** * The session lock

    [Lock] of pkg/adapters/providersession/store.go: one mutex per session key,
    created on first use and dropped with its last user.  The map of entries is
    guarded by one mutex, so its two critical sections are single steps; between
    them an entry's own mutex is taken and released, and threads interleave freely. *)

From S2P Require Import Prelude.
From stdpp Require Import options.

Open Scope nat_scope.

(** Where a thread is: it holds a reference and waits for the entry's mutex, has
    it, or has released it and not yet returned its reference. *)
Inductive phase := Waiting | Holding | Releasing.
#[export] Instance phase_eq_dec : EqDecision phase.
Proof. solve_decision. Defined.
Record position := { p_key : string; p_entry : nat; p_phase : phase }.

(** [entries] is the map of [sessionLocks]; an entry object is its number, with
    its reference count and the thread that has its mutex. *)
Record state := {
  entries : gmap string nat;
  refs : gmap nat nat;
  owner : gmap nat nat;
  threads : gmap nat position;
  next : nat;
}.
Definition initial : state := {| entries := ∅; refs := ∅; owner := ∅; threads := ∅; next := 0 |}.

(** The first critical section of [Lock]: find or create the entry, [refs++]. *)
Definition register (t : nat) (key : string) (s : state) : state :=
  let e := default (next s) (entries s !! key) in
  let count := match entries s !! key with Some e => default 0 (refs s !! e) | None => 0 end in
  {| entries := <[key := e]> (entries s);
     refs := <[e := S count]> (refs s);
     owner := owner s;
     threads := <[t := {| p_key := key; p_entry := e; p_phase := Waiting |}]> (threads s);
     next := match entries s !! key with Some _ => next s | None => S (next s) end |}.

(** [entry.mu.Lock()] returns. *)
Definition acquire (t : nat) (p : position) (s : state) : state :=
  {| entries := entries s; refs := refs s; owner := <[p_entry p := t]> (owner s);
     threads := <[t := {| p_key := p_key p; p_entry := p_entry p; p_phase := Holding |}]> (threads s);
     next := next s |}.

(** The release function: [entry.mu.Unlock()], ... *)
Definition unlock (t : nat) (p : position) (s : state) : state :=
  {| entries := entries s; refs := refs s; owner := delete (p_entry p) (owner s);
     threads := <[t := {| p_key := p_key p; p_entry := p_entry p; p_phase := Releasing |}]> (threads s);
     next := next s |}.

(** ... and its critical section: [refs--], the entry is deleted at zero. *)
Definition unregister (t : nat) (p : position) (s : state) : state :=
  let count := pred (default 0 (refs s !! p_entry p)) in
  {| entries := if count =? 0 then delete (p_key p) (entries s) else entries s;
     refs := <[p_entry p := count]> (refs s);
     owner := owner s;
     threads := delete t (threads s);
     next := next s |}.

Inductive step (s : state) : state → Prop :=
  | step_register t key : threads s !! t = None → step s (register t key s)
  | step_acquire t p :
      threads s !! t = Some p → p_phase p = Waiting → owner s !! p_entry p = None → step s (acquire t p s)
  | step_unlock t p : threads s !! t = Some p → p_phase p = Holding → step s (unlock t p s)
  | step_unregister t p : threads s !! t = Some p → p_phase p = Releasing → step s (unregister t p s).

(** ** Counting references *)

Definition uses (e : nat) (m : gmap nat position) : nat := size (filter (λ tp, p_entry tp.2 = e) m).

Lemma uses_insert e t p m :
  m !! t = None → uses e (<[t := p]> m) = (if decide (p_entry p = e) then S (uses e m) else uses e m).
Proof.
  intros Ht. unfold uses. rewrite map_filter_insert. simpl. case_decide.
  - rewrite map_size_insert_None; [done|]. apply map_lookup_filter_None. by left.
  - by rewrite delete_id.
Qed.

Lemma uses_delete e t p m :
  m !! t = Some p → uses e m = (if decide (p_entry p = e) then S (uses e (delete t m)) else uses e (delete t m)).
Proof.
  intros Ht. rewrite <-(insert_delete_id m t p Ht) at 1. apply uses_insert, lookup_delete_eq.
Qed.

Lemma uses_update e t p p' m :
  m !! t = Some p → p_entry p' = p_entry p → uses e (<[t := p']> m) = uses e m.
Proof.
  intros Ht Hp. rewrite (uses_delete e t p m Ht), <-(insert_delete_eq m t p').
  rewrite uses_insert by apply lookup_delete_eq. by rewrite Hp.
Qed.

Lemma uses_pos e t p m : m !! t = Some p → p_entry p = e → 0 < uses e m.
Proof. intros Ht Hp. rewrite (uses_delete e t p m Ht), decide_True by done. lia. Qed.

(** ** The invariant *)
Record inv (s : state) : Prop := {
  (** a thread's entry is the registered one of its key *)
  inv_entry t p : threads s !! t = Some p → entries s !! p_key p = Some (p_entry p);
  inv_inj k k' e : entries s !! k = Some e → entries s !! k' = Some e → k = k';
  inv_fresh k e : entries s !! k = Some e → e < next s;
  inv_owner_fresh e t : owner s !! e = Some t → e < next s;
  (** reference counts are exact, and no entry stays without a user *)
  inv_refs k e : entries s !! k = Some e → refs s !! e = Some (uses e (threads s)) ∧ 0 < uses e (threads s);
  inv_owner e t : owner s !! e = Some t ↔ ∃ k, threads s !! t = Some {| p_key := k; p_entry := e; p_phase := Holding |};
}.

Lemma inv_initial : inv initial.
Proof.
  split; simpl; try done.
  intros e t. rewrite lookup_empty. split; [done|]. intros [k Hk]. by rewrite lookup_empty in Hk.
Qed.

Lemma inv_register t key s : inv s → threads s !! t = None → inv (register t key s).
Proof.
  intros [He Hi Hf Hof Hr Ho] Ht. unfold register. destruct (entries s !! key) as [e|] eqn:Hk; simpl.
  - destruct (Hr key e Hk) as [Hre Hpos]. rewrite Hre. simpl. rewrite (insert_id (entries s) key e Hk). split; simpl.
    + intros t' p [[<- <-]|[_ Hp]]%lookup_insert_Some; simpl; eauto.
    + exact Hi.
    + exact Hf.
    + exact Hof.
    + intros k e' Hk'. rewrite uses_insert by done. simpl. case_decide as Heq.
      * subst e'. rewrite lookup_insert_eq. split; [done|lia].
      * rewrite lookup_insert_ne by done. eauto.
    + intros e' t'. rewrite Ho. destruct (decide (t = t')) as [<-|Hne].
      * rewrite lookup_insert_eq, Ht. split; intros [? [=]].
      * by rewrite lookup_insert_ne.
  - split; simpl.
    + intros t' p [[<- <-]|[_ Hp]]%lookup_insert_Some; simpl; [by rewrite lookup_insert_eq|].
      specialize (He t' p Hp). rewrite lookup_insert_ne; [done|]. congruence.
    + intros k k' e [[<- <-]|[_ H1]]%lookup_insert_Some [[<- H2]|[_ H2]]%lookup_insert_Some; try done; eauto.
      * apply Hf in H2. lia.
      * subst. apply Hf in H1. lia.
    + intros k e [[<- <-]|[_ H1]]%lookup_insert_Some; [lia|]. apply Hf in H1. lia.
    + intros e t' H1%Hof. lia.
    + intros k e [[<- <-]|[Hne H1]]%lookup_insert_Some; rewrite uses_insert by done; simpl.
      * rewrite decide_True, lookup_insert_eq by done. assert (uses (next s) (threads s) = 0) as ->; [|split; [done|lia]].
        unfold uses. apply map_size_empty_iff, map_empty. intros t'. apply map_lookup_filter_None.
        right. intros p Hp Heq. simpl in Heq. apply He, Hf in Hp. lia.
      * pose proof (Hf k e H1). rewrite decide_False, lookup_insert_ne by lia. eauto.
    + intros e' t'. rewrite Ho. destruct (decide (t = t')) as [<-|Hne].
      * rewrite lookup_insert_eq, Ht. split; intros [? [=]].
      * by rewrite lookup_insert_ne.
Qed.

Lemma inv_acquire t p s :
  inv s → threads s !! t = Some p → p_phase p = Waiting → owner s !! p_entry p = None → inv (acquire t p s).
Proof.
  intros [He Hi Hf Hof Hr Ho] Ht Hph Hfree. split; simpl.
  - intros t' p' [[<- <-]|[_ Hp]]%lookup_insert_Some; simpl; eauto.
  - exact Hi.
  - exact Hf.
  - intros e t' [[<- <-]|[_ H1]]%lookup_insert_Some; eauto.
  - intros k e Hk. rewrite (uses_update e t p) by done. eauto.
  - intros e t'. destruct (decide (p_entry p = e)) as [<-|Hne].
    + rewrite lookup_insert_eq. split; [intros [= <-]; rewrite lookup_insert_eq; eauto|].
      intros [k [[<- _]|[_ Hk]]%lookup_insert_Some]; [done|].
      assert (owner s !! p_entry p = Some t') as Hw by (apply Ho; eauto). by rewrite Hfree in Hw.
    + rewrite lookup_insert_ne, Ho by done. split; intros [k Hk]; exists k.
      * rewrite lookup_insert_ne; [done|]. intros <-. rewrite Ht in Hk. by simplify_eq.
      * apply lookup_insert_Some in Hk as [[_ Hk]|[_ Hk]]; [|done]. by simplify_eq.
Qed.

Lemma inv_unlock t p s :
  inv s → threads s !! t = Some p → p_phase p = Holding → inv (unlock t p s).
Proof.
  intros [He Hi Hf Hof Hr Ho] Ht Hph.
  assert (owner s !! p_entry p = Some t) as Hown.
  { apply Ho. exists (p_key p). rewrite Ht. destruct p; simpl in *. by subst. }
  split; simpl.
  - intros t' p' [[<- <-]|[_ Hp]]%lookup_insert_Some; simpl; eauto.
  - exact Hi.
  - exact Hf.
  - intros e t' [_ H1]%lookup_delete_Some. eauto.
  - intros k e Hk. rewrite (uses_update e t p) by done. eauto.
  - intros e t'. destruct (decide (p_entry p = e)) as [<-|Hne].
    + rewrite lookup_delete_eq. split; [done|]. intros [k [[_ Hk]|[Hne Hk]]%lookup_insert_Some]; [done|].
      assert (owner s !! p_entry p = Some t') as Hw by (apply Ho; eauto). congruence.
    + rewrite lookup_delete_ne, Ho by done. split; intros [k Hk]; exists k.
      * rewrite lookup_insert_ne; [done|]. intros <-. rewrite Ht in Hk. by simplify_eq.
      * apply lookup_insert_Some in Hk as [[_ Hk]|[_ Hk]]; [|done]. by simplify_eq.
Qed.

Lemma inv_unregister t p s :
  inv s → threads s !! t = Some p → p_phase p = Releasing → inv (unregister t p s).
Proof.
  intros [He Hi Hf Hof Hr Ho] Ht Hph. pose proof (He t p Ht) as Hk.
  destruct (Hr _ _ Hk) as [Hre Hpos]. pose proof (uses_delete (p_entry p) t p _ Ht) as Hu.
  rewrite decide_True in Hu by done. unfold unregister. rewrite Hre. simpl. rewrite Hu. simpl.
  assert (∀ k e, entries s !! k = Some e → p_entry p ≠ e → uses e (delete t (threads s)) = uses e (threads s)) as Hother.
  { intros k e _ Hne. by rewrite (uses_delete e t p _ Ht), decide_False. }
  assert (∀ e t', owner s !! e = Some t' ↔
    ∃ k, delete t (threads s) !! t' = Some {| p_key := k; p_entry := e; p_phase := Holding |}) as Ho'.
  { intros e t'. rewrite Ho. split; intros [k Hk']; exists k.
    - rewrite lookup_delete_ne; [done|]. intros <-. rewrite Ht in Hk'. by simplify_eq.
    - by apply lookup_delete_Some in Hk' as [_ ?]. }
  destruct (uses (p_entry p) (delete t (threads s)) =? 0) eqn:Hz; go_bool; split; simpl; try exact Ho'; try exact Hof.
  - intros t' p' [Hne Hp]%lookup_delete_Some. rewrite lookup_delete_ne; [exact (He t' p' Hp)|]. intros Heq.
    pose proof (He t' p' Hp) as Hk'. rewrite <-Heq, Hk in Hk'. simplify_eq.
    assert (delete t (threads s) !! t' = Some p') as Hd by by rewrite lookup_delete_ne.
    pose proof (uses_pos (p_entry p) t' p' _ Hd ltac:(done)). lia.
  - intros k k' e [_ H1]%lookup_delete_Some [_ H2]%lookup_delete_Some. eauto.
  - intros k e [_ H1]%lookup_delete_Some. eauto.
  - intros k e [Hne H1]%lookup_delete_Some.
    assert (p_entry p ≠ e) by (intros <-; apply Hne; eauto). rewrite lookup_insert_ne, (Hother k) by done. eauto.
  - intros t' p' [_ Hp]%lookup_delete_Some. eauto.
  - exact Hi.
  - exact Hf.
  - intros k e H1. destruct (decide (p_entry p = e)) as [<-|Hne].
    + rewrite lookup_insert_eq. split; [done|lia].
    + rewrite lookup_insert_ne, (Hother k) by done. eauto.
Qed.

Lemma step_inv s s' : inv s → step s s' → inv s'.
Proof. intros Hs [t key Ht|t p Ht Hp Ho|t p Ht Hp|t p Ht Hp]; auto using inv_register, inv_acquire, inv_unlock, inv_unregister. Qed.

(** C12: whatever the interleaving, at most one thread is between [Lock] and its
    release for one session key, although entries are dropped and created again
    all the time; a registered entry always has a user, so the map is empty when
    nobody uses it; and the only thing a waiting thread waits for is a thread that
    holds the same key. *)
Theorem session_lock_exclusive s :
  rtc step initial s →
  (∀ t t' p p', threads s !! t = Some p → threads s !! t' = Some p' → p_phase p = Holding → p_phase p' = Holding →
     p_key p = p_key p' → t = t') ∧
  (threads s = ∅ → entries s = ∅) ∧
  (∀ t p, threads s !! t = Some p → p_phase p = Waiting →
     (∃ s', step s s' ∧ s' = acquire t p s) ∨
     ∃ t' p', threads s !! t' = Some p' ∧ p_phase p' = Holding ∧ p_key p' = p_key p).
Proof.
  intros Hs. assert (inv s) as [He Hi Hf Hof Hr Ho].
  { pose proof inv_initial as H0. revert H0. induction Hs as [|s1 s2 s3 H1 _ IH]; [done|].
    intros H0. by apply IH, (step_inv s1). }
  assert (∀ t p, threads s !! t = Some p → p_phase p = Holding → owner s !! p_entry p = Some t) as Hown.
  { intros t p Ht Hp. apply Ho. exists (p_key p). rewrite Ht. destruct p; simpl in *. by subst. }
  split_and!.
  - intros t t' p p' Ht Ht' Hp Hp' Hk. pose proof (He _ _ Ht) as H1. pose proof (He _ _ Ht') as H2.
    rewrite Hk, H2 in H1. simplify_eq. pose proof (Hown _ _ Ht Hp). pose proof (Hown _ _ Ht' Hp'). congruence.
  - intros Hz. apply map_empty. intros k. destruct (entries s !! k) as [e|] eqn:Hk; [|done].
    destruct (Hr k e Hk) as [_ Hpos]. rewrite Hz in Hpos. unfold uses in Hpos. rewrite map_filter_empty, map_size_empty in Hpos. lia.
  - intros t p Ht Hp. destruct (owner s !! p_entry p) as [t'|] eqn:Hw.
    + right. apply Ho in Hw as Hw'. destruct Hw' as [k Ht']. eexists t', _. split_and!; [done|done|]. simpl.
      apply (Hi _ _ (p_entry p)); [exact (He _ _ Ht')|exact (He _ _ Ht)].
    + left. eexists. split; [by apply step_acquire|done].
Qed.

(** ** Witness *)
Definition position_of (ph : phase) : position := {| p_key := "k"; p_entry := 0; p_phase := ph |}.
Definition drained : state :=
  unregister 1 (position_of Releasing) (unlock 1 (position_of Holding)
    (acquire 1 (position_of Waiting) (register 1 "k" initial))).

Lemma session_lock_exclusive_witness : rtc step initial drained ∧ entries drained = ∅.
Proof.
  assert (rtc step initial drained) as Hr.
  { eapply rtc_l; [by apply (step_register _ 1 "k")|].
    eapply rtc_l; [by apply (step_acquire _ 1 (position_of Waiting))|].
    eapply rtc_l; [by apply (step_unlock _ 1 (position_of Holding))|].
    eapply rtc_l; [by apply (step_unregister _ 1 (position_of Releasing))|]. apply rtc_refl. }
  split; [exact Hr|]. destruct (session_lock_exclusive drained Hr) as (_ & Hempty & _). by apply Hempty.
Defined.
