(* ===== verification/Environment.v ===== *)
(** * Environments of child processes

    pkg/adapters/providerprocess/env.go, [sanitizedEnv] of
    internal/agentnode/adapter_command.go, [helperEnv] of envelope.go,
    internal/agentnode/native_credentials.go and [Session.Environment] of
    pkg/adapters/sessionsandbox/session.go: which variables of the Node a child
    process gets.  An environment is a list of "NAME=value" entries. *)

From S2P Require Import Prelude GoStrings Paths PrivateFiles.
From stdpp Require Import options.

Open Scope Z_scope.

(** [name, value, ok := strings.Cut(item, "=")] *)
Definition env_name (item : string) : string := (Cut item "=").1.1.
Definition env_value (item : string) : string := (Cut item "=").1.2.
Definition env_ok (item : string) : bool := (Cut item "=").2.

(** The trimmed, nonblank names of an allowlist. *)
Definition allow_names (allowlist : list string) : list string :=
  List.filter (λ k, negb (bool_decide (k = ""))) (map TrimSpace allowlist).

(** ** The command adapter *)

Definition defaultAdapterEnvAllowlist : list string := ["PATH"; "HOME"; "TMPDIR"; "TEMP"; "TMP"; "LANG"].
Definition adapterEnvKeyAllowed (key : string) (allowed : list string) : bool :=
  bool_decide (key ∈ allowed) || HasPrefix key "LC_".

(** [sanitizedEnv] *)
Definition sanitizedEnv (env extraAllowlist : list string) : list string :=
  let allowed := defaultAdapterEnvAllowlist ++ allow_names extraAllowlist in
  List.filter (λ item, env_ok item && adapterEnvKeyAllowed (env_name item) allowed) env.

(** [helperEnv] of a run whose helper session is known. *)
Record helper_endpoints := { h_BaseURL : string; h_Token : string; h_CallAgent : string; h_Events : string }.
Definition helperEnv (runID : string) (helper : option helper_endpoints) : list string :=
  match helper with
  | None => []
  | Some h =>
      ["OPENLINKER_AGENT_NODE_RUN_ID=" +:+ runID;
       "OPENLINKER_AGENT_NODE_HELPER_URL=" +:+ h_BaseURL h;
       "OPENLINKER_AGENT_NODE_HELPER_TOKEN=" +:+ h_Token h;
       "OPENLINKER_AGENT_NODE_HELPER_CALL_AGENT_URL=" +:+ h_CallAgent h;
       "OPENLINKER_AGENT_NODE_HELPER_EVENTS_URL=" +:+ h_Events h]
  end.

(** ** Provider processes *)

Definition baseProviderEnvironment : list string :=
  ["PATH"; "Path"; "PATHEXT"; "HOME"; "USERPROFILE"; "HOMEDRIVE"; "HOMEPATH"; "APPDATA"; "LOCALAPPDATA";
   "PROGRAMDATA"; "SYSTEMROOT"; "SystemRoot"; "WINDIR"; "COMSPEC"; "TMPDIR"; "TEMP"; "TMP"; "LANG"].

(** [WithIdentity]; [username] is [effectiveUsername()]. *)
Definition WithIdentity (username : string) (environment : list string) : list string :=
  List.filter (λ item, negb (HasPrefix item "USER=") && negb (HasPrefix item "LOGNAME=")) environment ++
  (if bool_decide (username = "") then [] else ["USER=" +:+ username; "LOGNAME=" +:+ username]).

(** [Environment] *)
Definition Environment (username : string) (environment allowlist : list string) : list string :=
  let allowed := baseProviderEnvironment ++ allow_names allowlist in
  WithIdentity username
    (List.filter (λ item, env_ok item && (bool_decide (env_name item ∈ allowed) || HasPrefix (env_name item) "LC_"))
       environment).

(** ** Session sandboxes *)

Definition inherited_names : list string := ["PATH"; "CODEX_API_KEY"; "ANTHROPIC_API_KEY"; "ANTHROPIC_BASE_URL"].
(** The map literal of [Session.Environment]; [data] and [temp] are the session's. *)
Definition session_values (data temp : string) : list (string * string) :=
  [("HOME", JoinPath [data; "home"]); ("CODEX_HOME", JoinPath [data; "codex"]);
   ("CLAUDE_CONFIG_DIR", JoinPath [data; "claude"]); ("TMPDIR", temp); ("TMP", temp); ("TEMP", temp);
   ("XDG_CONFIG_HOME", JoinPath [data; "home/.config"]); ("XDG_CACHE_HOME", JoinPath [data; "home/.cache"]);
   ("XDG_DATA_HOME", JoinPath [data; "home/.local/share"]); ("LANG", "C"); ("LC_ALL", "C")].

(** One round of the second loop. *)
Definition set_variable (result : list string) (kv : string * string) : list string :=
  List.filter (λ entry, negb (HasPrefix entry (kv.1 +:+ "="))) result ++ [kv.1 +:+ "=" +:+ kv.2].

(** [Session.Environment]; [order] is the order in which the map is ranged over. *)
Definition Session_Environment (order : list (string * string)) (values : list string) : list string :=
  foldl set_variable
    (List.filter (λ entry, env_ok entry && bool_decide (env_name entry ∈ inherited_names)) values) order.

(** ** Claude credentials *)

(** The last entry of a name wins; absent is the empty string. *)
Definition last_value (name : string) (environment : list string) : string :=
  foldl (λ v item, if bool_decide (env_name item = name) then TrimSpace (env_value item) else v) "" environment.

Definition errExclusive : go_error :=
  ENew "ANTHROPIC_API_KEY and ANTHROPIC_API_KEY_FILE are mutually exclusive".
Definition errKeyFile : go_error :=
  ENew "ANTHROPIC_API_KEY_FILE must be a readable, nonempty private regular file owned by the current user (no symlinks, at most 64 KiB)".
Definition errKeyMissing : go_error :=
  ENew "Claude delegation uses --bare and requires ANTHROPIC_API_KEY or ANTHROPIC_API_KEY_FILE; OAuth/Keychain login is not used".

(** [prepareNativeCredentials] on Unix: the environment of the configuration
    ([None] is nil, for which the process environment is read) and the secret
    file as the reader sees it.  [Ok None] leaves the configuration as it is. *)
Definition prepareNativeCredentials (provider : string) (targets : list string) (env : option (list string))
    (process : list string) (file : string → read_env) : result (option (list string)) :=
  if negb (EqualFold (TrimSpace provider) "claude") then Ok None
  else
    let environment := default process env in
    let key := last_value "ANTHROPIC_API_KEY" environment in
    let path := last_value "ANTHROPIC_API_KEY_FILE" environment in
    let required := negb (bool_decide (targets = [])) in
    if negb required && bool_decide (path = "") then Ok None
    else if negb (bool_decide (key = "")) && negb (bool_decide (path = "")) then Err errExclusive
    else
      key' ← (if bool_decide (path = "") then Ok key
              else match ReadPrivateSecret (file path) with Ok k => Ok k | Err _ => Err errKeyFile end);
      if bool_decide (key' = "") && required then Err errKeyMissing
      else
        let kept := List.filter (λ item, negb (bool_decide (env_name item = "ANTHROPIC_API_KEY")) &&
                                         negb (bool_decide (env_name item = "ANTHROPIC_API_KEY_FILE"))) environment in
        Ok (Some (kept ++ if bool_decide (key' = "") then [] else ["ANTHROPIC_API_KEY=" +:+ key'])).

(** ** Names *)

Definition no_equals (k : string) : bool := str_forallb (λ c, negb (bool_decide (c = "="%char))) k.

Lemma Cut_entry k v : no_equals k = true → Cut (k +:+ String "=" v) "=" = (k, v, true).
Proof.
  induction k as [|c k IH]; unfold no_equals; cbn [str_forallb].
  - intros _. change ("" +:+ String "=" v) with (String "=" v). cbn. done.
  - intros [Hc Hk]%andb_true_iff. go_bool. rewrite str_app_cons. cbn [Cut]. rewrite bool_decide_false by done.
    by rewrite IH.
Qed.
Lemma env_name_entry k v : no_equals k = true → env_name (k +:+ "=" +:+ v) = k.
Proof. intros Hk. unfold env_name. change ("=" +:+ v) with (String "=" v). by rewrite Cut_entry. Qed.

Lemma env_name_prefix entry k : no_equals k = true → HasPrefix entry (k +:+ "=") = true → env_name entry = k.
Proof.
  intros Hk Hp. apply prefix_inv in Hp. rewrite Hp, <-str_app_assoc.
  apply (env_name_entry k _ Hk).
Qed.

(** a child process gets no variable the operator did not let through: every
    entry of a provider's environment is an entry of the Node's whose name is a base
    name, an allowlisted name or a locale name, or the identity the Node derives
    itself (never the caller's USER or LOGNAME); every such entry is passed on; and
    the command adapter's filter admits only its own names. *)
Theorem child_environment_bounded username env allowlist item :
  (item ∈ Environment username env allowlist ↔
     (item ∈ env ∧ env_ok item = true ∧
      (env_name item ∈ baseProviderEnvironment ++ allow_names allowlist ∨ HasPrefix (env_name item) "LC_" = true) ∧
      HasPrefix item "USER=" = false ∧ HasPrefix item "LOGNAME=" = false) ∨
     (username ≠ "" ∧ (item = "USER=" +:+ username ∨ item = "LOGNAME=" +:+ username))) ∧
  (item ∈ sanitizedEnv env allowlist ↔
     item ∈ env ∧ env_ok item = true ∧
     (env_name item ∈ defaultAdapterEnvAllowlist ++ allow_names allowlist ∨ HasPrefix (env_name item) "LC_" = true)).
Proof.
  split.
  - unfold Environment, WithIdentity. rewrite elem_of_app, !elem_of_filter_bool.
    rewrite !andb_true_iff, !negb_true_iff, orb_true_iff, bool_decide_eq_true.
    case_bool_decide as Hu; rewrite ?elem_of_cons, ?elem_of_nil; tauto.
  - unfold sanitizedEnv, adapterEnvKeyAllowed. rewrite elem_of_filter_bool, andb_true_iff, orb_true_iff, bool_decide_eq_true. tauto.
Qed.

Example node_secrets_stay :
  Environment "svc" ["PATH=/bin"; "OPENLINKER_AGENT_TOKEN=ol_secret"; "USER=root"; "LC_ALL=C"; "broken"] [" EXTRA "] =
  ["PATH=/bin"; "LC_ALL=C"; "USER=svc"; "LOGNAME=svc"].
Proof. vm_compute. reflexivity. Qed.

(** ** The session environment *)

Definition entry (kv : string * string) : string := kv.1 +:+ "=" +:+ kv.2.

Lemma filter_all {A} (f : A → bool) l : (∀ x, x ∈ l → f x = true) → List.filter f l = l.
Proof.
  induction l as [|x l IH]; intros Hl; [done|]. cbn. rewrite (Hl x) by by left. f_equal. apply IH.
  intros y Hy. apply Hl. by right.
Qed.

Lemma set_variables order acc :
  NoDup order.*1 → Forall (λ kv, no_equals kv.1 = true) order →
  (∀ e k, e ∈ acc → k ∈ order.*1 → env_name e ≠ k) →
  foldl set_variable acc order = acc ++ map entry order.
Proof.
  revert acc. induction order as [|[k v] order IH]; intros acc Hn Hk Hacc; cbn [foldl map]; [by rewrite app_nil_r|].
  apply list.NoDup_cons in Hn as [Hnk Hn]. apply list.Forall_cons in Hk as [Hk1 Hk]. cbn [fst] in Hk1.
  assert (set_variable acc (k, v) = acc ++ [entry (k, v)]) as ->.
  { unfold set_variable, entry. cbn [fst snd]. f_equal. apply filter_all. intros e He. apply negb_true_iff.
    destruct (HasPrefix e (k +:+ "=")) eqn:Hp; [|done]. apply env_name_prefix in Hp; [|done].
    exfalso. apply (Hacc e k He); [by left|done]. }
  rewrite IH; [by rewrite <-app_assoc|done|done|].
  intros e k' [He| ->%list_elem_of_singleton]%elem_of_app Hk'.
  - apply Hacc; [done|by right].
  - unfold entry. cbn [fst snd]. rewrite env_name_entry by done. intros ->. by apply Hnk.
Qed.

Definition session_names : list string :=
  ["HOME"; "CODEX_HOME"; "CLAUDE_CONFIG_DIR"; "TMPDIR"; "TMP"; "TEMP"; "XDG_CONFIG_HOME"; "XDG_CACHE_HOME";
   "XDG_DATA_HOME"; "LANG"; "LC_ALL"].
Lemma session_values_names data temp : (session_values data temp).*1 = session_names.
Proof. reflexivity. Qed.

(** whatever the order in which Go ranges over the map, a sandboxed client's
    environment is the inherited PATH and provider credentials followed by exactly
    one private value for each of its eleven variables: no HOME, configuration or
    temporary directory of the operator survives. *)
Theorem session_environment_private data temp order values :
  order ≡ₚ session_values data temp →
  Session_Environment order values =
    List.filter (λ e, env_ok e && bool_decide (env_name e ∈ inherited_names)) values ++ map entry order.
Proof.
  intros Ho. unfold Session_Environment. apply set_variables.
  - rewrite Ho, session_values_names. apply (bool_decide_unpack (NoDup session_names)). vm_compute. done.
  - rewrite Ho. repeat constructor.
  - intros e k He Hk Heq. rewrite Ho, session_values_names in Hk. apply elem_of_filter_bool in He as [Hin _].
    apply andb_true_iff in Hin as [_ Hin%bool_decide_eq_true]. subst k.
    assert (Forall (λ n, bool_decide (n ∉ session_names) = true) inherited_names) as Hd by (repeat constructor).
    rewrite list.Forall_forall in Hd. apply Hd in Hin. by apply bool_decide_eq_true in Hin.
Qed.

(** ** Credentials *)

(** when Node prepares a Claude environment it pins exactly one credential
    and hides where it came from: the secret's file name is never forwarded, the
    only ANTHROPIC_API_KEY entry is the prepared key, every other entry is kept in
    order, and with delegation targets there is always a key. *)
Theorem credentials_pinned provider targets env process file env' :
  prepareNativeCredentials provider targets env process file = Ok (Some env') →
  ∃ key, env' =
    List.filter (λ item, negb (bool_decide (env_name item = "ANTHROPIC_API_KEY")) &&
                         negb (bool_decide (env_name item = "ANTHROPIC_API_KEY_FILE"))) (default process env) ++
    (if bool_decide (key = "") then [] else ["ANTHROPIC_API_KEY=" +:+ key]) ∧
  (∀ item, item ∈ env' → env_name item ≠ "ANTHROPIC_API_KEY_FILE" ∧
     (env_name item = "ANTHROPIC_API_KEY" → item = "ANTHROPIC_API_KEY=" +:+ key)) ∧
  (targets ≠ [] → key ≠ "").
Proof.
  unfold prepareNativeCredentials. destruct (negb (EqualFold _ _)); [done|].
  set (environment := default process env). set (path := last_value "ANTHROPIC_API_KEY_FILE" environment).
  destruct (negb (negb (bool_decide (targets = []))) && _); [done|]. destruct (negb _ && negb _); [done|].
  destruct (if bool_decide (path = "") then _ else _) as [key|e]; [|done]. unfold mbind, result_bind.
  destruct (bool_decide (key = "") && negb (bool_decide (targets = []))) eqn:Hreq; [done|].
  intros [= <-]. exists key. split; [done|]. split.
  - intros item [Hin|Hin]%elem_of_app.
    + apply elem_of_filter_bool in Hin as [Hf _]. go_bool. done.
    + case_bool_decide; [by apply not_elem_of_nil in Hin|]. apply list_elem_of_singleton in Hin as ->.
      change ("ANTHROPIC_API_KEY=" +:+ key) with ("ANTHROPIC_API_KEY" +:+ "=" +:+ key).
      by rewrite env_name_entry.
  - intros Ht. rewrite (bool_decide_false (targets = [])) in Hreq by done.
    cbn in Hreq. rewrite andb_true_r in Hreq. by apply bool_decide_eq_false in Hreq.
Qed.

(** ** Witnesses *)
Module EnvWitness.
Lemma session_environment_private_witness :
  Session_Environment (reverse (session_values "/s/data" "/tmp/olns-1")) ["PATH=/bin"; "HOME=/root"; "SSH_AUTH_SOCK=/x"] =
  List.filter (λ e, env_ok e && bool_decide (env_name e ∈ inherited_names)) ["PATH=/bin"; "HOME=/root"; "SSH_AUTH_SOCK=/x"] ++
  map entry (reverse (session_values "/s/data" "/tmp/olns-1")).
Proof. apply (session_environment_private "/s/data" "/tmp/olns-1"). apply reverse_Permutation. Defined.

Definition secret_file (path : string) : read_env :=
  undisturbed {["/run/key" := private_file "sk-1"]} path.
Definition operator_env : list string := ["PATH=/bin"; "ANTHROPIC_API_KEY_FILE=/run/key"].
Lemma credentials_pinned_witness :
  ∃ env', prepareNativeCredentials "claude" ["agent"] (Some operator_env) [] secret_file = Ok (Some env') ∧
    env' = ["PATH=/bin"; "ANTHROPIC_API_KEY=sk-1"] ∧
  ∃ key, env' =
    List.filter (λ item, negb (bool_decide (env_name item = "ANTHROPIC_API_KEY")) &&
                         negb (bool_decide (env_name item = "ANTHROPIC_API_KEY_FILE"))) operator_env ++
    (if bool_decide (key = "") then [] else ["ANTHROPIC_API_KEY=" +:+ key]) ∧ key ≠ "".
Proof.
  exists ["PATH=/bin"; "ANTHROPIC_API_KEY=sk-1"].
  assert (prepareNativeCredentials "claude" ["agent"] (Some operator_env) [] secret_file =
    Ok (Some ["PATH=/bin"; "ANTHROPIC_API_KEY=sk-1"])) as H by (vm_compute; reflexivity).
  split; [exact H|]. split; [reflexivity|].
  destruct (credentials_pinned "claude" ["agent"] (Some operator_env) [] secret_file _ H) as (key & He & _ & Hk).
  exists key. split; [exact He|]. apply Hk. discriminate.
Defined.
End EnvWitness.
