(* ===== verification/Sandbox.v ===== *)
(** * Session sandboxes

    pkg/adapters/sessionsandbox/config.go and session.go: the configuration of
    native isolation, the private directories of a session, the checks of the
    session root, opening and closing a session. *)

From S2P Require Import Prelude GoStrings GoNet Paths PrivateFiles SessionStore.
From stdpp Require Import options.

Open Scope Z_scope.

(** ** Configuration *)

Record Config := {
  Mode : string; Root : string; Namespace : string; RuntimeBin : string; TempRoot : string;
  ReadPaths : list string; AllowedDomains : list string;
}.
Definition Enabled (c : Config) : bool := bool_decide (Mode c = "native").

(** The constants of the build and the user the Node runs as. *)
Record platform := { GOOS : string; GOARCH : string; Geteuid : Z }.

(** The characters a session path may not hold: NUL, CR, LF, TAB and globs. *)
Definition unsafe_chars : string := str_of_bytes [0; 13; 10; 9] +:+ "*?[]{}".
Definition safePath (p : string) : bool := IsAbs p && negb (ContainsAny p unsafe_chars).

Definition is_label_rune (r : Z) : bool :=
  (r =? 0x2D) || ((0x61 <=? r) && (r <=? 0x7A)) || ((0x30 <=? r) && (r <=? 0x39)).
Definition bad_label (label : string) : bool :=
  bool_decide (label = "") || HasPrefix label "-" || HasSuffix label "-" ||
  negb (forallb is_label_rune (runes label)).
(** The characters that make a name a pattern, an address or another port. *)
Definition bad_domain_chars : string := ":/*?@[]\ " +:+ str_of_bytes [9; 13; 10; 0].
Definition bad_domain `{!UnicodeLower} (d : string) : bool :=
  let host := TrimSuffix d ":443" in
  bool_decide (d = "") || negb (bool_decide (host = ToLower host)) || negb (Contains host ".") ||
  ContainsAny host bad_domain_chars || bool_decide (is_Some (ParseIP host)) ||
  HasSuffix host ".localhost" || HasSuffix host ".local".

(** The loop over [AllowedDomains]. *)
Fixpoint check_domains `{!UnicodeLower} (ds : list string) : option go_error :=
  match ds with
  | [] => None
  | d :: ds' =>
      if bad_domain d
      then Some (ENew "SESSION_NETWORK_DOMAINS must contain exact public DNS names (HTTPS port 443 only)")
      else if existsb bad_label (Split (TrimSuffix d ":443") ".")
      then Some (ENew "invalid SESSION_NETWORK_DOMAINS DNS name")
      else check_domains ds'
  end.

(** [Config.Validate] *)
Definition Validate `{!UnicodeLower} (pf : platform) (c : Config) : option go_error :=
  if bool_decide (Mode c = "") || bool_decide (Mode c = "off") then
    if negb (bool_decide (Root c = "")) || negb (bool_decide (TempRoot c = "")) || negb (bool_decide (RuntimeBin c = "")) ||
       negb ((length (ReadPaths c) + length (AllowedDomains c) =? 0)%nat)
    then Some (ENew "session options require SESSION_ISOLATION=native") else None
  else if negb (Enabled c) then Some (ENew "SESSION_ISOLATION must be off or native")
  else if negb (bool_decide (GOOS pf = "darwin")) && negb (bool_decide (GOOS pf = "linux"))
  then Some (ENew "native session isolation requires macOS or Linux; no unsandboxed fallback is available")
  else if negb (bool_decide (GOARCH pf = "amd64")) && negb (bool_decide (GOARCH pf = "arm64"))
  then Some (ENew "native session isolation currently requires amd64 or arm64")
  else if Geteuid pf <=? 0 then Some (ENew "native session isolation requires a non-root Node user")
  else if negb (safePath (Root c)) || bool_decide (Clean (Root c) = "/") || bool_decide (TrimSpace (Namespace c) = "")
  then Some (ENew "native isolation requires an absolute private SESSION_ROOT and stable Core namespace")
  else if negb (bool_decide (TempRoot c = "")) && (negb (safePath (TempRoot c)) || bool_decide (Clean (TempRoot c) = "/"))
  then Some (ENew "SESSION_TEMP_ROOT must be an absolute private directory")
  else if negb (forallb safePath (ReadPaths c))
  then Some (ENew "SESSION_READ_PATHS must contain absolute paths without glob or control characters")
  else check_domains (AllowedDomains c).

(** ** Private directories *)

Definition is_directory (i : inode) : bool := bool_decide (i_kind i = KDirectory).
Definition private_dir : inode := {| i_kind := KDirectory; i_perm := octal 7 0 0; i_owned := true; i_content := "" |}.
(** The sticky bit is above the permission bits. *)
Definition sticky (i : inode) : bool := Z.testbit (i_perm i) 9.
Definition shared_writable (i : inode) : bool :=
  negb (Z.land (i_perm i) (octal 0 2 2) =? 0) && negb (sticky i).

(** What the operating system decides for one session: which directories can be
    made, how symbolic links resolve, and the outcome of the other calls. *)
Record os_env := {
  os_ctx : option go_error;
  os_platform : platform;
  os_runtime : result string;
  os_mkdir : string → bool;
  os_mkdirall : string → bool;
  os_eval : string → option string;
  os_lock : bool;
  (** the names [os.CreateTemp] and [os.MkdirTemp] make *)
  os_policy : filesystem → result string;
  os_runner : option go_error;
  (** the embedded runner.mjs *)
  os_runnerSource : string;
  os_temp : filesystem → result string;
  (** the removals on error paths, whose errors are ignored, succeed *)
  os_remove : bool;
}.
Record world := { w_fs : filesystem; w_locked : gset string }.
Definition set_fs (f : filesystem → filesystem) (w : world) : world :=
  {| w_fs := f (w_fs w); w_locked := w_locked w |}.

Section OS.
Context (env : os_env).

Definition errMkdir : go_error := ENew "cannot create private session directory".
Definition errUnsafeDir : go_error := ENew "session directory must be owner-only, owned by Node and not a symlink".

(** [os.Mkdir(p, 0o700)]: whether it succeeded or the path exists. *)
Definition mkdir (p : string) (w : world) : bool * world :=
  match w_fs w !! p with
  | Some _ => (true, w)
  | None => if os_mkdir env p then (true, set_fs (insert p private_dir) w) else (false, w)
  end.

(** [privateDirectory] *)
Definition privateDirectory (parent name : string) : stM world string := λ w,
  let p := JoinPath [parent; name] in
  let '(ok, w1) := mkdir p w in
  if negb ok then (Err errMkdir, w1)
  else match w_fs w1 !! p with
       | Some i => if is_directory i && owner_only i && i_owned i then (Ok p, w1) else (Err errUnsafeDir, w1)
       | None => (Err errUnsafeDir, w1)
       end.

(** [gitWorktree]: [None] when the fuel runs out; every round goes up one level. *)
Fixpoint git_walk (fuel : nat) (fs : filesystem) (dir : string) : option bool :=
  match fuel with
  | O => None
  | S fuel' =>
      if bool_decide (is_Some (fs !! JoinPath [dir; ".git"])) then Some true
      else if bool_decide (Dir dir = dir) then Some false
      else git_walk fuel' fs (Dir dir)
  end.
Definition gitWorktree (fs : filesystem) (dir : string) : option bool := git_walk (S (S (String.length dir))) fs dir.

(** The ancestor loop of [privateRoot]: [Some true] when an ancestor is missing,
    not a directory, or writable by others without the sticky bit. *)
Fixpoint ancestor_walk (fuel : nat) (fs : filesystem) (dir : string) : option bool :=
  match fuel with
  | O => None
  | S fuel' =>
      if match fs !! dir with Some i => negb (is_directory i) || shared_writable i | None => true end then Some true
      else if bool_decide (Dir dir = dir) then Some false
      else ancestor_walk fuel' fs (Dir dir)
  end.

(** The directories [os.MkdirAll] makes: the missing ones on the way. *)
Definition make_missing (q : string) (w : world) : world :=
  match w_fs w !! q with Some _ => w | None => set_fs (insert q private_dir) w end.
Definition make_all (p : string) (w : world) : world :=
  foldr (λ n, make_missing (render true (take n (clean_elements p)))) w (seq 0 (S (length (clean_elements p)))).

Definition ErrGitWorktree : go_error :=
  ESentinel "sessionsandbox.ErrGitWorktree"
    "session root must be outside any git worktree; the client would expose that repository's status, history and project instructions".

(** [privateRoot]; out of fuel is not a result. *)
Definition privateRoot (p : string) : stM world string := λ w,
  let clean := Clean p in
  if negb (os_mkdirall env (Dir clean)) then (Err (ENew "cannot create private session root parent"), w)
  else
    match privateDirectory (Dir clean) (Base clean) (make_all (Dir clean) w) with
    | (Err e, w1) => (Err e, w1)
    | (Ok _, w1) =>
        match os_eval env clean with
        | None => (Err (ENew "cannot resolve private session root"), w1)
        | Some resolved =>
            if negb (safePath resolved) then (Err (ENew "cannot resolve private session root"), w1)
            else
              match ancestor_walk (S (S (String.length resolved))) (w_fs w1) (Dir resolved) with
              | Some false =>
                  match gitWorktree (w_fs w1) resolved with
                  | Some false => (Ok resolved, w1)
                  | _ => (Err ErrGitWorktree, w1)
                  end
              | _ => (Err (ENew "session root has a shared writable ancestor"), w1)
              end
        end
    end.

(** ** Sessions *)

Record Session := { s_control : string; s_data : string; s_policy : string; s_runtimeBin : string; s_temp : string;
                    s_lock : option string }.

Definition session_dirs : list string := ["workspace"; "home"; "codex"; "claude"; "tmp"].

Fixpoint make_dirs (data : string) (names : list string) : stM world unit :=
  match names with
  | [] => mret tt
  | n :: ns => privateDirectory data n ≫= λ _, make_dirs data ns
  end.

Definition lock_file (control : string) : string := JoinPath [control; "session.lock"].
Definition unlock_at (path : string) (w : world) : world :=
  {| w_fs := w_fs w; w_locked := w_locked w ∖ {[path]} |}.
Definition delete_at (path : string) (w : world) : world := set_fs (delete path) w.
Definition remove (path : string) (w : world) : world := if os_remove env then delete_at path w else w.

(** [openSession] after the lock was taken; every error return goes through the
    deferred release. *)
Definition open_locked (outer : bool) (bin control : string) : stM world Session := λ w,
  match privateDirectory control "data" w with
  | (Err e, w1) => (Err e, w1)
  | (Ok data, w1) =>
      match make_dirs data session_dirs w1 with
      | (Err e, w2) => (Err e, w2)
      | (Ok _, w2) =>
          match os_policy env (w_fs w2) with
          | Err _ => (Err (ENew "cannot prepare sandbox policy"), w2)
          | Ok policy =>
              let w3 := set_fs (insert policy (private_file "")) w2 in
              let w4 := if outer then set_fs (insert (JoinPath [control; "runner.mjs"]) (private_file (os_runnerSource env))) w3 else w3 in
              match outer, os_runner env with
              | true, Some _ => (Err (ENew "cannot prepare native sandbox runner"), remove policy w3)
              | _, _ =>
                  match os_temp env (w_fs w4) with
                  | Err _ => (Err (ENew "cannot create private sandbox temporary directory"), remove policy w4)
                  | Ok created =>
                      match os_eval env created with
                      | None =>
                          (Err (ENew "cannot resolve sandbox temporary directory"),
                           remove created (remove policy (set_fs (insert created private_dir) w4)))
                      | Some temp =>
                          (Ok {| s_control := control; s_data := data; s_policy := policy; s_runtimeBin := bin;
                                 s_temp := temp; s_lock := Some (lock_file control) |},
                           set_fs (insert temp private_dir) w4)
                      end
                  end
              end
          end
      end
  end.

(** [openSession] *)
Definition openSession `{!UnicodeLower} (c : Config) (scope : string) (outer : bool) : stM world Session := λ w,
  match os_ctx env with
  | Some e => (Err e, w)
  | None =>
      match Validate (os_platform env) c with
      | Some e => (Err e, w)
      | None =>
          if negb (Enabled c) || bool_decide (scope = "")
          then (Err (ENew "native sandbox and trusted scope are required"), w)
          else
            match (if outer then os_runtime env else Ok "") with
            | Err e => (Err e, w)
            | Ok bin =>
                match privateRoot (Root c) w with
                | (Err e, w1) => (Err e, w1)
                | (Ok root, w1) =>
                    match (if bool_decide (TempRoot c = "") then (Ok "/tmp", w1)
                           else match privateRoot (TempRoot c) w1 with
                                | (Err e, w2) => (Err (EWrap "invalid SESSION_TEMP_ROOT: " e ""), w2)
                                | (Ok t, w2) =>
                                    if 40 <? slen t
                                    then (Err (ENew "resolved SESSION_TEMP_ROOT must be at most 40 bytes for sandbox sockets"), w2)
                                    else (Ok t, w2)
                                end) with
                    | (Err e, w2) => (Err e, w2)
                    | (Ok _, w2) =>
                        match privateDirectory root (Scope [Namespace c; scope]) w2 with
                        | (Err e, w3) => (Err e, w3)
                        | (Ok control, w3) =>
                            let path := lock_file control in
                            if negb (os_lock env) || bool_decide (path ∈ w_locked w3)
                            then (Err (ENew "native session is busy or its ownership lock is unsafe"), w3)
                            else
                              let w4 := {| w_fs := <[path := private_file ""]> (w_fs w3);
                                           w_locked := {[path]} ∪ w_locked w3 |} in
                              match open_locked outer bin control w4 with
                              | (Ok s, w5) => (Ok s, w5)
                              | (Err e, w5) => (Err e, unlock_at path w5)
                              end
                        end
                    end
                end
            end
      end
  end.

(** [Open] and [OpenClient] *)
Definition Open `{!UnicodeLower} (c : Config) (scope : string) : stM world Session := openSession c scope true.
Definition OpenClient `{!UnicodeLower} (c : Config) (scope : string) : stM world Session :=
  openSession c (Scope ["host-client-v1"; scope]) false.

(** [Session.Close]: the policy and the temporary directory are removed and the
    lock is released once; the system's errors are joined. *)
Definition Close (removeErr tempErr releaseErr : option go_error) (s : Session) (w : world)
    : option go_error * Session * world :=
  match s_lock s with
  | None => (None, s, w)
  | Some path =>
      let removed := match removeErr with Some _ => w | None => delete_at (s_policy s) w end in
      let cleared := match tempErr with Some _ => removed | None => delete_at (s_temp s) removed end in
      (errors_Join [removeErr; tempErr; releaseErr],
       {| s_control := s_control s; s_data := s_data s; s_policy := s_policy s; s_runtimeBin := s_runtimeBin s;
          s_temp := s_temp s; s_lock := None |},
       unlock_at path cleared)
  end.
End OS.

Definition Session_Workspace (s : Session) : string := JoinPath [s_data s; "workspace"].
Definition Session_Store (s : Session) : string := JoinPath [s_control s; "native-session.json"].
Definition ToolHome (s : Session) : string := JoinPath [s_data s; "home"].

(** ** Paths under a directory *)

Lemma Split_cons s : ∃ w ws, Split s "/" = w :: ws.
Proof. induction s as [|c s (w & ws & IH)]; cbn [Split]; [by eexists _, _|]. rewrite IH. case_bool_decide; by eexists _, _. Qed.

Lemma Split_app a b : Split (a +:+ String "/" b) "/" = Split a "/" ++ Split b "/".
Proof.
  induction a as [|c a IH]; [done|]. rewrite str_app_cons. cbn [Split]. rewrite IH.
  case_bool_decide; [done|]. destruct (Split_cons a) as (w & ws & ->). done.
Qed.

Lemma elements_app a b : elements (a +:+ "/" +:+ b) = elements a ++ elements b.
Proof. unfold elements. change ("/" +:+ b) with (String "/" b). by rewrite Split_app, List.filter_app. Qed.

Lemma IsAbs_app a b : IsAbs a = true → IsAbs (a +:+ b) = true.
Proof. intros Ha. apply prefix_inv in Ha. rewrite Ha, <-str_app_assoc. apply prefix_app. Qed.

(** A single path element that stays where it is put. *)
Definition component (name : string) : Prop := plain name ∧ name ≠ "..".

Lemma elements_component name : component name → elements name = [name].
Proof.
  intros [(H1 & H2 & H3) _]. unfold elements. rewrite Split_no_sep by done. cbn. by rewrite !bool_decide_false.
Qed.

Lemma JoinPath_two parent name :
  parent ≠ "" → name ≠ "" → JoinPath [parent; name] = Clean (parent +:+ "/" +:+ name).
Proof. intros Hp Hn. unfold JoinPath. cbn [List.filter]. by rewrite !bool_decide_false. Qed.

Lemma abs_nonempty p : IsAbs p = true → p ≠ "".
Proof. by intros ? ->. Qed.

Lemma clean_elements_Clean p : clean_elements (Clean p) = clean_elements p.
Proof.
  pose proof (elements_plain p) as Hp. pose proof (resolve_plain (IsAbs p) _ Hp) as Hr.
  unfold clean_elements, Clean. rewrite IsAbs_render, elements_render by done. by rewrite resolve_resolve.
Qed.
Lemma IsAbs_Clean p : IsAbs (Clean p) = IsAbs p.
Proof. apply IsAbs_render, resolve_plain, elements_plain. Qed.

Lemma join_child parent name :
  IsAbs parent = true → component name →
  IsAbs (JoinPath [parent; name]) = true ∧ clean_elements (JoinPath [parent; name]) = clean_elements parent ++ [name].
Proof.
  intros Hp Hn. rewrite JoinPath_two; [|by apply abs_nonempty|by destruct Hn as [(? & _) _]].
  rewrite IsAbs_Clean, clean_elements_Clean. split; [by apply IsAbs_app|].
  unfold clean_elements. rewrite (IsAbs_app _ _ Hp), Hp, elements_app, (elements_component name Hn).
  unfold resolve. rewrite foldl_app. cbn [foldl]. unfold push at 1. destruct Hn as [_ Hne].
  rewrite bool_decide_false by done. by rewrite reverse_cons.
Qed.

(** ** Going up

    The parent of an absolute path drops its last element; "/" is its own parent. *)
Lemma Join_snoc es e : es ≠ [] → Join (es ++ [e]) "/" = Join es "/" +:+ "/" +:+ e.
Proof.
  induction es as [|x es IH]; [done|]. intros _. destruct es as [|y es]; [done|].
  change (Join ((x :: y :: es) ++ [e]) "/") with (x +:+ "/" +:+ Join ((y :: es) ++ [e]) "/").
  rewrite IH by done. change (Join (x :: y :: es) "/") with (x +:+ "/" +:+ Join (y :: es) "/").
  by rewrite <-!str_app_assoc.
Qed.

Lemma elements_trailing d : elements (d +:+ "/") = elements d.
Proof. unfold elements. change (d +:+ "/") with (d +:+ String "/" ""). rewrite Split_app, List.filter_app. cbn. apply app_nil_r. Qed.

(** Rooted element lists in normal form. *)
Definition rooted (es : list string) : Prop := Forall plain es ∧ ".." ∉ es.

Lemma resolve_rooted es : rooted es → resolve true es = es.
Proof.
  intros [Hp Hd]. unfold resolve. rewrite <-(reverse_involutive es) at 2. f_equal.
  assert (normal true (reverse es)) as Hn.
  { assert (Forall plain (reverse es) ∧ ".." ∉ reverse es) as [Hp' Hd'].
    { split; [by apply Forall_reverse|]. intros Hin. apply elem_of_reverse in Hin. by rewrite reverse_involutive in Hin. }
    revert Hd'. induction Hp' as [|e st He _ IH]; intros Hd'; [by apply (normal_ups true 0)|].
    apply normal_push; [done| |apply IH]; set_solver. }
  rewrite <-(reverse_involutive es) at 1. by apply resolve_normal.
Qed.

Lemma rooted_take n es : rooted es → rooted (take n es).
Proof.
  intros [Hp Hd]. split; [by apply Forall_take|]. intros Hin. apply Hd.
  rewrite <-(take_drop n es). apply elem_of_app. by left.
Qed.

Lemma Clean_render es : rooted es → Clean (render true es) = render true es.
Proof.
  intros [Hp Hd]. unfold Clean. rewrite IsAbs_render, elements_render by done. by rewrite resolve_rooted.
Qed.

Lemma Dir_root : Dir (render true []) = render true [].
Proof. reflexivity. Qed.

Lemma Dir_snoc es e : rooted (es ++ [e]) → Dir (render true (es ++ [e])) = render true es.
Proof.
  intros Hr. assert (rooted es) as Hes.
  { rewrite <-(take_app_length es [e]). by apply rooted_take. }
  destruct Hr as [Hp _]. apply Forall_app in Hp as [_ [(_ & _ & He) _]%list.Forall_cons].
  assert (∃ d, render true (es ++ [e]) = d +:+ String "/" e ∧ elements d = es ∧ IsAbs (d +:+ "/") = true) as (d & -> & Hd & Ha).
  { destruct es as [|x es].
    - exists "". done.
    - exists (render true (x :: es)). split_and!.
      + unfold render. rewrite Join_snoc by done. by rewrite <-!str_app_assoc.
      + by apply elements_render, Hes.
      + apply IsAbs_app. unfold render. by apply prefix_app. }
  unfold Dir. rewrite last_slash_app by done. unfold Clean. rewrite Ha, elements_trailing, Hd.
  by rewrite resolve_rooted.
Qed.

Lemma render_inj es es' : rooted es → rooted es' → render true es = render true es' → es = es'.
Proof. intros [Hp _] [Hp' _] H. apply (f_equal elements) in H. by rewrite !elements_render in H. Qed.

(** The ancestors of a rooted path, itself included, from below. *)
Definition ancestor (es : list string) (n : nat) : string := render true (take n es).

Lemma Dir_ancestor es n :
  rooted es → (n < length es)%nat → Dir (ancestor es (S n)) = ancestor es n ∧ ancestor es n ≠ ancestor es (S n).
Proof.
  intros Hr Hn. assert (∃ e, take (S n) es = take n es ++ [e]) as [e He].
  { destruct (es !! n) as [e|] eqn:Hl; [exists e; by apply take_S_r|]. apply lookup_ge_None in Hl. lia. }
  assert (rooted (take n es ++ [e])) as Hre by (rewrite <-He; by apply rooted_take).
  unfold ancestor. rewrite He, Dir_snoc by done. split; [done|]. intros Heq%render_inj; [|by apply rooted_take|done].
  apply (f_equal length) in Heq. rewrite length_app in Heq. simpl in Heq. lia.
Qed.

Lemma walk_up (P : string → bool) (walk : nat → string → option bool) es :
  rooted es →
  (∀ dir, walk O dir = None) →
  (∀ fuel dir, walk (S fuel) dir =
     if P dir then Some true else if bool_decide (Dir dir = dir) then Some false else walk fuel (Dir dir)) →
  ∀ fuel n, (n <= length es)%nat → (n < fuel)%nat →
  ∃ b, walk fuel (ancestor es n) = Some b ∧ (b = true ↔ ∃ m, (m <= n)%nat ∧ P (ancestor es m) = true).
Proof.
  intros Hr H0 HS fuel. induction fuel as [|fuel IH]; intros n Hn Hf; [lia|]. rewrite HS.
  destruct (P (ancestor es n)) eqn:HP; [exists true; split; [done|]; split; [by exists n|done]|].
  destruct n as [|n].
  - unfold ancestor. rewrite take_0, Dir_root, bool_decide_true by done. exists false. split; [done|].
    split; [done|]. intros (m & Hm & Hpm). assert (m = 0%nat) as -> by lia. unfold ancestor in *. rewrite take_0 in *. congruence.
  - destruct (Dir_ancestor es n Hr ltac:(lia)) as [-> Hne]. rewrite bool_decide_false by done.
    destruct (IH n ltac:(lia) ltac:(lia)) as (b & Hb & Hiff). exists b. split; [done|].
    rewrite Hiff. split; intros (m & Hm & Hpm); exists m; (split; [|done]); [lia|].
    destruct (decide (m = S n)) as [->|]; [congruence|lia].
Qed.

Lemma elements_length es : Forall plain es → (length es <= String.length (Join es "/"))%nat.
Proof.
  induction 1 as [|e es (He & _) _ IH]; [simpl; lia|]. destruct es as [|e' es].
  - destruct e; [done|]. simpl. lia.
  - change (Join (e :: e' :: es) "/") with (e +:+ "/" +:+ Join (e' :: es) "/"). rewrite !str_length_app. simpl in *. lia.
Qed.

(** The search for an enclosing repository always ends and is exact: for a
    cleaned absolute path it reports true precisely when the path or one of its
    ancestors has a ".git" entry. *)
Lemma git_worktree_exact fs p :
  IsAbs p = true → Clean p = p →
  ∃ b, gitWorktree fs p = Some b ∧
    (b = true ↔ ∃ n, (n <= length (clean_elements p))%nat ∧
       is_Some (fs !! JoinPath [ancestor (clean_elements p) n; ".git"])).
Proof.
  intros Hp Hc. destruct (clean_elements_rooted p Hp) as [Hpl Hd]. assert (rooted (clean_elements p)) as Hr by done.
  assert (p = ancestor (clean_elements p) (length (clean_elements p))) as Hpa.
  { unfold ancestor. rewrite take_ge by done. rewrite <-Hc at 1. unfold Clean, clean_elements. by rewrite Hp. }
  destruct (walk_up (λ dir, bool_decide (is_Some (fs !! JoinPath [dir; ".git"]))) (λ fuel dir, git_walk fuel fs dir)
    (clean_elements p) Hr ltac:(done) ltac:(done) (S (S (String.length p))) (length (clean_elements p))) as (b & Hb & Hiff).
  - done.
  - rewrite Hpa at 2. unfold ancestor. rewrite take_ge by done. unfold render. rewrite str_length_app.
    pose proof (elements_length _ Hpl). lia.
  - exists b. split; [unfold gitWorktree; by rewrite Hpa at 2|]. rewrite Hiff.
    by setoid_rewrite bool_decide_eq_true.
Qed.

(** ** What opening a session changes *)

(** [w'] has the files of [w], the same locks, and new private directories only. *)
Record grows (w w' : world) : Prop := {
  gr_locked : w_locked w' = w_locked w;
  gr_kept q i : w_fs w !! q = Some i → w_fs w' !! q = Some i;
  gr_new q i : w_fs w' !! q = Some i → w_fs w !! q = Some i ∨ i = private_dir;
}.
#[export] Instance grows_preorder : PreOrder grows.
Proof.
  split; [by split; auto|]. intros w1 w2 w3 [L1 K1 N1] [L2 K2 N2]. split; [congruence|eauto|].
  intros q i [?%N1|?]%N2; auto.
Qed.

Lemma grows_insert p w : w_fs w !! p = None → grows w (set_fs (insert p private_dir) w).
Proof.
  intros Hp. split; simpl; [done| |].
  - intros q i Hq. rewrite lookup_insert_ne; [done|congruence].
  - intros q i [[_ <-]|[_ Hq]]%lookup_insert_Some; auto.
Qed.

Lemma privateDirectory_spec env parent name w r w' :
  privateDirectory env parent name w = (r, w') →
  grows w w' ∧ ∀ p, r = Ok p → p = JoinPath [parent; name] ∧
    ∃ i, w_fs w' !! p = Some i ∧ is_directory i = true ∧ owner_only i = true ∧ i_owned i = true.
Proof.
  unfold privateDirectory, mkdir. set (p := JoinPath [parent; name]). destruct (w_fs w !! p) as [i|] eqn:Hp; cbn [negb].
  - rewrite Hp. destruct (is_directory i && owner_only i && i_owned i) eqn:Hi; intros [= <- <-]; (split; [done|]); [|done].
    intros q [= <-]. split; [done|]. exists i. go_bool. done.
  - destruct (os_mkdir env p); cbn [negb]; [|intros [= <- <-]; by split].
    simpl. rewrite lookup_insert_eq. intros [= <- <-]. split; [by apply grows_insert|].
    intros q [= <-]. split; [done|]. exists private_dir. simpl. by rewrite lookup_insert_eq.
Qed.

Lemma make_missing_grows q w : grows w (make_missing q w).
Proof. unfold make_missing. destruct (w_fs w !! q) eqn:Hq; [done|]. by apply grows_insert. Qed.
Lemma make_all_grows p w : grows w (make_all p w).
Proof.
  unfold make_all. induction (seq 0 _) as [|n l IH]; [done|]. cbn [foldr]. etrans; [exact IH|].
  apply make_missing_grows.
Qed.

Lemma privateRoot_spec env p w r w' :
  privateRoot env p w = (r, w') → grows w w' ∧ ∀ root, r = Ok root → IsAbs root = true ∧ os_eval env (Clean p) = Some root.
Proof.
  unfold privateRoot. destruct (os_mkdirall env _); cbn [negb]; [|intros [= <- <-]; by split].
  pose proof (make_all_grows (Dir (Clean p)) w) as Hm. set (w1 := make_all _ w) in *. clearbody w1.
  destruct (privateDirectory env _ _ w1) as [[d|e] w2] eqn:Hd; apply privateDirectory_spec in Hd as [Hg _];
    (assert (grows w w2) by by etrans); [|intros [= <- <-]; by split].
  destruct (os_eval env (Clean p)) as [resolved|] eqn:Hev; [|intros [= <- <-]; by split].
  destruct (safePath resolved) eqn:Hs; cbn [negb]; [|intros [= <- <-]; by split].
  destruct (ancestor_walk _ _ _) as [[]|]; [intros [= <- <-]; by split| |intros [= <- <-]; by split].
  destruct (gitWorktree _ _) as [[]|]; intros [= <- <-]; split; try done.
  intros root [= <-]. unfold safePath in Hs. split; [by apply andb_true_iff in Hs as [? _]|done].
Qed.

(** What [privateRoot] promises of a root, in terms of the world before it: it resolves
    to [root]; a directory that was there is the Node user's alone; no ancestor that was
    there is anything but a directory only its owner or a sticky bit lets others write
    to; and neither [root] nor an ancestor is a git worktree. *)
Record root_checked (env : os_env) (p : string) (w : world) (root : string) : Prop := {
  rc_abs : IsAbs root = true;
  rc_eval : os_eval env (Clean p) = Some root;
  rc_private i : w_fs w !! JoinPath [Dir (Clean p); Base (Clean p)] = Some i →
    is_directory i = true ∧ owner_only i = true ∧ i_owned i = true;
  rc_ancestors n i : (n < length (clean_elements root))%nat → w_fs w !! ancestor (clean_elements root) n = Some i →
    is_directory i = true ∧ shared_writable i = false;
  rc_git n : (n <= length (clean_elements root))%nat → w_fs w !! JoinPath [ancestor (clean_elements root) n; ".git"] = None;
}.
(** [filepath.EvalSymlinks] cleans its result. *)
Definition eval_cleans (env : os_env) : Prop := ∀ p r, os_eval env p = Some r → Clean r = r.

Lemma root_checked_grows env p w w' root : grows w w' → root_checked env p w' root → root_checked env p w root.
Proof.
  intros [_ K _] [H1 H2 H3 H4 H5]. split; [done|done|eauto|eauto|]. intros n Hn.
  destruct (w_fs w !! _) as [i|] eqn:Hi; [|done]. apply K in Hi. by rewrite H5 in Hi.
Qed.

Lemma ancestors_checked fs p :
  IsAbs p = true → Clean p = p → ancestor_walk (S (S (String.length p))) fs (Dir p) = Some false →
  ∀ n i, (n < length (clean_elements p))%nat → fs !! ancestor (clean_elements p) n = Some i →
    is_directory i = true ∧ shared_writable i = false.
Proof.
  intros Hp Hc Hw n i Hn Hi. destruct (clean_elements_rooted p Hp) as [Hpl Hd]. assert (rooted (clean_elements p)) as Hr by done.
  destruct (length (clean_elements p)) as [|k] eqn:Hlen; [lia|].
  assert (p = ancestor (clean_elements p) (S k)) as Hpa.
  { unfold ancestor. rewrite take_ge by lia. rewrite <-Hc at 1. unfold Clean, clean_elements. by rewrite Hp. }
  destruct (Dir_ancestor _ k Hr ltac:(lia)) as [Hdir _]. rewrite Hpa in Hw at 2. rewrite Hdir in Hw.
  destruct (walk_up (λ dir, match fs !! dir with Some i => negb (is_directory i) || shared_writable i | None => true end)
    (λ fuel dir, ancestor_walk fuel fs dir) (clean_elements p) Hr ltac:(done) ltac:(done) (S (S (String.length p))) k) as (b & Hb & Hiff); [lia| |].
  - pose proof (elements_length _ Hpl) as Hl. rewrite Hpa. unfold ancestor. rewrite take_ge by lia. unfold render. rewrite str_length_app. lia.
  - rewrite Hw in Hb. injection Hb as <-. destruct (negb (is_directory i) || shared_writable i) eqn:Hbad.
    + assert (false = true) as [=]. apply Hiff. exists n. split; [lia|]. by rewrite Hi.
    + apply orb_false_iff in Hbad as [Hdd Hsh]. by apply negb_false_iff in Hdd.
Qed.

Lemma privateRoot_checked env p w root w' :
  eval_cleans env → privateRoot env p w = (Ok root, w') → root_checked env p w root.
Proof.
  intros Hcl H. pose proof (privateRoot_spec env p w _ _ H) as [_ Hroot]. destruct (Hroot root eq_refl) as [Ha He].
  pose proof (Hcl _ _ He) as Hc. unfold privateRoot in H. destruct (os_mkdirall env _); cbn [negb] in H; [|done].
  pose proof (make_all_grows (Dir (Clean p)) w) as Hm. set (w1 := make_all _ w) in *. clearbody w1.
  destruct (privateDirectory env _ _ w1) as [[d|e] w2] eqn:Hd; [|done]. apply privateDirectory_spec in Hd as [Hg Hd].
  destruct (Hd d eq_refl) as [-> (j & Hj & Hpriv)]. rewrite He in H. destruct (safePath root) eqn:Hs; cbn [negb] in H; [|done].
  destruct (ancestor_walk _ _ _) as [[]|] eqn:Haw; try done. destruct (gitWorktree _ _) as [[]|] eqn:Hgit; try done.
  apply (root_checked_grows _ _ _ w2); [by etrans|]. split; [done|done| | |].
  - intros i Hi. rewrite Hj in Hi. by injection Hi as <-.
  - by apply (ancestors_checked _ _ Ha Hc).
  - intros n Hn. destruct (git_worktree_exact (w_fs w2) root Ha Hc) as (b & Hb & Hiff). rewrite Hgit in Hb. injection Hb as <-.
    destruct (w_fs w2 !! JoinPath [ancestor (clean_elements root) n; ".git"]) as [i|] eqn:Hi; [|done]. assert (false = true) as [=]. apply Hiff. exists n. by rewrite Hi.
Qed.

Definition private_at (w : world) (p : string) : Prop :=
  ∃ i, w_fs w !! p = Some i ∧ is_directory i = true ∧ owner_only i = true ∧ i_owned i = true.
Lemma private_at_grows w w' p : grows w w' → private_at w p → private_at w' p.
Proof. intros [_ K _] (i & Hi & H). exists i. split; [by apply K|done]. Qed.

Lemma make_dirs_spec env data names w r w' :
  make_dirs env data names w = (r, w') →
  grows w w' ∧ (r = Ok tt → Forall (λ n, private_at w' (JoinPath [data; n])) names).
Proof.
  revert w. induction names as [|n names IH]; intros w; cbn [make_dirs].
  - intros [= <- <-]. split; [done|constructor].
  - unfold mbind, stM_bind. destruct (privateDirectory env data n w) as [[p|e] w1] eqn:Hp;
      apply privateDirectory_spec in Hp as [Hg Hp]; [|intros [= <- <-]; split; [done|done]].
    intros [Hg' Hr]%IH. split; [by etrans|]. intros Hok. destruct (Hp p eq_refl) as [-> Hi].
    constructor; [by eapply private_at_grows|by apply Hr].
Qed.

(** From [w] to [w'], only paths in [Q] changed, but for new private directories. *)
Definition confined (Q : string → Prop) (w w' : world) : Prop :=
  ∀ q, Q q ∨ w_fs w' !! q = w_fs w !! q ∨ (w_fs w !! q = None ∧ w_fs w' !! q = Some private_dir).

Lemma confined_insert (Q : string → Prop) p i w w' : confined Q w w' → Q p → confined Q w (set_fs (insert p i) w').
Proof.
  intros Hc Hp q. simpl. destruct (decide (q = p)) as [->|Hne]; [by left|]. rewrite lookup_insert_ne by done. apply Hc.
Qed.
Lemma confined_insert_dir (Q : string → Prop) p w w' :
  confined Q w w' → w_fs w' !! p = None → confined Q w (set_fs (insert p private_dir) w').
Proof.
  intros Hc Hp q. simpl. destruct (decide (q = p)) as [->|Hne]; [|rewrite lookup_insert_ne by done; apply Hc].
  rewrite lookup_insert_eq. destruct (Hc p) as [?|[H|[? ?]]]; [by left| |congruence]. right; right. split; congruence.
Qed.
Lemma confined_delete (Q R : string → Prop) p w w' :
  confined Q w w' → w_fs w !! p = None → (∀ q, Q q → R q ∨ q = p) → confined R w (set_fs (delete p) w').
Proof.
  intros Hc Hp HQ q. simpl. destruct (decide (q = p)) as [->|Hne].
  - right; left. by rewrite lookup_delete_eq.
  - rewrite lookup_delete_ne by done. destruct (Hc q) as [H|H]; [|by right]. destruct (HQ q H); [by left|done].
Qed.
Lemma confined_weaken (Q R : string → Prop) w w' : confined Q w w' → (∀ q, Q q → R q) → confined R w w'.
Proof. intros Hc HQ q. destruct (Hc q); auto. Qed.
Lemma grows_confined Q w w' : grows w w' → confined Q w w'.
Proof.
  intros [_ K N] q. right. destruct (w_fs w !! q) as [i|] eqn:Hq; [left; by apply K|].
  destruct (w_fs w' !! q) as [j|] eqn:Hq'; [|by left]. right. destruct (N q j Hq'); [congruence|by subst].
Qed.
Lemma confined_trans Q w1 w2 w3 : grows w1 w2 → confined Q w2 w3 → confined Q w1 w3.
Proof.
  intros Hg Hc q. destruct (Hc q) as [?|H]; [by left|]. right.
  destruct (grows_confined (λ _, False) _ _ Hg q) as [[]|[Hq|[Hq Hq']]]; [rewrite <-Hq; exact H|].
  right. split; [done|]. rewrite Hq' in H. destruct H as [H|[H ?]]; [done|discriminate].
Qed.
Lemma grows_fresh w w' q : grows w w' → w_fs w' !! q = None → w_fs w !! q = None.
Proof. intros [_ K _] Hq. destruct (w_fs w !! q) as [i|] eqn:Hi; [|done]. rewrite (K q i Hi) in Hq. done. Qed.

(** What [os.CreateTemp] and [os.MkdirTemp] document: the name was not in use,
    under its canonical path either. *)
Record fresh_names (env : os_env) : Prop := {
  fn_policy fs p : os_policy env fs = Ok p → fs !! p = None;
  fn_temp fs p : os_temp env fs = Ok p → fs !! p = None;
  fn_resolved fs p t : os_temp env fs = Ok p → os_eval env p = Some t → fs !! t = None;
}.

Definition runner_file (control : string) : string := JoinPath [control; "runner.mjs"].

Definition unchanged (control : string) (w w' : world) : Prop :=
  w_locked w' = w_locked w ∧ confined (λ q, q = runner_file control) w w'.
Lemma unchanged_grows control w w' : grows w w' → unchanged control w w'.
Proof. intros Hg. split; [by apply gr_locked|by apply grows_confined]. Qed.

(** The directories of a session and its runner have different paths. *)
Lemma runner_not_data control :
  IsAbs control = true → runner_file control ≠ JoinPath [control; "data"] ∧
  ∀ n, n ∈ session_dirs → runner_file control ≠ JoinPath [JoinPath [control; "data"]; n].
Proof.
  intros Ha. assert (component "data") as Cd by done. assert (component "runner.mjs") as Cr by done.
  destruct (join_child _ _ Ha Cr) as [_ E1]. destruct (join_child _ _ Ha Cd) as [A2 E2]. split.
  - intros Heq. unfold runner_file in Heq. rewrite Heq, E2 in E1. by apply app_inv_head in E1.
  - intros n Hn Heq. assert (component n) as Cn.
    { unfold session_dirs in Hn. rewrite !elem_of_cons, elem_of_nil in Hn. by destruct Hn as [->|[->|[->|[->|[->|[]]]]]]. }
    destruct (join_child _ _ A2 Cn) as [_ E3]. unfold runner_file in Heq.
    rewrite Heq, E3, E2, <-app_assoc in E1. by apply app_inv_head in E1.
Qed.

Lemma private_at_insert w p q i : private_at w p → p ≠ q → private_at (set_fs (insert q i) w) p.
Proof. intros (j & Hj & H) Hne. exists j. split; [|done]. simpl. by rewrite lookup_insert_ne by congruence. Qed.
Lemma private_at_fresh w p q i : private_at w p → w_fs w !! q = None → private_at (set_fs (insert q i) w) p.
Proof. intros Hp Hq. apply private_at_insert; [done|]. intros ->. destruct Hp as (j & Hj & _). congruence. Qed.

(** Opening under the lock: an error leaves the locks and no policy file; a
    success has its directories, its policy and its temporary directory. *)
Definition session_ready (w : world) (s : Session) : Prop :=
  private_at w (s_data s) ∧ Forall (λ n, private_at w (JoinPath [s_data s; n])) session_dirs ∧
  is_Some (w_fs w !! s_policy s) ∧ w_fs w !! s_temp s = Some private_dir.

Lemma open_locked_spec env outer bin control w r w' :
  os_remove env = true → fresh_names env → IsAbs control = true → open_locked env outer bin control w = (r, w') →
  match r with
  | Err _ => unchanged control w w'
  | Ok s =>
      w_locked w' = w_locked w ∧ s_control s = control ∧ s_data s = JoinPath [control; "data"] ∧
      s_lock s = Some (lock_file control) ∧
      confined (λ q, q = runner_file control ∨ q = s_policy s) w w' ∧ w_fs w !! s_policy s = None ∧ session_ready w' s
  end.
Proof.
  intros Hrm [Fp Ft Fr] Ha. unfold open_locked, remove, delete_at. rewrite !Hrm.
  destruct (privateDirectory env control "data" w) as [[data|e] w1] eqn:Hd; apply privateDirectory_spec in Hd as [Hg1 Hdata];
    [|intros [= <- <-]; by apply unchanged_grows].
  destruct (Hdata data eq_refl) as [Hdeq Hpriv].
  destruct (make_dirs env data session_dirs w1) as [[[]|e] w2] eqn:Hm; apply make_dirs_spec in Hm as [Hg2 Hdirs];
    (assert (grows w w2) as Hg by by etrans); [|intros [= <- <-]; by apply unchanged_grows].
  apply (private_at_grows _ _ _ Hg2) in Hpriv. specialize (Hdirs eq_refl).
  destruct (os_policy env (w_fs w2)) as [policy|e] eqn:Hpol; [|intros [= <- <-]; by apply unchanged_grows].
  apply Fp in Hpol. pose proof (grows_fresh _ _ _ Hg Hpol) as Hpw.
  set (Q := λ q, q = runner_file control ∨ q = policy).
  assert (∀ w0, w_locked w0 = w_locked w → confined Q w w0 → unchanged control w (set_fs (delete policy) w0)) as Hdrop.
  { intros w0 Hl Hc. split; [done|]. eapply confined_delete; [exact Hc|done|]. intros q [?|?]; [by left|by right]. }
  set (w3 := set_fs (insert policy (private_file "")) w2).
  set (good w0 := w_locked w0 = w_locked w ∧ confined Q w w0 ∧ is_Some (w_fs w0 !! policy) ∧
    private_at w0 data ∧ Forall (λ n, private_at w0 (JoinPath [data; n])) session_dirs ∧
    ∀ q, w_fs w0 !! q = None → w_fs w !! q = None).
  assert (good w3) as G3.
  { split_and!; [exact (gr_locked _ _ Hg)| | | | |].
    - apply confined_insert; [by apply grows_confined|by right].
    - simpl. rewrite lookup_insert_eq. eauto.
    - by apply private_at_fresh.
    - eapply list.Forall_impl; [exact Hdirs|]. intros n Hn. by apply private_at_fresh.
    - intros q Hq. simpl in Hq. apply lookup_insert_None in Hq as [Hq _]. by apply (grows_fresh _ _ _ Hg). }
  set (w4 := if outer then _ else w3).
  assert (good w4) as (L4 & C4 & P4 & D4 & S4 & N4).
  { unfold w4. destruct outer; [|done]. destruct (runner_not_data control Ha) as [R1 R2]. rewrite <-Hdeq in R1, R2.
    destruct G3 as (L & C & P & D & S & N). split_and!; [done| | | | |].
    - apply confined_insert; [done|by left].
    - simpl. destruct (decide (policy = runner_file control)) as [->|Hne]; [rewrite lookup_insert_eq; eauto|].
      unfold runner_file in Hne. by rewrite lookup_insert_ne by congruence.
    - apply private_at_insert; [done|by apply not_eq_sym].
    - apply list.Forall_forall. intros n Hn. apply private_at_insert; [by eapply list.Forall_forall in S|].
      apply not_eq_sym. by apply R2.
    - intros q Hq. simpl in Hq. apply lookup_insert_None in Hq as [Hq _]. by apply N. }
  destruct G3 as (L3 & C3 & _). clearbody w3 w4.
  destruct outer, (os_runner env); [intros [= <- <-]; by apply Hdrop|..].
  all: destruct (os_temp env (w_fs w4)) as [created|et] eqn:Htmp; [|intros [= <- <-]; by apply Hdrop].
  all: destruct (os_eval env created) as [temp|] eqn:Hev; intros [= <- <-]; simpl.
  all: try (destruct (Hdrop (set_fs (insert created private_dir) w4) L4 (confined_insert_dir _ _ _ _ C4 (Ft _ _ Htmp))) as [HL HC]; split; [exact HL|];
            eapply confined_delete; [exact HC|exact (N4 _ (Ft _ _ Htmp))|intros q ?; by left]).
  all: pose proof (Fr _ _ _ Htmp Hev) as Hfr; split_and!; [done|done|done|done|by apply confined_insert_dir|done|].
  all: split_and!; simpl; [by apply private_at_fresh| | |by rewrite lookup_insert_eq].
  all: try (eapply list.Forall_impl; [exact S4|]; intros n Hn; by apply private_at_fresh).
  all: destruct P4 as [i Hi]; rewrite lookup_insert_ne; [eauto|congruence].
Qed.

Lemma scope_component ps : component (Scope ps).
Proof.
  unfold Scope. pose proof (hex_no_slash (Sha256.sha256 (scope_preimage ps))) as Hg.
  pose proof (Sha256.sha256_hex_length (scope_preimage ps)) as Hl. unfold Sha256.sha256_hex in *.
  set (h := hex_encode _) in *. clearbody h.
  assert (h ≠ "" ∧ h ≠ "." ∧ h ≠ "..") as (H1 & H2 & H3) by (split_and!; intros ->; done). by split.
Qed.

(** The two files a session's control directory keeps. *)
Definition own_files (env : os_env) (c : Config) (scope : string) (q : string) : Prop :=
  ∃ root, os_eval env (Clean (Root c)) = Some root ∧
    (q = runner_file (JoinPath [root; Scope [Namespace c; scope]]) ∨ q = lock_file (JoinPath [root; Scope [Namespace c; scope]])).

Lemma child_ne control name : IsAbs control = true → component name → JoinPath [control; name] ≠ control.
Proof.
  intros Ha Hn Heq. destruct (join_child _ _ Ha Hn) as [_ E]. rewrite Heq in E. apply (f_equal length) in E.
  rewrite length_app in E. simpl in E. lia.
Qed.
Lemma private_at_confined (Q : string → Prop) w w' p : confined Q w w' → ¬ Q p → private_at w p → private_at w' p.
Proof. intros Hc HQ (i & Hi & H). destruct (Hc p) as [?|[Hq|[Hq _]]]; [done| |congruence]. exists i. by rewrite Hq. Qed.

Lemma open_session_spec `{!UnicodeLower} env c scope outer w r w' :
  os_remove env = true → fresh_names env → openSession env c scope outer w = (r, w') →
  match r with
  | Err _ => w_locked w' = w_locked w ∧ confined (own_files env c scope) w w'
  | Ok s =>
      lock_file (s_control s) ∉ w_locked w ∧ w_locked w' = {[lock_file (s_control s)]} ∪ w_locked w ∧
      s_lock s = Some (lock_file (s_control s)) ∧
      (∃ root, IsAbs root = true ∧ os_eval env (Clean (Root c)) = Some root ∧
         s_control s = JoinPath [root; Scope [Namespace c; scope]] ∧
         (eval_cleans env → root_checked env (Root c) w root ∧
            (TempRoot c = "" ∨ ∃ t, root_checked env (TempRoot c) w t ∧ slen t <= 40))) ∧
      s_data s = JoinPath [s_control s; "data"] ∧
      confined (λ q, q = runner_file (s_control s) ∨ q = lock_file (s_control s) ∨ q = s_policy s) w w' ∧
      private_at w' (s_control s) ∧ session_ready w' s
  end.
Proof.
  intros Hrm Hfn. unfold openSession.
  assert (∀ w0, grows w w0 → w_locked w0 = w_locked w ∧ confined (own_files env c scope) w w0) as Hfail.
  { intros w0 Hg. split; [by apply gr_locked|by apply grows_confined]. }
  destruct (os_ctx env); [intros [= <- <-]; by apply Hfail|].
  destruct (Validate _ _); [intros [= <- <-]; by apply Hfail|].
  destruct (negb (Enabled c) || _); [intros [= <- <-]; by apply Hfail|].
  destruct (if outer then os_runtime env else Ok "") as [bin|e]; [|intros [= <- <-]; by apply Hfail].
  destruct (privateRoot env (Root c) w) as [[root|e] w1] eqn:Hr; pose proof (privateRoot_spec _ _ _ _ _ Hr) as [Hg1 Hroot];
    [|intros [= <- <-]; by apply Hfail]. destruct (Hroot root eq_refl) as [Hra Hre].
  set (tmp := if bool_decide (TempRoot c = "") then _ else _).
  assert (grows w tmp.2 ∧ (is_Ok tmp.1 → eval_cleans env → TempRoot c = "" ∨ ∃ t, root_checked env (TempRoot c) w t ∧ slen t <= 40)) as [Hg2 Htemp].
  { unfold tmp. case_bool_decide; [by split; [|left]|]. destruct (privateRoot env (TempRoot c) w1) as [[t|e] w2] eqn:Ht;
      pose proof (privateRoot_spec _ _ _ _ _ Ht) as [Hg _]; (assert (grows w w2) by by etrans); [|by split; [|intros [? [=]]]].
    destruct (40 <? slen t) eqn:H40; [by split; [|intros [? [=]]]|]. split; [done|]. intros _ Hcl. right. exists t.
    split; [|by apply Z.ltb_ge]. apply (root_checked_grows _ _ _ w1); [done|]. by eapply privateRoot_checked. }
  destruct tmp as [[t|e] w2]; simpl in Hg2, Htemp; [|intros [= <- <-]; by apply Hfail].
  destruct (privateDirectory env root _ w2) as [[control|e] w3] eqn:Hc; apply privateDirectory_spec in Hc as [Hg Hctl];
    (assert (grows w w3) as Hg3 by by etrans); [|intros [= <- <-]; by apply Hfail].
  destruct (Hctl control eq_refl) as [Hceq Hcpriv].
  assert (IsAbs control = true) as Hca by (rewrite Hceq; apply join_child; [done|apply scope_component]).
  destruct (negb (os_lock env) || _) eqn:Hbusy; [intros [= <- <-]; by apply Hfail|]. go_bool.
  set (w4 := {| w_fs := _; w_locked := _ |}).
  assert (∀ Q w0, confined Q w4 w0 → confined (λ q, q = lock_file control ∨ Q q) w3 w0) as Hlk3.
  { intros Q w0 Hc q. destruct (decide (q = lock_file control)) as [->|Hne]; [by left; left|].
    destruct (Hc q) as [?|Hq]; [by left; right|]. right. unfold w4 in Hq. simpl in Hq. by rewrite lookup_insert_ne in Hq by done. }
  assert (∀ Q w0, confined Q w4 w0 → confined (λ q, q = lock_file control ∨ Q q) w w0) as Hlk
    by (intros Q w0 Hc; apply (confined_trans _ _ w3); auto).
  assert (control ≠ lock_file control ∧ control ≠ runner_file control) as [Hn1 Hn2]
    by (split; apply not_eq_sym; by apply child_ne).
  destruct (open_locked env outer bin control w4) as [[s|e] w5] eqn:Ho; apply open_locked_spec in Ho; try done.
  - destruct Ho as (Hl & Hsc & Hdata & Hlock & Hc & Hpol & Hready). intros [= <- <-]. rewrite Hsc.
    assert (control ≠ s_policy s) as Hn3.
    { intros Heq. rewrite <- Heq in Hpol. unfold w4 in Hpol. simpl in Hpol. rewrite lookup_insert_ne in Hpol by done.
      destruct Hcpriv as (i & Hi & _). congruence. }
    assert (private_at w5 control) as Hcp by (eapply private_at_confined; [by apply Hlk3|cbv beta; tauto|exact Hcpriv]).
    rewrite (gr_locked _ _ Hg3) in *. rewrite Hl. simpl. rewrite (gr_locked _ _ Hg3).
    split_and!; try done.
    + exists root. split_and!; [done|done|done|]. intros Hcl. split; [by eapply privateRoot_checked|]. apply Htemp; [by eexists|done].
    + eapply confined_weaken; [by apply Hlk|]. cbv beta. intros q. tauto.
  - destruct Ho as [Hl Hn]. intros [= <- <-]. simpl. rewrite Hl. simpl. rewrite (gr_locked _ _ Hg3) in *. split; [set_solver|].
    eapply confined_weaken; [exact (Hlk _ w5 Hn)|]. cbv beta. intros q Hq. exists root. rewrite <- Hceq. tauto.
Qed.

(** C26: a session is opened all the way or not at all, and never twice.  On any error,
    whichever call failed, and when the removals on the error paths succeed, the held
    locks are those before and no file changed but the runner and lock file of the
    directory that the resolved root gives this scope, new private directories apart.  On
    success its own lock was free and is now held; its control, data, workspace, home and
    client directories are owner-only directories of the Node's user, its policy and
    temporary directory exist, and nothing else changed; and the session root, and the
    temporary root if there is one, passed: owner-only if it was there, no shared
    writable ancestor, outside any git worktree. *)
Theorem open_session_all_or_nothing `{!UnicodeLower} env c scope outer w r w' :
  os_remove env = true → fresh_names env → eval_cleans env → openSession env c scope outer w = (r, w') →
  match r with
  | Err _ => w_locked w' = w_locked w ∧ confined (own_files env c scope) w w'
  | Ok s =>
      lock_file (s_control s) ∉ w_locked w ∧ w_locked w' = {[lock_file (s_control s)]} ∪ w_locked w ∧
      s_lock s = Some (lock_file (s_control s)) ∧
      (∃ root, root_checked env (Root c) w root ∧ s_control s = JoinPath [root; Scope [Namespace c; scope]] ∧
         (TempRoot c = "" ∨ ∃ t, root_checked env (TempRoot c) w t ∧ slen t <= 40)) ∧
      s_data s = JoinPath [s_control s; "data"] ∧
      confined (λ q, q = runner_file (s_control s) ∨ q = lock_file (s_control s) ∨ q = s_policy s) w w' ∧
      private_at w' (s_control s) ∧ session_ready w' s
  end.
Proof.
  intros Hrm Hfn Hcl Ho%open_session_spec; [|done..]. destruct r as [s|e]; [|done].
  destruct Ho as (H1 & H2 & H3 & (root & _ & _ & Hc & Hroot) & Hrest). destruct (Hroot Hcl). split_and!; try done; [by exists root|apply Hrest..].
Qed.

Lemma session_paths c scope root s :
  IsAbs root = true → s_control s = JoinPath [root; Scope [Namespace c; scope]] →
  s_data s = JoinPath [s_control s; "data"] →
  IsAbs (s_control s) = true ∧ clean_elements (s_control s) = clean_elements root ++ [Scope [Namespace c; scope]] ∧
  IsAbs (Session_Workspace s) = true ∧
  clean_elements (Session_Workspace s) = clean_elements root ++ [Scope [Namespace c; scope]; "data"; "workspace"].
Proof.
  intros Hr Hc Hd. assert (component "data") as Cd by done. assert (component "workspace") as Cw by done.
  destruct (join_child root _ Hr (scope_component [Namespace c; scope])) as [A1 E1]. rewrite <-Hc in A1, E1.
  destruct (join_child _ _ A1 Cd) as [A2 E2]. rewrite <-Hd in A2, E2.
  destruct (join_child _ _ A2 Cw) as [A3 E3]. unfold Session_Workspace. split_and!; [done|done|done|].
  by rewrite E3, E2, E1, <-!app_assoc.
Qed.

(** sessions of different scopes live in disjoint trees: under one resolved
    root, neither the control directory nor the workspace of one session contains
    the workspace of another, unless the texts of these two scopes collide. *)
Theorem session_trees_disjoint `{!UnicodeLower} env env' c c' scope scope' outer outer' w w' s s' w1 w1' :
  os_remove env = true → os_remove env' = true → fresh_names env → fresh_names env' →
  openSession env c scope outer w = (Ok s, w1) → openSession env' c' scope' outer' w' = (Ok s', w1') →
  os_eval env (Clean (Root c)) = os_eval env' (Clean (Root c')) →
  (Namespace c, scope) ≠ (Namespace c', scope') →
  (contains (s_control s) (Session_Workspace s') = false ∧
   contains (Session_Workspace s) (Session_Workspace s') = false) ∨
  sha256_collides (scope_preimage [Namespace c; scope]) (scope_preimage [Namespace c'; scope']).
Proof.
  intros Hrm Hrm' Hf Hf' Ho Ho' Heq Hne.
  apply open_session_spec in Ho as (_ & _ & _ & (root & Ha & He & Hc & _) & Hd & _); [|done..].
  apply open_session_spec in Ho' as (_ & _ & _ & (root' & Ha' & He' & Hc' & _) & Hd' & _); [|done..].
  assert (root' = root) as -> by congruence.
  destruct (session_paths c scope root s Ha Hc Hd) as (A1 & E1 & A2 & E2).
  destruct (session_paths c' scope' root s' Ha Hc' Hd') as (_ & _ & A3 & E3).
  destruct (decide (Scope [Namespace c; scope] = Scope [Namespace c'; scope'])) as [Hs|Hs].
  { apply Scope_inj in Hs as [[= H1 H2]|?]; [|by right]. exfalso. apply Hne. congruence. }
  left. split; apply not_true_iff_false; intros Hk; apply contains_iff in Hk; try done;
    rewrite ?E1, ?E2, E3 in Hk; destruct Hk as [k Hk]; rewrite <-!app_assoc in Hk; apply app_inv_head in Hk; by simplify_eq/=.
Qed.

(** ** Witnesses *)
Module SandboxWitness.
Definition fresh (name : string) (fs : filesystem) : result string :=
  match fs !! name with None => Ok name | Some _ => Err (ENew "exists") end.
Definition env : os_env :=
  {| os_ctx := None; os_platform := {| GOOS := "linux"; GOARCH := "amd64"; Geteuid := 1000 |}; os_runtime := Ok "";
     os_mkdir := λ _, true; os_mkdirall := λ _, true; os_eval := λ p, Some (Clean p); os_lock := true;
     os_policy := fresh "/srv/policy-1.json"; os_runner := None; os_runnerSource := "//"; os_temp := fresh "/tmp/olns-1";
     os_remove := true |}.
Lemma env_fresh : fresh_names env.
Proof.
  assert (∀ name fs p, fresh name fs = Ok p → fs !! p = None) as H
    by (intros name fs p; unfold fresh; case_match; by intros [= <-]).
  split; simpl; [apply H..|]. intros fs p t Hp [= <-]. assert (Clean p = p) as -> by (unfold fresh in Hp; case_match; [discriminate Hp|apply Ok_inj in Hp as <-; reflexivity]).
  by apply H in Hp.
Qed.
Lemma env_cleans : eval_cleans env.
Proof. intros p r [= <-]. apply Clean_idempotent. Qed.
Definition config : Config :=
  {| Mode := "native"; Root := "/srv/sessions"; Namespace := "https://core"; RuntimeBin := ""; TempRoot := "";
     ReadPaths := []; AllowedDomains := ["api.example.com"; "cdn.example.org:443"] |}.
Definition opened (scope : string) : result Session * world :=
  @openSession env latin_lower config scope false {| w_fs := ∅; w_locked := ∅ |}.
Definition session_of (scope : string) : Session :=
  match (opened scope).1 with
  | Ok s => s
  | Err _ => {| s_control := ""; s_data := ""; s_policy := ""; s_runtimeBin := ""; s_temp := ""; s_lock := None |}
  end.
Lemma opened_eq scope :
  match (opened scope).1 with Ok _ => true | Err _ => false end = true → opened scope = (Ok (session_of scope), (opened scope).2).
Proof. unfold session_of. by destruct (opened scope) as [[s|e] w]. Qed.
Lemma opened_a : opened "alice" = (Ok (session_of "alice"), (opened "alice").2).
Proof. apply opened_eq. vm_compute. reflexivity. Qed.
Lemma opened_b : opened "bob" = (Ok (session_of "bob"), (opened "bob").2).
Proof. apply opened_eq. vm_compute. reflexivity. Qed.

Lemma open_session_all_or_nothing_witness :
  opened "alice" = (Ok (session_of "alice"), (opened "alice").2) ∧
  w_locked (opened "alice").2 = {[lock_file (s_control (session_of "alice"))]} ∪ ∅.
Proof.
  split; [exact opened_a|].
  exact (proj1 (proj2 (@open_session_all_or_nothing latin_lower env config "alice" false _ _ _ eq_refl env_fresh env_cleans opened_a))).
Defined.

Lemma session_trees_disjoint_witness :
  (contains (s_control (session_of "alice")) (Session_Workspace (session_of "bob")) = false ∧
   contains (Session_Workspace (session_of "alice")) (Session_Workspace (session_of "bob")) = false) ∨
  sha256_collides (scope_preimage ["https://core"; "alice"]) (scope_preimage ["https://core"; "bob"]).
Proof.
  apply (@session_trees_disjoint latin_lower env env config config "alice" "bob" false false _ _ _ _ _ _
    eq_refl eq_refl env_fresh env_fresh opened_a opened_b eq_refl).
  discriminate.
Defined.

Definition repo : filesystem := {["/srv/.git" := private_dir]}.
Example git_found : gitWorktree repo "/srv/a/b" = Some true.
Proof. vm_compute. reflexivity. Qed.
End SandboxWitness.
