(* ===== verification/NodeHandler.v ===== *)
(** * The node shell

    internal/agentnode/node.go (the run handler), adapter_result.go, util.go and
    adapter_command.go: what an assignment becomes for an adapter, and what an
    adapter's result becomes for the runtime. *)

From S2P Require Import Prelude GoStrings Json JsonRoundtrip ProviderOutput HelperServer.
From stdpp Require Import options.

Open Scope Z_scope.

(** ** Results *)

Record AgentError := { ae_Code : string; ae_Message : string }.
Record RunEvent := { re_EventType : string; re_Payload : json }.
(** A nil output is [JNull]. *)
Record AdapterResult := {
  ar_Status : string; ar_Output : json; ar_Events : list RunEvent; ar_Error : option AgentError;
}.
(** The dynamic types [normalizeAdapterResult] distinguishes: a struct, a
    pointer, a [map\[string\]any], and anything else ([JSONMap] included). *)
Inductive raw_result :=
  | RawResult (r : AdapterResult)
  | RawPointer (r : option AdapterResult)
  | RawMap (kvs : list (string * json))
  | RawOther (v : json).

Section Results.
(** [fmt.Sprint] of numbers, arrays and objects. *)
Context (sprint_value : json → string).

Definition Sprint (v : json) : string :=
  match v with
  | JNull => "<nil>"
  | JStr s => s
  | JBool true => "true"
  | JBool false => "false"
  | _ => sprint_value v
  end.

(** [eventsFromAny] on a decoded JSON value *)
Definition eventsFromAny (value : json) : list RunEvent :=
  match value with
  | JArr items =>
      omap (λ item, match item with
                    | JObj kvs => Some {| re_EventType := Sprint (obj_get item "event_type"); re_Payload := obj_get item "payload" |}
                    | _ => None
                    end) items
  | _ => []
  end.

Definition reserved_keys : list string := ["status"; "output"; "events"; "error"].

(** [adapterResultFromMap] *)
Definition adapterResultFromMap (kvs : list (string * json)) : AdapterResult :=
  let value := JObj kvs in
  let status := Sprint (obj_get value "status") in
  {| ar_Status := if bool_decide (status = "") || bool_decide (status = "<nil>") then "success" else status;
     ar_Output := match obj_get value "output" with
                  | JNull => JObj (List.filter (λ kv, negb (bool_decide (kv.1 ∈ reserved_keys))) kvs)
                  | v => v
                  end;
     ar_Events := eventsFromAny (obj_get value "events");
     ar_Error := None |}.

(** [fillAdapterDefaults] *)
Definition fillAdapterDefaults (r : AdapterResult) : AdapterResult :=
  {| ar_Status := if bool_decide (ar_Status r = "") then "success" else ar_Status r;
     ar_Output := match ar_Output r, ar_Error r with JNull, None => JObj [] | v, _ => v end;
     ar_Events := ar_Events r;
     ar_Error := ar_Error r |}.

Definition success_with (v : json) : AdapterResult :=
  {| ar_Status := "success"; ar_Output := v; ar_Events := []; ar_Error := None |}.

(** [normalizeAdapterResult] *)
Definition normalizeAdapterResult (raw : raw_result) : AdapterResult :=
  match raw with
  | RawResult r => fillAdapterDefaults r
  | RawPointer None => success_with (JObj [])
  | RawPointer (Some r) => fillAdapterDefaults r
  | RawMap kvs =>
      if obj_has (JObj kvs) "status" || obj_has (JObj kvs) "output" || obj_has (JObj kvs) "events"
      then adapterResultFromMap kvs else success_with (JObj kvs)
  | RawOther v => success_with v
  end.

(** [normalizeAgentError] *)
Definition normalizeAgentError (e : go_error) : AgentError :=
  if errors_Is e context_Canceled
  then {| ae_Code := "ADAPTER_CANCELED"; ae_Message := "adapter execution was canceled" |}
  else {| ae_Code := "AGENT_NODE_ERROR"; ae_Message := Text.boundedRuntimeText (error_text e) 500 "adapter failed" |}.
End Results.

(** ** Command output *)

(** [parseCommandOutput] *)
Definition parseCommandOutput `{!Float64} (stdout stderr : string) : raw_result :=
  let text := TrimSpace stdout in
  if bool_decide (text = "")
  then RawOther (go_obj [("ok", JBool true); ("stderr", JStr (TrimSpace stderr))])
  else
    match j ← parse text; unmarshal_any j with
    | None =>
        RawOther (go_obj (("text", JStr text) ::
          (if bool_decide (TrimSpace stderr = "") then [] else [("stderr", JStr (TrimSpace stderr))])))
    | Some (JObj kvs) =>
        match assoc_get kvs "output" with
        | Some (JObj kvs') => RawMap kvs'
        | Some v => RawOther v
        | None => RawMap kvs
        end
    | Some v => RawOther v
    end.

(** The outcome of [cmd.Run()] in [CommandAdapter.Run]. *)
Record command_run := {
  cr_err : option go_error; cr_deadline : bool; cr_stdout : Limited.buffer; cr_stderr : Limited.buffer;
}.
(** [limitedOutputBuffer.String] *)
Definition buffered (b : Limited.buffer) : string := String.string_of_list_ascii (Limited.buf b).
(** [CommandAdapter.Run] from the process on; [timeout] is its text. *)
Definition CommandAdapter_Run `{!Float64} (command timeout : string) (run : command_run) : result raw_result :=
  if bool_decide (command = "") then Err (ENew "OPENLINKER_AGENT_NODE_COMMAND is required")
  else
    match cr_err run with
    | Some e =>
        match Limited.adapterOutputLimitError "command" (Some (cr_stdout run)) (Some (cr_stderr run)) with
        | Some le => Err le
        | None =>
            if cr_deadline run then Err (ENew ("command timed out after " +:+ timeout))
            else Err (EWrap "command failed: " e (": " +:+ TrimSpace (buffered (cr_stderr run))))
        end
    | None =>
        match Limited.adapterOutputLimitError "command" (Some (cr_stdout run)) (Some (cr_stderr run)) with
        | Some le => Err le
        | None => Ok (parseCommandOutput (buffered (cr_stdout run)) (buffered (cr_stderr run)))
        end
    end.

(** ** Assignments *)

Section Decoding.
Context `{!Float64}.

(** [ConversationMessage]: [EventSequence] and [Payload] may be absent. *)
Record ConversationMessage := {
  cm_RunID : string; cm_EventSequence : option Z; cm_Role : string; cm_Content : string;
  cm_Payload : option (list (string * json)); cm_CreatedAt : string;
}.
Record ConversationContext := {
  cv_ID : string; cv_SessionKey : string; cv_ProtocolContextID : string; cv_RootContextID : string;
  cv_CurrentRunID : string; cv_CurrentProtocolTask : string; cv_History : list ConversationMessage;
  cv_Truncated : bool; cv_Source : string;
}.
Definition message_zero : ConversationMessage :=
  {| cm_RunID := ""; cm_EventSequence := None; cm_Role := ""; cm_Content := ""; cm_Payload := None; cm_CreatedAt := "" |}.
Definition conversation_zero : ConversationContext :=
  {| cv_ID := ""; cv_SessionKey := ""; cv_ProtocolContextID := ""; cv_RootContextID := ""; cv_CurrentRunID := "";
     cv_CurrentProtocolTask := ""; cv_History := []; cv_Truncated := false; cv_Source := "" |}.

(** A [*int32] field: null is nil, a number must fit. *)
Definition f_int32_ptr {R} (name : string) (set : option Z → R → R) : field R :=
  (name, λ j r, match j with
                | JNull => Some (set None r)
                | JNum lit => v ← Atoi lit; if (- 2 ^ 31 <=? v) && (v <? 2 ^ 31) then Some (set (Some v) r) else None
                | _ => None
                end).

Definition message_fields : list (field ConversationMessage) :=
  [f_string "run_id" (λ v m, {| cm_RunID := v; cm_EventSequence := cm_EventSequence m; cm_Role := cm_Role m;
     cm_Content := cm_Content m; cm_Payload := cm_Payload m; cm_CreatedAt := cm_CreatedAt m |});
   f_int32_ptr "event_sequence" (λ v m, {| cm_RunID := cm_RunID m; cm_EventSequence := v; cm_Role := cm_Role m;
     cm_Content := cm_Content m; cm_Payload := cm_Payload m; cm_CreatedAt := cm_CreatedAt m |});
   f_string "role" (λ v m, {| cm_RunID := cm_RunID m; cm_EventSequence := cm_EventSequence m; cm_Role := v;
     cm_Content := cm_Content m; cm_Payload := cm_Payload m; cm_CreatedAt := cm_CreatedAt m |});
   f_string "content" (λ v m, {| cm_RunID := cm_RunID m; cm_EventSequence := cm_EventSequence m; cm_Role := cm_Role m;
     cm_Content := v; cm_Payload := cm_Payload m; cm_CreatedAt := cm_CreatedAt m |});
   f_map "payload" cm_Payload (λ v m, {| cm_RunID := cm_RunID m; cm_EventSequence := cm_EventSequence m; cm_Role := cm_Role m;
     cm_Content := cm_Content m; cm_Payload := v; cm_CreatedAt := cm_CreatedAt m |});
   f_string "created_at" (λ v m, {| cm_RunID := cm_RunID m; cm_EventSequence := cm_EventSequence m; cm_Role := cm_Role m;
     cm_Content := cm_Content m; cm_Payload := cm_Payload m; cm_CreatedAt := v |})].

Fixpoint decode_messages (l : list json) : option (list ConversationMessage) :=
  match l with
  | [] => Some []
  | j :: l' => m ← decode_struct false message_fields message_zero j; ms ← decode_messages l'; Some (m :: ms)
  end.

Definition conversation_fields : list (field ConversationContext) :=
  [f_string "id" (λ v c, {| cv_ID := v; cv_SessionKey := cv_SessionKey c; cv_ProtocolContextID := cv_ProtocolContextID c;
     cv_RootContextID := cv_RootContextID c; cv_CurrentRunID := cv_CurrentRunID c; cv_CurrentProtocolTask := cv_CurrentProtocolTask c;
     cv_History := cv_History c; cv_Truncated := cv_Truncated c; cv_Source := cv_Source c |});
   f_string "session_key" (λ v c, {| cv_ID := cv_ID c; cv_SessionKey := v; cv_ProtocolContextID := cv_ProtocolContextID c;
     cv_RootContextID := cv_RootContextID c; cv_CurrentRunID := cv_CurrentRunID c; cv_CurrentProtocolTask := cv_CurrentProtocolTask c;
     cv_History := cv_History c; cv_Truncated := cv_Truncated c; cv_Source := cv_Source c |});
   f_string "protocol_context_id" (λ v c, {| cv_ID := cv_ID c; cv_SessionKey := cv_SessionKey c; cv_ProtocolContextID := v;
     cv_RootContextID := cv_RootContextID c; cv_CurrentRunID := cv_CurrentRunID c; cv_CurrentProtocolTask := cv_CurrentProtocolTask c;
     cv_History := cv_History c; cv_Truncated := cv_Truncated c; cv_Source := cv_Source c |});
   f_string "root_context_id" (λ v c, {| cv_ID := cv_ID c; cv_SessionKey := cv_SessionKey c; cv_ProtocolContextID := cv_ProtocolContextID c;
     cv_RootContextID := v; cv_CurrentRunID := cv_CurrentRunID c; cv_CurrentProtocolTask := cv_CurrentProtocolTask c;
     cv_History := cv_History c; cv_Truncated := cv_Truncated c; cv_Source := cv_Source c |});
   f_string "current_run_id" (λ v c, {| cv_ID := cv_ID c; cv_SessionKey := cv_SessionKey c; cv_ProtocolContextID := cv_ProtocolContextID c;
     cv_RootContextID := cv_RootContextID c; cv_CurrentRunID := v; cv_CurrentProtocolTask := cv_CurrentProtocolTask c;
     cv_History := cv_History c; cv_Truncated := cv_Truncated c; cv_Source := cv_Source c |});
   f_string "current_protocol_task_id" (λ v c, {| cv_ID := cv_ID c; cv_SessionKey := cv_SessionKey c;
     cv_ProtocolContextID := cv_ProtocolContextID c; cv_RootContextID := cv_RootContextID c; cv_CurrentRunID := cv_CurrentRunID c;
     cv_CurrentProtocolTask := v; cv_History := cv_History c; cv_Truncated := cv_Truncated c; cv_Source := cv_Source c |});
   ("history_before_current", λ j c,
     let set ms := {| cv_ID := cv_ID c; cv_SessionKey := cv_SessionKey c; cv_ProtocolContextID := cv_ProtocolContextID c;
       cv_RootContextID := cv_RootContextID c; cv_CurrentRunID := cv_CurrentRunID c; cv_CurrentProtocolTask := cv_CurrentProtocolTask c;
       cv_History := ms; cv_Truncated := cv_Truncated c; cv_Source := cv_Source c |} in
     match j with
     | JNull => Some (set [])
     | JArr l => set <$> decode_messages l
     | _ => None
     end);
   f_bool "truncated" (λ v c, {| cv_ID := cv_ID c; cv_SessionKey := cv_SessionKey c; cv_ProtocolContextID := cv_ProtocolContextID c;
     cv_RootContextID := cv_RootContextID c; cv_CurrentRunID := cv_CurrentRunID c; cv_CurrentProtocolTask := cv_CurrentProtocolTask c;
     cv_History := cv_History c; cv_Truncated := v; cv_Source := cv_Source c |});
   f_string "source" (λ v c, {| cv_ID := cv_ID c; cv_SessionKey := cv_SessionKey c; cv_ProtocolContextID := cv_ProtocolContextID c;
     cv_RootContextID := cv_RootContextID c; cv_CurrentRunID := cv_CurrentRunID c; cv_CurrentProtocolTask := cv_CurrentProtocolTask c;
     cv_History := cv_History c; cv_Truncated := cv_Truncated c; cv_Source := v |})].

(** [trustedConversationContext] *)
Definition trustedConversationContext (value : json) : option ConversationContext :=
  c ← (j ← parse (marshal value); decode_struct false conversation_fields conversation_zero j);
  if negb (bool_decide (cv_Source c = "core")) || bool_decide (TrimSpace (cv_SessionKey c) = "") ||
     bool_decide (TrimSpace (cv_CurrentRunID c) = "")
  then None else Some c.

(** [jsonMapFromAny] on a decoded JSON value: only objects are maps. *)
Definition jsonMapFromAny (value : json) : option (list (string * json)) :=
  match value with JObj kvs => Some kvs | _ => None end.

(** The keys of the assignment's metadata the adapter does not see. *)
Definition internal_keys : list string :=
  ["a2a"; "conversation"; "_openlinker_skill_packages"; "_openlinker_mcp_bindings"; "_openlinker_mcp_binding"].

(** The SDK's assignment, with its metadata in marshalling order. *)
Record Assignment := {
  as_RunID : string; as_AgentID : string; as_Input : json; as_Metadata : list (string * json);
  as_CanReadDelegatedRuns : bool;
  as_Emit : string → json → option go_error;
  as_CallAgent : string → json → CallAgentOptions → result json;
}.

(** The context [Handle] builds for the adapter. *)
Record AdapterContext := {
  ac_MCPSnapshot : json; ac_PackageSnapshot : json; ac_RunID : string; ac_AgentID : string; ac_Input : json;
  ac_Metadata : list (string * json); ac_Source : string; ac_A2A : option (list (string * json));
  ac_Conversation : option ConversationContext; ac_CanReadDelegated : bool; ac_Helper : option HelperInfo;
}.

Definition adapter_context (a : Assignment) (helper : option HelperInfo) : AdapterContext :=
  let metadata := JObj (as_Metadata a) in
  {| ac_MCPSnapshot := obj_get metadata "_openlinker_mcp_bindings";
     ac_PackageSnapshot := obj_get metadata "_openlinker_skill_packages";
     ac_RunID := as_RunID a; ac_AgentID := as_AgentID a; ac_Input := as_Input a;
     ac_Metadata := List.filter (λ kv, negb (bool_decide (kv.1 ∈ internal_keys))) (as_Metadata a);
     ac_Source := "agent_runtime";
     ac_A2A := jsonMapFromAny (obj_get metadata "a2a");
     ac_Conversation := trustedConversationContext (obj_get metadata "conversation");
     ac_CanReadDelegated := as_CanReadDelegatedRuns a;
     ac_Helper := helper |}.
End Decoding.

(** ** Handling an assignment *)

Inductive adapter_outcome := AdapterOk (raw : raw_result) | AdapterErr (e : go_error) | AdapterPanic.

Record RuntimeResult := {
  rr_Status : string; rr_Output : json; rr_Events : list RunEvent; rr_Error : option AgentError;
}.
Definition failed (err : AgentError) : RuntimeResult :=
  {| rr_Status := "failed"; rr_Output := JNull; rr_Events := []; rr_Error := Some err |}.
Definition panicked : RuntimeResult := failed {| ae_Code := "ADAPTER_PANIC"; ae_Message := "adapter panicked" |}.

Definition result_of (sprint_value : json → string) (o : adapter_outcome) : RuntimeResult :=
  match o with
  | AdapterPanic => panicked
  | AdapterErr e => failed (normalizeAgentError e)
  | AdapterOk raw =>
      let r := normalizeAdapterResult sprint_value raw in
      {| rr_Status := ar_Status r; rr_Output := ar_Output r; rr_Events := ar_Events r; rr_Error := ar_Error r |}
  end.

Section Handle.
Context `{!Float64} (sprint_value : json → string).

(** [runtimeAdapterHandler.Handle]: the helper session of the run, the adapter,
    and the deferred calls (the session is closed, a panic becomes a result).
    [adapter] may also do what it wants with the rest of the server while it runs:
    [during] is what other runs and requests change meanwhile. *)
Definition Handle (adapter : AdapterContext → adapter_outcome) (bytes : list Z)
    (during : LocalHelperServer → LocalHelperServer)
    (a : Assignment) (helper : option LocalHelperServer) : RuntimeResult * option LocalHelperServer :=
  match helper with
  | None => (result_of sprint_value (adapter (adapter_context a None)), None)
  | Some server =>
      let rc := {| rc_run := as_RunID a; emitChecked := Some (as_Emit a); Emit := true; CallAgent := as_CallAgent a |} in
      match CreateSession bytes (as_RunID a) rc server with
      | None => (panicked, Some server)
      | Some (info, server1) =>
          (result_of sprint_value (adapter (adapter_context a (Some info))),
           Some (Close (Token info) (during server1)))
      end
  end.
End Handle.

(** ** What an adapter sees and what it leaves *)

(** an adapter sees the caller's metadata and nothing internal: every entry
    but the platform's five reserved ones is passed on unchanged and no reserved
    one is, and a conversation reaches it only if the platform marked it as its own
    and it names a session and a run. *)
Theorem adapter_context_sanitized `{!Float64} a helper :
  (∀ k v, (k, v) ∈ ac_Metadata (adapter_context a helper) ↔ (k, v) ∈ as_Metadata a ∧ k ∉ internal_keys) ∧
  (∀ c, ac_Conversation (adapter_context a helper) = Some c →
     cv_Source c = "core" ∧ TrimSpace (cv_SessionKey c) ≠ "" ∧ TrimSpace (cv_CurrentRunID c) ≠ "").
Proof.
  split.
  - intros k v. simpl. rewrite elem_of_filter_bool, negb_true_iff, bool_decide_eq_false. simpl. tauto.
  - intros c. simpl. unfold trustedConversationContext.
    destruct (j ← parse _; decode_struct _ _ _ j) as [c'|]; [|done]. cbn [mbind option_bind].
    destruct (_ || bool_decide (TrimSpace (cv_CurrentRunID c') = "")) eqn:Hg; [done|]. intros [= <-]. by go_bool.
Qed.

(** whatever an adapter does, also when it fails or panics, the helper
    session of its run is gone when [Handle] returns, so its token authenticates
    nothing any more; the sessions of other runs are as the others left them; and
    the runtime gets a result, never an error. *)
Theorem handle_closes_session `{!Float64} sprint_value adapter bytes during a server r s' :
  is_Some (sessions server) →
  ("olh_" +:+ randomToken bytes) ∉ dom (sessions_of server) →
  Handle sprint_value adapter bytes during a (Some server) = (r, Some s') →
  let token := "olh_" +:+ randomToken bytes in
  sessions_of s' !! token = None ∧
  (∀ t, t ≠ token → (∀ s, sessions_of (during s) !! t = sessions_of s !! t) →
     sessions_of s' !! t = sessions_of server !! t) ∧
  ∃ o, r = result_of sprint_value o.
Proof.
  intros [m Hm] Hfresh. unfold Handle, CreateSession. rewrite Hm. cbn [mbind option_bind].
  set (token := "olh_" +:+ randomToken bytes) in *. set (s1 := set_sessions _ server). intros [= <- <-]. cbn zeta.
  assert (∀ t s, sessions_of (Close t s) = delete t (sessions_of s)) as Hclose.
  { intros t s. unfold Close, sessions_of. simpl. destruct (sessions s); simpl; [done|by rewrite delete_empty]. }
  simpl Token. rewrite Hclose. split_and!; [apply lookup_delete_eq| |by eexists].
  intros t Hne Hd. rewrite lookup_delete_ne, Hd by done. unfold s1, sessions_of. simpl. rewrite Hm. simpl.
  by rewrite lookup_insert_ne.
Qed.

(** *** Texts *)

Lemma runes_take_valid n s :
  ValidString (string_of_runes (take n (runes s))) = true ∧ (length (runes (string_of_runes (take n (runes s)))) <= n)%nat.
Proof.
  assert (Forall (λ r, is_scalar r = true) (take n (runes s))) as Hs by apply Forall_take, runes_scalar.
  split; [by apply string_of_runes_valid|]. rewrite runes_string_of_runes by done. rewrite length_take. lia.
Qed.

Lemma boundedRuntimeText_spec value maximum fallback :
  ValidString fallback = true →
  ValidString (Text.boundedRuntimeText value maximum fallback) = true ∧
  (length (runes (Text.boundedRuntimeText value maximum fallback)) <= maximum)%nat.
Proof.
  intros Hf. unfold Text.boundedRuntimeText. set (v := if _ || _ then fallback else _).
  assert (ValidString v = true) as Hv.
  { unfold v. destruct (_ || _) eqn:Hg; [done|]. by go_bool. }
  clearbody v. destruct (maximum <? length (runes v))%nat eqn:Hl; go_bool; [apply runes_take_valid|done].
Qed.

(** a failure of an adapter reaches the runtime as valid UTF-8 of at most 500
    characters, whatever bytes the error holds, and a cancellation as one fixed text. *)
Theorem adapter_error_bounded sprint_value e :
  ∃ err, rr_Error (result_of sprint_value (AdapterErr e)) = Some err ∧
    rr_Status (result_of sprint_value (AdapterErr e)) = "failed" ∧
    ValidString (ae_Message err) = true ∧ (length (runes (ae_Message err)) <= 500)%nat ∧
    (errors_Is e context_Canceled = true → err = {| ae_Code := "ADAPTER_CANCELED"; ae_Message := "adapter execution was canceled" |}).
Proof.
  exists (normalizeAgentError e). simpl. unfold normalizeAgentError. split; [done|]. split; [done|].
  destruct (errors_Is e context_Canceled).
  - split; [by vm_compute|]. split; [vm_compute; lia|done].
  - destruct (boundedRuntimeText_spec (error_text e) 500 "adapter failed") as [Hv Hl]; [by vm_compute|]. by split_and!.
Qed.

(** ** Witness *)
Module HandlerWitness.
Definition assignment : Assignment :=
  {| as_RunID := "run-1"; as_AgentID := "agent"; as_Input := JNull; as_Metadata := []; as_CanReadDelegatedRuns := false;
     as_Emit := λ _ _, None; as_CallAgent := λ _ _ _, Ok JNull |}.
Definition server : LocalHelperServer := HelperWitness.started.
Lemma handle_closes_session_witness :
  ∃ r s', @Handle HelperWitness.floats (λ _, "") (λ _, AdapterPanic) HelperWitness.token_bytes id assignment (Some server)
    = (r, Some s') ∧ r = panicked ∧ sessions_of s' !! ("olh_" +:+ randomToken HelperWitness.token_bytes) = None.
Proof.
  assert (is_Some (sessions server)) as Hs by (eexists; reflexivity).
  assert (("olh_" +:+ randomToken HelperWitness.token_bytes) ∉ dom (sessions_of server)) as Hf by by vm_compute.
  eexists _, _. split; [reflexivity|]. split; [reflexivity|].
  exact (proj1 (@handle_closes_session HelperWitness.floats (λ _, "") (λ _, AdapterPanic) HelperWitness.token_bytes id
    assignment server _ _ Hs Hf eq_refl)).
Defined.
End HandlerWitness.
