(* ===== verification/NodeLifecycle.v ===== *)
(** * The life cycle of a node

    internal/agentnode/node.go: [Start] with its deferred cleanup, [Stop] and
    [stopAdapters], over the helper server and the public listener they drive.
    The phases of one [Start] and the calls of [Stop] interleave; so do the
    goroutines by which the helper and the listener watch the lifetime they were
    started with, however late they run, and the shutdowns and closes that every stop
    does after it released its lock. *)

From S2P Require Import Prelude GoStrings Json HelperServer PublicA2A.
From stdpp Require Import options.

(** Where a [Start] is: before a call, in the worker, or in the deferred function.
    [SUnlisten] waits for the close of the proxy a failed listener took; [SHelperDown]
    and [SA2ADown] for the shutdown of what the stop took: a generation [hg] of the
    helper, the stop [w] of the listener. *)
Inductive stage :=
  | SPreflight | SWorker | SHelper | SProxy | SListen | SUnlisten (w : option nat) | SPublish | SServe
  | SDefer | SCancelled | SHelperDown (hg : option nat) | SA2ADown (hg w : option nat) | SStopped (hg w : option nat).

(** [Node]; the lifetime of a run, its [done] channel and its cancel function
    are named by the number of the run. *)
Record node := {
  Adapter : bool;
  Helper : option LocalHelperServer;
  PublicA2A : option Lifecycle.PublicA2AServer;
  started : bool;
  done : option nat;
  worker : bool;
  cancel : option nat;
  (** the [Start] in progress *)
  running : option (nat * stage);
  (** the lifetimes that have ended, and the calls of [close(node.done)] *)
  ended : gset nat;
  closed : list nat;
  (** calls of [Stop] that wait for a [done] channel, and those that returned nil *)
  waiting : list nat;
  returned : list nat;
  (** the proxies made, by number, and those [Start] closed because the listener
      refused them *)
  proxies : nat;
  refused : list nat;
  (** the goroutines that wait for a lifetime: the helper's, and the listener's
      with the generation they may stop *)
  helper_watch : list nat;
  a2a_watch : list (nat * nat);
  starts : nat;
}.

Definition new (h : option LocalHelperServer) (a : option Lifecycle.PublicA2AServer) : node :=
  {| Adapter := true; Helper := h; PublicA2A := a; started := false; done := None; worker := false; cancel := None;
     running := None; ended := ∅; closed := []; waiting := []; returned := []; proxies := 0; refused := [];
     helper_watch := []; a2a_watch := []; starts := 0 |}.

Definition at_stage (g : nat) (st : stage) (n : node) : node :=
  {| Adapter := Adapter n; Helper := Helper n; PublicA2A := PublicA2A n; started := started n; done := done n;
     worker := worker n; cancel := cancel n; running := Some (g, st); ended := ended n; closed := closed n;
     waiting := waiting n; returned := returned n; proxies := proxies n; refused := refused n;
     helper_watch := helper_watch n; a2a_watch := a2a_watch n; starts := starts n |}.
Definition set_helper (h : LocalHelperServer) (watch : list nat) (n : node) : node :=
  {| Adapter := Adapter n; Helper := Some h; PublicA2A := PublicA2A n; started := started n; done := done n;
     worker := worker n; cancel := cancel n; running := running n; ended := ended n; closed := closed n;
     waiting := waiting n; returned := returned n; proxies := proxies n; refused := refused n;
     helper_watch := watch; a2a_watch := a2a_watch n; starts := starts n |}.
(** The listener, its goroutines and the account of the proxies. *)
Definition set_a2a (a : Lifecycle.PublicA2AServer) (watch : list (nat * nat)) (made : nat) (refusals : list nat)
    (n : node) : node :=
  {| Adapter := Adapter n; Helper := Helper n; PublicA2A := Some a; started := started n; done := done n;
     worker := worker n; cancel := cancel n; running := running n; ended := ended n; closed := closed n;
     waiting := waiting n; returned := returned n; proxies := made; refused := refused n ++ refusals;
     helper_watch := helper_watch n; a2a_watch := watch; starts := starts n |}.
Definition publish_worker (n : node) : node :=
  {| Adapter := Adapter n; Helper := Helper n; PublicA2A := PublicA2A n; started := started n; done := done n;
     worker := true; cancel := cancel n; running := running n; ended := ended n; closed := closed n;
     waiting := waiting n; returned := returned n; proxies := proxies n; refused := refused n;
     helper_watch := helper_watch n; a2a_watch := a2a_watch n; starts := starts n |}.
Definition end_lifetimes (l : gset nat) (n : node) : node :=
  {| Adapter := Adapter n; Helper := Helper n; PublicA2A := PublicA2A n; started := started n; done := done n;
     worker := worker n; cancel := cancel n; running := running n; ended := l ∪ ended n; closed := closed n;
     waiting := waiting n; returned := returned n; proxies := proxies n; refused := refused n;
     helper_watch := helper_watch n; a2a_watch := a2a_watch n; starts := starts n |}.
Definition set_waiting (l : list nat) (r : list nat) (n : node) : node :=
  {| Adapter := Adapter n; Helper := Helper n; PublicA2A := PublicA2A n; started := started n; done := done n;
     worker := worker n; cancel := cancel n; running := running n; ended := ended n; closed := closed n;
     waiting := l; returned := r; proxies := proxies n; refused := refused n;
     helper_watch := helper_watch n; a2a_watch := a2a_watch n; starts := starts n |}.

(** ** [Start] *)

(** Up to the first unlock; [None] when it returns an error instead. *)
Definition start_begin (n : node) : option node :=
  if negb (Adapter n) || started n then None
  else Some {| Adapter := Adapter n; Helper := Helper n; PublicA2A := PublicA2A n; started := true;
               done := Some (starts n); worker := worker n; cancel := Some (starts n);
               running := Some (starts n, SPreflight); ended := ended n; closed := closed n; waiting := waiting n;
               returned := returned n; proxies := proxies n; refused := refused n; helper_watch := helper_watch n;
               a2a_watch := a2a_watch n; starts := S (starts n) |}.

(** What the calls of the body return: [Preflight], [NewRuntimeWorker], the
    helper's [net.Listen], [newPublicA2AProxy], the listener's [net.Listen], and
    the end of [worker.Start]. *)
Inductive call :=
  | CPreflight (ok : bool) | CWorker (ok : bool) | CHelper (listen : result string) | CProxy (ok : bool)
  | CListen (listen : Lifecycle.listen_result) | CClosed | CPublish | CServed.

(** The shutdown of a generation of the helper, and a stop of the listener, are over. *)
Definition helper_done (hg : option nat) (n : node) : bool :=
  match hg, Helper n with Some gen, Some h => bool_decide (gen ∉ shutting h) | _, _ => true end.
Definition a2a_ids (a : Lifecycle.PublicA2AServer) : list nat := Lifecycle.sw_id <$> Lifecycle.stopping a.
Definition a2a_done (w : option nat) (n : node) : bool :=
  match w, PublicA2A n with Some id, Some a => bool_decide (id ∉ a2a_ids a) | _, _ => true end.

Definition slug_default (a : Lifecycle.PublicA2AServer) : Lifecycle.PublicA2AServer :=
  let slug := TrimSpace (Lifecycle.Slug a) in
  {| Lifecycle.Host := Lifecycle.Host a; Lifecycle.Port := Lifecycle.Port a;
     Lifecycle.Slug := if bool_decide (slug = "") then "agent-node" else slug; Lifecycle.Name := Lifecycle.Name a;
     Lifecycle.Description := Lifecycle.Description a; Lifecycle.Token := Lifecycle.Token a;
     Lifecycle.server := Lifecycle.server a; Lifecycle.baseURL := Lifecycle.baseURL a;
     Lifecycle.proxy := Lifecycle.proxy a; Lifecycle.generations := Lifecycle.generations a;
     Lifecycle.accepted := Lifecycle.accepted a; Lifecycle.closed := Lifecycle.closed a;
     Lifecycle.listening := Lifecycle.listening a; Lifecycle.stopping := Lifecycle.stopping a;
     Lifecycle.stops := Lifecycle.stops a |}.

(** One call of the body of [Start] and what follows it up to the next one; an
    error goes to the deferred function. *)
Definition start_body (g : nat) (st : stage) (c : call) (n : node) : option node :=
  match st, c with
  | SPreflight, CPreflight ok => Some (at_stage g (if ok then SWorker else SDefer) n)
  | SWorker, CWorker ok => Some (at_stage g (if ok then SHelper else SDefer) n)
  | SHelper, CHelper listen =>
      match Helper n with
      | None => Some (at_stage g SProxy n)
      | Some h =>
          match HelperServer.Start listen h with
          | (Some _, h') => Some (at_stage g SDefer (set_helper h' (helper_watch n) n))
          | (None, h') => Some (at_stage g SProxy (set_helper h' (g :: helper_watch n) n))
          end
      end
  | SProxy, CProxy ok =>
      match PublicA2A n with
      | None => Some (at_stage g SPublish n)
      | Some a =>
          let a1 := slug_default a in
          if negb ok then Some (at_stage g SDefer (set_a2a a1 (a2a_watch n) (proxies n) [] n))
          else
            match Lifecycle.setProxy (Some (proxies n)) a1 with
            | (Some _, a2) => Some (at_stage g SDefer (set_a2a a2 (a2a_watch n) (S (proxies n)) [proxies n] n))
            | (None, a2) => Some (at_stage g SListen (set_a2a a2 (a2a_watch n) (S (proxies n)) [] n))
            end
      end
  | SListen, CListen listen =>
      match PublicA2A n with
      | None => None
      | Some a =>
          match Lifecycle.Start listen a with
          | (Some _, a') =>
              let w := if bool_decide (Lifecycle.stops a' = Lifecycle.stops a) then None else Some (Lifecycle.stops a) in
              Some (at_stage g (SUnlisten w) (set_a2a a' (a2a_watch n) (proxies n) [] n))
          | (None, a') => Some (at_stage g SPublish (set_a2a a' ((g, Lifecycle.generations a) :: a2a_watch n) (proxies n) [] n))
          end
      end
  | SUnlisten w, CClosed => if a2a_done w n then Some (at_stage g SDefer n) else None
  | SPublish, CPublish => Some (at_stage g SServe (publish_worker n))
  | SServe, CServed => Some (at_stage g SDefer n)
  | _, _ => None
  end.

(** One call of [stopAdapters]: cancel the lifetime; the locked part of the helper's
    stop; when its shutdown is over, the locked part of the listener's stop; when its
    shutdown and close are over, the end. *)
Definition stopAdapters (g : nat) (st : stage) (n : node) : option node :=
  match st with
  | SDefer => Some (at_stage g SCancelled match cancel n with Some c => end_lifetimes {[c]} n | None => n end)
  | SCancelled =>
      Some match Helper n with
           | Some h => at_stage g (SHelperDown (server h)) (set_helper (HelperServer.Stop h) (helper_watch n) n)
           | None => at_stage g (SHelperDown None) n
           end
  | SHelperDown hg =>
      if negb (helper_done hg n) then None
      else Some match PublicA2A n with
                | Some a => at_stage g (SA2ADown hg (Some (Lifecycle.stops a)))
                              (set_a2a (Lifecycle.Stop a) (a2a_watch n) (proxies n) [] n)
                | None => at_stage g (SA2ADown hg None) n
                end
  | SA2ADown hg w => if a2a_done w n then Some (at_stage g (SStopped hg w) n) else None
  | _ => None
  end.

(** The locked end of the deferred function. *)
Definition start_end (n : node) : node :=
  {| Adapter := Adapter n; Helper := Helper n; PublicA2A := PublicA2A n; started := false; done := done n;
     worker := false; cancel := None; running := None; ended := ended n;
     closed := if started n then closed n ++ option_list (done n) else closed n;
     waiting := waiting n; returned := returned n; proxies := proxies n; refused := refused n;
     helper_watch := helper_watch n; a2a_watch := a2a_watch n; starts := starts n |}.

(** ** [Stop] *)

(** Up to the wait: nil at once when the node is not started ([worker.Stop]
    returned nil; its error ends the call without a wait). *)
Definition stop_begin (worker_ok : bool) (n : node) : node :=
  if negb (started n) then n
  else
    let n1 := match cancel n with Some c => end_lifetimes {[c]} n | None => n end in
    if worker n && negb worker_ok then n1
    else set_waiting (option_list (done n) ++ waiting n1) (returned n1) n1.
(** The wait ends with nil, or with the error of the caller's context. *)
Definition stop_end (d : nat) (rest : list nat) (expired : bool) (n : node) : node :=
  set_waiting rest (if expired then returned n else d :: returned n) n.

(** ** Interleavings *)

(** The shutdowns and closes in progress, whoever does them. *)
Inductive pool_step (n : node) : node → Prop :=
  | ps_helper g rest h :
      Helper n = Some h → shutting h ≡ₚ g :: rest → pool_step n (set_helper (HelperServer.Shutdown g rest h) (helper_watch n) n)
  | ps_a2a a a' :
      PublicA2A n = Some a → Lifecycle.work_step a a' → pool_step n (set_a2a a' (a2a_watch n) (proxies n) [] n).

Inductive step (n : node) : node → Prop :=
  | step_start n' : start_begin n = Some n' → step n n'
  | step_body g st c n' : running n = Some (g, st) → start_body g st c n = Some n' → step n n'
  | step_adapters g st n' : running n = Some (g, st) → stopAdapters g st n = Some n' → step n n'
  | step_end g hg w : running n = Some (g, SStopped hg w) → step n (start_end n)
  | step_stop ok : step n (stop_begin ok n)
  | step_return d rest expired :
      waiting n ≡ₚ d :: rest → d ∈ closed n ∨ expired = true → step n (stop_end d rest expired n)
  (** the parent context of a run ends *)
  | step_parent g st : running n = Some (g, st) → step n (end_lifetimes {[g]} n)
  (** the locked parts of the goroutines that wait for a lifetime *)
  | step_helper_watch g rest h :
      helper_watch n ≡ₚ g :: rest → g ∈ ended n → Helper n = Some h →
      step n (set_helper (HelperServer.Stop h) rest n)
  | step_a2a_watch g gen rest a :
      a2a_watch n ≡ₚ (g, gen) :: rest → g ∈ ended n → PublicA2A n = Some a →
      step n (set_a2a (Lifecycle.stopGeneration (Some gen) a) rest (proxies n) [] n)
  | step_pool n' : pool_step n n' → step n n'.

(** ** The invariant *)






























(** ** The stops in progress can finish *)








(** ** The helper and an earlier run

    The goroutine by which the helper waits for its lifetime calls [Stop], not
    [Stop] of its own generation. *)

Definition shell : node := new (Some (fresh_server "" 0)) None.
Definition shell_with_listener : node :=
  new (Some (fresh_server "" 0)) (Some (Lifecycle.new "" 0 "" "" "" "")).

(** The steps of the demonstrations, as functions. *)
Definition body_step (c : call) (n : node) : node :=
  match running n with Some (g, st) => default n (start_body g st c n) | None => n end.
Definition defer_step (n : node) : node :=
  match running n with Some (g, st) => default n (stopAdapters g st n) | None => n end.
Definition end_step (n : node) : node := match running n with Some (_, SStopped _ _) => start_end n | _ => n end.
Definition begin_step (n : node) : node := default n (start_begin n).
Definition helper_pool (n : node) : node :=
  match Helper n with
  | Some h => match shutting h with g :: rest => set_helper (HelperServer.Shutdown g rest h) (helper_watch n) n | [] => n end
  | None => n
  end.
Definition a2a_pool (n : node) : node :=
  match PublicA2A n with
  | Some a =>
      match Lifecycle.stopping a with
      | w :: rest =>
          let a' := match Lifecycle.sw_server w with
                    | Some g => Lifecycle.shutdown_server w g rest a | None => Lifecycle.close_proxy w rest a end in
          set_a2a a' (a2a_watch n) (proxies n) [] n
      | [] => n
      end
  | None => n
  end.
(** The listener's goroutine of the run that is over or cancelled, the oldest last. *)
Definition watch_step (n : node) : node :=
  match a2a_watch n, PublicA2A n with
  | (g, gen) :: rest, Some a =>
      if decide (g ∈ ended n) then set_a2a (Lifecycle.stopGeneration (Some gen) a) rest (proxies n) [] n else n
  | _, _ => n
  end.
Definition run_steps (fs : list (node → node)) (n : node) : node := foldl (λ n f, f n) n fs.
Definition run_up : list (node → node) :=
  [begin_step; body_step (CPreflight true); body_step (CWorker true); body_step (CHelper (Ok "http://127.0.0.1:4000"));
   body_step (CProxy true); body_step (CListen (Lifecycle.ListenTCP "http://127.0.0.1:4001")); body_step CPublish].
Definition run_down : list (node → node) :=
  [body_step CServed; defer_step; defer_step; helper_pool; defer_step; a2a_pool; a2a_pool; defer_step; end_step].

Definition is_step (f : node → node) : Prop := ∀ n, rtc step n (f n).
Lemma body_is_step c : is_step (body_step c).
Proof.
  intros n. unfold body_step. destruct (running n) as [[g st]|] eqn:Hg; [|done]. destruct (start_body g st c n) eqn:Hb; [|done].
  by eapply rtc_once, step_body.
Qed.
Lemma defer_is_step : is_step defer_step.
Proof.
  intros n. unfold defer_step. destruct (running n) as [[g st]|] eqn:Hg; [|done]. destruct (stopAdapters g st n) eqn:Hb; [|done].
  by eapply rtc_once, step_adapters.
Qed.
Lemma begin_is_step : is_step begin_step.
Proof. intros n. unfold begin_step. destruct (start_begin n) eqn:Hs; [|done]. by apply rtc_once, step_start. Qed.
Lemma end_is_step : is_step end_step.
Proof. intros n. unfold end_step. destruct (running n) as [[g []]|] eqn:Hg; try done. by eapply rtc_once, step_end. Qed.
Lemma helper_pool_is_step : is_step helper_pool.
Proof.
  intros n. unfold helper_pool. destruct (Helper n) as [h|] eqn:Hh; [|done]. destruct (shutting h) as [|g rest] eqn:Hs; [done|].
  apply rtc_once, step_pool, ps_helper; [done|by rewrite Hs].
Qed.
Lemma a2a_pool_is_step : is_step a2a_pool.
Proof.
  intros n. unfold a2a_pool. destruct (PublicA2A n) as [a|] eqn:Ha; [|done]. destruct (Lifecycle.stopping a) as [|w rest] eqn:Hs; [done|].
  apply rtc_once, step_pool, (ps_a2a _ a); [done|].
  destruct (Lifecycle.sw_server w) eqn:Hw; constructor; try done; by rewrite Hs.
Qed.
Lemma watch_is_step : is_step watch_step.
Proof.
  intros n. unfold watch_step. destruct (a2a_watch n) as [|[g gen] rest] eqn:Hw; [done|]. destruct (PublicA2A n) as [a|] eqn:Ha; [|done].
  destruct (decide (g ∈ ended n)) as [He|]; [|done]. apply rtc_once, (step_a2a_watch n g gen rest a); [by rewrite Hw|done..].
Qed.
Lemma stop_is_step ok : is_step (stop_begin ok).
Proof. intros n. apply rtc_once, step_stop. Qed.
Lemma run_steps_rtc fs n : Forall is_step fs → rtc step n (run_steps fs n).
Proof.
  intros Hfs. revert n. induction Hfs as [|f fs Hf _ IH]; intros n; [done|]. etrans; [apply Hf|]. apply IH.
Qed.
Ltac steps_tac :=
  apply run_steps_rtc; repeat apply list.Forall_app_2; repeat apply list.Forall_cons_2; try apply list.Forall_nil_2;
  first [apply body_is_step|apply defer_is_step|apply begin_is_step|apply end_is_step|apply helper_pool_is_step
        |apply a2a_pool_is_step|apply watch_is_step|apply stop_is_step].

(** the helper is not protected like the listener: a goroutine of an earlier
    run may still be waiting when the node is started again, and it then stops the
    helper of the new run, although nobody asked for that and its lifetime is alive. *)
Theorem earlier_run_stops_helper :
  ∃ n h, rtc step shell n ∧ running n = Some (1%nat, SServe) ∧ 1%nat ∉ ended n ∧ Helper n = Some h ∧ server h = None.
Proof.
  pose (n1 := run_steps (run_up ++ run_down ++ run_up) shell).
  exists (set_helper (HelperServer.Stop (default (fresh_server "" 0) (Helper n1))) [1%nat] n1). eexists.
  split_and!; [|reflexivity|by vm_compute|reflexivity|reflexivity].
  eapply rtc_r.
  - unfold n1. instantiate (1 := run_steps (run_up ++ run_down ++ run_up) shell). steps_tac.
  - eapply (step_helper_watch _ 0); [|by vm_compute|reflexivity].
    transitivity [1%nat; 0%nat]; [reflexivity|apply Permutation_swap].
Qed.

Definition late : node :=
  run_steps (run_up ++ [stop_begin true; watch_step; body_step CServed; defer_step; defer_step; helper_pool;
                        defer_step; a2a_pool; defer_step; end_step]) shell_with_listener.
Lemma late_reachable : rtc step shell_with_listener late.
Proof. unfold late. steps_tac. Qed.
Lemma late_node : waiting late = [0%nat] ∧ closed late = [0%nat] ∧ running late = None.
Proof. vm_compute. done. Qed.
Definition late_listener : Lifecycle.PublicA2AServer := default (Lifecycle.new "" 0 "" "" "" "") (PublicA2A late).
Lemma late_listens :
  PublicA2A late = Some late_listener ∧ 0%nat ∈ Lifecycle.listening late_listener ∧
  Lifecycle.stopping_proxies late_listener = [0%nat] ∧ Lifecycle.closed late_listener = [].
Proof.
  split; [vm_compute; reflexivity|]. split; [refine (bool_decide_unpack _ _); vm_compute; exact I|]. by vm_compute.
Qed.

(** [Stop] may return nil while the listener still accepts connections and its proxy is
    open: the goroutine that waits for the lifetime took the server first, so the stop
    of the deferred function finds nothing, and nobody waits for that goroutine
    ([lifetimeDone] is closed by it and read by no one). *)
Lemma stop_returns_before_shutdown :
  ∃ n a, rtc step shell_with_listener n ∧ 0%nat ∈ returned n ∧ running n = None ∧ PublicA2A n = Some a ∧
    0%nat ∈ Lifecycle.listening a ∧ Lifecycle.stopping_proxies a = [0%nat] ∧ Lifecycle.closed a = [].
Proof.
  pose proof late_node as H1. pose proof late_listens as H2. pose proof late_reachable as H3. revert H1 H2 H3.
  generalize late late_listener. intros n a (Hw & Hc & Hn) (Ha & Hl & Hp & Hcl) Hr.
  exists (stop_end 0 [] false n), a. split_and!; try done; [|by left].
  eapply rtc_r; [exact Hr|]. apply step_return; [by rewrite Hw|left; rewrite Hc; by left].
Qed.

