(* ===== verification/ProviderConfig.v ===== *)
(** * The configuration of a provider and the command lines it becomes

    pkg/adapters/types.go ([ProviderConfig]), delegation.go (the per-run
    configuration and the MCP arguments), claude.go ([claudeArguments]), codex.go
    and codex_rpc.go (the app-server arguments), claudepolicy/mcp.go, prompt.go and
    agenthost/contract.go (the proxy arguments). *)

From S2P Require Import Prelude GoStrings Sha256 Json JsonRoundtrip BoundTools Paths PrivateFiles SessionStore Sandbox.
From stdpp Require Import options.

Open Scope Z_scope.

(** [unicode.IsPrint] above U+00FF, a table of the Go distribution. *)
Class UnicodePrint := uni_print : Z → bool.
Definition IsPrint `{!UnicodePrint} (r : Z) : bool :=
  if r <=? 0xFF then ((0x20 <=? r) && (r <? 0x7F)) || ((0xA1 <=? r) && negb (r =? 0xAD)) else uni_print r.

(** One segment of [strconv.Quote]. *)
Definition quote_segment `{!UnicodePrint} (seg : Z * string) : string :=
  let '(r, bytes) := seg in
  let hexes (n : nat) := String.string_of_list_ascii (map (λ i, hex_digit (Z.land (Z.shiftr r (4 * Z.of_nat i)) 0xF)) (reverse (seq 0 n))) in
  if (r =? rune_error) && (slen bytes =? 1)
  then match bytes with
       | String c _ => "\x" +:+ String (hex_digit (Z.shiftr (byte_val c) 4)) (String (hex_digit (Z.land (byte_val c) 0xF)) "")
       | EmptyString => ""
       end
  else if (r =? 0x22) || (r =? 0x5C) then "\" +:+ bytes
  else if IsPrint r then bytes
  else if r =? 7 then "\a" else if r =? 8 then "\b" else if r =? 12 then "\f" else if r =? 10 then "\n"
  else if r =? 13 then "\r" else if r =? 9 then "\t" else if r =? 11 then "\v"
  else if (r <? 0x20) || (r =? 0x7F) then "\x" +:+ hexes 2%nat
  else if r <? 0x10000 then "\u" +:+ hexes 4%nat else "\U" +:+ hexes 8%nat.
(** [%q] of a string *)
Definition Quote `{!UnicodePrint} (s : string) : string :=
  quote +:+ concat_strings (map quote_segment (segments s)) +:+ quote.

Definition quoted (s : string) : string := quote +:+ s +:+ quote.
(** [jsonString] *)
Definition jsonString (value : string) : string := marshal_string value.
Definition json_strings (l : list string) : json := JArr (map JStr l).

(** [appendUniqueString] *)
Definition appendUniqueString (values : list string) (candidate : string) : list string :=
  if bool_decide (candidate ∈ values) then values else values ++ [candidate].

(** ** The configuration *)

(** [nativeToolPolicy] *)
Record nativeToolPolicy := {
  tp_codex : list string;
  tp_codexFilesystem : gmap string string;
  tp_claude : string;
  tp_commandReadRoots : list string;
}.

Record ProviderConfig := {
  boundMCPTools : list BoundTool;
  boundMCPDigest : string;
  SessionIsolation : Sandbox.Config;
  HostAuthConcurrency : string;
  sandbox : option Session;
  toolPolicy : option nativeToolPolicy;
  DelegationTargets : list string;
  DelegationProxyBin : string;
  DelegationBrokerRoot : string;
  DelegationSocket : string;
  Version : string;
  Provider : string;
  Bin : string;
  Workspace : string;
  Model : string;
  Sandbox : string;
  Permission : string;
  AllowedTools : list string;
  (** nanoseconds *)
  Timeout : Z;
  SessionReuse : bool;
  SessionStorePath : string;
  WebSearch : bool;
  CodexApproval : string;
  CodexBaseURL : string;
  ClaudeBaseURL : string;
  (** [None] is nil: the environment of the process *)
  Env : option (list string);
  EnvAllowlist : list string;
  ExecutionProfile : string;
}.

(** Assignments to a field of a copy of the configuration. *)
Definition set_Provider (name : string) (c : ProviderConfig) : ProviderConfig :=
  {| boundMCPTools := boundMCPTools c; boundMCPDigest := boundMCPDigest c; SessionIsolation := SessionIsolation c;
     HostAuthConcurrency := HostAuthConcurrency c; sandbox := sandbox c; toolPolicy := toolPolicy c;
     DelegationTargets := DelegationTargets c; DelegationProxyBin := DelegationProxyBin c;
     DelegationBrokerRoot := DelegationBrokerRoot c; DelegationSocket := DelegationSocket c; Version := Version c;
     Provider := name; Bin := Bin c; Workspace := Workspace c; Model := Model c; Sandbox := Sandbox c;
     Permission := Permission c; AllowedTools := AllowedTools c; Timeout := Timeout c;
     SessionReuse := SessionReuse c; SessionStorePath := SessionStorePath c; WebSearch := WebSearch c;
     CodexApproval := CodexApproval c; CodexBaseURL := CodexBaseURL c; ClaudeBaseURL := ClaudeBaseURL c;
     Env := Env c; EnvAllowlist := EnvAllowlist c; ExecutionProfile := ExecutionProfile c |}.
Definition set_DelegationProxyBin (binary : string) (c : ProviderConfig) : ProviderConfig :=
  {| boundMCPTools := boundMCPTools c; boundMCPDigest := boundMCPDigest c; SessionIsolation := SessionIsolation c;
     HostAuthConcurrency := HostAuthConcurrency c; sandbox := sandbox c; toolPolicy := toolPolicy c;
     DelegationTargets := DelegationTargets c; DelegationProxyBin := binary;
     DelegationBrokerRoot := DelegationBrokerRoot c; DelegationSocket := DelegationSocket c; Version := Version c;
     Provider := Provider c; Bin := Bin c; Workspace := Workspace c; Model := Model c; Sandbox := Sandbox c;
     Permission := Permission c; AllowedTools := AllowedTools c; Timeout := Timeout c;
     SessionReuse := SessionReuse c; SessionStorePath := SessionStorePath c; WebSearch := WebSearch c;
     CodexApproval := CodexApproval c; CodexBaseURL := CodexBaseURL c; ClaudeBaseURL := ClaudeBaseURL c;
     Env := Env c; EnvAllowlist := EnvAllowlist c; ExecutionProfile := ExecutionProfile c |}.

(** ** Environment of a run with delegation (delegation.go) *)

Definition SocketEnvironment : string := "OPENLINKER_DELEGATION_SOCKET".

(** [removeDelegationSocket] *)
Definition removeDelegationSocket (environment : list string) : list string :=
  List.filter (λ v, negb (HasPrefix v (SocketEnvironment +:+ "="))) environment.

(** What [delegationProvider.Run] adds to the run context. *)
Record delegation_run := {
  dr_Socket : string;
  dr_ProxyBin : string;
  dr_BoundMCPTools : list BoundTool;
  dr_BoundMCPDigest : string;
}.
Definition no_delegation : delegation_run :=
  {| dr_Socket := ""; dr_ProxyBin := ""; dr_BoundMCPTools := []; dr_BoundMCPDigest := "" |}.

(** [providerConfigForDelegationRun]; [process_env] is [os.Environ()]. *)
Definition providerConfigForDelegationRun (process_env : list string) (c : ProviderConfig) (run : delegation_run)
    : ProviderConfig :=
  if bool_decide (dr_Socket run = "") then c
  else
    {| boundMCPTools := dr_BoundMCPTools run; boundMCPDigest := dr_BoundMCPDigest run;
       SessionIsolation := SessionIsolation c; HostAuthConcurrency := HostAuthConcurrency c; sandbox := sandbox c;
       toolPolicy := toolPolicy c; DelegationTargets := DelegationTargets c; DelegationProxyBin := dr_ProxyBin run;
       DelegationBrokerRoot := DelegationBrokerRoot c; DelegationSocket := dr_Socket run; Version := Version c; Provider := Provider c;
       Bin := Bin c; Workspace := Workspace c; Model := Model c; Sandbox := Sandbox c; Permission := Permission c;
       AllowedTools := AllowedTools c; Timeout := Timeout c; SessionReuse := SessionReuse c;
       SessionStorePath := SessionStorePath c; WebSearch := WebSearch c; CodexApproval := CodexApproval c;
       CodexBaseURL := CodexBaseURL c; ClaudeBaseURL := ClaudeBaseURL c;
       Env := Some (removeDelegationSocket (default process_env (Env c)) ++ [SocketEnvironment +:+ "=" +:+ dr_Socket run]);
       EnvAllowlist := appendUniqueString (EnvAllowlist c) SocketEnvironment; ExecutionProfile := ExecutionProfile c |}.

(** [agenthost.DelegationProxyArguments] with the embedded contract *)
Definition DelegationProxyArguments (provider : string) : list string :=
  ["plugin"; "delegation-proxy"; "--host"] ++ [provider].

(** [codexDelegationMCPArguments] *)
Definition codexDelegationMCPArguments (c : ProviderConfig) : list string :=
  if bool_decide (DelegationSocket c = "") then []
  else
    ["-c"; "mcp_servers.openlinker_delegation.command=" +:+ jsonString (DelegationProxyBin c);
     "-c"; "mcp_servers.openlinker_delegation.args=" +:+ marshal (json_strings (DelegationProxyArguments "codex"));
     "-c"; "mcp_servers.openlinker_delegation.env_vars=[" +:+ quoted SocketEnvironment +:+ "]";
     "-c"; "mcp_servers.openlinker_delegation.required=true";
     "-c"; "mcp_servers.openlinker_delegation.enabled_tools=" +:+
           marshal (json_strings (BoundToolNames (DelegationTargets c) (boundMCPTools c)));
     "-c"; "mcp_servers.openlinker_delegation.default_tools_approval_mode=" +:+ quoted "approve"].

(** [claudeRunMCPConfig] *)
Definition claudeRunMCPConfig (c : ProviderConfig) : string :=
  marshal (go_obj [("mcpServers", go_obj
    (if bool_decide (DelegationSocket c = "") then []
     else [("openlinker_delegation", go_obj
              [("type", JStr "stdio"); ("command", JStr (DelegationProxyBin c));
               ("args", json_strings (DelegationProxyArguments "claude"));
               ("env", go_obj [(SocketEnvironment, JStr (DelegationSocket c))])])]))]).

(** [delegationSessionMode] *)
Definition delegationSessionMode (c : ProviderConfig) (mode0 : string) : string :=
  let mode := if bool_decide (boundMCPDigest c = "") then mode0 else mode0 +:+ "_mcp_v1_" +:+ boundMCPDigest c in
  match DelegationTargets c with
  | [] => mode
  | targets =>
      let raw := marshal (JObj [("Targets", json_strings (sort_strings targets)); ("Tools", json_strings ToolNames);
                                ("Bin", JStr (DelegationProxyBin c))]) in
      mode +:+ "_delegation_v1_" +:+ hex_encode (str_take 12 (sha256 raw))
  end.

(** [providerSessionClientMode] *)
Definition providerSessionClientMode (c : ProviderConfig) : string :=
  delegationSessionMode c (match sandbox c with Some _ => "host-auth-tools-v1" | None => "standard" end).

(** ** Claude *)

(** [claudepolicy.BuiltinTools] *)
Definition BuiltinTools (rules : list string) (webSearch : bool) : list string :=
  foldl (λ tools rule,
           let name := (Cut (TrimSpace rule) "(").1.1 in
           if negb (bool_decide (name = "")) && negb (HasPrefix name "mcp__") && negb (bool_decide (name ∈ tools))
           then tools ++ [name] else tools) ["Read"; "Glob"; "Grep"] rules
  ++ (if webSearch then ["WebSearch"; "WebFetch"] else []).

(** [claudepolicy.Settings] *)
Definition claude_settings : list (string * json) :=
  [("disableAllHooks", JBool true); ("autoMemoryEnabled", JBool false); ("claudeMdExcludes", json_strings ["/**"])].

(** [claudepolicy.MCPArgs] *)
Definition MCPArgs (mcp settings : string) (tools : list string) : list string :=
  ["--restricted"; "--no-chrome"; "--disable-slash-commands"; "--strict-mcp-config"; "--mcp-config"; mcp;
   "--permission-prompts"; "none"; "--settings";
   if bool_decide (settings = "") then marshal (go_obj claude_settings) else settings;
   "--tools"; Join tools ","].

(** [nativeClaudeTools] *)
Definition nativeClaudeTools (c : ProviderConfig) : list string :=
  let tools := match AllowedTools c with [] => ["Bash"] | l => l end in
  if WebSearch c then appendUniqueString tools "WebSearch" else tools.

(** The first arguments: how tools and MCP servers are discovered. *)
Definition claude_discovery (c : ProviderConfig) : list string :=
  match sandbox c with
  | Some _ =>
      let settings := match toolPolicy c with Some p => tp_claude p | None => "" end in
      match boundMCPTools c with
      | _ :: _ => MCPArgs (claudeRunMCPConfig c) settings (nativeClaudeTools c)
      | [] => ["--safe-mode"; "--no-chrome"; "--disable-slash-commands"; "--restricted"; "--strict-mcp-config";
               "--mcp-config"; claudeRunMCPConfig c; "--permission-prompts"; "none"; "--settings"; settings;
               "--tools"; Join (nativeClaudeTools c) ","]
      end
  | None =>
      match boundMCPTools c, DelegationTargets c with
      | _ :: _, [] => MCPArgs (claudeRunMCPConfig c) "" (BuiltinTools (AllowedTools c) (WebSearch c))
      | _, _ =>
          if bool_decide (DelegationSocket c = "") then ["--safe-mode"; "--no-chrome"; "--disable-slash-commands"]
          else ["--bare"; "--no-chrome"; "--disable-slash-commands"; "--strict-mcp-config"; "--mcp-config";
                claudeRunMCPConfig c]
      end
  end.

(** The rules passed with [--allowedTools]. *)
Definition claude_allowed (c : ProviderConfig) : list string :=
  let path := "/" +:+ TrimSuffix (Workspace c) "/" +:+ "/**" in
  let base := match sandbox c with
              | Some _ => ["Bash"; "Edit(" +:+ path +:+ ")"; "Write(" +:+ path +:+ ")"] ++
                          (if WebSearch c then ["WebSearch"] else [])
              | None => if WebSearch c then foldl appendUniqueString (AllowedTools c) ["WebSearch"; "WebFetch"]
                        else AllowedTools c
              end in
  if bool_decide (DelegationSocket c = "") then base
  else foldl appendUniqueString base
         (map (λ t, "mcp__openlinker_delegation__" +:+ t) (BoundToolNames (DelegationTargets c) (boundMCPTools c))).

(** [claudeArguments] *)
Definition claudeArguments (c : ProviderConfig) (permission sessionID : string) : list string :=
  claude_discovery c
  ++ ["-p"; "--output-format"; "stream-json"; "--verbose"; "--include-partial-messages"; "--permission-mode";
      match sandbox c with Some _ => "default" | None => permission end]
  ++ (if bool_decide (Model c = "") then [] else ["--model"; Model c])
  ++ match claude_allowed c with [] => [] | allowed => ["--allowedTools"; Join allowed ","] end
  ++ (if WebSearch c then [] else ["--disallowedTools"; "WebSearch,WebFetch"])
  ++ (if bool_decide (sessionID = "") then [] else ["--resume"; sessionID]).

(** ** Codex *)

(** [safeKeys] of [codexCommandEnvironment] *)
Definition safe_keys : list string :=
  ["PATH"; "Path"; "PATHEXT"; "HOME"; "USERPROFILE"; "HOMEDRIVE"; "HOMEPATH"; "SYSTEMROOT"; "SystemRoot"; "WINDIR";
   "COMSPEC"; "TMPDIR"; "TEMP"; "TMP"; "LANG"; "HTTP_PROXY"; "HTTPS_PROXY"; "http_proxy"; "https_proxy"; "NO_PROXY";
   "no_proxy"; "SSL_CERT_FILE"].

(** The variables of an environment; a later entry wins. *)
Definition env_values (environment : list string) : gmap string string :=
  foldl (λ m item, let '(k, v, ok) := Cut item "=" in if ok : bool then <[k := v]> m else m) ∅ environment.

Definition command_pairs (values : gmap string string) : list (string * string) :=
  omap (λ k, (λ v, (k, v)) <$> values !! k) safe_keys.
(** [codexCommandEnvironment] *)
Definition codexCommandEnvironment (environment : list string) : string :=
  "{" +:+ Join (map (λ kv, kv.1 +:+ "=" +:+ jsonString kv.2) (command_pairs (env_values environment))) "," +:+ "}".

Section codex.
Context `{!UnicodePrint}.
Context (process_env : list string).

(** [codexLaunchConfiguration] *)
Definition codexLaunchConfiguration (c : ProviderConfig) (sandbox_mode : string) : list string :=
  let approval := TrimSpace (CodexApproval c) in
  let url := TrimSpace (CodexBaseURL c) in
  (if bool_decide (approval = "") then [] else ["-c"; "approval_policy=" +:+ Quote approval])
  ++ ["-c"; "web_search=" +:+ quoted (if WebSearch c then "live" else "disabled")]
  ++ (if bool_decide (url = "") then []
      else ["-c"; "model_provider=" +:+ quoted "openlinker_proxy";
            "-c"; "model_providers.openlinker_proxy.name=" +:+ quoted "OpenLinker-compatible provider";
            "-c"; "model_providers.openlinker_proxy.base_url=" +:+ Quote url;
            "-c"; "model_providers.openlinker_proxy.env_key=" +:+ quoted "CODEX_API_KEY";
            "-c"; "model_providers.openlinker_proxy.wire_api=" +:+ quoted "responses";
            "-c"; "model_providers.openlinker_proxy.supports_websockets=false"])
  ++ (if bool_decide (sandbox_mode = "danger-full-access")
      then ["-c"; "shell_environment_policy.inherit=" +:+ quoted "none";
            "-c"; "shell_environment_policy.set=" +:+ codexCommandEnvironment (default process_env (Env c))]
      else []).

(** [codexAppServerArguments] *)
Definition codexAppServerArguments (c : ProviderConfig) (workspace sandbox_mode : string) : list string :=
  codexLaunchConfiguration c sandbox_mode
  ++ ["--disable"; "remote_plugin"; "--disable"; "remote_control"; "--disable"; "hooks"; "--disable"; "apps";
      "--disable"; "plugins"]
  ++ match toolPolicy c with Some p => tp_codex p | None => ["-c"; "cli_auth_credentials_store=" +:+ quoted "file"] end
  ++ codexDelegationMCPArguments c
  ++ ["-c"; "projects={" +:+ jsonString workspace +:+ "={trust_level=" +:+ quoted "untrusted" +:+ "}}"]
  ++ ["app-server"; "--listen"; "stdio://"].
End codex.

(** [modelLabel] *)
Definition modelLabel (model : string) : string :=
  if bool_decide (TrimSpace model = "") then "default" else TrimSpace model.

(** ** Claims about the command lines *)

Lemma Cut_inv item k v : Cut item "=" = (k, v, true) → item = k +:+ "=" +:+ v.
Proof.
  revert k. induction item as [|c item IH]; intros k Hc; [done|]. cbn [Cut] in Hc.
  case_bool_decide; [by simplify_eq|]. destruct (Cut item "=") as [[b a] f]. simplify_eq. by rewrite (IH b eq_refl).
Qed.

(** The value of the last entry that sets [k]. *)
Definition last_set (k : string) (environment : list string) : option string :=
  foldl (λ o item, let '(k', v, ok) := Cut item "=" in if (ok : bool) && bool_decide (k' = k) then Some v else o)
        None environment.

Lemma env_values_last k environment : env_values environment !! k = last_set k environment.
Proof.
  unfold env_values, last_set.
  enough (∀ (m : gmap string string),
    foldl (λ (m : gmap string string) item, let '(k, v, ok) := Cut item "=" in if ok : bool then <[k := v]> m else m)
          m environment !! k =
    foldl (λ o item, let '(k', v, ok) := Cut item "=" in if (ok : bool) && bool_decide (k' = k) then Some v else o)
          (m !! k) environment) as H by apply H.
  induction environment as [|item l IH]; intros m; [done|]. cbn [foldl]. rewrite IH. f_equal.
  destruct (Cut item "=") as [[k' v] []]; [|done]. simpl. case_bool_decide as Hk; [by rewrite Hk, lookup_insert_eq|].
  by rewrite lookup_insert_ne.
Qed.

(** The environment of the commands a Codex model runs holds exactly the safe
    names, each with the value of its last entry: no credential of the provider,
    of the platform or of the operator reaches it under any other name. *)
Theorem command_environment_safe environment k v :
  (k, v) ∈ command_pairs (env_values environment) ↔ k ∈ safe_keys ∧ last_set k environment = Some v.
Proof.
  unfold command_pairs. rewrite list_elem_of_omap. split.
  - intros (k' & Hk & Hv). rewrite env_values_last in Hv. destruct (last_set k' environment) eqn:Hl; [|done]. by simplify_eq/=.
  - intros [Hk Hl]. exists k. split; [done|]. by rewrite env_values_last, Hl.
Qed.

(** ** The session mode

    Native sessions are resumed only under the mode they were saved with. *)

Lemma str_length_hex s : String.length (hex_encode s) = (2 * String.length s)%nat.
Proof. apply hex_encode_length. Qed.

Definition truncated_collision : Prop := ∃ x y, x ≠ y ∧ str_take 12 (sha256 x) = str_take 12 (sha256 y).

(** What a mode is a fingerprint of. *)
Record tool_surface (c c' : ProviderConfig) : Prop := {
  ts_sandboxed : is_Some (sandbox c) ↔ is_Some (sandbox c');
  ts_bound : boundMCPDigest c = boundMCPDigest c';
  ts_targets : sort_strings (DelegationTargets c) = sort_strings (DelegationTargets c');
  ts_bin : DelegationTargets c ≠ [] → DelegationProxyBin c = DelegationProxyBin c';
}.
(** What [ValidateTargets], [DecodeBound] and [LookPath] give. *)
Record mode_ready (c : ProviderConfig) : Prop := {
  mr_targets : Forall (λ t, ValidString t = true) (DelegationTargets c);
  mr_bin : ValidString (DelegationProxyBin c) = true;
  mr_digest : boundMCPDigest c = "" ∨ String.length (boundMCPDigest c) = 64%nat;
}.

Definition target_text (c : ProviderConfig) : json :=
  JObj [("Targets", json_strings (sort_strings (DelegationTargets c))); ("Tools", json_strings ToolNames);
        ("Bin", JStr (DelegationProxyBin c))].
Definition target_suffix (c : ProviderConfig) : string :=
  match DelegationTargets c with
  | [] => ""
  | _ => "_delegation_v1_" +:+ hex_encode (str_take 12 (sha256 (marshal (target_text c))))
  end.
Definition bound_suffix (c : ProviderConfig) : string :=
  if bool_decide (boundMCPDigest c = "") then "" else "_mcp_v1_" +:+ boundMCPDigest c.
Definition mode_base (c : ProviderConfig) : string :=
  match sandbox c with Some _ => "host-auth-tools-v1" | None => "standard" end.

Lemma client_mode_parts c :
  providerSessionClientMode c = mode_base c +:+ bound_suffix c +:+ target_suffix c.
Proof.
  unfold providerSessionClientMode, delegationSessionMode, bound_suffix, target_suffix. fold (mode_base c).
  case_bool_decide; destruct (DelegationTargets c) eqn:Ht; unfold target_text;
    by rewrite ?Ht, ?str_app_nil_r, ?str_app_assoc, ?str_app_nil_r.
Qed.

#[local] Opaque sha256.

Lemma str_take_length n s : String.length (str_take n s) = Nat.min n (String.length s).
Proof. revert s. induction n as [|n IH]; intros [|c s]; try done. cbn [str_take String.length]. by rewrite IH. Qed.

(** Each of the parts has one of two lengths, and no two sums agree. *)
Lemma mode_base_length c :
  String.length (mode_base c) = (if sandbox c then 18 else 8)%nat.
Proof. unfold mode_base. by destruct (sandbox c). Qed.
Lemma bound_suffix_length c :
  mode_ready c → String.length (bound_suffix c) = (if decide (boundMCPDigest c = "") then 0 else 72)%nat.
Proof.
  intros [_ _ Hd]. unfold bound_suffix. destruct (decide _) as [->|Hne]; [done|].
  rewrite bool_decide_eq_false_2 by done. destruct Hd as [|Hd]; [done|]. rewrite str_length_app, Hd. done.
Qed.
Lemma target_suffix_length c :
  String.length (target_suffix c) = (if decide (DelegationTargets c = []) then 0 else 39)%nat.
Proof.
  unfold target_suffix. destruct (decide _) as [->|Hne]; [done|]. destruct (DelegationTargets c); [done|].
  rewrite str_length_app, hex_encode_length, str_take_length, sha256_length. done.
Qed.

Lemma json_strings_nesting l : nesting (json_strings l) = 1.
Proof. unfold json_strings. cbn [nesting]. by induction l as [|x l IH]; [|cbn in *; lia]. Qed.
Lemma json_strings_encodable l : Forall (λ t, ValidString t = true) l → encodable (json_strings l).
Proof. intros H. constructor. apply Forall_map. eapply list.Forall_impl; [done|]. by constructor. Qed.

Lemma target_text_encodable c : mode_ready c → encodable (target_text c) ∧ nesting (target_text c) <= max_nesting.
Proof.
  intros [Ht Hb _]. split.
  - constructor. rewrite !list.Forall_cons, list.Forall_nil. split_and!; try done; cbn [snd].
    + apply json_strings_encodable. unfold sort_strings. by rewrite sorting.merge_sort_Permutation.
    + apply json_strings_encodable. unfold ToolNames. by rewrite !list.Forall_cons, list.Forall_nil.
    + by constructor.
  - unfold target_text. cbn [nesting map snd foldr]. rewrite !json_strings_nesting. unfold max_nesting. lia.
Qed.

Lemma target_text_inj c c' :
  mode_ready c → mode_ready c' → marshal (target_text c) = marshal (target_text c') →
  sort_strings (DelegationTargets c) = sort_strings (DelegationTargets c') ∧ DelegationProxyBin c = DelegationProxyBin c'.
Proof.
  intros [Hc Hn]%target_text_encodable [Hc' Hn']%target_text_encodable Heq.
  apply marshal_parse in Hc; [|done]. apply marshal_parse in Hc'; [|done]. rewrite Heq, Hc' in Hc.
  apply (inj Some) in Hc. unfold target_text, json_strings in Hc. injection Hc as Ht Hb. split; [|done].
  assert (Inj (=) (=) JStr) as Hinj by (intros ??; congruence). symmetry. by apply (inj (fmap JStr)).
Qed.

Lemma bound_suffix_inj c c' : bound_suffix c = bound_suffix c' → boundMCPDigest c = boundMCPDigest c'.
Proof.
  unfold bound_suffix. repeat case_bool_decide; try congruence; [intros H1; by destruct (boundMCPDigest c')..|].
  intros H1. by apply str_app_inv in H1 as [].
Qed.

Lemma target_suffix_inj c c' :
  mode_ready c → mode_ready c' → target_suffix c = target_suffix c' →
  (sort_strings (DelegationTargets c) = sort_strings (DelegationTargets c') ∧
   (DelegationTargets c ≠ [] → DelegationProxyBin c = DelegationProxyBin c')) ∨ truncated_collision.
Proof.
  intros Hc Hc' Heq. unfold target_suffix in Heq.
  destruct (DelegationTargets c) as [|t l] eqn:Ht, (DelegationTargets c') as [|t' l'] eqn:Ht'; try done; [by left|].
  apply str_app_inv in Heq as [_ Heq]; [|done]. apply hex_encode_inj in Heq.
  destruct (decide (marshal (target_text c) = marshal (target_text c'))) as [Hm|Hm]; [left|right; by eexists _, _].
  apply target_text_inj in Hm as [Hl Hb]; [|done..]. by rewrite <-Ht, <-Ht'.
Qed.

(** A provider session is resumed only under the tool surface it was saved with:
    two runs whose modes agree have both or neither a sandbox, the same bound MCP
    tools, the same delegation targets and the same proxy binary. *)
Theorem session_mode_fingerprint c c' :
  mode_ready c → mode_ready c' → providerSessionClientMode c = providerSessionClientMode c' →
  tool_surface c c' ∨ truncated_collision.
Proof.
  intros Hc Hc' Heq. rewrite !client_mode_parts in Heq. pose proof (f_equal String.length Heq) as Hlen.
  rewrite !str_length_app, !mode_base_length, !bound_suffix_length, !target_suffix_length in Hlen by done.
  assert (String.length (mode_base c) = String.length (mode_base c') ∧
          String.length (bound_suffix c) = String.length (bound_suffix c')) as [Hs Hb].
  { rewrite !mode_base_length, !bound_suffix_length by done.
    destruct (sandbox c), (sandbox c'), (decide (boundMCPDigest c = "")), (decide (boundMCPDigest c' = "")),
      (decide (DelegationTargets c = [])), (decide (DelegationTargets c' = [])); lia. }
  apply str_app_inv in Heq as [_ Heq]; [|done]. apply str_app_inv in Heq as [Hbound Htarget]; [|done].
  destruct (target_suffix_inj c c' Hc Hc' Htarget) as [[Ht Hbin]|]; [left|by right].
  rewrite !mode_base_length in Hs. split; [|by apply bound_suffix_inj|done|done].
  destruct (sandbox c), (sandbox c'); split; intros []; by eauto.
Qed.

(** ** The tools of a sandboxed Claude run *)

Lemma elem_of_appendUniqueString x l y : x ∈ appendUniqueString l y ↔ x ∈ l ∨ x = y.
Proof. unfold appendUniqueString. case_bool_decide; set_solver. Qed.
Lemma elem_of_append_unique x l ys : x ∈ foldl appendUniqueString l ys ↔ x ∈ l ∨ x ∈ ys.
Proof.
  revert l. induction ys as [|y ys IH]; intros l; [set_solver|]. cbn [foldl].
  rewrite IH, elem_of_appendUniqueString. set_solver.
Qed.

(** The files a rule of a sandboxed run may change. *)
Definition workspace_rule (c : ProviderConfig) (tool : string) : string :=
  tool +:+ "(" +:+ "/" +:+ TrimSuffix (Workspace c) "/" +:+ "/**" +:+ ")".

Inductive sandbox_rule (c : ProviderConfig) : string → Prop :=
  | SR_bash : sandbox_rule c "Bash"
  | SR_file tool : tool ∈ ["Edit"; "Write"] → sandbox_rule c (workspace_rule c tool)
  | SR_search : WebSearch c = true → sandbox_rule c "WebSearch"
  | SR_own tool : DelegationSocket c ≠ "" → tool ∈ BoundToolNames (DelegationTargets c) (boundMCPTools c) →
      sandbox_rule c ("mcp__openlinker_delegation__" +:+ tool).

Lemma claude_allowed_sandboxed c r :
  is_Some (sandbox c) → r ∈ claude_allowed c ↔ sandbox_rule c r.
Proof.
  intros [s Hs]. unfold claude_allowed. rewrite Hs.
  assert (∀ r, r ∈ ["Bash"; "Edit(" +:+ ("/" +:+ TrimSuffix (Workspace c) "/" +:+ "/**") +:+ ")";
                    "Write(" +:+ ("/" +:+ TrimSuffix (Workspace c) "/" +:+ "/**") +:+ ")"] ++
                   (if WebSearch c then ["WebSearch"] else []) ↔
          r = "Bash" ∨ r = workspace_rule c "Edit" ∨ r = workspace_rule c "Write" ∨ (WebSearch c = true ∧ r = "WebSearch"))
    as Hbase.
  { intros r'. unfold workspace_rule. rewrite !str_app_assoc. destruct (WebSearch c); set_solver. }
  case_bool_decide as Hd.
  - rewrite Hbase. split.
    + intros [->|[->|[->|[? ->]]]]; try (apply SR_file; set_solver); by constructor.
    + intros [| tool Ht| |]; [by left| |by auto|done]. set_solver.
  - rewrite elem_of_append_unique, Hbase, list_elem_of_fmap. split.
    + intros [[->|[->|[->|[? ->]]]]|(t & -> & Ht)]; try (apply SR_file; set_solver); by constructor.
    + intros [| tool Ht| |tool _ Ht]; [by auto 10|left; set_solver|by auto 10|eauto].
Qed.

(** A sandboxed Claude run is told to ask for no permission beyond its rules, and
    its rules are Bash (inside the sandbox), edits and writes below the workspace
    of the conversation, web search when the operator enabled it, and the tools of
    its own delegation server: neither the operator's [--allowedTools] nor the
    configured permission mode widens them. *)
Theorem sandboxed_claude_confined c permission sessionID r :
  is_Some (sandbox c) →
  claudeArguments c permission sessionID = claudeArguments c "default" sessionID ∧
  ["--permission-mode"; "default"] `sublist_of` claudeArguments c permission sessionID ∧
  ["--allowedTools"; Join (claude_allowed c) ","] `sublist_of` claudeArguments c permission sessionID ∧
  (WebSearch c = false → ["--disallowedTools"; "WebSearch,WebFetch"] `sublist_of` claudeArguments c permission sessionID) ∧
  (r ∈ claude_allowed c ↔ sandbox_rule c r).
Proof.
  intros Hs. pose proof (claude_allowed_sandboxed c r Hs) as Hr.
  assert (∃ a l, claude_allowed c = a :: l) as (a & l & Hl).
  { destruct (claude_allowed c) eqn:Hn; [|by eauto].
    pose proof (claude_allowed_sandboxed c "Bash" Hs) as [_ Hb]. rewrite Hn in Hb. by apply elem_of_nil in Hb; [|constructor]. }
  destruct Hs as [s Hs]. unfold claudeArguments. rewrite Hs, Hl. split_and!; [done|..|by rewrite <-Hl].
  - apply sublist_inserts_l, sublist_inserts_r. by do 5 apply sublist_cons.
  - do 3 apply sublist_inserts_l. by apply sublist_inserts_r.
  - intros ->. do 4 apply sublist_inserts_l. by apply sublist_inserts_r.
Qed.

(** ** Instances *)
Module ConfigExamples.

Definition session : Session :=
  {| s_control := "/state/aa"; s_data := "/state/aa/data"; s_policy := "1"; s_runtimeBin := "/bin/claude"; s_temp := "";
     s_lock := None |}.
Definition isolation : Sandbox.Config :=
  {| Mode := "native"; Root := "/state"; Namespace := "ns"; RuntimeBin := "/bin/claude"; TempRoot := ""; ReadPaths := [];
     AllowedDomains := [] |}.
Definition config (box : option Session) (targets : list string) (socket : string) : ProviderConfig :=
  {| boundMCPTools := []; boundMCPDigest := ""; SessionIsolation := isolation; HostAuthConcurrency := "serial";
     sandbox := box; toolPolicy := None; DelegationTargets := targets; DelegationProxyBin := "/bin/openlinker-agent-node";
     DelegationBrokerRoot := "/tmp/b"; DelegationSocket := socket; Version := ""; Provider := "claude"; Bin := "claude";
     Workspace := "/state/aa/data/workspace"; Model := ""; ProviderConfig.Sandbox := ""; Permission := "bypassPermissions";
     AllowedTools := ["Read"; "Bash(rm:*)"]; Timeout := 0; SessionReuse := true; SessionStorePath := "/state/sessions.json";
     WebSearch := false; CodexApproval := ""; CodexBaseURL := ""; ClaudeBaseURL := ""; Env := None; EnvAllowlist := [];
     ExecutionProfile := "" |}.

Lemma sandboxed_claude_confined_witness :
  let c := config (Some session) ["reviewer"] "/tmp/b/s.sock" in
  claude_allowed c = ["Bash"; "Edit(//state/aa/data/workspace/**)"; "Write(//state/aa/data/workspace/**)";
                      "mcp__openlinker_delegation__delegate_agent"; "mcp__openlinker_delegation__get_delegated_run";
                      "mcp__openlinker_delegation__wait_delegated_run"] ∧
  ["--permission-mode"; "default"] `sublist_of` claudeArguments c "bypassPermissions" "" ∧
  ("Read" ∈ claude_allowed c ↔ sandbox_rule c "Read").
Proof.
  intros c. assert (is_Some (sandbox c)) as Hs by (eexists; reflexivity).
  destruct (sandboxed_claude_confined c "bypassPermissions" "" "Read" Hs) as (_ & Hp & _ & _ & Hr).
  split; [vm_compute; reflexivity|]. by split.
Defined.

Lemma ready box targets socket :
  forallb ValidString targets = true → mode_ready (config box targets socket).
Proof. intros H. split; [|done|by left]. apply list.Forall_forall. intros t Ht. by eapply List.forallb_forall in H; [|by apply list_elem_of_In]. Qed.

Lemma session_mode_fingerprint_witness :
  let c := config None ["a"; "b"] "/tmp/1.sock" in
  let c' := config None ["b"; "a"] "/tmp/2.sock" in
  providerSessionClientMode c = providerSessionClientMode c' ∧
  providerSessionClientMode c ≠ providerSessionClientMode (config (Some session) ["a"; "b"] "/tmp/1.sock") ∧
  (tool_surface c c' ∨ truncated_collision).
Proof.
  intros c c'. assert (providerSessionClientMode c = providerSessionClientMode c') as Heq by (vm_compute; reflexivity).
  split; [exact Heq|]. split; [vm_compute; discriminate|].
  apply (session_mode_fingerprint c c'); [by apply ready..|exact Heq].
Defined.
End ConfigExamples.
