(* ===== verification/Resolve.v ===== *)
(** * Canonical paths of files that may not exist yet

    [canonicalExisting] and [CheckOutsideGitWorktree] of sessionsandbox/session.go
    and [canonicalProspectivePath] of native_tool_policy.go: the deepest existing
    ancestor is resolved and the rest appended. *)

From S2P Require Import Prelude GoStrings Paths PrivateFiles SessionStore Sandbox.
From stdpp Require Import options.

Open Scope Z_scope.

(** The loop of both; [eval] is [filepath.EvalSymlinks]. *)
Fixpoint canonical_walk (fuel : nat) (eval : string → option string) (p fallback dir : string) : option string :=
  match fuel with
  | O => None
  | S fuel' =>
      match eval dir with
      | Some resolved => Some (JoinPath [resolved; default "" (Rel dir p)])
      | None => if bool_decide (Dir dir = dir) then Some fallback else canonical_walk fuel' eval p fallback (Dir dir)
      end
  end.

(** [canonicalExisting] *)
Definition canonicalExisting (eval : string → option string) (p : string) : option string :=
  canonical_walk (S (S (String.length p))) eval p p p.

(** [canonicalProspectivePath] *)
Definition canonicalProspectivePath (eval : string → option string) (p : string) : option string :=
  canonical_walk (S (S (String.length (Clean p)))) eval p (Clean p) (Clean p).

(** [CheckOutsideGitWorktree]; out of fuel is not a result. *)
Definition CheckOutsideGitWorktree (fs : filesystem) (eval : string → option string) (p : string) : option go_error :=
  if negb (safePath p) then Some (ENew "session root must be an absolute path")
  else match canonicalExisting eval (Clean p) ≫= gitWorktree fs with
       | Some false => None
       | _ => Some ErrGitWorktree
       end.

(** ** The resolved path *)

Lemma rooted_clean p : IsAbs p = true → rooted (clean_elements p).
Proof. apply clean_elements_rooted. Qed.

Lemma render_clean p : IsAbs p = true → Clean p = render true (clean_elements p).
Proof. intros Hp. unfold Clean, clean_elements. by rewrite Hp. Qed.

Lemma clean_elements_render es : rooted es → clean_elements (render true es) = es.
Proof. intros Hr. unfold clean_elements. rewrite IsAbs_render, elements_render by apply Hr. by apply resolve_rooted. Qed.

Lemma rooted_app es es' : rooted es → rooted es' → rooted (es ++ es').
Proof. intros [H1 H2] [H3 H4]. split; [by apply Forall_app|set_solver]. Qed.
Lemma rooted_drop n es : rooted es → rooted (drop n es).
Proof.
  intros [H1 H2]. split; [by apply Forall_drop|]. intros Hin. apply H2. rewrite <-(take_drop n es). set_solver.
Qed.

Lemma Rel_below es m :
  rooted es → Rel (render true (take m es)) (render true es) = Some (render false (drop m es)).
Proof.
  intros Hr. pose proof (rooted_take m es Hr) as Ht. unfold Rel.
  rewrite !IsAbs_render, !clean_elements_render by (done || apply Hr || apply Ht). cbn [Bool.eqb negb].
  destruct (strip_common_app (take m es) es) as (pre & Ha & Hb & Hiff).
  destruct (strip_common (take m es) es) as [up down] eqn:Hs. cbn [fst snd] in *.
  assert (up = []) as -> by (apply Hiff; exists (drop m es); by rewrite take_drop). rewrite app_nil_r in Ha. subst pre.
  assert (down = drop m es) as ->; [|by destruct (drop m es)]. rewrite <-(take_drop m es) in Hb at 1. by apply app_inv_head in Hb.
Qed.

(** [Rel] looks at the cleaned elements only. *)
Lemma Rel_clean base p : IsAbs p = true → Rel base p = Rel base (render true (clean_elements p)).
Proof.
  intros Hp. pose proof (rooted_clean p Hp) as Hr. unfold Rel.
  by rewrite Hp, IsAbs_render, clean_elements_render by (done || apply Hr).
Qed.

Lemma foldl_push_down es st : ".." ∉ es → foldl (push true) st es = reverse es ++ st.
Proof.
  revert st. induction es as [|e es IH]; intros st Hd; [done|]. apply not_elem_of_cons in Hd as [He Hd].
  cbn [foldl]. rewrite IH by done. unfold push. rewrite bool_decide_false by congruence. by rewrite reverse_cons, <-app_assoc.
Qed.

#[local] Set Default Proof Using "Type*".
Section resolve.
Context (eval : string → option string).
(** A resolved path is absolute and clean. *)
Context (Heval : ∀ p r, eval p = Some r → IsAbs r = true ∧ Clean r = r).

Lemma join_resolved r es :
  IsAbs r = true → rooted es →
  JoinPath [r; render false es] = render true (clean_elements r ++ es).
Proof.
  intros Hr Hes. rewrite JoinPath_two; [|by apply abs_nonempty|].
  2:{ destruct es as [|e [|e' l]]; [done| |by destruct e]. by destruct Hes as [[(He & _) _]%list.Forall_cons _]. }
  assert (elements (render false es) = es) as He by apply elements_render, Hes.
  set (tail := render false es) in *. clearbody tail.
  unfold Clean. rewrite IsAbs_app by done. change ("/" +:+ tail) with (String "/" tail).
  unfold elements in *. rewrite Split_app, List.filter_app, He. fold (elements r). f_equal.
  unfold clean_elements. rewrite Hr. unfold resolve. rewrite foldl_app, foldl_push_down by apply Hes.
  by rewrite reverse_app, reverse_involutive.
Qed.

(** What a path denotes: the deepest ancestor that exists, resolved, with the
    missing elements below it. *)
Definition denotes (es : list string) (q : string) : Prop :=
  (∃ m r, (m <= length es)%nat ∧ eval (ancestor es m) = Some r ∧ (∀ k, (m < k <= length es)%nat → eval (ancestor es k) = None) ∧
     q = render true (clean_elements r ++ drop m es)) ∨
  ((∀ k, (k <= length es)%nat → eval (ancestor es k) = None) ∧ q = render true es).

Lemma canonical_walk_denotes p fuel n :
  IsAbs p = true → let es := clean_elements p in
  (n <= length es)%nat → (n < fuel)%nat → (∀ k, (n < k <= length es)%nat → eval (ancestor es k) = None) →
  ∃ q, canonical_walk fuel eval p (Clean p) (ancestor es n) = Some q ∧ denotes es q.
Proof.
  intros Hp es. pose proof (rooted_clean p Hp) as Hr. fold es in Hr. revert n.
  induction fuel as [|fuel IH]; intros n Hn Hf Hnone; [lia|]. cbn [canonical_walk].
  destruct (eval (ancestor es n)) as [r|] eqn:He.
  - eexists. split; [done|]. left. exists n, r. split_and!; try done. rewrite (Rel_clean _ p) by done. fold es.
    unfold ancestor. rewrite Rel_below by done. cbn [default]. unfold id. apply join_resolved; [by eapply Heval|by apply rooted_drop].
  - destruct n as [|n].
    + unfold ancestor. rewrite take_0, Dir_root, bool_decide_true by done. eexists. split; [done|]. right.
      split; [|by apply render_clean]. intros [|k] Hk; [done|]. apply Hnone. lia.
    + destruct (Dir_ancestor es n Hr ltac:(lia)) as [-> Hne]. rewrite bool_decide_false by done.
      apply IH; [lia|lia|]. intros k Hk. destruct (decide (k = S n)) as [->|]; [done|apply Hnone; lia].
Qed.

Lemma ancestor_all p : IsAbs p = true → ancestor (clean_elements p) (length (clean_elements p)) = Clean p.
Proof. intros Hp. unfold ancestor. rewrite take_ge by done. symmetry. by apply render_clean. Qed.
Lemma clean_fuel p : IsAbs p = true → (length (clean_elements p) < S (S (String.length (Clean p))))%nat.
Proof.
  intros Hp. rewrite render_clean by done. unfold render. rewrite str_length_app.
  pose proof (elements_length _ (proj1 (rooted_clean p Hp))). lia.
Qed.

Lemma prospective_denotes p :
  IsAbs p = true → ∃ q, canonicalProspectivePath eval p = Some q ∧ denotes (clean_elements p) q.
Proof.
  intros Hp. pose proof (canonical_walk_denotes p (S (S (String.length (Clean p)))) (length (clean_elements p)) Hp) as Hw.
  cbn zeta in Hw. rewrite ancestor_all in Hw by done. apply Hw; [lia|by apply clean_fuel|lia].
Qed.

Lemma existing_denotes p :
  IsAbs p = true → ∃ q, canonicalExisting eval (Clean p) = Some q ∧ denotes (clean_elements p) q.
Proof.
  intros Hp. assert (IsAbs (Clean p) = true) as Hc by by rewrite IsAbs_Clean. rewrite <-(clean_elements_Clean p).
  pose proof (canonical_walk_denotes (Clean p) (S (S (String.length (Clean p)))) (length (clean_elements (Clean p))) Hc) as Hw.
  cbn zeta in Hw. rewrite ancestor_all, Clean_idempotent in Hw by done. apply Hw; [lia| |lia].
  rewrite clean_elements_Clean. by apply clean_fuel.
Qed.

Lemma denotes_clean es q : rooted es → denotes es q → IsAbs q = true ∧ Clean q = q.
Proof.
  intros Hr [(m & r & _ & He & _ & ->)|[_ ->]].
  - destruct (Heval _ _ He) as [Ha _]. assert (rooted (clean_elements r ++ drop m es)) as Hx.
    { apply rooted_app; [by apply rooted_clean|by apply rooted_drop]. }
    split; [apply IsAbs_render, Hx|by apply Clean_render].
  - split; [apply IsAbs_render, Hr|by apply Clean_render].
Qed.

(** The root of the sessions is accepted exactly when neither the directory it
    denotes, through the links of its existing ancestors, nor a directory above
    that one is a git worktree. *)
Theorem outside_worktree_exact fs p :
  safePath p = true →
  ∃ q, denotes (clean_elements p) q ∧
    (CheckOutsideGitWorktree fs eval p = None ↔
     ∀ n, (n <= length (clean_elements q))%nat → fs !! JoinPath [ancestor (clean_elements q) n; ".git"] = None).
Proof.
  intros Hs. assert (IsAbs p = true) as Hp by (unfold safePath in Hs; by go_bool).
  destruct (existing_denotes p Hp) as (q & Hq & Hd). exists q. split; [done|].
  destruct (denotes_clean _ q (rooted_clean p Hp) Hd) as [Ha Hc].
  unfold CheckOutsideGitWorktree. rewrite Hs, Hq. cbn [negb mbind option_bind].
  destruct (git_worktree_exact fs q Ha Hc) as (b & -> & Hiff). destruct b; (split; [|]); try done.
  - intros Hno. destruct (proj1 Hiff eq_refl) as (n & Hn & [i Hi]). by rewrite Hno in Hi.
  - intros _ n Hn. apply eq_None_not_Some. intros Hi. assert (false = true); [apply Hiff; eauto|done].
Qed.
End resolve.

(** ** Instances *)
Module ResolveExamples.

(** "/home/u" is a link to "/srv/repo", which is a worktree. *)
Definition eval (p : string) : option string :=
  if bool_decide (p = "/home/u") then Some "/srv/repo"
  else if bool_decide (p ∈ ["/"; "/srv"; "/home"; "/srv/repo"]) then Some p else None.
Definition fs : filesystem := {[ "/srv/repo/.git" := private_dir ]}.

Lemma eval_resolved p r : eval p = Some r → IsAbs r = true ∧ Clean r = r.
Proof. unfold eval. repeat case_bool_decide; intros [= <-]; [done|]. set_unfold. by destruct_or!; subst. Qed.

Lemma outside_worktree_exact_witness :
  CheckOutsideGitWorktree fs eval "/home/u/sessions" = Some ErrGitWorktree ∧
  CheckOutsideGitWorktree fs eval "/home/v/sessions" = None ∧
  ∃ q, denotes eval (clean_elements "/home/u/sessions") q ∧
    (CheckOutsideGitWorktree fs eval "/home/u/sessions" = None ↔
     ∀ n, (n <= length (clean_elements q))%nat → fs !! JoinPath [ancestor (clean_elements q) n; ".git"] = None).
Proof.
  split; [reflexivity|]. split; [reflexivity|].
  apply (outside_worktree_exact eval eval_resolved fs "/home/u/sessions"). reflexivity.
Defined.
End ResolveExamples.
