(* ===== verification/Url.v ===== *)
(** * Package net/url and the model endpoint

    [url.Parse], [URL.String], [URL.Hostname] and [URL.Port] of Go 1.26 as the Node
    uses them (the texts of parse errors are never shown, so a failed parse is
    [None]), and pkg/adapters/model_endpoint.go on top of them. *)

From S2P Require Import Prelude GoStrings GoNet Paths.
From stdpp Require Import options.

Open Scope Z_scope.

(** ** Bytes *)

Definition between (lo hi : Z) (c : ascii) : bool := (lo <=? byte_val c) && (byte_val c <=? hi).
Definition is_lower_letter : ascii → bool := between 97 122.
Definition is_alpha (c : ascii) : bool := is_lower_letter c || between 65 90 c.
Definition is_alnum (c : ascii) : bool := is_alpha c || is_digit c.
(** [stringContainsCTLByte] *)
Definition is_ctl (c : ascii) : bool := (byte_val c <? 0x20) || (byte_val c =? 0x7F).

(** At the last occurrence of a byte: what is before and after it. *)
Fixpoint CutLast (s : string) (sep : ascii) : option (string * string) :=
  match s with
  | EmptyString => None
  | String c s' =>
      match CutLast s' sep with
      | Some (before, after) => Some (String c before, after)
      | None => if bool_decide (c = sep) then Some (EmptyString, s') else None
      end
  end.

(** ** Escapes *)

Inductive encoding := encodePath | encodeUserPassword | encodeHost | encodeZone | encodeFragment.
#[global] Instance encoding_eq_dec : EqDecision encoding.
Proof. solve_decision. Defined.

Definition host_mode (mode : encoding) : bool := bool_decide (mode = encodeHost) || bool_decide (mode = encodeZone).

Definition quote_char : ascii := byte_of 0x22.
Definition shouldEscape (c : ascii) (mode : encoding) : bool :=
  if is_alnum c then false
  else if host_mode mode && (in_cutset "!$&'()*+,;=:[]<>" c || bool_decide (c = quote_char)) then false
  else if in_cutset "-_.~" c then false
  else if in_cutset "$&+,/:;=?@" c then
    match mode with
    | encodePath => bool_decide (c = "?"%char)
    | encodeUserPassword => in_cutset "@/?:" c
    | encodeFragment => false
    | encodeHost | encodeZone => true
    end
  else if bool_decide (mode = encodeFragment) && in_cutset "!()*" c then false
  else true.

Fixpoint unescape (s : string) (mode : encoding) : option string :=
  match s with
  | EmptyString => Some EmptyString
  | String c s' =>
      if bool_decide (c = "%"%char) then
        match s' with
        | String a (String b s'') =>
            match hex_value a, hex_value b with
            | Some x, Some y =>
                let percent := bool_decide (a = "2"%char) && bool_decide (b = "5"%char) in
                let v := byte_of (x * 16 + y) in
                if (bool_decide (mode = encodeHost) && (x <? 8) && negb percent) ||
                   (bool_decide (mode = encodeZone) && negb percent && negb (bool_decide (v = " "%char)) &&
                    shouldEscape v encodeHost)
                then None else String v <$> unescape s'' mode
            | _, _ => None
            end
        | _ => None
        end
      else if host_mode mode && (byte_val c <? 0x80) && shouldEscape c mode then None
      else String c <$> unescape s' mode
  end.

Definition upper_hex (z : Z) : ascii := byte_of (if z <? 10 then 48 + z else 55 + z).
Fixpoint escape (s : string) (mode : encoding) : string :=
  match s with
  | EmptyString => EmptyString
  | String c s' =>
      (if shouldEscape c mode
       then String "%" (String (upper_hex (Z.shiftr (byte_val c) 4)) (String (upper_hex (Z.land (byte_val c) 15)) ""))
       else String c "") +:+ escape s' mode
  end.
Definition validEncoded (s : string) (mode : encoding) : bool :=
  str_forallb (λ c, in_cutset "!$&'()*+,;=:@[]%" c || negb (shouldEscape c mode)) s.

(** ** URLs *)

Record Userinfo := { username : string; password : option string }.
Record URL := {
  Scheme : string;
  Opaque : string;
  User : option Userinfo;
  Host : string;
  Path : string;
  RawPath : string;
  OmitHost : bool;
  ForceQuery : bool;
  RawQuery : string;
  Fragment : string;
  RawFragment : string;
}.

(** [getScheme]: the scheme and the rest; [first] is true at index 0. *)
Fixpoint getScheme (first : bool) (s : string) : option (option (string * string)) :=
  match s with
  | EmptyString => Some None
  | String c s' =>
      let more := match getScheme false s' with
                  | Some (Some (scheme, rest)) => Some (Some (String c scheme, rest))
                  | r => r
                  end in
      if is_alpha c then more
      else if is_digit c || in_cutset "+-." c then (if first then Some None else more)
      else if bool_decide (c = ":"%char) then (if first then None else Some (Some (EmptyString, s')))
      else Some None
  end.

Definition validOptionalPort (port : string) : bool :=
  match port with
  | EmptyString => true
  | String c digits => bool_decide (c = ":"%char) && str_forallb is_digit digits
  end.

(** [netip.ParseAddr] followed by [Addr.Is4]: an IPv6 address, perhaps with a zone. *)
Definition is_ipv6_literal (s : string) : bool :=
  let '(addr, zone, scoped) := Cut s "%" in
  negb (scoped && bool_decide (zone = "")) && bool_decide (is_Some (parse_ipv6 addr)).

(** Cut at the first [%25]. *)
Fixpoint cut_zone (s : string) : string * string :=
  if HasPrefix s "%25" then (EmptyString, s)
  else match s with
       | EmptyString => (EmptyString, EmptyString)
       | String c s' => let '(h, z) := cut_zone s' in (String c h, z)
       end.

Definition parseHost (scheme host : string) : option string :=
  match CutLast host "[" with
  | Some (before, after) =>
      if bool_decide (before = "") then
        '(hostname, colonPort) ← CutLast after "]";
        if validOptionalPort colonPort then
          port ← unescape colonPort encodeHost;
          let '(h, z) := cut_zone hostname in
          h' ← unescape h encodeHost;
          z' ← unescape z encodeZone;
          if is_ipv6_literal (h' +:+ z') then Some ("[" +:+ h' +:+ z' +:+ "]" +:+ port) else None
        else None
      else None
  | None =>
      let '(_, after, found) := Cut host ":" in
      let colonPort :=
        match CutLast host ":" with
        | Some (_, port) => if bool_decide (scheme = "postgresql") || bool_decide (scheme = "postgres") then port else after
        | None => after
        end in
      if found && negb (validOptionalPort (":" +:+ colonPort)) then None else unescape host encodeHost
  end.

Definition validUserinfo (s : string) : bool :=
  str_forallb (λ c, is_alnum c || in_cutset "-._:~!$&'()*+,;=%@" c) s.

Definition parseAuthority (scheme authority : string) : option (option Userinfo * string) :=
  match CutLast authority "@" with
  | None => host ← parseHost scheme authority; Some (None, host)
  | Some (userinfo, rest) =>
      host ← parseHost scheme rest;
      if validUserinfo userinfo then
        let '(name, pass, found) := Cut userinfo ":" in
        name' ← unescape name encodeUserPassword;
        if found : bool then
          pass' ← unescape pass encodeUserPassword; Some (Some {| username := name'; password := Some pass' |}, host)
        else Some (Some {| username := name'; password := None |}, host)
      else None
  end.

(** At the first slash, which stays with the rest. *)
Fixpoint cut_slash (s : string) : string * string :=
  match s with
  | EmptyString => (EmptyString, EmptyString)
  | String c s' => if bool_decide (c = "/"%char) then (EmptyString, s)
                   else let '(a, b) := cut_slash s' in (String c a, b)
  end.

Definition with_path (scheme : string) (user : option Userinfo) (host : string) (omit force : bool) (query p : string)
    : option URL :=
  path ← unescape p encodePath;
  Some {| Scheme := scheme; Opaque := ""; User := user; Host := host; Path := path;
          RawPath := if bool_decide (p = escape path encodePath) then "" else p;
          OmitHost := omit; ForceQuery := force; RawQuery := query; Fragment := ""; RawFragment := "" |}.

Section lower.
Context {UL : UnicodeLower}.

(** What [parse] does after the scheme was split off. *)
Definition parse_rest (scheme rest0 : string) : option URL :=
  let force := HasSuffix rest0 "?" && (str_take (String.length rest0 - 1)%nat rest0 =? (Cut rest0 "?").1.1)%string in
  let rest := (Cut rest0 "?").1.1 in
  let query := (Cut rest0 "?").1.2 in
  if negb (HasPrefix rest "/") && negb (bool_decide (scheme = "")) then
    Some {| Scheme := scheme; Opaque := rest; User := None; Host := ""; Path := ""; RawPath := ""; OmitHost := false;
            ForceQuery := force; RawQuery := query; Fragment := ""; RawFragment := "" |}
  else if negb (HasPrefix rest "/") && Contains (Cut rest "/").1.1 ":" then None
  else if (negb (bool_decide (scheme = "")) || negb (HasPrefix rest "///")) && HasPrefix rest "//" then
    let '(authority, p) := cut_slash (str_drop 2 rest) in
    '(user, host) ← parseAuthority scheme authority;
    with_path scheme user host false force query p
  else with_path scheme None "" (negb (bool_decide (scheme = "")) && HasPrefix rest "/") force query rest.

Definition parse_url (s : string) : option URL :=
  if str_existsb is_ctl s then None
  else if bool_decide (s = "*") then Some {| Scheme := ""; Opaque := ""; User := None; Host := ""; Path := "*";
    RawPath := ""; OmitHost := false; ForceQuery := false; RawQuery := ""; Fragment := ""; RawFragment := "" |}
  else
    match getScheme true s with
    | None => None
    | Some None => parse_rest "" s
    | Some (Some (scheme, rest)) => parse_rest (ToLower scheme) rest
    end.

(** [url.Parse] *)
Definition Parse (rawURL : string) : option URL :=
  let '(s, frag, _) := Cut rawURL "#" in
  u ← parse_url s;
  if bool_decide (frag = "") then Some u
  else
    f ← unescape frag encodeFragment;
    Some {| Scheme := Scheme u; Opaque := Opaque u; User := User u; Host := Host u; Path := Path u; RawPath := RawPath u;
            OmitHost := OmitHost u; ForceQuery := ForceQuery u; RawQuery := RawQuery u; Fragment := f;
            RawFragment := if bool_decide (frag = escape f encodeFragment) then "" else frag |}.
End lower.

(** A raw form is used when it still encodes the value. *)
Definition keeps (raw value : string) (mode : encoding) : bool :=
  negb (bool_decide (raw = "")) && validEncoded raw mode && bool_decide (unescape raw mode = Some value).
Definition EscapedPath (u : URL) : string :=
  if keeps (RawPath u) (Path u) encodePath then RawPath u
  else if bool_decide (Path u = "*") then "*" else escape (Path u) encodePath.
Definition EscapedFragment (u : URL) : string :=
  if keeps (RawFragment u) (Fragment u) encodeFragment then RawFragment u else escape (Fragment u) encodeFragment.

Definition Userinfo_String (ui : Userinfo) : string :=
  escape (username ui) encodeUserPassword +:+
  match password ui with Some p => ":" +:+ escape p encodeUserPassword | None => "" end.

(** [URL.String] *)
Definition URL_String (u : URL) : string :=
  let filled (s : string) := negb (bool_decide (s = "")) in
  let user := bool_decide (is_Some (User u)) in
  let head := if filled (Scheme u) then Scheme u +:+ ":" else "" in
  let body :=
    if filled (Opaque u) then Opaque u
    else
      let authority :=
        if filled (Scheme u) || filled (Host u) || user then
          if OmitHost u && negb (filled (Host u)) && negb user then ""
          else (if filled (Host u) || filled (Path u) || user then "//" else "") +:+
               match User u with Some ui => Userinfo_String ui +:+ "@" | None => "" end +:+ escape (Host u) encodeHost
        else "" in
      let path := EscapedPath u in
      authority +:+
      (if filled path && negb (HasPrefix path "/") && filled (Host u) then "/" else "") +:+
      (if bool_decide (head = "") && bool_decide (authority = "") && Contains (Cut path "/").1.1 ":" then "./" else "") +:+
      path in
  head +:+ body +:+
  (if ForceQuery u || filled (RawQuery u) then "?" +:+ RawQuery u else "") +:+
  (if filled (Fragment u) then "#" +:+ EscapedFragment u else "").

(** [URL.Hostname] and [URL.Port] *)
Definition splitHostPort (hostPort : string) : string * string :=
  let '(host, port) :=
    match CutLast hostPort ":" with
    | Some (h, p) => if validOptionalPort (":" +:+ p) then (h, p) else (hostPort, "")
    | None => (hostPort, "")
    end in
  (if HasPrefix host "[" && HasSuffix host "]" then TrimSuffix (TrimPrefix host "[") "]" else host, port).
Definition Hostname (u : URL) : string := (splitHostPort (Host u)).1.
Definition Port (u : URL) : string := (splitHostPort (Host u)).2.

(** ** The model endpoint *)

(** The characters an endpoint may not hold. *)
Definition endpoint_bad : string := "\%?# " +:+ str_of_bytes [9; 13; 10; 0].

Definition errModelURL : go_error :=
  ENew "model base URL must be HTTPS on port 443, without credentials, query, fragment, escapes or whitespace".
Definition errModelHost : go_error := ENew "model base URL requires an exact DNS hostname".
Definition errModelLabel : go_error := ENew "invalid model base URL hostname".
Definition errModelPath : go_error := ENew "model base URL requires a canonical API path".

Definition label_rune (r : Z) : bool :=
  (r =? 0x2D) || ((0x61 <=? r) && (r <=? 0x7A)) || ((0x30 <=? r) && (r <=? 0x39)).
Definition label_ok (label : string) : bool :=
  negb (bool_decide (label = "") || (63 <? slen label) || HasPrefix label "-" || HasSuffix label "-") &&
  forallb label_rune (runes label).
Definition host_ok (host : string) : bool :=
  negb ((253 <? slen host) || bool_decide (is_Some (ParseIP host)) || negb (Contains host ".") ||
        HasSuffix host ".local" || HasSuffix host ".localhost").
Definition segment_ok (path segment : string) : bool :=
  negb (bool_decide (segment = ".") || bool_decide (segment = "..") ||
        (bool_decide (segment = "") && negb (bool_decide (path = "")) && negb (bool_decide (path = "/")))).

(** [ValidateModelEndpoint] *)
Definition ValidateModelEndpoint `{!UnicodeLower} (raw : string) : option go_error :=
  match Parse raw with
  | None => Some errModelURL
  | Some u =>
      if negb (bool_decide (Scheme u = "https")) || negb (bool_decide (Opaque u = "")) || bool_decide (Host u = "") ||
         bool_decide (is_Some (User u)) || negb (bool_decide (RawQuery u = "")) || ForceQuery u ||
         negb (bool_decide (Fragment u = "")) || ContainsAny raw endpoint_bad ||
         (negb (bool_decide (Port u = "")) && negb (bool_decide (Port u = "443")))
      then Some errModelURL
      else
        let host := ToLower (Hostname u) in
        if HasSuffix (Host u) ":" || negb (host_ok host) then Some errModelHost
        else if negb (forallb label_ok (Split host ".")) then Some errModelLabel
        else if negb (forallb (segment_ok (Path u)) (Split (TrimPrefix (TrimSuffix (Path u) "/") "/") "/"))
        then Some errModelPath
        else None
  end.

(** ** The grammar of an endpoint

    Stated on its own, not with the checks above. *)

(** 1 to 63 lower-case letters, digits and inner hyphens. *)
Definition dns_label (l : string) : Prop :=
  1 <= slen l <= 63 ∧
  str_forallb (λ c, is_lower_letter c || is_digit c || bool_decide (c = "-"%char)) l = true ∧
  (∀ r, l ≠ "-" +:+ r) ∧ (∀ r, l ≠ r +:+ "-").

(** At most 253 bytes, two labels or more, not an IP address, outside [.local] and
    [.localhost]. *)
Definition dns_name (h : string) : Prop :=
  slen h <= 253 ∧ ParseIP h = None ∧
  ∃ labels top, h = Join (labels ++ [top]) "." ∧ labels ≠ [] ∧ Forall dns_label (labels ++ [top]) ∧
    top ≠ "local" ∧ top ≠ "localhost".

Definition path_segment (seg : string) : Prop :=
  seg ≠ "" ∧ seg ≠ "." ∧ seg ≠ ".." ∧ str_forallb (λ c, negb (bool_decide (c = "/"%char))) seg = true.

(** No path, the root, or segments with at most one slash after the last. *)
Definition api_path (path : string) : Prop :=
  path = "" ∨ path = "/" ∨
  ∃ segments slash, segments ≠ [] ∧ Forall path_segment segments ∧ slash ∈ [""; "/"] ∧
    path = "/" +:+ Join segments "/" +:+ slash.

(** No control character, space, backslash, percent or question mark or hash sign. *)
Definition url_byte (c : ascii) : bool :=
  (0x20 <? byte_val c) && negb (byte_val c =? 0x7F) &&
  negb (byte_val c =? 0x5C) && negb (byte_val c =? 0x25) && negb (byte_val c =? 0x3F) && negb (byte_val c =? 0x23).

(** ** Facts about bytes and runes *)

Lemma str_existsb_forallb p s : str_existsb p s = negb (str_forallb (λ c, negb (p c)) s).
Proof. induction s as [|c s IH]; [done|]. simpl. rewrite IH. by destruct (p c), (str_forallb _ s). Qed.

Definition high (c : ascii) : bool := 128 <=? byte_val c.

(** The bytes of a rune above U+007F, and of an ill-formed one, are not ASCII. *)
Lemma DecodeRune_high c s :
  128 <= byte_val c → str_forallb high (str_take (DecodeRune (String c s)).2 (String c s)) = true.
Proof.
  intros Hc. unfold DecodeRune, cont_byte, high. rewrite (proj2 (Z.ltb_ge _ _)) by lia.
  repeat (case_match; go_bool); cbn [snd str_take str_forallb]; rewrite ?andb_true_iff, ?Z.leb_le; repeat split; try lia.
Qed.

Lemma str_ind_runes (P : string → Prop) :
  P "" → (∀ c s, byte_val c < 128 → P s → P (String c s)) →
  (∀ c s w, 128 <= byte_val c → w = (DecodeRune (String c s)).2 → P (str_drop w (String c s)) → P (String c s)) →
  ∀ s, P s.
Proof.
  intros H0 Hlow Hhigh s. remember (String.length s) as n eqn:Hn. revert s Hn.
  induction (lt_wf n) as [n _ IH]; intros [|c s] ->; [done|]. destruct (decide (byte_val c < 128)) as [Hc|Hc].
  - apply Hlow; [done|]. eapply IH; [|done]. simpl. lia.
  - eapply Hhigh; [lia|done|]. eapply IH; [|done]. pose proof (DecodeRune_width c s) as Hw.
    set (w := (DecodeRune (String c s)).2) in *. clearbody w.
    pose proof (f_equal String.length (str_take_drop w (String c s))) as Hl.
    rewrite str_length_app in Hl. destruct w; [lia|]. cbn [str_take] in Hl. simpl in *. lia.
Qed.

Lemma runes_high c s : runes (String c s) =
  (DecodeRune (String c s)).1 :: runes (str_drop (DecodeRune (String c s)).2 (String c s)).
Proof. unfold runes. rewrite segments_cons. by destruct (DecodeRune (String c s)). Qed.

Lemma runes_chars (P : Z → bool) s :
  forallb P (runes s) = true → str_forallb (λ c, high c || P (byte_val c)) s = true.
Proof.
  induction s as [|c s Hc IH|c s w Hc Hw IH] using str_ind_runes; [done|..].
  - rewrite runes_ascii_cons by done. simpl. intros [Hp Hs]%andb_true_iff. rewrite Hp, orb_true_r. by apply IH.
  - rewrite runes_high, <-Hw. cbn [forallb]. intros [_ Hs]%andb_true_iff. rewrite <-(str_take_drop w (String c s)).
    rewrite str_forallb_app, IH, andb_true_r by done. rewrite Hw.
    eapply str_forallb_impl; [|by apply DecodeRune_high]. intros d Hd. simpl. by rewrite Hd.
Qed.

Section lower_facts.
Context {UL : UnicodeLower}.

Definition ascii_lower (c : ascii) : ascii := byte_of (rune_lower (byte_val c)).

Lemma ascii_lower_range c : byte_val c < 128 → 0 <= rune_lower (byte_val c) < 128.
Proof. intros Hc. pose proof (byte_val_range c). unfold rune_lower. repeat case_match; go_bool; lia. Qed.

Lemma ToLower_ascii_cons c s : byte_val c < 128 → ToLower (String c s) = String (ascii_lower c) (ToLower s).
Proof.
  intros Hc. unfold ToLower. rewrite runes_ascii_cons by done. cbn [map string_of_runes foldr].
  pose proof (ascii_lower_range c Hc) as Hr. unfold EncodeRune, is_scalar.
  rewrite (proj2 (Z.leb_le 0 _)), (proj2 (Z.leb_le _ 0x10FFFF)), (proj2 (Z.leb_gt 0xD800 _)) by lia. simpl.
  unfold encode_scalar. rewrite (proj2 (Z.ltb_lt _ _)) by lia. done.
Qed.

(** Every ASCII byte of a string is in its lower-case form, lowered. *)
Lemma ToLower_chars (q : ascii → bool) s :
  str_forallb q (ToLower s) = true → str_forallb (λ c, high c || q (ascii_lower c)) s = true.
Proof.
  induction s as [|c s Hc IH|c s w Hc Hw IH] using str_ind_runes; [done|..].
  - rewrite ToLower_ascii_cons by done. simpl. intros [Hp Hs]%andb_true_iff. rewrite Hp, orb_true_r. by apply IH.
  - unfold ToLower. rewrite runes_high, <-Hw. cbn [map string_of_runes foldr]. rewrite str_forallb_app.
    intros [_ Hs]%andb_true_iff. rewrite <-(str_take_drop w (String c s)).
    rewrite str_forallb_app, IH, andb_true_r by done. rewrite Hw.
    eapply str_forallb_impl; [|by apply DecodeRune_high]. intros d Hd. simpl. by rewrite Hd.
Qed.
End lower_facts.

(** ** Cutting *)

Definition absent (c : ascii) (s : string) : bool := str_forallb (λ d, negb (bool_decide (d = c))) s.

Lemma absent_app c s t : absent c (s +:+ t) = absent c s && absent c t.
Proof. apply str_forallb_app. Qed.

Lemma Cut_absent s c : absent c s = true → Cut s c = (s, "", false).
Proof. unfold absent. induction s as [|d s IH]; [done|]. simpl. intros [Hd Hs]%andb_true_iff. go_bool. by rewrite bool_decide_false, IH. Qed.
Lemma Cut_app s c t : absent c s = true → Cut (s +:+ String c t) c = (s, t, true).
Proof.
  unfold absent. induction s as [|d s IH]; [simpl; by rewrite bool_decide_true|]. rewrite str_app_cons. simpl.
  intros [Hd Hs]%andb_true_iff. go_bool. by rewrite bool_decide_false, IH.
Qed.
Lemma Cut_spec s c before after found :
  Cut s c = (before, after, found) → absent c before = true ∧ s = before +:+ (if found : bool then String c after else "").
Proof.
  revert before. induction s as [|d s IH]; intros before; simpl; [by intros [= <- <- <-]|].
  case_bool_decide as Hd; [subst d; by intros [= <- <- <-]|]. destruct (Cut s c) as [[b a] f].
  intros [= <- <- <-]. destruct (IH b eq_refl) as [Hb ->]. rewrite str_app_cons. unfold absent in *. simpl. by rewrite bool_decide_false, Hb.
Qed.

Lemma CutLast_absent s c : absent c s = true → CutLast s c = None.
Proof. unfold absent. induction s as [|d s IH]; [done|]. simpl. intros [Hd Hs]%andb_true_iff. go_bool. by rewrite IH, bool_decide_false. Qed.
Lemma CutLast_app s c t : absent c t = true → CutLast (s +:+ String c t) c = Some (s, t).
Proof.
  intros Ht. induction s as [|d s IH]; [simpl; by rewrite CutLast_absent, bool_decide_true|]. rewrite str_app_cons. simpl. by rewrite IH.
Qed.
Lemma CutLast_None s c : CutLast s c = None → absent c s = true.
Proof.
  induction s as [|d s IH]; [done|]. simpl. destruct (CutLast s c) as [[]|]; [done|]. case_bool_decide as Hd; [done|].
  intros _. unfold absent in *. simpl. by rewrite bool_decide_false, IH.
Qed.
Lemma CutLast_Some s c before after : CutLast s c = Some (before, after) → s = before +:+ String c after ∧ absent c after = true.
Proof.
  revert before. induction s as [|d s IH]; intros before; [done|]. simpl. destruct (CutLast s c) as [[b a]|] eqn:Hc.
  - intros [= <- <-]. destruct (IH b eq_refl) as [-> Ha]. by rewrite str_app_cons.
  - case_bool_decide as Hd; [|done]. intros [= <- <-]. subst. split; [done|by apply CutLast_None].
Qed.

Lemma cut_slash_spec s a p : cut_slash s = (a, p) → s = a +:+ p ∧ absent "/" a = true ∧ (p = "" ∨ HasPrefix p "/" = true).
Proof.
  revert a. induction s as [|c s IH]; intros a; simpl; [intros [= <- <-]; by auto|].
  case_bool_decide as Hc; [subst c; intros [= <- <-]; by destruct s; auto|]. destruct (cut_slash s) as [b q].
  intros [= <- <-]. destruct (IH b eq_refl) as (-> & Hb & Hq). rewrite str_app_cons. unfold absent in *. simpl. by rewrite bool_decide_false.
Qed.
Lemma cut_slash_app a p : absent "/" a = true → p = "" ∨ HasPrefix p "/" = true → cut_slash (a +:+ p) = (a, p).
Proof.
  intros Ha Hp. induction a as [|c a IH].
  - destruct Hp as [->|Hp]; [done|]. apply prefix_inv in Hp. rewrite Hp. done.
  - rewrite str_app_cons. unfold absent in Ha. simpl in *. apply andb_true_iff in Ha as [Hc Ha]. go_bool. by rewrite bool_decide_false, IH.
Qed.

Lemma unescape_plain s mode t : absent "%" s = true → unescape s mode = Some t → t = s.
Proof.
  revert t. induction s as [|c s IH]; intros t; [by intros _ [= <-]|]. unfold absent. cbn [str_forallb]. intros [Hc Hs]%andb_true_iff.
  cbn [unescape]. go_bool. rewrite bool_decide_false by done. case_match; [done|].
  destruct (unescape s mode) as [t'|]; [|done]. intros [= <-]. by rewrite (IH t' Hs eq_refl).
Qed.
Lemma unescape_id s mode :
  absent "%" s = true → str_forallb (λ c, negb (host_mode mode) || high c || negb (shouldEscape c mode)) s = true →
  unescape s mode = Some s.
Proof.
  unfold absent. induction s as [|c s IH]; [done|]. cbn [str_forallb]. intros [Hc Hs]%andb_true_iff [Hm Hr]%andb_true_iff.
  cbn [unescape]. go_bool. rewrite bool_decide_false by done. rewrite IH by done.
  destruct (host_mode mode); [|done]. unfold high in Hm. cbn [negb orb andb] in *.
  destruct (byte_val c <? 128) eqn:Hb; go_bool; [|done].
  rewrite (proj2 (Z.leb_gt 128 _)) in Hm by lia. simpl in Hm. by destruct (shouldEscape c mode).
Qed.

Lemma getScheme_spec first s scheme rest :
  getScheme first s = Some (Some (scheme, rest)) →
  s = scheme +:+ ":" +:+ rest ∧ str_forallb (λ c, is_alpha c || is_digit c || in_cutset "+-." c) scheme = true.
Proof.
  revert first scheme. induction s as [|c s IH]; intros first scheme; [done|]. cbn [getScheme].
  assert (∀ g : bool, g = true → match getScheme false s with
            | Some (Some (sc, r)) => Some (Some (String c sc, r)) | r => r end = Some (Some (scheme, rest)) →
          is_alpha c || is_digit c || in_cutset "+-." c = true →
          String c s = scheme +:+ ":" +:+ rest ∧ str_forallb (λ c, is_alpha c || is_digit c || in_cutset "+-." c) scheme = true)
    as Hmore.
  { intros _ _. destruct (getScheme false s) as [[[sc r]|]|] eqn:Hg; [|done..]. intros [= <- <-] Hc.
    destruct (IH false sc Hg) as [-> Hsc]. rewrite str_app_cons. simpl. by rewrite Hc, Hsc. }
  destruct (is_alpha c) eqn:Ha; [intros H; by eapply (Hmore true)|].
  destruct (is_digit c || in_cutset "+-." c) eqn:Hd.
  { destruct first; [done|]. intros H. by eapply (Hmore true). }
  case_bool_decide as Hcol; [|done]. destruct first; [done|]. intros [= <- <-]. by subst.
Qed.
Lemma getScheme_alpha first scheme rest :
  str_forallb is_alpha scheme = true → (first = true → scheme ≠ "") →
  getScheme first (scheme +:+ ":" +:+ rest) = Some (Some (scheme, rest)).
Proof.
  revert first. induction scheme as [|c scheme IH]; intros first; [by destruct first; [intros _ []|]|].
  rewrite str_app_cons. cbn [str_forallb getScheme]. intros [Hc Hs]%andb_true_iff _. by rewrite Hc, IH.
Qed.

Lemma digits_absent s c : is_digit c = false → str_forallb is_digit s = true → absent c s = true.
Proof. intros Hc. apply str_forallb_impl. intros d Hd. apply negb_true_iff, bool_decide_false. congruence. Qed.

(** A port that may follow a host. *)
Lemma validOptionalPort_spec p : validOptionalPort p = true → p = "" ∨ ∃ ds, p = String ":" ds ∧ str_forallb is_digit ds = true.
Proof. destruct p as [|c ds]; [by left|]. simpl. intros [Hc Hd]%andb_true_iff. go_bool. subst. eauto. Qed.

Lemma splitHostPort_plain host p :
  absent ":" host = true → absent "[" host = true → validOptionalPort p = true →
  splitHostPort (host +:+ p) = (host, str_drop 1 p).
Proof.
  intros Hc Hb Hp. unfold splitHostPort.
  assert (HasPrefix host "[" = false) as Hpre by (destruct (HasPrefix host "[") eqn:He; [|done]; apply prefix_inv in He; by rewrite He, absent_app in Hb).
  apply validOptionalPort_spec in Hp as [->|(ds & -> & Hd)].
  - rewrite str_app_nil_r, CutLast_absent by done. by rewrite Hpre.
  - rewrite CutLast_app by by apply digits_absent. change (":" +:+ ds) with (String ":" ds). cbn [validOptionalPort str_drop].
    rewrite bool_decide_true, Hd by done. simpl. by rewrite Hpre.
Qed.

Lemma TrimSuffix_app s t : TrimSuffix (s +:+ t) t = s.
Proof. unfold TrimSuffix. by rewrite HasSuffix_app, suffix_position, str_take_app. Qed.
Lemma HasSuffix_inv s t : HasSuffix s t = true → ∃ r, s = r +:+ t.
Proof. unfold HasSuffix. intros Hs. go_bool. exists (str_take (String.length s - String.length t) s). rewrite <-Hs at 2. by rewrite str_take_drop. Qed.

Lemma last_byte_absent r h q : r +:+ "]" = h +:+ String ":" q → absent "]" q = true → False.
Proof.
  revert r. induction h as [|c h IH]; intros [|d r]; rewrite ?str_app_cons; intros [= ] Hq; try done.
  - subst. by rewrite absent_app, andb_false_r in Hq.
  - by destruct h.
  - by eapply IH.
Qed.

Lemma splitHostPort_bracket inner p :
  validOptionalPort p = true → (splitHostPort ("[" +:+ inner +:+ "]" +:+ p)).1 = inner.
Proof.
  intros Hp.
  assert (∀ q, (if HasPrefix ("[" +:+ inner +:+ "]") "[" && HasSuffix ("[" +:+ inner +:+ "]") "]"
             then TrimSuffix (TrimPrefix ("[" +:+ inner +:+ "]") "[") "]" else "[" +:+ inner +:+ "]", q : string).1 = inner) as Hstrip.
  { intros q. unfold HasPrefix, TrimPrefix, CutPrefix, HasPrefix. rewrite prefix_app.
    rewrite (str_app_assoc "[" inner "]") at 1. rewrite HasSuffix_app. cbn [andb fst].
    change (String.length "[") with 1%nat. change ("[" +:+ inner +:+ "]") with (String "[" (inner +:+ "]")).
    cbn [str_drop]. apply TrimSuffix_app. }
  unfold splitHostPort. apply validOptionalPort_spec in Hp as [->|(ds & -> & Hd)].
  - rewrite str_app_nil_r. destruct (CutLast _ ":") as [[h q]|] eqn:Hc; [|apply Hstrip].
    assert (validOptionalPort (":" +:+ q) = false) as ->; [|apply Hstrip].
    apply CutLast_Some in Hc as [Hc _]. change (":" +:+ q) with (String ":" q). cbn [validOptionalPort]. rewrite bool_decide_true by done.
    apply not_true_iff_false. intros Hq. simpl in Hq. apply (digits_absent q "]") in Hq; [|done].
    rewrite str_app_assoc in Hc. by apply last_byte_absent in Hc.
  - rewrite !str_app_assoc, CutLast_app by by apply digits_absent. change (":" +:+ ds) with (String ":" ds). cbn [validOptionalPort].
    rewrite bool_decide_true, Hd by done. cbn [andb]. rewrite <-str_app_assoc. apply Hstrip.
Qed.

(** The bytes an accepted host is made of: letters, digits, hyphens, dots, and
    bytes of runes that have an ASCII lower case. *)
Definition dns_char (c : ascii) : bool :=
  high c || is_alnum c || bool_decide (c = "-"%char) || bool_decide (c = "."%char).

Lemma dns_char_absent c s : dns_char c = false → str_forallb dns_char s = true → absent c s = true.
Proof. intros Hc. apply str_forallb_impl. intros d Hd. apply negb_true_iff, bool_decide_false. congruence. Qed.

Lemma dns_char_host c : dns_char c = true → high c || negb (shouldEscape c encodeHost) = true.
Proof.
  unfold dns_char, shouldEscape. destruct (high c); [done|]. destruct (is_alnum c); [done|]. simpl.
  intros Hc. apply orb_true_iff in Hc as [Hc|Hc]; go_bool; by subst.
Qed.

(** ** The checks are the grammar *)

Lemma Split_Join_sep es c :
  es ≠ [] → Forall (λ e, absent c e = true) es → Split (Join es (String c "")) c = es.
Proof.
  induction es as [|e es IH]; [done|]. intros _ [He Hes]%list.Forall_cons.
  destruct es as [|e' es]; [by apply Split_no_sep|].
  change (Join (e :: e' :: es) (String c "")) with (e +:+ String c (Join (e' :: es) (String c ""))).
  rewrite Split_app_sep by done. by rewrite IH.
Qed.
Lemma Split_ne s c : Split s c ≠ [].
Proof. destruct s as [|d s]; [done|]. simpl. case_bool_decide; [done|]. by destruct (Split s c). Qed.
Lemma Join_Split s c : Join (Split s c) (String c "") = s.
Proof.
  induction s as [|d s IH]; [done|]. simpl. pose proof (Split_ne s c) as Hne. destruct (Split s c) as [|w ws]; [done|].
  case_bool_decide as Hd.
  - subst d. change (Join ("" :: w :: ws) (String c "")) with (String c (Join (w :: ws) (String c ""))). by rewrite IH.
  - destruct ws as [|w' ws]; [by rewrite <-IH|].
    change (Join (String d w :: w' :: ws) (String c "")) with (String d (Join (w :: w' :: ws) (String c ""))). by rewrite IH.
Qed.
Lemma Split_absent s c : Forall (λ e, absent c e = true) (Split s c).
Proof. apply list.Forall_forall. intros e He. by eapply Split_elements. Qed.

Lemma HasPrefix_spec s p : HasPrefix s p = false ↔ ∀ r, s ≠ p +:+ r.
Proof.
  split.
  - intros Hf r ->. unfold HasPrefix in Hf. by rewrite prefix_app in Hf.
  - intros H. apply not_true_iff_false. intros Hp%prefix_inv. by eapply H.
Qed.
Lemma HasSuffix_spec s p : HasSuffix s p = false ↔ ∀ r, s ≠ r +:+ p.
Proof.
  split.
  - intros Hf r ->. by rewrite HasSuffix_app in Hf.
  - intros H. apply not_true_iff_false. intros [r Hr]%HasSuffix_inv. by eapply H.
Qed.

Lemma DecodeRune_not_label c s : 128 <= byte_val c → label_rune (DecodeRune (String c s)).1 = false.
Proof.
  intros Hc. assert (128 <= (DecodeRune (String c s)).1) as Hr.
  { unfold DecodeRune, cont_byte, rune_error. rewrite (proj2 (Z.ltb_ge _ _)) by lia.
    pose proof (byte_val_range c). repeat (case_match; go_bool); cbn [fst]; lia. }
  unfold label_rune. rewrite (proj2 (Z.eqb_neq _ _)), (proj2 (Z.leb_gt _ 122)), (proj2 (Z.leb_gt _ 57)) by lia. by rewrite !andb_false_r.
Qed.
Lemma label_runes s : forallb label_rune (runes s) = str_forallb (λ c, label_rune (byte_val c)) s.
Proof.
  induction s as [|c s Hc IH|c s w Hc Hw IH] using str_ind_runes; [done|..].
  - rewrite runes_ascii_cons by done. simpl. by rewrite IH.
  - rewrite runes_high. cbn [forallb str_forallb]. rewrite DecodeRune_not_label by done.
    assert (label_rune (byte_val c) = false) as ->; [|done].
    unfold label_rune. rewrite (proj2 (Z.eqb_neq _ _)), (proj2 (Z.leb_gt _ 122)), (proj2 (Z.leb_gt _ 57)) by lia. by rewrite !andb_false_r.
Qed.

Lemma dns_label_checks l : label_ok l = true ↔ dns_label l.
Proof.
  assert (str_forallb (λ c, label_rune (byte_val c)) l =
          str_forallb (λ c, is_lower_letter c || is_digit c || bool_decide (c = "-"%char)) l) as Hc.
  { induction l as [|c l IH]; [done|]. cbn [str_forallb]. rewrite IH. f_equal.
    unfold label_rune, is_lower_letter, between, is_digit. rewrite <-orb_assoc, orb_comm. f_equal.
    apply eq_iff_eq_true. rewrite Z.eqb_eq, bool_decide_eq_true. change 0x2D with (byte_val "-").
    split; [apply byte_val_inj|by intros ->]. }
  unfold label_ok, dns_label. rewrite label_runes, Hc, andb_true_iff, negb_true_iff, !orb_false_iff, bool_decide_eq_false, Z.ltb_ge,
    HasPrefix_spec, HasSuffix_spec.
  assert (l ≠ "" ↔ 1 <= slen l) as ->; [|tauto]. unfold slen. destruct l; simpl; split; try done; lia.
Qed.

Lemma Contains_byte s c : Contains s (String c "") = negb (absent c s).
Proof.
  unfold absent. induction s as [|d s IH]; [done|]. cbn [Contains str_forallb]. rewrite IH, negb_andb, negb_involutive. f_equal.
  simpl. destruct (Ascii.ascii_dec c d) as [->|Hn]; [by rewrite bool_decide_true; destruct s|by rewrite bool_decide_false].
Qed.

Lemma Join_app_sep a x c : a ≠ [] → Join (a ++ [x]) (String c "") = Join a (String c "") +:+ String c x.
Proof.
  induction a as [|e a IH]; [done|]. intros _. destruct a as [|e' a]; [done|].
  change (Join ((e :: e' :: a) ++ [x]) (String c "")) with (e +:+ String c (Join ((e' :: a) ++ [x]) (String c ""))).
  change (Join (e :: e' :: a) (String c "")) with (e +:+ String c (Join (e' :: a) (String c ""))).
  rewrite IH by done. by rewrite <-str_app_assoc.
Qed.

(** What is after the last separator is one piece. *)
Lemma last_piece c a b x y :
  absent c x = true → absent c y = true → a +:+ String c x = b +:+ String c y → x = y.
Proof.
  intros Hx Hy H. pose proof (CutLast_app a c x Hx) as H1. pose proof (CutLast_app b c y Hy) as H2. rewrite H in H1. congruence.
Qed.

Lemma dns_name_checks h : (host_ok h = true ∧ forallb label_ok (Split h ".") = true) ↔ dns_name h.
Proof.
  assert (∀ t, absent "." t = true → ∀ ls top, ls ≠ [] → absent "." top = true → h = Join (ls ++ [top]) "." →
            HasSuffix h (String "." t) = bool_decide (top = t)) as Htop.
  { intros t Ht ls top Hls Hab ->. rewrite Join_app_sep by done. case_bool_decide as He; [by subst; apply HasSuffix_app|].
    apply HasSuffix_spec. intros r Hr. by eapply He, last_piece. }
  unfold host_ok. rewrite negb_true_iff, !orb_false_iff, Z.ltb_ge, bool_decide_eq_false, negb_false_iff, <-eq_None_not_Some.
  rewrite (Contains_byte h "."), negb_true_iff. split.
  - intros [[[[[Hlen Hip] Hdot] Hloc] Hlh] Hl]. split_and!; [done..|]. pose proof (Split_absent h ".") as Hab.
    pose proof (Join_Split h ".") as Hj. destruct (exists_last (Split_ne h ".")) as (ls & top & Hs). rewrite Hs in *.
    exists ls, top. apply list.Forall_app in Hab as [_ Hab]. rewrite list.Forall_singleton in Hab.
    assert (ls ≠ []) as Hls.
    { intros ->. simpl in Hj. subst top. congruence. }
    rewrite (Htop "local" eq_refl ls top) in Hloc by done. rewrite (Htop "localhost" eq_refl ls top) in Hlh by done. go_bool.
    split_and!; try done. apply list.Forall_forall. intros l Hin. apply dns_label_checks.
    eapply List.forallb_forall in Hl; [done|by apply list_elem_of_In].
  - intros (Hlen & Hip & ls & top & Hh & Hls & Hl & Hloc & Hlh).
    assert (Forall (λ e, absent "." e = true) (ls ++ [top])) as Hab.
    { eapply list.Forall_impl; [exact Hl|]. intros l (_ & Hc & _). eapply str_forallb_impl; [|exact Hc].
      intros c Hd. apply negb_true_iff, bool_decide_false. intros ->. by vm_compute in Hd. }
    assert (Split h "." = ls ++ [top]) as Hs by (subst h; apply Split_Join_sep; [by destruct ls|done]).
    pose proof Hab as [_ Ht]%list.Forall_app. rewrite list.Forall_singleton in Ht.
    rewrite (Htop "local" eq_refl ls top), (Htop "localhost" eq_refl ls top), !bool_decide_false by done.
    split_and!; try done.
    + rewrite Hh, Join_app_sep, absent_app by done. unfold absent at 2. cbn [str_forallb]. by rewrite bool_decide_true, andb_false_r.
    + rewrite Hs. apply List.forallb_forall. intros l Hin. apply dns_label_checks.
      by eapply (proj1 (list.Forall_forall _ _) Hl), list_elem_of_In.
Qed.

Lemma url_bytes_checks raw :
  (ContainsAny raw endpoint_bad = false ∧ str_existsb is_ctl raw = false) ↔ str_forallb url_byte raw = true.
Proof.
  assert (∀ c, url_byte c = negb (str_existsb (λ d, bool_decide (c = d)) endpoint_bad) && negb (is_ctl c)) as Hc
    by by intros [[] [] [] [] [] [] [] []].
  unfold ContainsAny. induction raw as [|c raw IH]; [done|]. cbn [str_existsb str_forallb].
  rewrite !orb_false_iff, !andb_true_iff, <-IH, Hc, andb_true_iff, !negb_true_iff. tauto.
Qed.

Lemma segment_checks path seg :
  path ≠ "" → path ≠ "/" → absent "/" seg = true → segment_ok path seg = true ↔ path_segment seg.
Proof.
  intros H1 H2 Ha. unfold segment_ok, path_segment. rewrite (bool_decide_false (path = "")), (bool_decide_false (path = "/")) by done.
  rewrite andb_true_r, andb_true_r, negb_true_iff, !orb_false_iff, !bool_decide_eq_false. unfold absent in Ha. tauto.
Qed.
Lemma segments_checks path s :
  path ≠ "" → path ≠ "/" → forallb (segment_ok path) (Split s "/") = true ↔ Forall path_segment (Split s "/").
Proof.
  intros H1 H2. rewrite List.forallb_forall, list.Forall_forall. pose proof (proj1 (list.Forall_forall _ _) (Split_absent s "/")) as Ha.
  split; intros H e He; (apply (segment_checks path); [done..|by apply Ha, list_elem_of_In|apply H]) ||
    (eapply (segment_checks path); [done..|by apply Ha|by apply H, list_elem_of_In]); by apply list_elem_of_In.
Qed.

Lemma Join_segments_suffix segs :
  segs ≠ [] → Forall path_segment segs → HasSuffix ("/" +:+ Join segs "/") "/" = false.
Proof.
  intros Hne Hs. apply HasSuffix_spec. intros r Hr. destruct (exists_last Hne) as (a & x & ->).
  apply list.Forall_app in Hs as [_ Hs]. rewrite list.Forall_singleton in Hs. destruct Hs as (Hx & _ & _ & Ha). apply Hx.
  destruct a as [|e a].
  - by eapply (last_piece "/" "" r).
  - rewrite Join_app_sep, str_app_assoc in Hr by done. by eapply last_piece.
Qed.

Lemma TrimPrefix_slash s : TrimPrefix (String "/" s) "/" = s.
Proof. unfold TrimPrefix, CutPrefix. change (HasPrefix (String "/" s) "/") with (String.prefix "" s). by destruct s. Qed.

Lemma api_path_checks path :
  ((path = "" ∨ HasPrefix path "/" = true) ∧
   forallb (segment_ok path) (Split (TrimPrefix (TrimSuffix path "/") "/") "/") = true) ↔ api_path path.
Proof.
  split.
  - intros [[->|Hp%prefix_inv] Hs]; [by left|]. change (String.length "/") with 1%nat in Hp.
    destruct (decide (path = "/")) as [->|Hne]; [by right; left|]. right; right.
    set (q := str_drop 1 path) in Hp. clearbody q. change ("/" +:+ q) with (String "/" q) in Hp.
    rewrite segments_checks in Hs by (done || by intros ->). unfold TrimSuffix in Hs. destruct (HasSuffix path "/") eqn:Hsuf.
    + apply HasSuffix_inv in Hsuf as [[|c r] Hr]; [by destruct Hne|]. rewrite Hp in Hr. rewrite str_app_cons in Hr. injection Hr as <- Hr.
      rewrite Hp, Hr in Hs. change (String "/" (r +:+ "/")) with (String "/" r +:+ "/") in Hs.
      rewrite suffix_position, str_take_app, TrimPrefix_slash in Hs.
      exists (Split r "/"), "/". split_and!; [apply Split_ne|done|set_solver|]. rewrite Join_Split. by rewrite Hp, Hr.
    + rewrite Hp, TrimPrefix_slash in Hs. exists (Split q "/"), "". split_and!; [apply Split_ne|done|set_solver|].
      by rewrite Join_Split, str_app_nil_r.
  - intros [->|[->|(segs & slash & Hne & Hs & Hsl & ->)]]; [split; [by left|done]|split; [by right|done]|].
    split; [right; by destruct (Join segs "/" +:+ slash)|].
    assert (Split (Join segs "/") "/" = segs) as Hsp.
    { apply Split_Join_sep; [done|]. eapply list.Forall_impl; [exact Hs|]. by intros e (_ & _ & _ & He). }
    assert (∀ t, Join segs "/" +:+ t ≠ "") as Hj.
    { intros t Ht. assert (Join segs "/" = "") as Hj by by destruct (Join segs "/"). rewrite Hj in Hsp. change (Split "" "/") with [""] in Hsp. subst segs.
      rewrite list.Forall_singleton in Hs. by destruct Hs. }
    assert (TrimSuffix ("/" +:+ Join segs "/" +:+ slash) "/" = "/" +:+ Join segs "/") as ->.
    { set_unfold in Hsl. destruct Hsl as [->|[->|[]]]; [|by rewrite str_app_assoc, TrimSuffix_app].
      rewrite str_app_nil_r. unfold TrimSuffix. by rewrite Join_segments_suffix. }
    change ("/" +:+ Join segs "/") with (String "/" (Join segs "/")). rewrite TrimPrefix_slash.
    apply segments_checks; [done|intros Hx; by injection Hx as Hx%Hj|by rewrite Hsp].
Qed.

Section endpoint.
Context {UL : UnicodeLower}.

Lemma lower_dns_char c :
  bool_decide (ascii_lower c = "."%char) || (high (ascii_lower c) || label_rune (byte_val (ascii_lower c))) = true → dns_char c = true.
Proof.
  unfold dns_char. destruct (high c) eqn:Hh; [done|]. unfold high in Hh. go_bool.
  pose proof (ascii_lower_range c Hh) as Hr. unfold high. assert (byte_val (ascii_lower c) = rune_lower (byte_val c)) as Hl.
  { apply byte_val_of. lia. }
  rewrite Hl. rewrite (proj2 (Z.leb_gt 128 _)) by lia. cbn [orb]. intros H. apply orb_true_iff in H as [H|H].
  - go_bool. assert (rune_lower (byte_val c) = 46) as Hd by (rewrite <-Hl, H; done).
    assert (byte_val c = byte_val "."%char) as Hb.
    { change (byte_val ".") with 46. unfold rune_lower in Hd. repeat case_match; go_bool; lia. }
    apply byte_val_inj in Hb. subst. by rewrite orb_true_r.
  - unfold label_rune in H. unfold is_alnum, is_alpha, is_lower_letter, between, is_digit.
    pose proof (byte_val_range c). unfold rune_lower in H.
    destruct (decide (byte_val c = 45)) as [Hc|Hc].
    + change 45 with (byte_val "-"%char) in Hc. apply byte_val_inj in Hc. subst. done.
    + repeat case_match; go_bool; rewrite ?orb_true_iff, ?andb_true_iff, ?Z.leb_le, ?Z.eqb_eq in *; lia.
Qed.

Lemma host_chars host : forallb label_ok (Split (ToLower host) ".") = true → str_forallb dns_char host = true.
Proof.
  intros Hl.
  enough (str_forallb (λ c, bool_decide (c = "."%char) || (high c || label_rune (byte_val c))) (ToLower host) = true) as H.
  { eapply str_forallb_impl; [|apply ToLower_chars, H]. intros c Hc. cbn beta in Hc.
    destruct (high c) eqn:Hh; [by unfold dns_char; rewrite Hh|by apply lower_dns_char]. }
  apply Split_forallb. apply list.Forall_forall. intros e He. eapply List.forallb_forall in Hl; [|by apply list_elem_of_In].
  unfold label_ok in Hl. apply andb_true_iff in Hl as [_ Hl]. by apply runes_chars in Hl.
Qed.

Lemma absent_ipv6 s : is_Some (parse_ipv6 s) → absent ":" s = false.
Proof.
  intros [g Hg]. apply not_true_iff_false. intros Ha. unfold parse_ipv6 in Hg.
  destruct (cut_ellipsis s) as [[a b]|] eqn:Hc.
  - clear Hg. revert a b Hc. induction s as [|c s IH]; intros a b; [done|]. cbn [cut_ellipsis].
    unfold absent in Ha. cbn [str_forallb] in Ha. apply andb_true_iff in Ha as [Hc Ha]. go_bool.
    destruct (HasPrefix (String c s) "::") eqn:Hp; [apply prefix_inv in Hp; by injection Hp as -> _|].
    destruct (cut_ellipsis s) as [[x y]|]; [|done]. intros _. by eapply IH.
  - rewrite (Split_no_sep s ":") in Hg by done. cbn [ipv6_groups] in Hg.
    destruct (parse_ipv4 s) as [[|? [|? [|? [|? []]]]]|]; simpl in Hg;
      repeat (case_match; simpl in *; try done); by destruct (hex_number 0 s).
Qed.

(** What the checks see of an accepted endpoint. *)
Record endpoint_checked (raw scheme host port path : string) : Prop := {
  es_raw : raw = scheme +:+ "://" +:+ host +:+ port +:+ path;
  es_scheme : str_forallb is_alpha scheme = true ∧ ToLower scheme = "https";
  es_host : host_ok (ToLower host) = true ∧ forallb label_ok (Split (ToLower host) ".") = true;
  es_port : port ∈ [""; ":443"];
  es_path : path = "" ∨ HasPrefix path "/" = true;
  es_segments : forallb (segment_ok path) (Split (TrimPrefix (TrimSuffix path "/") "/") "/") = true;
  es_clean : ContainsAny raw endpoint_bad = false ∧ str_existsb is_ctl raw = false;
}.

Lemma ContainsAny_absent s chars c : in_cutset chars c = true → ContainsAny s chars = false → absent c s = true.
Proof.
  intros Hc. unfold ContainsAny, absent. induction s as [|d s IH]; [done|]. cbn [str_existsb str_forallb].
  intros [Hd Hs]%orb_false_iff. rewrite IH, andb_true_r by done. apply negb_true_iff, bool_decide_false. intros ->.
  unfold in_cutset in Hc. congruence.
Qed.

Lemma host_nonempty host : host_ok host = true → host ≠ "".
Proof. by intros H ->. Qed.

Lemma str_forallb_true (p : ascii → bool) s : (∀ c, p c = true) → str_forallb p s = true.
Proof. intros Hp. induction s as [|c s IH]; [done|]. simpl. by rewrite Hp, IH. Qed.

(** No byte of the authority is one that ends it or starts another part. *)
Lemma authority_absent c host port :
  dns_char c = false → in_cutset ":443" c = false → str_forallb dns_char host = true → port ∈ [""; ":443"] →
  absent c (host +:+ port) = true.
Proof.
  intros Hc Hp Hh Hport. rewrite absent_app, (dns_char_absent c host) by done.
  set_unfold in Hport. destruct Hport as [->|[->|[]]]; [done|]. unfold absent, in_cutset in *. cbn [str_forallb str_existsb] in *.
  rewrite !orb_false_iff in Hp. destruct Hp as (H1 & H2 & H3 & H4 & _). go_bool. by rewrite !bool_decide_false by congruence.
Qed.

Lemma parseHost_plain host port :
  str_forallb dns_char host = true → port ∈ [""; ":443"] → parseHost "https" (host +:+ port) = Some (host +:+ port).
Proof.
  intros Hh Hp. unfold parseHost. rewrite CutLast_absent by by apply authority_absent.
  assert (unescape (host +:+ port) encodeHost = Some (host +:+ port)) as Hu.
  { apply unescape_id; [by apply authority_absent|]. rewrite str_forallb_app. apply andb_true_iff. split.
    - eapply str_forallb_impl; [|exact Hh]. apply dns_char_host.
    - set_unfold in Hp. by destruct Hp as [->|[->|[]]]. }
  assert (absent ":" host = true) as Hcol by by eapply dns_char_absent.
  set_unfold in Hp. destruct Hp as [->|[->|[]]].
  - rewrite str_app_nil_r in *. by rewrite Cut_absent.
  - change ":443" with (String ":" "443") in *. rewrite Cut_app by done. by rewrite CutLast_app.
Qed.

Lemma Parse_endpoint raw scheme host port path :
  endpoint_checked raw scheme host port path →
  ∃ raw_path, Parse raw = Some {| Scheme := "https"; Opaque := ""; User := None; Host := host +:+ port; Path := path;
    RawPath := raw_path; OmitHost := false; ForceQuery := false; RawQuery := ""; Fragment := ""; RawFragment := "" |}.
Proof.
  intros [Hraw [Hs Hl] [_ Hh] Hp Hpath _ [Hany Hctl]]. pose proof (host_chars host Hh) as Hchars.
  assert (∀ c, in_cutset endpoint_bad c = true → absent c raw = true) as Habs by (intros c Hc; by eapply ContainsAny_absent).
  unfold Parse. rewrite Cut_absent by by apply Habs. unfold parse_url. rewrite Hctl.
  rewrite (bool_decide_false (raw = "*")) by (intros ->; by destruct scheme as [|? []]).
  change ("://" +:+ host +:+ port +:+ path) with (":" +:+ ("//" +:+ (host +:+ port +:+ path))) in Hraw.
  rewrite (str_app_assoc host) in Hraw. set (rest := "//" +:+ ((host +:+ port) +:+ path)) in *.
  assert (∀ c, in_cutset endpoint_bad c = true → absent c rest = true) as Habs'.
  { intros c Hc. specialize (Habs c Hc). rewrite Hraw, absent_app, (absent_app c ":"), !andb_true_iff in Habs. tauto. }
  rewrite Hraw, getScheme_alpha, Hl by (done || intros _ Hn; by rewrite Hn in Hl). unfold parse_rest.
  rewrite (Cut_absent rest) by by apply Habs'. cbn [fst snd].
  assert (HasSuffix rest "?" = false) as ->.
  { apply not_true_iff_false. intros [r Hr]%HasSuffix_inv. specialize (Habs' "?"%char eq_refl).
    by rewrite Hr, absent_app, andb_false_r in Habs'. }
  cbn [andb]. change (HasPrefix rest "/") with true.
  replace (HasPrefix rest "//") with true by (symmetry; apply prefix_app).
  cbn [negb andb orb]. change (str_drop 2 rest) with ((host +:+ port) +:+ path).
  rewrite cut_slash_app by (done || by apply authority_absent). unfold parseAuthority.
  rewrite CutLast_absent by by apply authority_absent. rewrite parseHost_plain by done. simpl. unfold with_path.
  rewrite unescape_id; [by eexists| |by apply str_forallb_true].
  specialize (Habs' "%"%char eq_refl). unfold rest in Habs'. rewrite !absent_app, !andb_true_iff in Habs'. tauto.
Qed.

Lemma str_forallb_and (p q : ascii → bool) s :
  str_forallb p s = true → str_forallb q s = true → str_forallb (λ c, p c && q c) s = true.
Proof.
  induction s as [|c s IH]; [done|]. simpl. intros [Hp Hs]%andb_true_iff [Hq Hr]%andb_true_iff. by rewrite Hp, Hq, IH.
Qed.

Lemma scheme_alpha scheme :
  str_forallb (λ c, is_alpha c || is_digit c || in_cutset "+-." c) scheme = true → ToLower scheme = "https" →
  str_forallb is_alpha scheme = true.
Proof.
  intros Hs Hl. assert (str_forallb is_lower_letter (ToLower scheme) = true) as Hc%ToLower_chars by by rewrite Hl.
  eapply str_forallb_impl; [|exact (str_forallb_and _ _ _ Hs Hc)]. clear. intros c [Hs Hc]%andb_true_iff.
  destruct (is_alpha c) eqn:Ha; [done|]. exfalso. cbn [orb] in Hs.
  assert (byte_val c < 97 ∧ ~ (65 <= byte_val c <= 90)) as [H1 H2].
  { apply orb_true_iff in Hs as [Hd|Hd].
    - unfold is_digit in Hd. go_bool. lia.
    - unfold in_cutset in Hd. cbn [str_existsb] in Hd. rewrite !orb_true_iff in Hd.
      destruct Hd as [Hd|[Hd|[Hd|Hd]]]; [go_bool; subst; split; [done|by intros [[] _]]..|done]. }
  unfold high, is_lower_letter, between in Hc. unfold ascii_lower, rune_lower in Hc.
  rewrite (proj2 (Z.leb_gt 128 _)) in Hc by lia.
  destruct ((65 <=? byte_val c) && (byte_val c <=? 90)) eqn:Hu; [go_bool; lia|].
  rewrite (proj2 (Z.ltb_lt _ 128)), byte_of_val in Hc by lia. go_bool. simpl in Hc. go_bool. lia.
Qed.

Lemma with_path_spec scheme user host omit force query p u :
  with_path scheme user host omit force query p = Some u →
  Scheme u = scheme ∧ User u = user ∧ Host u = host ∧ unescape p encodePath = Some (Path u).
Proof. unfold with_path. destruct (unescape p encodePath); [|done]. by intros [= <-]. Qed.

Lemma parse_rest_inv scheme rest u :
  absent "?" rest = true → parse_rest scheme rest = Some u →
  Scheme u = scheme ∧
  (Host u ≠ "" → ∃ authority p, rest = "//" +:+ authority +:+ p ∧ (p = "" ∨ HasPrefix p "/" = true) ∧
     parseAuthority scheme authority = Some (User u, Host u) ∧ unescape p encodePath = Some (Path u)).
Proof.
  intros Hq. unfold parse_rest. rewrite Cut_absent by done. cbn [fst snd]. set (force := HasSuffix _ _ && _). clearbody force.
  destruct (negb (HasPrefix rest "/") && negb (bool_decide (scheme = ""))); [by intros [= <-]|].
  destruct (negb (HasPrefix rest "/") && _); [done|].
  destruct ((negb (bool_decide (scheme = "")) || negb (HasPrefix rest "///")) && HasPrefix rest "//") eqn:Hp.
  - apply andb_true_iff in Hp as [_ Hp%prefix_inv]. change (String.length "//") with 2%nat in Hp.
    destruct (cut_slash (str_drop 2 rest)) as [a p] eqn:Hc. destruct (parseAuthority scheme a) as [[us h]|] eqn:Ha; [|done].
    intros (HS & HU & HH & HP)%with_path_spec. split; [done|]. intros _. apply cut_slash_spec in Hc as (Hc & _ & Hps).
    exists a, p. rewrite <-Hc, HU, HH. done.
  - intros (HS & _ & HH & _)%with_path_spec. done.
Qed.

Lemma Parse_inv raw u :
  ContainsAny raw endpoint_bad = false → Parse raw = Some u → Scheme u = "https" → Host u ≠ "" → User u = None →
  ∃ scheme authority,
    raw = scheme +:+ "://" +:+ authority +:+ Path u ∧ str_forallb is_alpha scheme = true ∧ ToLower scheme = "https" ∧
    str_existsb is_ctl raw = false ∧ (Path u = "" ∨ HasPrefix (Path u) "/" = true) ∧ absent "%" authority = true ∧
    parseHost "https" authority = Some (Host u).
Proof.
  intros Hany HP HS HH HU.
  assert (∀ c, in_cutset endpoint_bad c = true → absent c raw = true) as Habs by (intros c Hc; by eapply ContainsAny_absent).
  unfold Parse in HP. rewrite Cut_absent in HP by by apply Habs.
  destruct (parse_url raw) as [u'|] eqn:Hp; [|done]. simpl in HP. injection HP as ->. unfold parse_url in Hp.
  destruct (str_existsb is_ctl raw) eqn:Hctl; [done|]. case_bool_decide; [by simplify_eq|].
  destruct (getScheme true raw) as [[[scheme rest]|]|] eqn:Hg; [|apply parse_rest_inv in Hp as [Hp _]; [congruence|by apply Habs]|done].
  apply getScheme_spec in Hg as [Hraw Hs].
  assert (∀ c, in_cutset endpoint_bad c = true → absent c rest = true) as Habs'.
  { intros c Hc. specialize (Habs c Hc). rewrite Hraw, absent_app, (absent_app c ":"), !andb_true_iff in Habs. tauto. }
  apply parse_rest_inv in Hp as [Hl Hp]; [|by apply Habs']. destruct (Hp HH) as (authority & p & Hrest & Hps & Ha & Hpath).
  pose proof (Habs' "%"%char eq_refl) as Hpc. rewrite Hrest, absent_app, (absent_app _ authority), !andb_true_iff in Hpc.
  destruct Hpc as (_ & Hpa & Hpp). apply unescape_plain in Hpath as ->; [|done]. rewrite HS in *.
  exists scheme, authority. split_and!; try done; [by rewrite Hraw, Hrest|by apply scheme_alpha|].
  rewrite HU, <-Hl in Ha. unfold parseAuthority in Ha. destruct (CutLast authority "@") as [[us r]|].
  - destruct (parseHost "https" r); [|done]. simpl in Ha. repeat (case_match; simpl in Ha; try done).
    all: repeat (match type of Ha with context [unescape ?x ?m] => destruct (unescape x m) end; simpl in Ha; try done).
  - destruct (parseHost "https" authority); [|done]. by simplify_eq/=.
Qed.

Lemma last_char s t c d : s +:+ String c "" = t +:+ String d "" → c = d.
Proof.
  revert t. induction s as [|x s IH]; intros [|y t]; rewrite ?str_app_cons; intros [= ]; try done; [by destruct t|by destruct s|by eapply IH].
Qed.

(** A bracketed host is an IPv6 literal, which no label accepts. *)
Lemma parseHost_inv authority h :
  parseHost "https" authority = Some h → absent "%" authority = true → HasSuffix h ":" = false →
  (splitHostPort h).2 = "" ∨ (splitHostPort h).2 = "443" →
  forallb label_ok (Split (ToLower (splitHostPort h).1) ".") = true →
  ∃ port, port ∈ [""; ":443"] ∧ authority = (splitHostPort h).1 +:+ port.
Proof.
  intros Hp Hpc Hsuf Hport Hl%host_chars. apply (dns_char_absent ":") in Hl as Hcol; [|done]. unfold parseHost in Hp.
  destruct (CutLast authority "[") as [[before after]|] eqn:Hb.
  - exfalso. case_bool_decide; [|done]. destruct (CutLast after "]") as [[hn cp]|] eqn:Hc; [|done]. simpl in Hp.
    destruct (validOptionalPort cp) eqn:Hv; [|done]. destruct (unescape cp encodeHost) as [port|] eqn:Hup; [|done]. simpl in Hp.
    assert (port = cp) as ->.
    { eapply unescape_plain; [|done]. apply validOptionalPort_spec in Hv as [->|(ds & -> & Hd)]; [done|]. by apply (digits_absent _ "%") in Hd. }
    destruct (cut_zone hn) as [x z]. destruct (unescape x encodeHost) as [x'|]; [|done].
    destruct (unescape z encodeZone) as [z'|]; [|done]. simpl in Hp. destruct (is_ipv6_literal (x' +:+ z')) eqn:Hip; [|done].
    injection Hp as <-. rewrite (str_app_assoc x' z'), splitHostPort_bracket in Hcol by done.
    unfold is_ipv6_literal in Hip. destruct (Cut (x' +:+ z') "%") as [[addr zone] sc] eqn:Hcut. apply andb_true_iff in Hip as [_ Hip].
    go_bool. apply absent_ipv6 in Hip. apply Cut_spec in Hcut as [_ Hcut]. by rewrite Hcut, absent_app, Hip in Hcol.
  - destruct (Cut authority ":") as [[b a] found] eqn:Hc. apply CutLast_None in Hb. apply Cut_spec in Hc as [Hbc Hc].
    assert ((if found : bool then validOptionalPort (":" +:+ a) else true) = true ∧ unescape authority encodeHost = Some h) as [Hv Hu].
    { destruct found; [|done].
      assert ((match CutLast authority ":" with
               | Some (_, port) => if bool_decide ("https" = "postgresql") || bool_decide ("https" = "postgres") then port else a
               | None => a end) = a) as Ha by by destruct (CutLast authority ":") as [[]|].
      rewrite Ha in Hp. cbn [andb] in Hp. by destruct (validOptionalPort (":" +:+ a)). }
    apply unescape_plain in Hu as ->; [|done]. rewrite Hc in Hb. rewrite absent_app, andb_true_iff in Hb. destruct Hb as [Hbb _].
    assert (∃ port, authority = b +:+ port ∧ validOptionalPort port = true ∧ (port = ":" → HasSuffix authority ":" = true)) as (port & Hpo & Hvp & Hne).
    { destruct found; [exists (String ":" a)|exists ""]; (split; [done|split; [done|]]); [|done]. intros [= ->]. rewrite Hc. apply HasSuffix_app. }
    rewrite Hpo, splitHostPort_plain in * by done. cbn [fst snd] in *. exists port. split; [|done].
    destruct port as [|c ds]; [by left|]. simpl in Hvp, Hport. apply andb_true_iff in Hvp as [Hcc _]. go_bool. subst c.
    destruct Hport as [->| ->]; [|set_solver]. by rewrite Hne in Hsuf.
Qed.

Lemma endpoint_checks raw :
  ValidateModelEndpoint raw = None ↔ ∃ scheme host port path, endpoint_checked raw scheme host port path.
Proof.
  split.
  - unfold ValidateModelEndpoint. destruct (Parse raw) as [u|] eqn:HP; [|done].
    destruct (_ || _ || _ || _ || _ || _ || _ || _ || _) eqn:Hurl; [done|]. rewrite !orb_false_iff, andb_false_iff in Hurl.
    destruct Hurl as [[[[[[[[HS _] HH] HU] _] _] _] Hany] Hport]. go_bool.
    destruct (HasSuffix (Host u) ":") eqn:Hsuf; [done|]. simpl. destruct (host_ok _) eqn:Hok; [|done]. simpl.
    destruct (forallb label_ok _) eqn:Hl; [|done]. simpl. destruct (forallb (segment_ok _) _) eqn:Hseg; [|done]. intros _.
    apply eq_None_not_Some in HU.
    destruct (Parse_inv raw u) as (scheme & authority & Hraw & Hs & Hls & Hctl & Hpath & Hpc & Hhost); try done.
    destruct (parseHost_inv authority (Host u)) as (port & Hp & Ha); try done.
    { unfold Port in Hport. by destruct Hport as [Hport|Hport]; go_bool; auto. }
    exists scheme, (Hostname u), port, (Path u). split; try done. by rewrite Hraw, Ha, <-!str_app_assoc.
  - intros (scheme & host & port & path & Hsh). destruct (Parse_endpoint _ _ _ _ _ Hsh) as [rp HP].
    destruct Hsh as [_ _ [Hok Hl] Hp _ Hseg [Hany _]]. pose proof (host_chars host Hl) as Hc.
    unfold ValidateModelEndpoint. rewrite HP. cbn [Scheme Opaque User Host Path RawQuery ForceQuery Fragment]. rewrite Hany.
    assert (splitHostPort (host +:+ port) = (host, str_drop 1 port)) as Hsp.
    { apply splitHostPort_plain; [by eapply dns_char_absent..|]. set_unfold in Hp. by destruct Hp as [->|[->|[]]]. }
    unfold Hostname, Port. cbn [Host]. rewrite Hsp. cbn [fst snd].
    rewrite (bool_decide_false (host +:+ port = "")) by (destruct host; [by destruct (host_nonempty _ Hok)|done]).
    assert (HasSuffix (host +:+ port) ":" = false) as ->.
    { apply not_true_iff_false. intros [r Hr]%HasSuffix_inv. set_unfold in Hp. destruct Hp as [->|[->|[]]].
      - rewrite str_app_nil_r in Hr. apply (dns_char_absent ":") in Hc; [|done]. by rewrite Hr, absent_app, andb_false_r in Hc.
      - change ":443" with (":44" +:+ "3") in Hr. rewrite str_app_assoc in Hr. by apply last_char in Hr. }
    rewrite Hok, Hl, Hseg. set_unfold in Hp. destruct Hp as [->|[->|[]]]; done.
Qed.

(** An endpoint by its parts; the case of the scheme and of the host is free. *)
Record endpoint_shape (raw scheme host port path : string) : Prop := {
  sh_raw : raw = scheme +:+ "://" +:+ host +:+ port +:+ path;
  sh_scheme : str_forallb is_alpha scheme = true ∧ ToLower scheme = "https";
  sh_host : dns_name (ToLower host);
  sh_port : port = "" ∨ port = ":443";
  sh_path : api_path path;
  sh_bytes : str_forallb url_byte raw = true;
}.

Lemma checked_shape raw scheme host port path :
  endpoint_checked raw scheme host port path ↔ endpoint_shape raw scheme host port path.
Proof.
  split.
  - intros [Hr Hs Hh Hp Hpath Hseg [Hany Hctl]]. split; [done|done|by apply dns_name_checks| |by apply api_path_checks|by apply url_bytes_checks].
    set_unfold in Hp. tauto.
  - intros [Hr Hs Hh Hp Hpath Hb]. apply dns_name_checks in Hh. apply api_path_checks in Hpath as [Hpath Hseg].
    split; [done|done|done| |done|done|by apply url_bytes_checks]. set_unfold. tauto.
Qed.

(** C17: A model endpoint is accepted exactly when it reads [https://] (in any
    case), a host whose lower-case form is a DNS name, [:443] or no port, and a
    canonical API path, without control characters, spaces, backslashes, escapes, a
    query or a fragment. *)
Theorem model_endpoint_exact raw :
  ValidateModelEndpoint raw = None ↔ ∃ scheme host port path, endpoint_shape raw scheme host port path.
Proof.
  rewrite endpoint_checks. split; intros (scheme & host & port & path & H); exists scheme, host, port, path; by apply checked_shape.
Qed.
End endpoint.

(** ** Instances *)
Module UrlExamples.

#[local] Instance lower : UnicodeLower := latin_lower.

Example parse_core : URL_String <$> Parse "HTTPS://core.example:8443/a%20b/" = Some "https://core.example:8443/a%20b/".
Proof. vm_compute. reflexivity. Qed.
Example parse_v6 :
  (λ u, (Host u, Hostname u, Port u)) <$> Parse "http://u:p@[fe80::1%25en0]:80/x?q#f" = Some ("[fe80::1%en0]:80", "fe80::1%en0", "80").
Proof. vm_compute. reflexivity. Qed.
Example parse_refused :
  map (λ s, bool_decide (is_Some (Parse s)))
    ["http://::1/"; "http://a:80:80/"; "http://a b/"; ":x"; "http://x/%zz"; "http://x[::1]/"] = replicate 6 false.
Proof. vm_compute. reflexivity. Qed.
Example endpoints :
  map (λ s, bool_decide (ValidateModelEndpoint s = None))
    ["https://api.example.com"; "HTTPS://API.example.com:443/v1/"; "https://api.example.com:/v1"; "https://a.b/v1//";
     "https://1.2.3.4/"; "https://a.local"; "http://a.b"; "https://a.b/./"] =
  [true; true; false; false; false; false; false; false].
Proof. vm_compute. reflexivity. Qed.
(** The Kelvin sign has the lower case "k". *)
Example kelvin_host_accepted : ValidateModelEndpoint ("https://api.wor" +:+ str_of_bytes [0xE2; 0x84; 0xAA] +:+ ".com") = None.
Proof. vm_compute. reflexivity. Qed.
End UrlExamples.
