(* ===== verification/ToolPolicy.v ===== *)
(** * The tool boundary of an isolated client

    pkg/adapters/native_tool_policy.go: the environment of the trusted client, the
    paths that hold its credentials, and the policy that confines the tools its
    model runs.  [eval] is [filepath.EvalSymlinks]; the rest of what the operating
    system says is in [tool_env]. *)

From S2P Require Import Prelude GoStrings Sha256 Json JsonRoundtrip BoundTools Paths PrivateFiles SessionStore Environment Sandbox Resolve ProviderConfig.
From stdpp Require Import options.

Open Scope Z_scope.

Record tool_env := {
  te_GOOS : string;
  te_eval : string → option string;
  (** [exec.LookPath] *)
  te_look : string → option string;
  (** [os.TempDir()] *)
  te_tempdir : string;
  (** the names [os.ReadDir("/")] lists *)
  te_roots : option (list string);
  te_environ : list string;
  (** [effectiveUsername()] *)
  te_username : string;
}.

(** ** The environment of the client *)

Definition client_keys (provider : string) : list string :=
  ["HOME"; "PATH"; "HTTP_PROXY"; "HTTPS_PROXY"; "NO_PROXY"; "ALL_PROXY"; "SSL_CERT_FILE"] ++
  (if bool_decide (provider = "claude")
   then ["CLAUDE_CONFIG_DIR"; "ANTHROPIC_API_KEY"; "ANTHROPIC_AUTH_TOKEN"; "ANTHROPIC_BASE_URL"; "NODE_EXTRA_CA_CERTS"]
   else ["CODEX_HOME"; "CODEX_API_KEY"; "OPENAI_API_KEY"; "CODEX_CA_CERTIFICATE"]).

Definition control_chars : string := str_of_bytes [13; 10; 0].

(** [environmentMap] *)
Definition environmentMap (values : gmap string string) : list string :=
  sort_strings (map (λ kv, kv.1 +:+ "=" +:+ kv.2) (map_to_list values)).

Definition client_values (provider : string) (environment : list string) : result (gmap string string) :=
  foldl (λ (r : result (gmap string string)) item,
           values ← r;
           let '(k, v, ok) := Cut item "=" in
           if (ok : bool) && bool_decide (k ∈ client_keys provider) then
             if ContainsAny v control_chars then Err (ENew "invalid native client environment") else Ok (<[k := v]> values)
           else Ok values) (Ok ∅) environment.

Definition value (values : gmap string string) (k : string) : string := default "" (values !! k).

(** [nativeClientEnvironment] *)
Definition nativeClientEnvironment (t : tool_env) (c : ProviderConfig) : result (list string) :=
  values ← client_values (Provider c) (default (te_environ t) (Env c));
  if negb (IsAbs (value values "HOME")) then Err (ENew "host-auth isolation requires the existing client's absolute HOME")
  else
    let values1 := if bool_decide (value values "PATH" = "") then <["PATH" := "/usr/bin:/bin:/usr/sbin:/sbin"]> values else values in
    if existsb (λ k, negb (bool_decide (value values1 k = "")) && negb (IsAbs (value values1 k))) ["CODEX_HOME"; "CLAUDE_CONFIG_DIR"]
    then Err (ENew "native client configuration directories must be absolute")
    else
      let values2 := if bool_decide (Provider c = "claude") && negb (bool_decide (ClaudeBaseURL c = ""))
                     then <["ANTHROPIC_BASE_URL" := ClaudeBaseURL c]> values1 else values1 in
      Ok (environmentMap (<["LC_ALL" := "C"]> (<["LANG" := "C"]> values2))).

(** ** Protected paths *)

(** [hostAuthStatePath] *)
Definition hostAuthStatePath (home : string) : string := JoinPath [home; ".local"; "state"; "openlinker-agent-node"].

(** The variables of [nativeHostPaths]: an entry without "=" is a name, too. *)
Definition host_values (environment : list string) : gmap string string :=
  foldl (λ m entry, <[(Cut entry "=").1.1 := (Cut entry "=").1.2]> m) ∅ environment.

(** [nativeHostPaths] *)
Definition nativeHostPaths (environment : list string) : list string :=
  let values := host_values environment in
  let home := value values "HOME" in
  [hostAuthStatePath home; JoinPath [home; ".codex"]; JoinPath [home; ".claude"]; JoinPath [home; ".claude.json"];
   JoinPath [home; "Library/Keychains"]; JoinPath [home; ".ssh"]; JoinPath [home; ".aws"]]
  ++ List.filter (λ v, negb (bool_decide (v = ""))) (map (value values) ["CODEX_HOME"; "CLAUDE_CONFIG_DIR"]).

(** [pathsOverlap] *)
Definition pathsOverlap (a b : string) : bool := contains a b || contains b a.

(** ** The policy *)

Definition system_read : list string :=
  ["/bin"; "/sbin"; "/usr/bin"; "/usr/sbin"; "/usr/lib"; "/usr/libexec"; "/lib"; "/lib64"; "/etc/ssl/certs";
   "/etc/ssl/openssl.cnf"; "/etc/hosts"; "/etc/resolv.conf"; "/etc/nsswitch.conf"; "/etc/ld.so.cache"; "/etc/localtime";
   "/dev/null"; "/dev/urandom"; "/dev/random"].
(** What Codex's own minimal profile adds on Linux. *)
Definition minimal_roots : list string := ["/usr"; "/etc"; "/nix/store"; "/run/current-system/sw"].

Section policy.
Context (t : tool_env).

(** The walk ends for every absolute path ([prospective_denotes]). *)
Definition canon (p : string) : string := default (Clean p) (canonicalProspectivePath (te_eval t) p).

Definition claude_binary (c : ProviderConfig) : list string :=
  match te_look t (if bool_decide (Bin c = "") then "claude" else Bin c) ≫= te_eval t with
  | Some resolved => [resolved]
  | None => []
  end.
Definition platform_read (c : ProviderConfig) : list string :=
  if bool_decide (te_GOOS t = "darwin")
  then ["/System/Library"; "/usr/share/icu"; "/private/var/select/sh"; "/private/etc/ssl/cert.pem"]
  else ["/usr/share/nodejs"; "/usr/share/icu"] ++ (if bool_decide (Provider c = "claude") then claude_binary c else []).

Definition protected_paths (c : ProviderConfig) : list string :=
  nativeHostPaths (default [] (Env c)) ++ [Root (SessionIsolation c); TempRoot (SessionIsolation c)].
Definition blocked_paths (c : ProviderConfig) : list string :=
  map canon (List.filter (λ p, negb (bool_decide (p = ""))) (protected_paths c)).

(** The loop over [SESSION_READ_PATHS]. *)
Fixpoint custom_read (blocked paths : list string) : result (list string) :=
  match paths with
  | [] => Ok []
  | p :: ps =>
      match te_eval t p with
      | None => Err (ENew "SESSION_READ_PATHS must exist")
      | Some r =>
          if existsb (pathsOverlap r) blocked
          then Err (ENew "SESSION_READ_PATHS cannot expose authentication or session/control directories")
          else rs ← custom_read blocked ps; Ok (r :: rs)
      end
  end.

(** The roots a policy lets tools read, resolved and without duplicates. *)
Definition resolved_read (read : list string) : list string :=
  foldl (λ acc p, match te_eval t p with Some r => appendUniqueString acc r | None => acc end) [] read.

Definition extra_roots (c : ProviderConfig) : list string :=
  if bool_decide (Provider c = "codex") && bool_decide (te_GOOS t = "linux") then minimal_roots else [].

Definition exposed (blocked grant : string) : bool := bool_decide (blocked = grant) || HasPrefix blocked (grant +:+ "/").

Definition session_writes (s : Session) : list string := [Session_Workspace s; ToolHome s; s_temp s].

(** The HOME entries of the environment. *)
Definition home_entries (environment : list string) : list string :=
  omap (λ e, let '(h, ok) := CutPrefix e "HOME=" in if ok : bool then Some h else None) environment.

(** *** Codex *)

Definition toml_entry (k v : string) : string := jsonString k +:+ "=" +:+ quoted v.

(** The filesystem table and its text. *)
Definition codex_files (read writes : list string) : list string * gmap string string :=
  let '(fs, m) := foldl (λ (acc : list string * gmap string string) p,
                    match te_eval t p with
                    | Some r => if bool_decide (value acc.2 r = "") then (acc.1 ++ [toml_entry r "read"], <[r := "read"]> acc.2) else acc
                    | None => acc
                    end) ([quoted ":minimal" +:+ "=" +:+ quoted "read"], {[ ":minimal" := "read" ]}) read in
  foldl (λ acc p, (acc.1 ++ [toml_entry p "write"], <[p := "write"]> acc.2)) (fs, m) writes.

Definition codex_network (domains : list string) : string :=
  match domains with
  | [] => "enabled=false"
  | _ => "enabled=true,mode=" +:+ quoted "limited" +:+
         ",allow_local_binding=false,allow_upstream_proxy=false,enable_socks5=false,enable_socks5_udp=false,dangerously_allow_all_unix_sockets=false,dangerously_allow_non_loopback_proxy=false,domains={" +:+
         Join (map (λ d, toml_entry (TrimSuffix d ":443") "allow") domains) "," +:+ "}"
  end.

Definition disabled_features : list string :=
  ["view_image"; "multi_agent"; "multi_agent_v2"; "memories"; "browser_use"; "computer_use"; "in_app_browser";
   "shell_snapshot"; "shell_snapshot_v2"; "shell_zsh_fork"; "external_agent_memory_import"; "in_app_local_automation"; "goals"].

Definition tool_environment (c : ProviderConfig) (s : Session) : list string :=
  ["HOME=" +:+ ToolHome s; "TMPDIR=" +:+ s_temp s; "TMP=" +:+ s_temp s; "TEMP=" +:+ s_temp s; "LANG=C"] ++
  List.filter (λ item, HasPrefix item "PATH=") (default [] (Env c)).

Definition codex_arguments (c : ProviderConfig) (s : Session) (files : list string) : list string :=
  let domains := AllowedDomains (SessionIsolation c) in
  ["-c"; "default_permissions=" +:+ quoted "openlinker_session";
   "-c"; "permissions={openlinker_session={filesystem={" +:+ Join files "," +:+ "},network={" +:+ codex_network domains +:+ "}}}";
   "-c"; "approval_policy=" +:+ quoted "never"; "-c"; "shell_environment_policy.inherit=" +:+ quoted "none";
   "-c"; "shell_environment_policy.set=" +:+ codexCommandEnvironment (tool_environment c s);
   "-c"; "project_doc_max_bytes=0"; "-c"; "mcp_servers={}"; "-c"; "developer_instructions=" +:+ quoted ""; "-c"; "notify=[]"]
  ++ concat (map (λ f, ["--disable"; f]) disabled_features)
  ++ match domains with [] => ["--disable"; "network_proxy"] | _ => ["--enable"; "network_proxy"] end.

(** *** Claude *)

(** [nativeLinuxReadDenies] *)
Definition nativeLinuxReadDenies : result (list string) :=
  match te_roots t with
  | None => Err (ENew "cannot enumerate native tool filesystem boundary")
  | Some entries =>
      if 1024 <? Z.of_nat (length entries) then Err (ENew "cannot enumerate native tool filesystem boundary")
      else
        let paths := foldl (λ acc n, if bool_decide (n ∈ ["proc"; "dev"; "sys"]) then acc
                                     else appendUniqueString acc (canon ("/" +:+ n))) [] entries in
        Ok (List.filter (λ p, negb (existsb (λ parent, negb (bool_decide (p = parent)) && HasPrefix p (parent +:+ "/")) paths)) paths)
  end.

Definition denied_reads (c : ProviderConfig) : result (list string) :=
  let host := nativeHostPaths (default [] (Env c)) in
  denied ← (if bool_decide (te_GOOS t = "linux") then roots ← nativeLinuxReadDenies; Ok (roots ++ host)
            else Ok (["/"; "/tmp"; "/private/tmp"; te_tempdir t] ++ host));
  let all := denied ++ home_entries (default [] (Env c)) in
  Ok (foldl (λ acc p, match te_eval t p with Some r => appendUniqueString acc r | None => acc end) all all).

Definition denied_addresses : list string :=
  ["0.0.0.0/8"; "127.0.0.0/8"; "169.254.0.0/16"; "::/128"; "::1/128"; "fe80::/10"; "10.0.0.0/8"; "172.16.0.0/12";
   "192.168.0.0/16"; "100.64.0.0/10"; "fc00::/7"; "224.0.0.0/4"; "ff00::/8"].

Definition claude_tool_settings (c : ProviderConfig) (denied read writes : list string) : json :=
  go_obj ([("permissions", go_obj [("defaultMode", JStr "default"); ("blockReadsOutsideWorkingDirectories", JBool true);
                                   ("disableBypassPermissionsMode", JStr "disable")]);
           ("sandbox", go_obj
              [("enabled", JBool true); ("failIfUnavailable", JBool true); ("allowUnsandboxedCommands", JBool false);
               ("autoAllowBashIfSandboxed", JBool true); ("excludedCommands", JArr []); ("enableWeakerNestedSandbox", JBool false);
               ("credentials", go_obj [("envVars", JArr (map (λ n, go_obj [("name", JStr n); ("mode", JStr "deny")])
                                                            ["ANTHROPIC_API_KEY"; "ANTHROPIC_AUTH_TOKEN"]))]);
               ("filesystem", go_obj [("disabled", JBool false); ("denyRead", json_strings denied);
                                      ("allowRead", json_strings read); ("allowWrite", json_strings writes);
                                      ("denyWrite", json_strings (nativeHostPaths (default [] (Env c))))]);
               ("network", go_obj [("strictAllowlist", JBool true);
                                   ("allowedDomains", json_strings (AllowedDomains (SessionIsolation c)));
                                   ("allowLocalBinding", JBool false); ("allowAllUnixSockets", JBool false);
                                   ("allowUnixSockets", JArr []); ("deniedResolvedAddresses", json_strings denied_addresses)])])]
          ++ claude_settings).

(** [newNativeToolPolicy] *)
Definition newNativeToolPolicy (c : ProviderConfig) (s : Session) : result nativeToolPolicy :=
  if bool_decide (Provider c = "claude") && ContainsAny (Session_Workspace s) "(),"
  then Err (ENew "Claude SESSION_ROOT must not contain permission-rule delimiters")
  else
    let blocked := blocked_paths c in
    custom ← custom_read blocked (ReadPaths (SessionIsolation c));
    let read := resolved_read (system_read ++ platform_read c ++ custom) in
    if existsb (λ b, existsb (λ g, exposed b (canon g)) (read ++ extra_roots c)) blocked
    then Err (ENew "authentication and session roots must be outside readable system/code paths")
    else
      let writes := session_writes s in
      if existsb (λ home, existsb (λ g, pathsOverlap (canon g) (canon (hostAuthStatePath home))) writes)
                 (home_entries (default [] (Env c)))
      then Err (ENew "session writable paths cannot overlap host-auth coordination state")
      else
        let '(files, table) := codex_files read writes in
        denied ← denied_reads c;
        Ok {| tp_codex := codex_arguments c s files; tp_codexFilesystem := table;
              tp_claude := marshal (claude_tool_settings c denied (read ++ writes) writes);
              tp_commandReadRoots := read ++ writes ++ extra_roots c |}.

(** [nativeHostCommand]: the environment of the client process. *)
Definition host_command_environment (c : ProviderConfig) (s : Session) : list string :=
  let temp := s_temp s in
  WithIdentity (te_username t)
    (default [] (Env c) ++ ["TMPDIR=" +:+ temp; "TMP=" +:+ temp; "TEMP=" +:+ temp] ++
     (if bool_decide (Provider c = "claude")
      then ["CLAUDE_CODE_TMPDIR=" +:+ temp;
            "CLAUDE_CODE_SUBPROCESS_ENV_SCRUB=" +:+ (if bool_decide (te_GOOS t = "linux") then "0" else "1");
            "CLAUDE_CODE_DISABLE_NONESSENTIAL_TRAFFIC=1";
            "CLAUDE_CODE_PROJECT_DIR_NAME=openlinker-" +:+ Scope [SessionStorePath c]]
      else [])).
End policy.

(** ** Confinement *)

(** [p] is [dir] or below it. *)
Definition within (dir p : string) : Prop := clean_elements dir `prefix_of` clean_elements p.
Definition apart (a b : string) : Prop := ¬ within a b ∧ ¬ within b a.

Lemma pathsOverlap_apart a b : IsAbs a = true → IsAbs b = true → pathsOverlap a b = false → apart a b.
Proof.
  intros Ha Hb [H1 H2]%orb_false_iff. unfold apart, within. rewrite <-!contains_iff by done. by rewrite H1, H2.
Qed.

(** The textual test finds every root above a path, the file system's apart. *)
Lemma exposed_within b g :
  IsAbs b = true → Clean b = b → IsAbs g = true → Clean g = g → g ≠ "/" → within g b → exposed b g = true.
Proof.
  intros Hb Hcb Hg Hcg Hroot [rest Hr]. unfold exposed. rewrite <-Hcb, <-Hcg, !render_clean, Hr by done.
  destruct rest as [|x rest]; [by rewrite app_nil_r, bool_decide_true|]. apply orb_true_iff. right.
  assert (clean_elements g ≠ []) as Hne by (intros He; apply Hroot; rewrite <-Hcg, render_clean, He by done; done).
  unfold render. rewrite Join_app by done. unfold HasPrefix. rewrite <-str_app_assoc.
  change ("/" +:+ Join (clean_elements g) "/" +:+ "/" +:+ Join (x :: rest) "/") with
    ("/" +:+ (Join (clean_elements g) "/" +:+ ("/" +:+ Join (x :: rest) "/"))).
  rewrite (str_app_assoc (Join _ "/") "/"), (str_app_assoc "/" (Join _ "/" +:+ "/")). apply prefix_app.
Qed.

Section confinement.
Context (t : tool_env).
(** A resolved path is absolute, clean and resolves to itself. *)
Context (Heval : ∀ p r, te_eval t p = Some r → IsAbs r = true ∧ Clean r = r ∧ te_eval t r = Some r).
#[local] Set Default Proof Using "Type*".

Lemma eval_clean p r : te_eval t p = Some r → IsAbs r = true ∧ Clean r = r.
Proof. intros H. by destruct (Heval _ _ H) as (? & ? & ?). Qed.

Lemma canon_clean p : IsAbs p = true → IsAbs (canon t p) = true ∧ Clean (canon t p) = canon t p.
Proof.
  intros Hp. unfold canon. destruct (prospective_denotes (te_eval t) eval_clean p Hp) as (q & -> & Hd).
  cbn [default]. unfold id. by apply (denotes_clean (te_eval t) eval_clean (clean_elements p)); [apply rooted_clean|].
Qed.

Lemma canon_eval p r : IsAbs p = true → Clean p = p → te_eval t p = Some r → canon t p = r.
Proof.
  intros Hp Hc He. destruct (eval_clean _ _ He) as [Hr Hcr]. unfold canon, canonicalProspectivePath. rewrite Hc. cbn [canonical_walk].
  rewrite He. rewrite <-Hc at 2. rewrite (render_clean p) by done.
  rewrite (Rel_clean _ p) by done. rewrite <-(take_ge (clean_elements p) (length (clean_elements p))) at 1 by done.
  rewrite Rel_below by by apply rooted_clean. cbn [default]. unfold id. rewrite drop_all.
  rewrite (join_resolved r []) by (done || (split; [constructor|set_solver])). by rewrite app_nil_r, <-render_clean.
Qed.

Lemma elem_of_resolved_read read g :
  g ∈ resolved_read t read → ∃ p, p ∈ read ∧ te_eval t p = Some g.
Proof.
  unfold resolved_read. enough (∀ acc, g ∈ foldl (λ acc p, match te_eval t p with Some r => appendUniqueString acc r | None => acc end) acc read →
    g ∈ acc ∨ ∃ p, p ∈ read ∧ te_eval t p = Some g) as H.
  { intros Hg. destruct (H [] Hg) as [?%elem_of_nil|]; done. }
  induction read as [|p read IH]; intros acc; [by left|]. cbn [foldl]. intros [Hg|(q & Hq & He)]%IH.
  - destruct (te_eval t p) as [r|] eqn:He; [|by left]. apply elem_of_appendUniqueString in Hg as [Hg|Hg]; [by left|right].
    subst. exists p. split; [set_solver|done].
  - right. exists q. split; [set_solver|done].
Qed.

Lemma custom_read_spec blocked paths custom :
  custom_read t blocked paths = Ok custom →
  ∀ r, r ∈ custom → (∃ p, te_eval t p = Some r) ∧ ∀ b, b ∈ blocked → pathsOverlap r b = false.
Proof.
  revert custom. induction paths as [|p paths IH]; intros custom H r Hr; [injection H as <-; by apply elem_of_nil in Hr|].
  cbn [custom_read] in H. destruct (te_eval t p) as [r0|] eqn:He; [|done].
  destruct (existsb (pathsOverlap r0) blocked) eqn:Hx; [done|]. apply bind_Ok in H as (rs & Hrs & H). injection H as <-.
  apply elem_of_cons in Hr as [->|Hr]; [|by eapply IH]. split; [by exists p|]. intros b Hb.
  destruct (pathsOverlap r0 b) eqn:Ho; [|done]. rewrite <-Hx. symmetry. apply existsb_exists. exists b. by rewrite <-list_elem_of_In.
Qed.

(** A tool may use the path this way: Codex's own minimal profile, a directory of the
    session, or a root to read that holds no protected path. *)
Definition may_read (c : ProviderConfig) (g : string) : Prop := ∀ b, b ∈ blocked_paths t c → ¬ within (canon t g) b.
Definition may_use (c : ProviderConfig) (s : Session) (q rule : string) : Prop :=
  (q = ":minimal" ∧ rule = "read") ∨ (rule = "write" ∧ q ∈ session_writes s) ∨ (rule = "read" ∧ may_read c q).

(** [p] is denied by [d]: the same path or below it. *)
Definition covered (d p : string) : Prop := d = p ∨ HasPrefix p (d +:+ "/") = true.
(** The whole file system is denied: on Linux every entry of "/" but those the client
    itself replaces, elsewhere "/". *)
Definition denies_all (denied : list string) : Prop :=
  if decide (te_GOOS t = "linux")
  then ∃ entries, te_roots t = Some entries ∧
       ∀ n, n ∈ entries → n ∉ ["proc"; "dev"; "sys"] → ∃ d, d ∈ denied ∧ covered d (canon t ("/" +:+ n))
  else "/" ∈ denied.
(** What the settings of Claude say of the sandbox of its tools. *)
Record claude_sandboxed (c : ProviderConfig) (s : Session) (settings : json) : Prop := {
  cs_on : obj_get (obj_get settings "sandbox") "enabled" = JBool true ∧
          obj_get (obj_get settings "sandbox") "failIfUnavailable" = JBool true ∧
          obj_get (obj_get settings "sandbox") "allowUnsandboxedCommands" = JBool false ∧
          obj_get (obj_get settings "sandbox") "excludedCommands" = JArr [] ∧
          obj_get (obj_get settings "sandbox") "enableWeakerNestedSandbox" = JBool false ∧
          obj_get (obj_get settings "permissions") "disableBypassPermissionsMode" = JStr "disable";
  cs_filesystem : ∃ denied read,
    let files := obj_get (obj_get settings "sandbox") "filesystem" in
    obj_get files "disabled" = JBool false ∧ obj_get files "denyRead" = json_strings denied ∧
    obj_get files "allowRead" = json_strings read ∧ obj_get files "allowWrite" = json_strings (session_writes s) ∧
    obj_get files "denyWrite" = json_strings (nativeHostPaths (default [] (Env c))) ∧
    denies_all denied ∧ (∀ q, q ∈ nativeHostPaths (default [] (Env c)) → q ∈ denied) ∧
    (∀ q, q ∈ read → q ∈ session_writes s ∨ may_read c q);
  cs_network : obj_get (obj_get (obj_get settings "sandbox") "network") "strictAllowlist" = JBool true ∧
    obj_get (obj_get (obj_get settings "sandbox") "network") "allowedDomains" = json_strings (AllowedDomains (SessionIsolation c));
}.

(** What a policy keeps apart. *)
Record confined_tools (c : ProviderConfig) (s : Session) (p : nativeToolPolicy) : Prop := {
  (** no readable root but the session's own directories holds a protected path *)
  ct_read g b : g ∈ tp_commandReadRoots p → g ∉ session_writes s → b ∈ blocked_paths t c → ¬ within (canon t g) b;
  (** an operator's read path and a protected path are disjoint *)
  ct_custom r b : (∃ q, q ∈ ReadPaths (SessionIsolation c) ∧ te_eval t q = Some r) → b ∈ blocked_paths t c → apart r b;
  (** no writable directory touches the coordination state of any HOME *)
  ct_write w home : w ∈ session_writes s → home ∈ home_entries (default [] (Env c)) → IsAbs home = true →
    apart (canon t w) (canon t (hostAuthStatePath home));
  (** the credential stores under the client's HOME and the session root are protected *)
  ct_protects home : home = value (host_values (default [] (Env c))) "HOME" → IsAbs home = true →
    ∀ x, x ∈ [".codex"; ".claude"; ".claude.json"; "Library/Keychains"; ".ssh"; ".aws"] → canon t (JoinPath [home; x]) ∈ blocked_paths t c;
  ct_root : Root (SessionIsolation c) ≠ "" → canon t (Root (SessionIsolation c)) ∈ blocked_paths t c;
  (** the table of Codex, and the entries its arguments spell *)
  ct_codex q rule : tp_codexFilesystem p !! q = Some rule → may_use c s q rule;
  ct_arguments : ∃ files network,
    "permissions={openlinker_session={filesystem={" +:+ Join files "," +:+ "},network={" +:+ network +:+ "}}}" ∈ tp_codex p ∧
    "default_permissions=" +:+ quoted "openlinker_session" ∈ tp_codex p ∧ "approval_policy=" +:+ quoted "never" ∈ tp_codex p ∧
    ∀ e, e ∈ files → ∃ q rule, e = toml_entry q rule ∧ may_use c s q rule;
  ct_claude : ∃ settings, tp_claude p = marshal settings ∧ claude_sandboxed c s settings;
}.

(** *** The rules of Codex *)
Definition granted (read writes : list string) (q rule : string) : Prop :=
  (q = ":minimal" ∧ rule = "read") ∨ (rule = "write" ∧ q ∈ writes) ∨ (rule = "read" ∧ ∃ p, p ∈ read ∧ te_eval t p = Some q).
Definition files_granted (P : string → string → Prop) (acc : list string * gmap string string) : Prop :=
  (∀ e, e ∈ acc.1 → ∃ q rule, e = toml_entry q rule ∧ P q rule) ∧ ∀ q rule, acc.2 !! q = Some rule → P q rule.

Lemma files_granted_add P acc q rule :
  files_granted P acc → P q rule → files_granted P (acc.1 ++ [toml_entry q rule], <[q := rule]> acc.2).
Proof.
  intros [H1 H2] HP. split; simpl.
  - intros e [He| ->%list_elem_of_singleton]%elem_of_app; [by apply H1|by exists q, rule].
  - intros q' rule' [[<- <-]|[_ Hl]]%lookup_insert_Some; [done|by apply H2].
Qed.

Lemma codex_files_granted read writes files table :
  codex_files t read writes = (files, table) → files_granted (granted read writes) (files, table).
Proof.
  unfold codex_files. set (step := λ (acc : list string * gmap string string) p, _). set (start := ([_], _)).
  assert (files_granted (granted read writes) start) as H0.
  { split; simpl.
    - intros e ->%list_elem_of_singleton. exists ":minimal", "read". split; [reflexivity|by left].
    - intros q rule [<- <-]%lookup_singleton_Some. by left. }
  assert (∀ l acc, (∀ p, p ∈ l → p ∈ read) → files_granted (granted read writes) acc →
    files_granted (granted read writes) (foldl step acc l)) as Hr.
  { induction l as [|p l IH]; intros acc Hl Hacc; [done|]. cbn [foldl]. apply IH; [set_solver|]. unfold step.
    destruct (te_eval t p) as [r|] eqn:He; [|done]. case_bool_decide; [|done]. apply files_granted_add; [done|].
    right; right. split; [done|]. exists p. split; [set_solver|done]. }
  assert (∀ l acc, (∀ p, p ∈ l → p ∈ writes) → files_granted (granted read writes) acc →
    files_granted (granted read writes) (foldl (λ (acc : list string * gmap string string) p, (acc.1 ++ [toml_entry p "write"], <[p := "write"]> acc.2)) acc l)) as Hw.
  { induction l as [|p l IH]; intros acc Hl Hacc; [done|]. cbn [foldl]. apply IH; [set_solver|].
    apply files_granted_add; [done|]. right; left. split; [done|set_solver]. }
  specialize (Hr read start (λ _ H, H) H0). destruct (foldl step start read) as [fs m]. intros Heq.
  specialize (Hw writes (fs, m) (λ _ H, H) Hr). by rewrite Heq in Hw.
Qed.

(** *** The reads Claude is denied *)
Lemma prefix_trans a b d : HasPrefix a (b +:+ "/") = true → HasPrefix b (d +:+ "/") = true → HasPrefix a (d +:+ "/") = true.
Proof.
  intros Ha Hb. apply prefix_inv in Ha, Hb. unfold HasPrefix. rewrite Ha, Hb, <- !str_app_assoc. rewrite (str_app_assoc d). apply prefix_app.
Qed.

Lemma linux_denies_cover roots entries :
  nativeLinuxReadDenies t = Ok roots → te_roots t = Some entries →
  ∀ n, n ∈ entries → n ∉ ["proc"; "dev"; "sys"] → ∃ d, d ∈ roots ∧ covered d (canon t ("/" +:+ n)).
Proof.
  unfold nativeLinuxReadDenies. intros H He. rewrite He in H. destruct (1024 <? _); [done|]. cbn zeta in H.
  set (paths := foldl _ [] entries) in H. apply Ok_inj in H. intros n Hn Hnot.
  assert (canon t ("/" +:+ n) ∈ paths) as Hin.
  { unfold paths. clear -Hn Hnot.
    assert (∀ l acc, canon t ("/" +:+ n) ∈ acc ∨ n ∈ l → canon t ("/" +:+ n) ∈
      foldl (λ acc n, if bool_decide (n ∈ ["proc"; "dev"; "sys"]) then acc else appendUniqueString acc (canon t ("/" +:+ n))) acc l) as H; [|by apply H; right].
    induction l as [|m l IH]; intros acc; [by intros [?|?%elem_of_nil]|]. cbn [foldl]. intros Hor. apply IH.
    destruct Hor as [Ha|[->|Hl]%elem_of_cons]; [|rewrite bool_decide_eq_false_2 by done; left; apply elem_of_appendUniqueString; by right|by right].
    left. case_bool_decide; [done|]. apply elem_of_appendUniqueString. by left. }
  clearbody paths. revert Hin. generalize (canon t ("/" +:+ n)). clear n Hn Hnot. intros p.
  remember (String.length p) as k eqn:Hk. revert p Hk. induction (lt_wf k) as [k _ IH]. intros p -> Hin.
  destruct (existsb (λ parent, negb (bool_decide (p = parent)) && HasPrefix p (parent +:+ "/")) paths) eqn:Hx.
  - apply existsb_exists in Hx as (q & Hq%list_elem_of_In & [_ Hpre]%andb_true_iff).
    destruct (IH (String.length q)) with (p := q) as (d & Hd & Hcov); [|done|done|].
    + apply prefix_inv in Hpre. rewrite Hpre, !str_length_app. simpl. lia.
    + exists d. split; [done|]. right. destruct Hcov as [->|Hcov]; [done|by eapply prefix_trans].
  - exists p. split; [|by left]. rewrite <- H. apply elem_of_filter_bool. split; [by rewrite Hx|done].
Qed.

Lemma denied_reads_deny c denied :
  denied_reads t c = Ok denied → denies_all denied ∧ ∀ q, q ∈ nativeHostPaths (default [] (Env c)) → q ∈ denied.
Proof.
  unfold denied_reads. intros (all & Hall & H)%bind_Ok. cbn zeta in H. apply Ok_inj in H.
  set (given := all ++ home_entries _) in *.
  assert (∀ q, q ∈ given → q ∈ denied) as Hsub.
  { rewrite <- H. clear. intros q Hq. enough (∀ l acc, q ∈ acc → q ∈ foldl (λ acc p, match te_eval t p with Some r => appendUniqueString acc r | None => acc end) acc l) as Hf by by apply Hf.
    induction l as [|p l IH]; intros acc Ha; [done|]. cbn [foldl]. apply IH. destruct (te_eval t p); [|done].
    apply elem_of_appendUniqueString. by left. }
  assert (∀ q, q ∈ all → q ∈ denied) as Hsub' by (intros q Hq; apply Hsub, elem_of_app; by left).
  unfold denies_all. destruct (decide (te_GOOS t = "linux")) as [Hos|Hos].
  - rewrite bool_decide_eq_true_2 in Hall by done. apply bind_Ok in Hall as (roots & Hr & Hall). apply Ok_inj in Hall. subst all.
    split; [|intros q Hq; apply Hsub', elem_of_app; by right].
    destruct (te_roots t) as [entries|] eqn:He; [|by unfold nativeLinuxReadDenies in Hr; rewrite He in Hr].
    exists entries. split; [done|]. intros n Hn Hnot. destruct (linux_denies_cover roots entries Hr He n Hn Hnot) as (d & Hd & Hc).
    exists d. split; [|done]. apply Hsub', elem_of_app. by left.
  - rewrite bool_decide_eq_false_2 in Hall by done. apply Ok_inj in Hall. subst all.
    split; [apply Hsub', elem_of_app; left; by left|]. intros q Hq. apply Hsub', elem_of_app. by right.
Qed.

Lemma claude_settings_sandboxed c s denied read :
  denies_all denied → (∀ q, q ∈ nativeHostPaths (default [] (Env c)) → q ∈ denied) →
  (∀ q, q ∈ read → q ∈ session_writes s ∨ may_read c q) →
  claude_sandboxed c s (claude_tool_settings c denied read (session_writes s)).
Proof.
  intros H1 H2 H3. split; [by split_and!| |by split_and!]. exists denied, read. cbn zeta. split_and!; done.
Qed.

Definition platform_roots (c : ProviderConfig) : list string := system_read ++ platform_read t c ++ minimal_roots.

Lemma platform_roots_clean c p : p ∈ platform_roots c → IsAbs p = true ∧ Clean p = p.
Proof.
  unfold platform_roots. rewrite !elem_of_app. intros [Hp|[Hp|Hp]].
  - set_unfold in Hp. destruct_or! Hp; subst; done.
  - unfold platform_read, claude_binary in Hp. case_bool_decide; [set_unfold in Hp; destruct_or! Hp; subst; done|].
    apply elem_of_app in Hp as [Hp|Hp]; [set_unfold in Hp; destruct_or! Hp; subst; done|]. case_bool_decide; [|by apply elem_of_nil in Hp].
    destruct (te_look t _ ≫= te_eval t) as [r|] eqn:He; [|by apply elem_of_nil in Hp]. apply list_elem_of_singleton in Hp as ->.
    destruct (te_look t _) as [q|]; [|done]. by eapply eval_clean.
  - set_unfold in Hp. destruct_or! Hp; subst; done.
Qed.

Lemma blocked_clean c b :
  Forall (λ p, p = "" ∨ IsAbs p = true) (protected_paths c) → b ∈ blocked_paths t c → IsAbs b = true ∧ Clean b = b.
Proof.
  intros Hall (p & -> & [Hp Hin]%elem_of_filter_bool)%list_elem_of_fmap. rewrite list.Forall_forall in Hall.
  apply canon_clean. destruct (Hall p Hin) as [->|]; [done|done].
Qed.

Lemma existsb_none {A} (f : A → bool) l x : existsb f l = false → x ∈ l → f x = false.
Proof.
  intros He Hx. destruct (f x) eqn:Hf; [|done]. rewrite <-He. symmetry. apply existsb_exists. exists x. by rewrite <-list_elem_of_In.
Qed.

Lemma state_path_abs home : IsAbs home = true → IsAbs (hostAuthStatePath home) = true.
Proof.
  intros Hh. unfold hostAuthStatePath, JoinPath. cbn [List.filter]. rewrite !bool_decide_false by (done || by apply abs_nonempty).
  cbn [negb]. rewrite IsAbs_Clean. change (IsAbs (home +:+ "/" +:+ Join [".local"; "state"; "openlinker-agent-node"] "/") = true).
  by apply IsAbs_app.
Qed.

(** A read root: of the platform, or the operator's. *)
Lemma read_root c custom g :
  g ∈ resolved_read t (system_read ++ platform_read t c ++ custom) ++ extra_roots t c →
  (∃ q, q ∈ platform_roots c ∧ canon t g = canon t q) ∨ (∃ q, q ∈ custom ∧ te_eval t q = Some g).
Proof.
  rewrite elem_of_app. intros [(q & Hq & He)%elem_of_resolved_read|Hg].
  - rewrite !elem_of_app in Hq. destruct (Heval _ _ He) as (Ha & Hc & Hself).
    assert (q ∈ system_read ∨ q ∈ platform_read t c → canon t g = canon t q) as Hcan.
    { intros Hin. destruct (platform_roots_clean c q) as [Hqa Hqc]; [unfold platform_roots; rewrite !elem_of_app; tauto|].
      rewrite (canon_eval q g), (canon_eval g g) by done. done. }
    destruct Hq as [Hq|[Hq|Hq]]; [left; exists q; unfold platform_roots; rewrite !elem_of_app; by auto..|right; by exists q].
  - left. exists g. unfold platform_roots. rewrite !elem_of_app. unfold extra_roots in Hg.
    destruct (_ && _); [by auto|by apply elem_of_nil in Hg].
Qed.

Lemma tool_policy_confined c s p :
  newNativeToolPolicy t c s = Ok p →
  Forall (λ q, q = "" ∨ IsAbs q = true) (protected_paths c) → Forall (λ w, IsAbs w = true) (session_writes s) →
  (∀ q, q ∈ platform_roots c → canon t q ≠ "/") →
  confined_tools c s p.
Proof.
  unfold newNativeToolPolicy. intros H Hprot Hwr Hroot. destruct (_ && ContainsAny _ _); [done|].
  apply bind_Ok in H as (custom & Hcustom & H). cbn zeta in H.
  destruct (existsb _ (blocked_paths t c)) eqn:Hexp; [done|]. destruct (existsb _ (home_entries _)) eqn:Hhome; [done|].
  set (read := resolved_read t (system_read ++ platform_read t c ++ custom)) in *.
  destruct (codex_files t read (session_writes s)) as [files table] eqn:Hfiles. apply bind_Ok in H as (denied & Hden & H). apply Ok_inj in H. subst p.
  pose proof (custom_read_spec _ _ _ Hcustom) as Hspec.
  assert (∀ g, g ∈ read ++ extra_roots t c → may_read c g) as Hmay.
  { intros g Hg' b Hb Hin. destruct (blocked_clean c b Hprot Hb) as [Hba Hbc].
    pose proof (existsb_none _ _ g (existsb_none _ _ b Hexp Hb) Hg') as Hne. cbn beta in Hne.
    apply read_root in Hg' as [(q & Hq & Hcan)|(q & Hq & He)].
    + destruct (platform_roots_clean c q Hq) as [Hqa _]. destruct (canon_clean q Hqa) as [Hca Hcc].
      rewrite Hcan in *. rewrite exposed_within in Hne; try done. by apply Hroot.
    + destruct (Heval _ _ He) as (Ha & Hc & Hself). rewrite (canon_eval g g) in Hin by done.
      destruct (Hspec q Hq) as [(q0 & Hq0) Hov]. destruct (Heval _ _ Hq0) as (Hqa & Hqc & Hqs). assert (g = q) as -> by congruence.
      destruct (pathsOverlap_apart q b) as [Hn _]; [done|done|by apply Hov|done]. }
  assert (∀ q rule, granted read (session_writes s) q rule → may_use c s q rule) as Huse.
  { intros q rule [?|[?|[-> (q0 & Hq0 & He)]]]; [by left|by right; left|]. right; right. split; [done|]. apply Hmay, elem_of_app. left.
    pose proof Hq0 as (q1 & _ & Hq1)%elem_of_resolved_read. destruct (Heval _ _ Hq1) as (_ & _ & Hself). rewrite Hself in He.
    by injection He as <-. }
  destruct (codex_files_granted _ _ _ _ Hfiles) as [Hfs Htable]. destruct (denied_reads_deny _ _ Hden) as [Hd1 Hd2].
  assert (∀ x, x ∈ protected_paths c → x ≠ "" → canon t x ∈ blocked_paths t c) as Hblk.
  { intros x Hx Hne. apply list_elem_of_fmap_2, elem_of_filter_bool. split; [by rewrite bool_decide_eq_false_2|done]. }
  split.
  - intros g b Hg Hw. change (g ∈ read ++ session_writes s ++ extra_roots t c) in Hg. apply Hmay.
    apply elem_of_app. apply elem_of_app in Hg as [Hg|[Hg|Hg]%elem_of_app]; [by left|done|by right].
  - intros r b (q & Hq & He) Hb. destruct (blocked_clean c b Hprot Hb) as [Hba _]. destruct (Heval _ _ He) as (Ha & _ & _).
    apply pathsOverlap_apart; [done|done|].
    enough (r ∈ custom) as Hr by by apply Hspec. clear -Hcustom Hq He. revert custom Hcustom.
    induction (ReadPaths (SessionIsolation c)) as [|p0 ps IH]; intros custom Hcustom; [by apply elem_of_nil in Hq|].
    cbn [custom_read] in Hcustom. destruct (te_eval t p0) as [r0|] eqn:He0; [|done]. destruct (existsb _ _); [done|].
    apply bind_Ok in Hcustom as (rs & Hrs & [= <-]). apply elem_of_cons in Hq as [->|Hq]; [rewrite He in He0; injection He0 as <-; by left|].
    right. by apply IH.
  - intros w home Hw Hh Ha. rewrite list.Forall_forall in Hwr.
    pose proof (existsb_none _ _ w (existsb_none _ _ home Hhome Hh) Hw) as Ho. cbn beta in Ho.
    apply pathsOverlap_apart; [apply canon_clean, Hwr, Hw|apply canon_clean, state_path_abs, Ha|done].
  - intros home -> Ha x Hx. apply Hblk.
    + unfold protected_paths. apply elem_of_app. left. unfold nativeHostPaths. cbv zeta. apply elem_of_app. left. set_unfold in Hx.
      destruct_or! Hx; subst x; repeat (apply elem_of_cons; first [by left|right]).
    + apply abs_nonempty. rewrite JoinPath_two; [|by apply abs_nonempty|set_unfold in Hx; destruct_or! Hx; by subst x].
      rewrite IsAbs_Clean. by apply IsAbs_app.
  - intros Hne. apply Hblk; [|done]. unfold protected_paths. apply elem_of_app. right. by left.
  - intros q rule Hq. by apply Huse, Htable.
  - exists files, (codex_network (AllowedDomains (SessionIsolation c))). cbn [tp_codex]. unfold codex_arguments.
    split_and!; [apply elem_of_app; left; repeat (apply elem_of_cons; first [by left|right])..|].
    intros e He. destruct (Hfs e He) as (q & rule & -> & Hg). eauto.
  - eexists. split; [reflexivity|]. apply claude_settings_sandboxed; [done|done|].
    intros q [Hq|Hq]%elem_of_app; [right; apply Hmay, elem_of_app; by left|by left].
Qed.
End confinement.
