(* ===== verification/Isolation.v ===== *)
(** * Isolated sessions and host authentication

    pkg/adapters/isolation.go, host_auth_gate.go, host_auth_directory_unix.go and the
    endpoint check of model_endpoint.go, on top of the session sandbox (Sandbox) and
    the tool policy (ToolPolicy). *)

From S2P Require Import Prelude GoStrings Sha256 Json JsonRoundtrip BoundTools GoNet Paths PrivateFiles SessionStore Environment Sandbox Resolve ProviderConfig Url ToolPolicy.
From stdpp Require Import options.

Open Scope Z_scope.

(** ** Validation *)

(** [validateHostAuthConcurrency] *)
Definition validateHostAuthConcurrency (c : ProviderConfig) : option go_error :=
  if bool_decide (HostAuthConcurrency c = "") then None
  else if negb (Enabled (SessionIsolation c)) then Some (ENew "HOST_AUTH_CONCURRENCY requires SESSION_ISOLATION=native")
  else if bool_decide (HostAuthConcurrency c ∈ ["serial"; "client-managed"]) then None
  else Some (ENew "HOST_AUTH_CONCURRENCY must be serial or client-managed").

Section validation.
Context {UL : UnicodeLower}.

(** [validateIsolatedModelEndpoint] *)
Definition validateIsolatedModelEndpoint (c : ProviderConfig) : option go_error :=
  let endpoint := if bool_decide (Provider c = "claude") then ClaudeBaseURL c else CodexBaseURL c in
  if bool_decide (endpoint = "") then None else ValidateModelEndpoint endpoint.

Definition client_tools : list string := ["Read"; "Edit"; "Write"; "Glob"; "Grep"; "Bash"].

(** [validateSessionIsolation] *)
Definition validateSessionIsolation (pf : platform) (c : ProviderConfig) : option go_error :=
  match validateHostAuthConcurrency c with
  | Some e => Some e
  | None =>
      match Validate pf (SessionIsolation c) with
      | Some e => Some e
      | None =>
          if negb (Enabled (SessionIsolation c)) then None
          else
            match validateIsolatedModelEndpoint c with
            | Some e => Some e
            | None =>
                if negb (bool_decide (RuntimeBin (SessionIsolation c) = ""))
                then Some (ENew "host-auth native isolation uses the installed client sandbox; remove SESSION_SANDBOX_BIN")
                else if negb (SessionReuse c) then Some (ENew "native session isolation requires SESSION_REUSE=true")
                else if negb (bool_decide (SessionStorePath c = ""))
                then Some (ENew "native isolation owns per-session maps; remove the legacy SESSION_STORE override")
                else if negb (bool_decide (DelegationTargets c = [])) || negb (bool_decide (DelegationSocket c = ""))
                then Some (ENew "native isolation does not expose host delegation sockets")
                else if negb (bool_decide (EnvAllowlist c = []))
                then Some (ENew "native isolation uses a fixed host-client environment allowlist; remove ENV_ALLOWLIST")
                else if negb (forallb (λ tool, bool_decide (tool ∈ client_tools)) (AllowedTools c))
                then Some (ENew "native Claude ALLOWED_TOOLS must be Read/Edit/Write/Glob/Grep/Bash; use WEB_SEARCH for search")
                else None
            end
      end
  end.

(** ** Preparing a session *)

Definition trusted_authority (r : RunContext) : option (string * string) :=
  match rx_Authority r, rx_Conversation r with
  | Some principal, Some conversation =>
      if bool_decide (TrimSpace principal = "") || bool_decide (rx_AgentID r = "") || bool_decide (rx_RunID r = "") ||
         negb (bool_decide (cc_Source conversation = "core")) || bool_decide (TrimSpace (cc_SessionKey conversation) = "") ||
         negb (bool_decide (cc_CurrentRunID conversation = rx_RunID r))
      then None else Some (principal, cc_SessionKey conversation)
  | _, _ => None
  end.

(** The assignments after the session was opened. *)
Definition with_session (c : ProviderConfig) (s : Session) (env : list string) : ProviderConfig :=
  {| boundMCPTools := boundMCPTools c; boundMCPDigest := boundMCPDigest c; SessionIsolation := SessionIsolation c;
     HostAuthConcurrency := HostAuthConcurrency c; sandbox := Some s; toolPolicy := toolPolicy c;
     DelegationTargets := DelegationTargets c; DelegationProxyBin := DelegationProxyBin c;
     DelegationBrokerRoot := DelegationBrokerRoot c; DelegationSocket := DelegationSocket c; Version := Version c; Provider := Provider c;
     Bin := Bin c; Workspace := Session_Workspace s; Model := Model c; ProviderConfig.Sandbox := ProviderConfig.Sandbox c;
     Permission := Permission c; AllowedTools := AllowedTools c; Timeout := Timeout c; SessionReuse := SessionReuse c;
     SessionStorePath := Session_Store s; WebSearch := WebSearch c; CodexApproval := CodexApproval c;
     CodexBaseURL := CodexBaseURL c; ClaudeBaseURL := ClaudeBaseURL c; Env := Some env; EnvAllowlist := EnvAllowlist c;
     ExecutionProfile := ExecutionProfile c |}.
(** The assignments after the policy was made. *)
Definition with_policy (c : ProviderConfig) (p : nativeToolPolicy) : ProviderConfig :=
  let codex := bool_decide (Provider c = "codex") in
  {| boundMCPTools := boundMCPTools c; boundMCPDigest := boundMCPDigest c; SessionIsolation := SessionIsolation c;
     HostAuthConcurrency := HostAuthConcurrency c; sandbox := sandbox c; toolPolicy := Some p;
     DelegationTargets := DelegationTargets c; DelegationProxyBin := DelegationProxyBin c;
     DelegationBrokerRoot := DelegationBrokerRoot c; DelegationSocket := DelegationSocket c; Version := Version c; Provider := Provider c;
     Bin := Bin c; Workspace := Workspace c; Model := Model c;
     ProviderConfig.Sandbox := if codex then "workspace-write" else ProviderConfig.Sandbox c;
     Permission := if bool_decide (Provider c = "claude") then "default" else Permission c;
     AllowedTools := AllowedTools c; Timeout := Timeout c; SessionReuse := SessionReuse c;
     SessionStorePath := SessionStorePath c; WebSearch := WebSearch c;
     CodexApproval := if codex then "never" else CodexApproval c;
     CodexBaseURL := CodexBaseURL c; ClaudeBaseURL := ClaudeBaseURL c; Env := Env c; EnvAllowlist := EnvAllowlist c;
     ExecutionProfile := ExecutionProfile c |}.

(** [prepareIsolatedSession]; the configuration's [sandbox] is the session that the
    returned function closes ([None]: it does nothing), [close] what the system
    answers when a session is closed after the policy was refused.  The last component
    is that session with the error its [Close] returned, which the source ignores. *)
Definition prepareIsolatedSession (t : tool_env) (env : os_env) (close : option go_error * option go_error * option go_error)
    (c : ProviderConfig) (r : RunContext) (w : world) : result ProviderConfig * world * option (Session * option go_error) :=
  match validateSessionIsolation (os_platform env) c with
  | Some e => (Err e, w, None)
  | None =>
      if negb (Enabled (SessionIsolation c)) then (Ok c, w, None)
      else
        match trusted_authority r with
        | None => (Err (ENew "native isolation requires trusted Core principal, Agent and current conversation authority"), w, None)
        | Some (principal, key) =>
            match nativeClientEnvironment t c with
            | Err e => (Err e, w, None)
            | Ok environment =>
                match OpenClient env (SessionIsolation c) (Scope [Provider c; rx_AgentID r; principal; key]) w with
                | (Err e, w1) => (Err e, w1, None)
                | (Ok s, w1) =>
                    let c1 := with_session c s environment in
                    match newNativeToolPolicy t c1 s with
                    | Err e =>
                        let '(ignored, _, w2) := Close close.1.1 close.1.2 close.2 s w1 in
                        (Err e, w2, Some (s, ignored))
                    | Ok p => (Ok (with_policy c1 p), w1, None)
                    end
                end
            end
        end
  end.
End validation.

(** ** The environment of a prepared session *)

Definition entry_text (kv : string * string) : string := kv.1 +:+ "=" +:+ kv.2.
Definition plain_keys (m : gmap string string) : Prop := ∀ k, is_Some (m !! k) → no_equals k = true.

(** Reading the sorted entries of a map back gives the map. *)
Lemma host_values_map m : plain_keys m → host_values (environmentMap m) = m.
Proof.
  intros Hk. unfold host_values, environmentMap. fold entry_text.
  set (cut := λ e, ((Cut e "=").1.1, (Cut e "=").1.2)).
  assert (∀ l (acc : gmap string string), foldl (λ (m : gmap string string) e, <[(Cut e "=").1.1 := (Cut e "=").1.2]> m) acc l =
            list_to_map (reverse (map cut l)) ∪ acc) as Hfold.
  { induction l as [|e l IH]; intros acc; [by rewrite left_id_L by apply _|]. cbn [foldl map]. rewrite IH, reverse_cons, list_to_map_app.
    rewrite <-(assoc_L (∪)). f_equal. cbn. by rewrite insert_empty, insert_union_singleton_l. }
  rewrite Hfold, right_id_L by apply _.
  assert (map cut (sort_strings (map entry_text (map_to_list m))) ≡ₚ map_to_list m) as Hp.
  { unfold sort_strings. rewrite sorting.merge_sort_Permutation. rewrite map_map.
    rewrite (map_ext_in _ id); [by rewrite map_id|]. intros [k v] Hin%list_elem_of_In%elem_of_map_to_list.
    unfold cut, entry_text. cbn [fst snd]. change ("=" +:+ v) with (String "=" v). rewrite Cut_entry; [done|]. apply Hk. eauto. }
  rewrite <-(list_to_map_to_list m) at 2. apply list_to_map_proper; [|by rewrite reverse_Permutation].
  rewrite reverse_Permutation, Hp. apply NoDup_fst_map_to_list.
Qed.

Lemma client_keys_plain p k : k ∈ client_keys p → no_equals k = true.
Proof. unfold client_keys. case_bool_decide; intros Hk; set_unfold in Hk; destruct_or! Hk; by subst. Qed.

Lemma client_values_spec p environment m :
  client_values p environment = Ok m → ∀ k v, m !! k = Some v → k ∈ client_keys p ∧ ContainsAny v control_chars = false.
Proof.
  unfold client_values. set (step := λ (r : result (gmap string string)) item, _).
  enough (∀ r, (∀ m0, r = Ok m0 → ∀ k v, m0 !! k = Some v → k ∈ client_keys p ∧ ContainsAny v control_chars = false) →
    foldl step r environment = Ok m → ∀ k v, m !! k = Some v → k ∈ client_keys p ∧ ContainsAny v control_chars = false) as H.
  { apply H. intros m0 [= <-] k v. by rewrite lookup_empty. }
  induction environment as [|item l IH]; intros r Hr; [cbn; intros ->; by apply Hr|]. cbn [foldl]. apply IH.
  intros m0 Hm0. unfold step in Hm0. apply bind_Ok in Hm0 as (m1 & -> & Hm1). specialize (Hr m1 eq_refl).
  destruct (Cut item "=") as [[k0 v0] ok]. destruct (_ && _) eqn:Hok; [|by injection Hm1 as <-].
  destruct (ContainsAny v0 control_chars) eqn:Hv; [done|]. injection Hm1 as <-. go_bool. intros k v.
  rewrite lookup_insert_Some. intros [[<- <-]|[_ Hl]]; [done|by apply Hr].
Qed.

(** The variables a trusted client may get. *)
Definition client_names (provider : string) : list string := client_keys provider ++ ["LANG"; "LC_ALL"].

Lemma client_environment_spec t c env :
  nativeClientEnvironment t c = Ok env →
  ∃ m, env = environmentMap m ∧ (∀ k, is_Some (m !! k) → k ∈ client_names (Provider c)) ∧ IsAbs (value m "HOME") = true ∧
    (∀ k, k ∈ ["CODEX_HOME"; "CLAUDE_CONFIG_DIR"] → value m k = "" ∨ IsAbs (value m k) = true).
Proof.
  unfold nativeClientEnvironment. intros (m & Hm & H)%bind_Ok. pose proof (client_values_spec _ _ _ Hm) as Hspec.
  destruct (IsAbs (value m "HOME")) eqn:Hhome; [|done]. cbn [negb] in H. cbv zeta in H.
  set (m1 := if bool_decide (value m "PATH" = "") then _ else m) in H.
  destruct (existsb _ _) eqn:Hx in H; [done|]. injection H as <-.
  set (m2 := if _ && _ then <["ANTHROPIC_BASE_URL" := _]> m1 else m1).
  assert (∀ k, k ∈ ["HOME"; "CODEX_HOME"; "CLAUDE_CONFIG_DIR"] → value m2 k = value m k) as Hkeep.
  { intros k Hk. unfold value, m2, m1. set_unfold in Hk. destruct (_ && _), (bool_decide (value m "PATH" = ""));
      rewrite ?lookup_insert_ne by (destruct_or! Hk; by subst); done. }
  exists (<["LC_ALL" := "C"]> (<["LANG" := "C"]> m2)). split; [done|].
  assert (∀ k, k ∈ ["HOME"; "CODEX_HOME"; "CLAUDE_CONFIG_DIR"] → value (<["LC_ALL" := "C"]> (<["LANG" := "C"]> m2)) k = value m k) as Hval.
  { intros k Hk. rewrite <-Hkeep by done. unfold value. set_unfold in Hk.
    by rewrite !lookup_insert_ne by (destruct_or! Hk; by subst). }
  split_and!.
  - intros k. unfold client_names. rewrite !lookup_insert_is_Some. intros [<-|[_ [<-|[_ Hk]]]];
      [apply elem_of_app; right; right; left|apply elem_of_app; right; left|].
    apply elem_of_app. left. unfold m2 in Hk.
    assert (∀ k, is_Some (m1 !! k) → k ∈ client_keys (Provider c)) as Hm1.
    { intros k' Hk'. unfold m1 in Hk'. assert ("PATH" ∈ client_keys (Provider c)) by (unfold client_keys; right; left).
      case_bool_decide; [rewrite lookup_insert_is_Some in Hk'; destruct Hk' as [<-|[_ Hk']]; [done|]|];
        destruct Hk' as [v Hv]; by eapply Hspec. }
    destruct (bool_decide (Provider c = "claude") && _) eqn:Hcl; [|by apply Hm1]. rewrite lookup_insert_is_Some in Hk.
    destruct Hk as [<-|[_ Hk]]; [|by apply Hm1]. go_bool. unfold client_keys. rewrite bool_decide_true by done. apply elem_of_app. right. do 3 right. left.
  - rewrite Hval by left. done.
  - intros k Hk. rewrite Hval by by right.
    assert (value m1 k = value m k) as Hm1.
    { unfold value, m1. case_bool_decide; [|done]. set_unfold in Hk. by rewrite lookup_insert_ne by (destruct_or! Hk; by subst). }
    pose proof (existsb_none _ _ k Hx Hk) as Hn. cbn beta in Hn. rewrite Hm1 in Hn. apply andb_false_iff in Hn as [Hn|Hn]; go_bool; auto.
Qed.

Lemma join_abs home x : IsAbs home = true → x ≠ "" → IsAbs (JoinPath [home; x]) = true.
Proof. intros Hh Hx. rewrite JoinPath_two by (done || by apply abs_nonempty). rewrite IsAbs_Clean. by apply IsAbs_app. Qed.

Lemma host_paths_abs t c env :
  nativeClientEnvironment t c = Ok env → Forall (λ q, q = "" ∨ IsAbs q = true) (nativeHostPaths env).
Proof.
  intros (m & -> & Hkeys & Hhome & Hdirs)%client_environment_spec. unfold nativeHostPaths.
  rewrite host_values_map.
  2:{ intros k [Hk|Hk]%Hkeys%elem_of_app; [by eapply client_keys_plain|]. set_unfold in Hk. destruct_or! Hk; by subst. }
  apply Forall_app. split.
  - rewrite !list.Forall_cons, list.Forall_nil. split_and!; try done; right; try (by apply join_abs). by apply state_path_abs.
  - apply list.Forall_forall. intros q [_ (k & -> & Hk)%list_elem_of_fmap]%elem_of_filter_bool. by apply Hdirs.
Qed.

(** ** The session that was opened *)

Section opened.
Context {UL : UnicodeLower}.

Lemma open_locked_paths env outer bin control w s w' :
  open_locked env outer bin control w = (Ok s, w') →
  s_control s = control ∧ s_data s = JoinPath [control; "data"] ∧ ∃ created, os_eval env created = Some (s_temp s).
Proof.
  unfold open_locked. destruct (privateDirectory env control "data" w) as [[data|e] w1] eqn:Hd; [|done].
  destruct (proj2 (privateDirectory_spec _ _ _ _ _ _ Hd) data eq_refl) as [-> _].
  destruct (make_dirs env _ session_dirs w1) as [[u|e] w2]; [|done]. destruct (os_policy env (w_fs w2)) as [policy|e]; [|done].
  intros H. destruct outer, (os_runner env); try discriminate H.
  all: destruct (os_temp env _) as [created|e]; [|discriminate H]; destruct (os_eval env created) as [temp|] eqn:He; [|discriminate H].
  all: injection H as <- <-; cbn [s_control s_data s_temp]; eauto.
Qed.

Lemma open_session_paths env c scope outer w s w' :
  openSession env c scope outer w = (Ok s, w') →
  Validate (os_platform env) c = None ∧
  (∃ root, IsAbs root = true ∧ os_eval env (Clean (Root c)) = Some root ∧ s_control s = JoinPath [root; Scope [Namespace c; scope]]) ∧
  s_data s = JoinPath [s_control s; "data"] ∧ ∃ created, os_eval env created = Some (s_temp s).
Proof.
  unfold openSession. destruct (os_ctx env); [done|]. destruct (Validate _ _); [done|]. destruct (_ || _); [done|].
  destruct (if outer then os_runtime env else Ok "") as [bin|e]; [|done].
  destruct (privateRoot env (Root c) w) as [[root|e] w1] eqn:Hr; [|done].
  destruct (proj2 (privateRoot_spec _ _ _ _ _ Hr) root eq_refl) as [Hra Hre].
  destruct (if bool_decide (TempRoot c = "") then _ else _) as [[t|e] w2]; [|done].
  destruct (privateDirectory env root _ w2) as [[control|e] w3] eqn:Hc; [|done].
  destruct (proj2 (privateDirectory_spec _ _ _ _ _ _ Hc) control eq_refl) as [Hceq _].
  destruct (negb (os_lock env) || _); [done|].
  destruct (open_locked env outer bin control _) as [[s0|e] w5] eqn:Ho; [|done]. intros [= -> ->].
  apply open_locked_paths in Ho as (-> & Hd & Htemp). split; [done|]. split; [by exists root|]. done.
Qed.

Lemma session_writes_abs env c scope outer w s w' :
  (∀ p r, os_eval env p = Some r → IsAbs r = true ∧ Clean r = r) →
  openSession env c scope outer w = (Ok s, w') → Forall (λ p, IsAbs p = true) (session_writes s).
Proof.
  intros Heval (_ & (root & Hra & _ & Hc) & Hd & (created & Ht))%open_session_paths.
  destruct (session_paths c scope root s Hra Hc Hd) as (Hca & _ & Hwa & _).
  assert (IsAbs (s_data s) = true) as Hda by (rewrite Hd; by apply join_abs).
  unfold session_writes. rewrite !list.Forall_cons, list.Forall_nil. split_and!; [done|by apply join_abs|by eapply Heval|done].
Qed.

(** What the surroundings of a session agree on: one file system under both, and
    [filepath.EvalSymlinks] as documented. *)
Record same_host (t : tool_env) (env : os_env) : Prop := {
  sh_eval : te_eval t = os_eval env;
  sh_resolved p r : os_eval env p = Some r → IsAbs r = true ∧ Clean r = r ∧ os_eval env r = Some r;
}.

(** What a prepared isolated run looks like. *)
Record isolated_run (t : tool_env) (c : ProviderConfig) (r : RunContext) (c' : ProviderConfig) (s : Session) (p : nativeToolPolicy)
    : Prop := {
  ir_session : sandbox c' = Some s ∧ Workspace c' = Session_Workspace s ∧ SessionStorePath c' = Session_Store s;
  ir_policy : toolPolicy c' = Some p;
  ir_tools : confined_tools t c' s p;
  ir_environment : ∃ env, Env c' = Some env ∧ ∀ item, item ∈ env → env_name item ∈ client_names (Provider c);
  ir_delegation : DelegationTargets c' = [] ∧ DelegationSocket c' = "" ∧ EnvAllowlist c' = [];
  ir_authority : ∃ principal key, trusted_authority r = Some (principal, key) ∧
    (∃ root, s_control s = JoinPath [root; Scope [Namespace (SessionIsolation c);
       Scope ["host-client-v1"; Scope [Provider c; rx_AgentID r; principal; key]]]]);
  ir_approval : (Provider c' = "codex" → ProviderConfig.Sandbox c' = "workspace-write" ∧ CodexApproval c' = "never") ∧
    (Provider c' = "claude" → Permission c' = "default");
}.

Lemma validate_isolation_spec pf c :
  validateSessionIsolation pf c = None → Enabled (SessionIsolation c) = true →
  Validate pf (SessionIsolation c) = None ∧ DelegationTargets c = [] ∧ DelegationSocket c = "" ∧ EnvAllowlist c = [].
Proof.
  unfold validateSessionIsolation. intros H He. destruct (validateHostAuthConcurrency c); [done|].
  destruct (Validate pf (SessionIsolation c)); [done|]. rewrite He in H. cbn [negb] in H.
  destruct (validateIsolatedModelEndpoint c); [done|]. destruct (bool_decide (RuntimeBin _ = "")); [|done]. cbn [negb] in H.
  destruct (SessionReuse c); [|done]. cbn [negb] in H. destruct (bool_decide (SessionStorePath c = "")); [|done]. cbn [negb] in H.
  destruct (negb (bool_decide (DelegationTargets c = [])) || _) eqn:Hd; [done|].
  destruct (bool_decide (EnvAllowlist c = [])) eqn:Ha; [|done]. by go_bool.
Qed.

Lemma validate_roots pf c :
  Validate pf c = None → Enabled c = true → IsAbs (Root c) = true ∧ (TempRoot c = "" ∨ IsAbs (TempRoot c) = true).
Proof.
  unfold Validate. intros H He. unfold Enabled in He. apply bool_decide_eq_true in He. unfold Enabled in H. rewrite He in H.
  change (bool_decide ("native" = "") || bool_decide ("native" = "off")) with false in H.
  change (negb (bool_decide ("native" = "native"))) with false in H.
  destruct (negb (bool_decide (GOOS pf = "darwin")) && _); [done|]. destruct (negb (bool_decide (GOARCH pf = "amd64")) && _); [done|].
  destruct (Geteuid pf <=? 0); [done|]. destruct (negb (safePath (Root c)) || _ || _) eqn:Hr; [done|].
  destruct (negb (bool_decide (TempRoot c = "")) && _) eqn:Ht; [done|]. clear H. unfold safePath in *. go_bool. split; [done|].
  destruct (bool_decide (TempRoot c = "")) eqn:He'; go_bool; [by left|right]. cbn [negb andb] in Ht. by go_bool.
Qed.

Lemma env_name_map m item : item ∈ environmentMap m → plain_keys m → ∃ k, is_Some (m !! k) ∧ env_name item = k.
Proof.
  unfold environmentMap, sort_strings. rewrite sorting.merge_sort_Permutation. intros ([k v] & -> & Hin)%list_elem_of_fmap Hp.
  apply elem_of_map_to_list in Hin. exists k. split; [eauto|]. apply env_name_entry, Hp. eauto.
Qed.

Lemma client_names_plain p k : k ∈ client_names p → no_equals k = true.
Proof. intros [Hk|Hk]%elem_of_app; [by eapply client_keys_plain|]. set_unfold in Hk. destruct_or! Hk; by subst. Qed.

(** The policy was made from the same fields. *)
Lemma confined_with_policy t c s p :
  confined_tools t c s p → confined_tools t (with_policy c p) s p.
Proof. intros [H1 H2 H3 H4 H5 H6 H7 (settings & H8 & [H9 H10 H11])]. split; try done. exists settings. split; [done|]. by split. Qed.

(** C14: Preparing a run under native isolation succeeds only for a trusted Core
    principal, Agent and conversation, and then opens the session of exactly that
    authority, gives the client only the fixed variable names, no delegation socket
    and no operator permission mode, and confines its tools: where no platform root
    resolves to the file system's root, no readable root but the session's own
    directories holds a credential store of the client's HOME or the session root, no
    operator read path touches one, and no writable path touches the coordination
    state; the rules given to Codex, as a table and as arguments, are its minimal
    profile, writes to the session's directories and reads of such roots; and the
    settings given to Claude enable its sandbox without a way around it, deny reads of
    the whole file system and of the credential stores, allow reads of such roots and
    of the session's directories and writes of those alone, and allow only the
    configured domains. *)
Theorem isolated_run_prepared t env close c r w c' w' ignored :
  same_host t env → (∀ q, q ∈ platform_roots t c → canon t q ≠ "/") →
  Enabled (SessionIsolation c) = true → prepareIsolatedSession t env close c r w = (Ok c', w', ignored) →
  ignored = None ∧ ∃ s p, isolated_run t c r c' s p.
Proof.
  intros [Heq Hres] Hroot He H. unfold prepareIsolatedSession in H.
  destruct (validateSessionIsolation (os_platform env) c) eqn:Hv; [done|]. rewrite He in H. cbn [negb] in H.
  destruct (trusted_authority r) as [[principal key]|] eqn:Ht; [|done].
  destruct (nativeClientEnvironment t c) as [environment|e] eqn:Hne; [|done].
  destruct (OpenClient env _ _ w) as [[s|e] w1] eqn:Ho; [|done].
  destruct (newNativeToolPolicy t (with_session c s environment) s) as [p|e] eqn:Hp; [|by destruct (Close _ _ _ _ _) as [[??]?]]. injection H as <- <- <-.
  destruct (validate_isolation_spec _ _ Hv He) as (HV & Hd1 & Hd2 & Hd3). destruct (validate_roots _ _ HV He) as [Hra Hta].
  split; [done|]. exists s, p. split; try done.
  - apply confined_with_policy. eapply tool_policy_confined; [| exact Hp| | |done].
    + rewrite Heq. apply Hres.
    + change (Forall (λ q, q = "" ∨ IsAbs q = true)
        (nativeHostPaths environment ++ [Root (SessionIsolation c); TempRoot (SessionIsolation c)])). apply Forall_app. split; [by eapply host_paths_abs|].
      rewrite !list.Forall_cons, list.Forall_nil. split_and!; [by right|by auto|done].
    + eapply session_writes_abs; [|exact Ho]. intros q x Hq. by destruct (Hres _ _ Hq) as (? & ? & ?).
  - exists environment. split; [done|]. apply client_environment_spec in Hne as (m & -> & Hkeys & _).
    intros item Hin. apply env_name_map in Hin as (k & Hk & ->); [by apply Hkeys|].
    intros k Hk. eapply client_names_plain, Hkeys, Hk.
  - exists principal, key. split; [done|]. apply open_session_paths in Ho as (_ & (root & _ & _ & Hc) & _). by exists root.
  - cbn. split; intros ->; [by rewrite bool_decide_true by done|by rewrite bool_decide_true by done].
Qed.
End opened.

(** ** The coordination directory (host_auth_directory_unix.go) *)

Record auth_env := {
  ae_os : os_env;
  (** the entry belongs to uid 0 *)
  ae_root : string → bool;
}.

Definition errAuthState : go_error :=
  ENew "native host-auth state requires a safe HOME and private owned state directory; no temporary-directory fallback".
Definition group_writable (i : inode) : bool := negb (Z.land (i_perm i) (octal 0 2 2) =? 0).

(** One ancestor of HOME, HOME included. *)
Definition safe_ancestor (a : auth_env) (fs : filesystem) (home p : string) : bool :=
  match fs !! p with
  | Some i =>
      is_directory i && (i_owned i || ae_root a p) && (negb (bool_decide (p = home)) || i_owned i) &&
      negb (group_writable i && (bool_decide (p = home) || negb (sticky i) || negb (ae_root a p)))
  | None => false
  end.
(** The loop over the ancestors; [Some false] when one is not safe. *)
Fixpoint ancestors_safe (fuel : nat) (a : auth_env) (fs : filesystem) (home p : string) : option bool :=
  match fuel with
  | O => None
  | S fuel' =>
      if negb (safe_ancestor a fs home p) then Some false
      else if bool_decide (p = Dir p) then Some true
      else ancestors_safe fuel' a fs home (Dir p)
  end.

Definition state_names : list string := [".local"; "state"; "openlinker-agent-node"].

(** The directories below HOME: made when missing, then checked. *)
Fixpoint state_dirs (a : auth_env) (dir : string) (names : list string) : stM world string := λ w,
  match names with
  | [] => (Ok dir, w)
  | name :: rest =>
      let p := JoinPath [dir; name] in
      let '(ok, w1) := mkdir (ae_os a) p w in
      if negb ok then (Err errAuthState, w1)
      else match w_fs w1 !! p with
           | Some i =>
               if is_directory i && i_owned i && negb (group_writable i) &&
                  (negb (bool_decide (name = "openlinker-agent-node")) || owner_only i)
               then state_dirs a p rest w1 else (Err errAuthState, w1)
           | None => (Err errAuthState, w1)
           end
  end.

(** [prepareHostAuthLockPath]; out of fuel is not a result. *)
Definition prepareHostAuthLockPath (a : auth_env) (environment : list string) (provider : string) : stM world string := λ w,
  let home := default "" (list.last (home_entries environment)) in
  match os_eval (ae_os a) home with
  | None => (Err errAuthState, w)
  | Some home' =>
      if negb (IsAbs home') || bool_decide (home' = "/") then (Err errAuthState, w)
      else match ancestors_safe (S (S (String.length home'))) a (w_fs w) home' home' with
           | Some true =>
               match state_dirs a home' state_names w with
               | (Ok dir, w1) => (Ok (JoinPath [dir; "host-auth-" +:+ provider +:+ ".lock"]), w1)
               | (Err e, w1) => (Err e, w1)
               end
           | _ => (Err errAuthState, w)
           end
  end.

(** [hostAuthLockPath] *)
Definition hostAuthLockPath (t : tool_env) (a : auth_env) (c : ProviderConfig) : stM world string := λ w,
  match nativeClientEnvironment t c with
  | Err e => (Err e, w)
  | Ok environment =>
      if bool_decide (Provider c ∈ ["codex"; "claude"]) then prepareHostAuthLockPath a environment (Provider c) w
      else (Err (ENew "host-auth admission requires Codex or Claude"), w)
  end.

(** ** The permit (host_auth_gate.go) *)

(** One round: [ctx.Err()] at its start, the attempt on the lock, [ctx.Err()] after
    a success, and the context's error when its end wins the final [select]. *)
Record poll := { po_ctx : option go_error; po_lock : lock_env; po_after : option go_error; po_done : option go_error;
                 (** the answer of the release after [po_after] *)
                 po_release : option go_error }.

(** [Some e]: no permit.  [holding] counts the locks taken and not released;
    [ignored] is the answer of the release whose error the source ignores. *)
Record permit := { pm_error : option go_error; pm_holding : nat; pm_messages : nat; pm_ignored : option (option go_error) }.

Definition errAuthLock : go_error := ENew "native host-auth coordination lock is unavailable or unsafe".

(** The loop of [acquireHostAuthPermit]; [emit] is nil ([None]) or what it returns. *)
Fixpoint permit_loop (fuel : nat) (polls : nat → poll) (emit : option (option go_error)) (n : nat) (waiting : bool) (sent : nat)
    : option permit :=
  match fuel with
  | O => None
  | S fuel' =>
      let failed e ignored := Some {| pm_error := Some e; pm_holding := 0; pm_messages := sent; pm_ignored := ignored |} in
      let round := polls n in
      match po_ctx round with
      | Some e => failed e None
      | None =>
          match AcquireLock (po_lock round) with
          | Ok _ =>
              match po_after round with
              | Some e => failed e (Some (po_release round))
              | None => Some {| pm_error := None; pm_holding := 1; pm_messages := sent; pm_ignored := None |}
              end
          | Err e =>
              if negb (errors_Is e ErrLockBusy) then failed errAuthLock None
              else
                let told := negb waiting && bool_decide (is_Some emit) in
                let sent' := if told then S sent else sent in
                match (if told then default None emit else None) with
                | Some e => Some {| pm_error := Some e; pm_holding := 0; pm_messages := sent'; pm_ignored := None |}
                | None =>
                    match po_done round with
                    | Some e => Some {| pm_error := Some e; pm_holding := 0; pm_messages := sent'; pm_ignored := None |}
                    | None => permit_loop fuel' polls emit (S n) true sent'
                    end
                end
          end
      end
  end.

(** [acquireHostAuthPermit] after the lock's path was prepared; [path] is the error
    of [hostAuthLockPath].  A client-managed or unisolated run needs no permit. *)
Definition acquireHostAuthPermit (fuel : nat) (c : ProviderConfig) (ctx path : option go_error) (polls : nat → poll)
    (emit : option (option go_error)) : option permit :=
  let answer e := Some {| pm_error := e; pm_holding := 0; pm_messages := 0; pm_ignored := None |} in
  if bool_decide (sandbox c = None) || bool_decide (HostAuthConcurrency c = "client-managed") then answer ctx
  else match ctx, path with
       | Some e, _ => answer (Some e)
       | None, Some e => answer (Some e)
       | None, None => permit_loop fuel polls emit 0 false 0
       end.

(** The lock is taken by another client. *)
Definition busy (p : poll) : Prop := po_ctx p = None ∧ AcquireLock (po_lock p) = Err ErrLockBusy ∧ po_done p = None.

Lemma busy_round fuel polls emit n waiting sent :
  busy (polls n) → (∀ e, emit = Some (Some e) → waiting = true) →
  permit_loop (S fuel) polls emit n waiting sent =
  permit_loop fuel polls emit (S n) true (if negb waiting && bool_decide (is_Some emit) then S sent else sent).
Proof.
  intros (Hc & Hl & Hd) He. cbn [permit_loop]. rewrite Hc, Hl, Hd. rewrite (errors_Is_refl_sentinel _ _ : errors_Is ErrLockBusy ErrLockBusy = true).
  cbn [negb]. destruct waiting; [done|]. destruct emit as [[e|]|]; [by discriminate (He e eq_refl)|done|done].
Qed.

Lemma busy_rounds polls emit k : ∀ fuel n waiting sent,
  (∀ i, (n <= i < n + k)%nat → busy (polls i)) → (∀ e, emit = Some (Some e) → waiting = true) →
  permit_loop (k + fuel) polls emit n waiting sent =
  permit_loop fuel polls emit (n + k) (waiting || negb (bool_decide (k = 0%nat)))
    (if negb waiting && bool_decide (is_Some emit) && negb (bool_decide (k = 0%nat)) then S sent else sent).
Proof.
  induction k as [|k IH]; intros fuel n waiting sent Hb He.
  - rewrite Nat.add_0_r, bool_decide_true by done. cbn. by rewrite orb_false_r, andb_false_r.
  - cbn [Nat.add]. rewrite busy_round by (done || (apply Hb; lia)). rewrite IH by (done || (intros i Hi; apply Hb; lia)).
    rewrite <-plus_n_Sm. rewrite (bool_decide_false (S k = 0%nat)) by done. cbn [negb orb andb]. rewrite orb_true_r, andb_true_r. done.
Qed.

(** The lock can be taken in this round. *)
Definition free (p : poll) : Prop := po_ctx p = None ∧ AcquireLock (po_lock p) = Ok tt ∧ po_after p = None.

Lemma permit_loop_ends polls emit d e : po_ctx (polls d) = Some e → ∀ fuel n (waiting : bool) sent,
  (n <= d)%nat → (d - n < fuel)%nat →
  ∃ p, permit_loop fuel polls emit n waiting sent = Some p ∧
    match pm_error p with None => pm_holding p = 1%nat | Some _ => pm_holding p = 0%nat end ∧
    (pm_messages p <= (if waiting then sent else S sent))%nat.
Proof.
  intros Hd fuel. induction fuel as [|fuel IH]; intros n waiting sent Hn Hf; [lia|]. cbn [permit_loop].
  destruct (po_ctx (polls n)) eqn:Hc.
  { eexists. split; [done|]. split; [done|]. cbn. destruct waiting; lia. }
  assert (n ≠ d) as Hne by congruence.
  destruct (AcquireLock (po_lock (polls n))).
  { destruct (po_after (polls n)); eexists; (split; [done|]); (split; [done|]); cbn; destruct waiting; lia. }
  destruct (negb (errors_Is e0 ErrLockBusy)).
  { eexists. split; [done|]. split; [done|]. cbn. destruct waiting; lia. }
  destruct waiting; cbn [negb andb].
  - destruct (po_done (polls n)); [by eexists|]. apply IH; lia.
  - set (sent' := if bool_decide (is_Some emit) then S sent else sent).
    assert (sent' <= S sent)%nat as Hs by (unfold sent'; case_bool_decide; lia).
    destruct (if bool_decide (is_Some emit) then default None emit else None); [by eexists|].
    destruct (po_done (polls n)); [by eexists|]. destruct (IH (S n) true sent' ltac:(lia) ltac:(lia)) as (p & Hp & Hh & Hm).
    exists p. split; [done|]. split; [done|]. lia.
Qed.

(** C16: The wait for a permit ends as soon as the context of the run has (which its
    timeout makes happen), never with both an error and a lock nor with neither,
    and after at most one message; and it ends with the permit when the lock is
    free in a round before that and was only busy until then. *)
Theorem permit_wait_ends c polls emit d e :
  po_ctx (polls d) = Some e →
  ∃ p, acquireHostAuthPermit (S d) c None None polls emit = Some p ∧
    (sandbox c ≠ None → HostAuthConcurrency c ≠ "client-managed" →
     (match pm_error p with None => pm_holding p = 1%nat | Some _ => pm_holding p = 0%nat end) ∧
     (pm_messages p <= 1)%nat ∧
     ∀ k, (∀ i, (i < k)%nat → busy (polls i)) → (k < d)%nat → free (polls k) → (∀ e, emit ≠ Some (Some e)) →
       pm_error p = None ∧ pm_messages p = if bool_decide (is_Some emit ∧ k ≠ 0%nat) then 1%nat else 0%nat).
Proof.
  intros Hd. unfold acquireHostAuthPermit. destruct (_ || _) eqn:Hneed.
  { eexists. split; [done|]. intros H1 H2. exfalso. apply orb_true_iff in Hneed as [?|?]; go_bool; done. }
  destruct (permit_loop_ends polls emit d e Hd (S d) 0 false 0 ltac:(lia) ltac:(lia)) as (p & Hp & Hh & Hm).
  exists p. split; [done|]. intros _ _. split; [done|]. split; [done|]. intros k Hb Hk (Hc & Hl & Ha) Hem.
  replace (S d) with (k + S (d - k))%nat in Hp by lia. rewrite busy_rounds in Hp.
  - cbn [permit_loop] in Hp. cbn [Nat.add] in Hp. rewrite Hc, Hl, Ha in Hp. injection Hp as <-. cbn. split; [done|].
    by destruct k, emit.
  - intros i Hi. apply Hb. lia.
  - intros e' He'. by destruct (Hem e').
Qed.

(** ** Instances *)
Module IsolationExamples.

#[local] Instance lower : UnicodeLower := latin_lower.

Definition eval (p : string) : option string := if IsAbs p then Some (Clean p) else None.
Definition os : os_env :=
  {| os_ctx := None; os_platform := {| GOOS := "linux"; GOARCH := "amd64"; Geteuid := 1000 |}; os_runtime := Ok "";
     os_mkdir := λ _, true; os_mkdirall := λ _, true; os_eval := eval; os_lock := true;
     os_policy := λ _, Ok "/srv/policy-1.json"; os_runner := None; os_runnerSource := "//"; os_temp := λ _, Ok "/tmp/olns-1";
     os_remove := true |}.
Definition tools : tool_env :=
  {| te_GOOS := "linux"; te_eval := eval; te_look := λ _, Some "/usr/bin/claude"; te_tempdir := "/tmp";
     te_roots := Some ["bin"; "home"; "proc"; "srv"; "usr"]; te_environ := ["HOME=/home/agent"; "PATH=/bin"; "AWS_SECRET=x"];
     te_username := "agent" |}.
Definition isolation : Sandbox.Config :=
  {| Mode := "native"; Root := "/srv/sessions"; Namespace := "https://core.example"; RuntimeBin := ""; TempRoot := "";
     ReadPaths := ["/opt/data"]; AllowedDomains := [] |}.
Definition config : ProviderConfig :=
  {| boundMCPTools := []; boundMCPDigest := ""; SessionIsolation := isolation; HostAuthConcurrency := "serial";
     sandbox := None; toolPolicy := None; DelegationTargets := []; DelegationProxyBin := ""; DelegationBrokerRoot := "";
     DelegationSocket := ""; Version := ""; Provider := "claude"; Bin := "claude"; Workspace := "/srv/agent"; Model := "";
     ProviderConfig.Sandbox := ""; Permission := "bypassPermissions"; AllowedTools := ["Read"]; Timeout := 0;
     SessionReuse := true; SessionStorePath := ""; WebSearch := true; CodexApproval := ""; CodexBaseURL := "";
     ClaudeBaseURL := ""; Env := None; EnvAllowlist := []; ExecutionProfile := "" |}.
Definition talk : ConversationContext :=
  {| cc_ID := "c"; cc_SessionKey := "chat"; cc_ProtocolContextID := ""; cc_RootContextID := ""; cc_CurrentRunID := "r";
     cc_HistoryBeforeCurrent := []; cc_CurrentProtocolTask := ""; cc_Truncated := false; cc_Source := "core" |}.
Definition run : RunContext :=
  {| rx_RunID := "r"; rx_AgentID := "agent"; rx_Authority := Some "principal"; rx_Conversation := Some talk;
     rx_SkillPackagesAlreadyLoaded := false |}.
Definition root_dir : inode := {| i_kind := KDirectory; i_perm := octal 7 5 5; i_owned := false; i_content := "" |}.
Definition start : world := {| w_fs := {[ "/" := root_dir ]}; w_locked := ∅ |}.
Definition prepared : result ProviderConfig := (prepareIsolatedSession tools os (None, None, None) config run start).1.1.

Lemma one_host : same_host tools os.
Proof.
  split; [done|]. intros p r. cbn. unfold eval. destruct (IsAbs p) eqn:Hp; [|done]. intros [= <-].
  rewrite IsAbs_Clean, Hp, Clean_idempotent. done.
Qed.
Lemma roots_below q : q ∈ platform_roots tools config → canon tools q ≠ "/".
Proof. intros Hq. vm_compute in Hq. set_unfold in Hq. destruct_or! Hq; subst; vm_compute; discriminate. Qed.

Definition succeeds {A} (r : result A) : bool := match r with Ok _ => true | Err _ => false end.
Lemma prepared_succeeds : succeeds prepared = true.
Proof. vm_compute. reflexivity. Qed.

Lemma isolated_run_prepared_witness :
  ∃ c' s p, prepared = Ok c' ∧ isolated_run tools config run c' s p.
Proof.
  pose proof prepared_succeeds as Hok. unfold prepared in *.
  destruct (prepareIsolatedSession tools os (None, None, None) config run start) as [[[c'|e] w'] x] eqn:Hp; [|discriminate Hok].
  destruct (isolated_run_prepared tools os (None, None, None) config run start c' w' x one_host roots_below eq_refl Hp) as (_ & s & p & Hr).
  exists c', s, p. split; [reflexivity|exact Hr].
Defined.

Definition lock_round (ctx : option go_error) (l : flock_result) : poll :=
  {| po_ctx := ctx; po_lock := {| le_open := None; le_stat := Ok (private_file ""); le_flock := l |}; po_after := None;
     po_done := None; po_release := None |}.
(** Busy twice, then free; the run's deadline passes in the tenth round. *)
Definition rounds (n : nat) : poll :=
  lock_round (if (n <? 10)%nat then None else Some context_DeadlineExceeded) (if (n <? 2)%nat then FlockBusy else FlockTaken).
Definition isolated_config : ProviderConfig := with_session config ConfigExamples.session [].

Lemma permit_wait_ends_witness :
  ∃ p, acquireHostAuthPermit 11 isolated_config None None rounds (Some None) = Some p ∧ pm_error p = None ∧ pm_messages p = 1%nat.
Proof.
  destruct (permit_wait_ends isolated_config rounds (Some None) 10 context_DeadlineExceeded eq_refl) as (p & Hp & H).
  exists p. split; [exact Hp|]. destruct (H ltac:(discriminate) ltac:(discriminate)) as (_ & _ & Hk).
  destruct (Hk 2%nat) as [H1 H2].
  - intros [|[|i]] Hi; [by repeat split..|lia].
  - lia.
  - by repeat split.
  - discriminate.
  - split; [exact H1|]. rewrite H2. by rewrite bool_decide_true.
Defined.
End IsolationExamples.
