(* ===== verification/Config.v ===== *)
(** * Configuration of the Node

    internal/agentnode/config.go, session_isolation.go, configuration_report.go,
    the option parsers of util.go and [CodexAdapter.native].  [get] is the environment lookup, [wd] the
    outcome of [os.Getwd]; what the SDK fixes is a record of parameters. *)

From S2P Require Import Prelude GoStrings Json GoNet PublicA2A Paths HelperServer PrivateFiles SessionStore Sandbox Resolve ProviderConfig Url.
From stdpp Require Import options.

Open Scope Z_scope.

(** ** Options (util.go) *)

(** The error encoding/json reports for a document and a target type. *)
Class JsonErrors := json_error : string → go_error.

(** [defaultString] *)
Definition defaultString (value fallback : string) : string := if bool_decide (value = "") then fallback else value.

Definition true_words : list string := ["1"; "true"; "yes"; "on"].
Definition false_words : list string := ["0"; "false"; "no"; "off"].
(** [boolOption] *)
Definition boolOption `{!UnicodeLower} (raw : string) (fallback : bool) : bool :=
  if bool_decide (raw = "") then fallback
  else if bool_decide (ToLower raw ∈ true_words) then true
  else if bool_decide (ToLower raw ∈ false_words) then false
  else fallback.

(** [numberOption] *)
Definition numberOption (raw : string) (fallback : Z) (label : string) : result Z :=
  if bool_decide (raw = "") then Ok fallback
  else match Atoi raw with
       | Some value => if value <? 0 then Err (ENew (label +:+ " must be a non-negative integer")) else Ok value
       | None => Err (ENew (label +:+ " must be a non-negative integer"))
       end.

(** [json.Unmarshal] into a [\[\]string] and into a [map\[string\]string] *)
Definition json_string_list (j : json) : option (list string) :=
  match j with JArr l => string_elements l | JNull => Some [] | _ => None end.
Fixpoint string_members (kvs : list (string * json)) (m : gmap string string) : option (gmap string string) :=
  match kvs with
  | [] => Some m
  | (k, JStr v) :: r => string_members r (<[k := v]> m)
  | (k, JNull) :: r => string_members r (<[k := ""]> m)
  | _ => None
  end.
Definition json_string_map (j : json) : option (gmap string string) :=
  match j with JObj kvs => string_members kvs ∅ | JNull => Some ∅ | _ => None end.

Section json.
Context {JE : JsonErrors}.

(** [parseJSONStringArray] *)
Definition parseJSONStringArray (raw label : string) : result (list string) :=
  if bool_decide (raw = "") then Ok []
  else match parse raw ≫= json_string_list with
       | Some l => Ok l
       | None => Err (EWrap (label +:+ " must be valid JSON string array: ") (json_error raw) "")
       end.
(** [parseJSONMap] *)
Definition parseJSONMap (raw label : string) : result (gmap string string) :=
  if bool_decide (raw = "") then Ok ∅
  else match parse raw ≫= json_string_map with
       | Some m => Ok m
       | None => Err (EWrap (label +:+ " must be valid JSON object: ") (json_error raw) "")
       end.
End json.

(** [parseCommaList] *)
Definition parseCommaList (raw : string) : list string :=
  List.filter (λ p, negb (bool_decide (p = ""))) (map TrimSpace (Split raw ",")).

(** ** Durations: 64-bit counts of nanoseconds *)

Definition wrap64 (z : Z) : Z := (z + 2 ^ 63) mod 2 ^ 64 - 2 ^ 63.
Definition Millisecond : Z := 1000000.
Definition Second : Z := 1000000000.
(** [time.Duration(n) * unit] *)
Definition duration (n unit : Z) : Z := wrap64 (n * unit).

(** ** Names of variables *)

Definition var (name : string) : string := "OPENLINKER_AGENT_NODE_" +:+ name.

(** [EnvLookup] and the process around the configuration. *)
Record surroundings := {
  get : string → string;
  (** [os.Getwd] *)
  wd : option string;
  pf : platform;
  host_fs : filesystem;
  host_eval : string → option string;
}.

Definition nativeIsolationHint : string :=
  "; native session isolation is the default for Codex/Claude, set OPENLINKER_AGENT_NODE_SESSION_ISOLATION=off to run without it".

(** ** Session isolation (session_isolation.go) *)

Section isolation.
Context {UL : UnicodeLower} {JE : JsonErrors} (env : surroundings).

(** [defaultSessionRoot] *)
Definition defaultSessionRoot : result string :=
  let home := TrimSpace (get env "HOME") in
  if IsAbs home then Ok (JoinPath [home; ".local"; "state"; "openlinker-agent-node-sessions"])
  else Err (ENew "native isolation needs an absolute HOME for the default SESSION_ROOT; set OPENLINKER_AGENT_NODE_SESSION_ROOT").

Definition isolation_mode (defaultNative : bool) : string * bool :=
  let mode := ToLower (TrimSpace (get env (var "SESSION_ISOLATION"))) in
  if bool_decide (mode = "") && defaultNative then ("native", true) else (mode, false).

(** [parseSessionIsolation] after the root was chosen. *)
Definition stable_namespace : result string :=
  let bad := Err (ENew "native isolation requires OPENLINKER_URL with a stable Core URL and no credentials/query/fragment") in
  match Parse (TrimSpace (get env "OPENLINKER_URL")) with
  | Some u =>
      if bool_decide (Url.Host u = "") || negb (bool_decide (Scheme u = "https") || bool_decide (Scheme u = "http")) ||
         bool_decide (is_Some (User u)) || negb (bool_decide (RawQuery u = "")) || negb (bool_decide (Fragment u = ""))
      then bad else Ok (TrimRight (URL_String u) "/")
  | None => bad
  end.

(** The first configured name that an unisolated Node may not set. *)
Definition native_only : option string :=
  head (List.filter (λ n, negb (bool_decide (TrimSpace (get env n) = "")))
          [var "SESSION_READ_PATHS"; var "SESSION_NETWORK_DOMAINS"]).

Definition first_error (l : list (option go_error)) : option go_error := head (omap id l).
Definition check (o : option go_error) : result unit := match o with Some e => Err e | None => Ok tt end.

(** [parseSessionIsolation]: whether the mode is the default, and the result. *)
Definition parseSessionIsolation (defaultNative : bool) : bool * result Sandbox.Config :=
  let '(mode, defaulted) := isolation_mode defaultNative in
  let native := bool_decide (mode = "native") in
  (defaulted,
   root ← (if native && bool_decide (get env (var "SESSION_ROOT") = "") then defaultSessionRoot
           else Ok (get env (var "SESSION_ROOT")));
   _ ← (if bool_decide (mode = "") || bool_decide (mode = "off") then
          match native_only with
          | Some n => Err (ENew (n +:+ " requires OPENLINKER_AGENT_NODE_SESSION_ISOLATION=native"))
          | None => Ok tt
          end
        else Ok tt);
   paths ← parseJSONStringArray (get env (var "SESSION_READ_PATHS")) (var "SESSION_READ_PATHS");
   domains ← parseJSONStringArray (get env (var "SESSION_NETWORK_DOMAINS")) (var "SESSION_NETWORK_DOMAINS");
   namespace ← (if native then stable_namespace else Ok "");
   let c := {| Mode := mode; Root := root; Namespace := namespace; RuntimeBin := get env (var "SESSION_SANDBOX_BIN");
               TempRoot := get env (var "SESSION_TEMP_ROOT"); ReadPaths := paths; AllowedDomains := domains |} in
   _ ← check (Validate (pf env) c);
   _ ← (if native then
          check (first_error (map (λ r, if bool_decide (r = "") then None
                                        else CheckOutsideGitWorktree (host_fs env) (host_eval env) r) [root; TempRoot c]))
        else Ok tt);
   Ok c).

(** [sessionIsolationFromEnv] *)
Definition sessionIsolationFromEnv (defaultNative : bool) : result Sandbox.Config :=
  match parseSessionIsolation defaultNative with
  | (true, Err e) => Err (ENew (error_text e +:+ nativeIsolationHint))
  | (_, r) => r
  end.

Definition errAuthNative : go_error := ENew "HOST_AUTH_CONCURRENCY requires native Codex or Claude isolation".

(** [unisolatedAdapterOptions] *)
Definition unisolatedAdapterOptions (authConcurrency : string) : result unit :=
  c ← sessionIsolationFromEnv false;
  if Enabled c then Err (ENew "native isolation is supported only by Codex and Claude adapters")
  else if negb (bool_decide (authConcurrency = "")) then Err errAuthNative
  else Ok tt.

(** [nativeProviderOptions] *)
Definition nativeProviderOptions (provider : string) : result unit :=
  let prefix := var (ToUpperASCII provider +:+ "_") in
  let reuse := get env (prefix +:+ "SESSION_REUSE") in
  if negb (bool_decide (get env (prefix +:+ "WORKSPACE") = "")) then
    Err (ENew (prefix +:+ "WORKSPACE is not used with native isolation, which runs each conversation in a private workspace; remove it (set OPENLINKER_AGENT_NODE_ADAPTER=" +:+ provider +:+ " if it selected the adapter)" +:+ nativeIsolationHint))
  else if negb (bool_decide (reuse = "")) && negb (boolOption reuse false) then
    Err (ENew ("native isolation requires " +:+ prefix +:+ "SESSION_REUSE=true" +:+ nativeIsolationHint))
  else Ok tt.

(** [providerIsolationFromEnv] *)
Definition mocked (provider : string) : bool :=
  bool_decide (provider = "codex") && negb (bool_decide (get env (var "CODEX_MOCK_RESPONSE") = "")).
Definition providerIsolationFromEnv (provider authConcurrency : string) : result Sandbox.Config :=
  c ← sessionIsolationFromEnv (negb (mocked provider));
  if Enabled c && mocked provider then Err (ENew "mock responses cannot be combined with native isolation")
  else if negb (Enabled c) && negb (bool_decide (authConcurrency = "")) then Err errAuthNative
  else if negb (Enabled c) then Ok c
  else _ ← nativeProviderOptions provider; Ok c.
End isolation.

(** ** Adapters *)

Record HTTPAdapter := { ha_URL : string; ha_Headers : gmap string string; ha_Timeout : Z }.
Record A2AAdapter := {
  aa_BaseURL : string; aa_Token : string; aa_Headers : gmap string string; aa_Method : string;
  aa_AcceptedOutputModes : list string; aa_ProtocolVersion : string; aa_Dialect : string; aa_Timeout : Z;
}.
Record CommandAdapter := {
  ca_Command : string; ca_Args : list string; ca_CWD : string; ca_EnvAllowlist : list string; ca_Timeout : Z;
}.
Record CodexAdapter := {
  xa_SessionIsolation : Sandbox.Config; xa_HostAuthConcurrency : string; xa_CodexBin : string; xa_BaseURL : string;
  xa_Workspace : string; xa_Sandbox : string; xa_Approval : string; xa_Model : string; xa_WebSearch : bool;
  xa_Timeout : Z; xa_MockResponse : string; xa_SessionReuse : bool; xa_SessionStore : string;
  xa_Env : option (list string); xa_EnvAllowlist : list string; xa_DelegationTargets : list string;
  xa_DelegationProxyBin : string; xa_DelegationBrokerRoot : string;
}.
(** The adapters [adapterFromEnv] makes; [NativeAdapter] is its configuration. *)
Inductive Adapter :=
  | AHTTP (a : HTTPAdapter)
  | AA2A (a : A2AAdapter)
  | ACommand (a : CommandAdapter)
  | ANative (Config : ProviderConfig)
  | ACodex (a : CodexAdapter).

(** [CodexAdapter.native] *)
Definition native (a : CodexAdapter) : ProviderConfig :=
  {| boundMCPTools := []; boundMCPDigest := ""; SessionIsolation := xa_SessionIsolation a;
     HostAuthConcurrency := xa_HostAuthConcurrency a; sandbox := None; toolPolicy := None;
     DelegationTargets := xa_DelegationTargets a; DelegationProxyBin := xa_DelegationProxyBin a;
     DelegationBrokerRoot := xa_DelegationBrokerRoot a; DelegationSocket := ""; Version := ""; Provider := "codex";
     Bin := xa_CodexBin a; Workspace := xa_Workspace a; Model := xa_Model a; ProviderConfig.Sandbox := xa_Sandbox a;
     Permission := ""; AllowedTools := []; Timeout := xa_Timeout a; SessionReuse := xa_SessionReuse a;
     SessionStorePath := xa_SessionStore a; WebSearch := xa_WebSearch a; CodexApproval := xa_Approval a;
     CodexBaseURL := xa_BaseURL a; ClaudeBaseURL := ""; Env := xa_Env a; EnvAllowlist := xa_EnvAllowlist a;
     ExecutionProfile := "" |}.

(** What the SDK fixes: defaults (durations in nanoseconds) and A2A names. *)
Record sdk := {
  DefaultCapacity : Z; DefaultClaimWait : Z; DefaultCommandWait : Z; DefaultHeartbeatInterval : Z;
  DefaultRetryMinimum : Z; DefaultRetryMaximum : Z; TransportAuto : string; A2AMethodMessageSend : string;
  NormalizeA2AJSONRPCMethodForDialect : string → string → string; NormalizeA2ADialect : string → string;
}.

Section node.
Context {UL : UnicodeLower} {JE : JsonErrors} (lib : sdk) (env : surroundings).

(** [mustGetwd] *)
Definition mustGetwd : string := default "." (wd env).

(** [inferAdapterMode] *)
Definition inferAdapterMode : string :=
  let set name := negb (bool_decide (get env (var name) = "")) in
  if set "HTTP_URL" then "http"
  else if set "A2A_BASE_URL" then "a2a"
  else if set "COMMAND" then "command"
  else if set "CODEX_WORKSPACE" || set "CODEX_BIN" then "codex"
  else "http".

(** [nativeWebSearchFromEnv] *)
Definition nativeWebSearchFromEnv (provider : string) : result bool :=
  let name := var (ToUpperASCII provider +:+ "_WEB_SEARCH") in
  let value := ToLower (TrimSpace (get env name)) in
  if bool_decide (value ∈ false_words) then Ok false
  else if bool_decide (value ∈ "" :: true_words) then Ok true
  else Err (ENew (name +:+ " must be a boolean")).

Definition number (name : string) (fallback : Z) : result Z := numberOption (get env (var name)) fallback (var name).
Definition strings (name : string) : result (list string) := parseJSONStringArray (get env (var name)) (var name).
Definition string_map (name : string) : result (gmap string string) := parseJSONMap (get env (var name)) (var name).
Definition checked_endpoint (baseURL : string) : result unit :=
  if bool_decide (baseURL = "") then Ok tt else check (ValidateModelEndpoint baseURL).

Definition a2a_dialect : string := defaultString (get env (var "A2A_DIALECT")) (get env (var "A2A_METHOD_DIALECT")).

(** The cases of [adapterFromEnv]. *)
Definition http_adapter (timeout : Z) (auth : string) : result Adapter :=
  _ ← unisolatedAdapterOptions env auth;
  headers ← string_map "HTTP_HEADERS";
  Ok (AHTTP {| ha_URL := get env (var "HTTP_URL"); ha_Headers := headers; ha_Timeout := duration timeout Millisecond |}).

Definition a2a_adapter (timeout : Z) (auth : string) : result Adapter :=
  _ ← unisolatedAdapterOptions env auth;
  headers ← string_map "A2A_HEADERS";
  modes ← strings "A2A_ACCEPTED_OUTPUT_MODES";
  Ok (AA2A {| aa_BaseURL := get env (var "A2A_BASE_URL"); aa_Token := get env "OPENLINKER_UPSTREAM_A2A_TOKEN";
              aa_Headers := headers;
              aa_Method := NormalizeA2AJSONRPCMethodForDialect lib
                             (defaultString (get env (var "A2A_METHOD")) (A2AMethodMessageSend lib)) a2a_dialect;
              aa_AcceptedOutputModes := modes; aa_ProtocolVersion := get env (var "A2A_PROTOCOL_VERSION");
              aa_Dialect := NormalizeA2ADialect lib a2a_dialect; aa_Timeout := duration timeout Millisecond |}).

Definition command_adapter (timeout : Z) (auth : string) (allowlist : list string) : result Adapter :=
  _ ← unisolatedAdapterOptions env auth;
  args ← strings "ARGS";
  let cwd := get env (var "CWD") in
  Ok (ACommand {| ca_Command := get env (var "COMMAND"); ca_Args := args;
                  ca_CWD := if bool_decide (cwd = "") then default "" (wd env) else cwd;
                  ca_EnvAllowlist := allowlist; ca_Timeout := duration timeout Millisecond |}).

Definition claude_adapter (auth : string) (allowlist : list string) : result Adapter :=
  isolation ← providerIsolationFromEnv env "claude" auth;
  let baseURL := get env (var "CLAUDE_BASE_URL") in
  _ ← checked_endpoint baseURL;
  nativeTimeout ← number "TIMEOUT_MS" (30 * 60000);
  webSearch ← nativeWebSearchFromEnv "claude";
  allowed ← strings "CLAUDE_ALLOWED_TOOLS";
  targets ← strings "DELEGATION_TARGETS";
  Ok (ANative
    {| boundMCPTools := []; boundMCPDigest := ""; SessionIsolation := isolation; HostAuthConcurrency := auth;
       sandbox := None; toolPolicy := None; DelegationTargets := targets;
       DelegationProxyBin := get env (var "DELEGATION_PROXY_BIN");
       DelegationBrokerRoot := get env (var "DELEGATION_BROKER_ROOT"); DelegationSocket := ""; Version := ""; Provider := "claude";
       Bin := defaultString (get env (var "CLAUDE_BIN")) "claude";
       Workspace := defaultString (get env (var "CLAUDE_WORKSPACE")) mustGetwd; Model := get env (var "CLAUDE_MODEL");
       ProviderConfig.Sandbox := ""; Permission := defaultString (get env (var "CLAUDE_PERMISSION")) "dontAsk";
       AllowedTools := allowed; Timeout := duration nativeTimeout Millisecond;
       SessionReuse := boolOption (get env (var "CLAUDE_SESSION_REUSE")) (Enabled isolation);
       SessionStorePath := get env (var "CLAUDE_SESSION_STORE"); WebSearch := webSearch; CodexApproval := "";
       CodexBaseURL := ""; ClaudeBaseURL := baseURL; Env := None; EnvAllowlist := allowlist; ExecutionProfile := "" |}).

Definition codex_adapter (auth : string) (allowlist : list string) : result Adapter :=
  isolation ← providerIsolationFromEnv env "codex" auth;
  webSearch ← nativeWebSearchFromEnv "codex";
  let baseURL := get env (var "CODEX_BASE_URL") in
  _ ← checked_endpoint baseURL;
  targets ← strings "DELEGATION_TARGETS";
  codexTimeout ← number "TIMEOUT_MS" (30 * 60000);
  Ok (ACodex
    {| xa_SessionIsolation := isolation; xa_HostAuthConcurrency := auth; xa_DelegationTargets := targets;
       xa_DelegationProxyBin := get env (var "DELEGATION_PROXY_BIN");
       xa_DelegationBrokerRoot := get env (var "DELEGATION_BROKER_ROOT");
       xa_CodexBin := defaultString (get env (var "CODEX_BIN")) "codex"; xa_BaseURL := baseURL;
       xa_Workspace := defaultString (get env (var "CODEX_WORKSPACE")) mustGetwd;
       xa_Sandbox := defaultString (get env (var "CODEX_SANDBOX")) "read-only";
       xa_Approval := defaultString (get env (var "CODEX_APPROVAL")) "never"; xa_Model := get env (var "CODEX_MODEL");
       xa_WebSearch := webSearch; xa_Timeout := duration codexTimeout Millisecond;
       xa_MockResponse := get env (var "CODEX_MOCK_RESPONSE");
       xa_SessionReuse := boolOption (get env (var "CODEX_SESSION_REUSE")) (Enabled isolation);
       xa_SessionStore := get env (var "CODEX_SESSION_STORE"); xa_Env := None; xa_EnvAllowlist := allowlist |}).

(** [adapterFromEnv] *)
Definition adapterFromEnv (mode : string) : result Adapter :=
  timeout ← number "TIMEOUT_MS" (15 * 60000);
  let auth := get env (var "HOST_AUTH_CONCURRENCY") in
  if negb (bool_decide (auth ∈ [""; "serial"; "client-managed"]))
  then Err (ENew "HOST_AUTH_CONCURRENCY must be serial or client-managed")
  else
    let allowlist := parseCommaList (get env (var "ENV_ALLOWLIST")) in
    if bool_decide (mode ∈ ["http"; "openclaw"]) then http_adapter timeout auth
    else if bool_decide (mode = "a2a") then a2a_adapter timeout auth
    else if bool_decide (mode = "command") then command_adapter timeout auth allowlist
    else if bool_decide (mode = "claude") then claude_adapter auth allowlist
    else if bool_decide (mode = "codex") then codex_adapter auth allowlist
    else if bool_decide (mode = "module") then
      Err (ENew "module adapter is not supported by the Go agent node; use http, command, openclaw, a2a, codex, or claude")
    else Err (ENew ("unsupported OPENLINKER_AGENT_NODE_ADAPTER=" +:+ mode)).

(** [helperFromEnv] *)
Definition helperFromEnv (adapterMode : string) : result (option LocalHelperServer) :=
  let mode := ToLower (defaultString (get env (var "HELPER")) "auto") in
  enabled ← (if bool_decide (mode = "auto") then Ok (bool_decide (adapterMode ∈ ["http"; "openclaw"; "command"]))
             else if bool_decide (mode ∈ true_words) then Ok true
             else if bool_decide (mode ∈ false_words) then Ok false
             else Err (ENew ("invalid OPENLINKER_AGENT_NODE_HELPER=" +:+ mode +:+ "; use auto, true, or false")));
  if enabled : bool then
    port ← number "HELPER_PORT" 0;
    Ok (Some (fresh_server (defaultString (get env (var "HELPER_HOST")) "127.0.0.1") port))
  else Ok None.

(** [publicA2AFromEnv] *)
Definition publicA2AFromEnv : result (option Lifecycle.PublicA2AServer) :=
  if negb (boolOption (get env (var "PUBLIC_A2A")) false) then Ok None
  else
    port ← number "PUBLIC_A2A_PORT" 0;
    Ok (Some (Lifecycle.new (defaultString (get env (var "PUBLIC_A2A_HOST")) "127.0.0.1") port
                (defaultString (get env (var "PUBLIC_A2A_SLUG")) "agent-node")
                (defaultString (get env (var "PUBLIC_A2A_NAME")) "OpenLinker Agent Node")
                (get env (var "PUBLIC_A2A_DESCRIPTION")) (get env "OPENLINKER_PUBLIC_A2A_TOKEN"))).

(** The configured part of [Node]. *)
Record Node := {
  OpenLinkerURL : string; RuntimeURL : string; Transport : string; NodeID : string; AgentID : string; AgentToken : string;
  DataDir : string; MTLSCertFile : string; MTLSKeyFile : string; MTLSCAFile : string; MTLSServerName : string;
  Capacity : Z; ClaimWait : Z; CommandWait : Z; HeartbeatInterval : Z; RetryMinimum : Z; RetryMaximum : Z;
  node_Adapter : Adapter; node_Helper : option LocalHelperServer; node_PublicA2A : option Lifecycle.PublicA2AServer;
}.

(** [NewFromLookup]; [int] is 64 bits wide. *)
Definition NewFromLookup : result Node :=
  let adapterMode := defaultString (get env (var "ADAPTER")) inferAdapterMode in
  adapter ← adapterFromEnv adapterMode;
  helper ← helperFromEnv adapterMode;
  publicA2A ← publicA2AFromEnv;
  capacity ← number "CAPACITY" (DefaultCapacity lib);
  claimWait ← number "CLAIM_WAIT_SECONDS" (DefaultClaimWait lib `quot` Second);
  commandWait ← number "COMMAND_WAIT_SECONDS" (DefaultCommandWait lib `quot` Second);
  heartbeat ← number "HEARTBEAT_SECONDS" (DefaultHeartbeatInterval lib `quot` Second);
  retryMinMS ← number "RETRY_MIN_MS" (DefaultRetryMinimum lib `quot` Millisecond);
  retryMaxMS ← number "RETRY_MAX_MS" (DefaultRetryMaximum lib `quot` Millisecond);
  let text name := TrimSpace (get env name) in
  Ok {| OpenLinkerURL := text "OPENLINKER_URL"; RuntimeURL := text "OPENLINKER_RUNTIME_URL";
        Transport := ToLower (TrimSpace (defaultString (get env (var "TRANSPORT")) (TransportAuto lib)));
        NodeID := text "OPENLINKER_NODE_ID"; AgentID := text "OPENLINKER_AGENT_ID"; AgentToken := text "OPENLINKER_AGENT_TOKEN";
        DataDir := text (var "DATA_DIR"); MTLSCertFile := text (var "MTLS_CERT_FILE");
        MTLSKeyFile := text (var "MTLS_KEY_FILE"); MTLSCAFile := text (var "MTLS_CA_FILE");
        MTLSServerName := text (var "MTLS_SERVER_NAME"); Capacity := capacity; ClaimWait := duration claimWait Second;
        CommandWait := duration commandWait Second; HeartbeatInterval := duration heartbeat Second;
        RetryMinimum := duration retryMinMS Millisecond; RetryMaximum := duration retryMaxMS Millisecond;
        node_Adapter := adapter; node_Helper := helper; node_PublicA2A := publicA2A |}.
End node.

(** ** The configuration report (configuration_report.go) *)

Record NativePolicyReport := {
  np_Provider : string; np_WebSearch : bool; np_SessionIsolation : string; np_SessionReuse : bool;
  np_HostAuthConcurrency : string; np_Mock : bool;
}.
Record ConfigurationReport := {
  cr_Version : string; cr_Scope : string; cr_ProviderPreflight : string; cr_Capacity : Z;
  cr_Native : option NativePolicyReport; cr_Warnings : list string;
}.

(** The native part of a report for a provider configuration. *)
Definition policy_report (c : ProviderConfig) (mock : bool) : NativePolicyReport :=
  {| np_Provider := Provider c; np_WebSearch := WebSearch c;
     np_SessionIsolation := if Enabled (SessionIsolation c) then "native" else "off"; np_SessionReuse := SessionReuse c;
     np_HostAuthConcurrency := if Enabled (SessionIsolation c) then defaultString (HostAuthConcurrency c) "serial" else "";
     np_Mock := mock |}.
Definition policy_warnings (c : ProviderConfig) (mock : bool) (capacity : Z) : list string :=
  (if Enabled (SessionIsolation c)
   then if bool_decide (defaultString (HostAuthConcurrency c) "serial" = "serial") && (1 <? capacity)
        then ["serial_host_auth_capacity_gt_one"] else []
   else ["native_isolation_disabled"])
  ++ (if mock then ["mock_provider_enabled"] else []).

(** The provider configuration of an adapter and whether it is mocked. *)
Definition adapter_config (a : Adapter) : option (ProviderConfig * bool) :=
  match a with
  | ACodex x => Some (native x, negb (bool_decide (xa_MockResponse x = "")))
  | ANative c => Some (c, false)
  | _ => None
  end.

(** [Node.ConfigurationReport]; [version] is [AgentNodeVersion]. *)
Definition Node_ConfigurationReport (version : string) (n : Node) : ConfigurationReport :=
  let report native warnings :=
    {| cr_Version := version; cr_Scope := "configured_policy"; cr_ProviderPreflight := "not_run"; cr_Capacity := Capacity n;
       cr_Native := native; cr_Warnings := warnings |} in
  match adapter_config (node_Adapter n) with
  | Some (c, mock) =>
      if bool_decide (Provider c ∈ ["codex"; "claude"])
      then report (Some (policy_report c mock)) (policy_warnings c mock (Capacity n))
      else report None []
  | None => report None []
  end.

Definition filled_field (k v : string) : list (string * json) := if bool_decide (v = "") then [] else [(k, JStr v)].
(** [logConfigurationReport]: the line it prints. *)
Definition report_json (r : ConfigurationReport) : json :=
  JObj ([("version", JStr (cr_Version r)); ("scope", JStr (cr_Scope r)); ("provider_preflight", JStr (cr_ProviderPreflight r));
         ("capacity", JNum (Itoa (cr_Capacity r)))]
        ++ match cr_Native r with
           | Some p =>
               [("native", JObj ([("provider", JStr (np_Provider p)); ("web_search", JBool (np_WebSearch p));
                                  ("session_isolation", JStr (np_SessionIsolation p));
                                  ("session_reuse", JBool (np_SessionReuse p))]
                                 ++ filled_field "host_auth_concurrency" (np_HostAuthConcurrency p)
                                 ++ [("mock", JBool (np_Mock p))]))]
           | None => []
           end
        ++ match cr_Warnings r with [] => [] | ws => [("warnings", json_strings ws)] end).
Definition logConfigurationReport (version : string) (n : Node) : option string :=
  let r := Node_ConfigurationReport version n in
  match cr_Native r with
  | Some _ => Some ("native configuration: " +:+ marshal (report_json r))
  | None => None
  end.

(** ** Isolation is the default *)

Section isolation_facts.
Context {UL : UnicodeLower} {JE : JsonErrors} (lib : sdk) (env : surroundings).

(** The setting as the code reads it. *)
Definition isolation_setting : string := ToLower (TrimSpace (get env (var "SESSION_ISOLATION"))).

(** What an accepted native isolation has been checked for. *)
Record checked_isolation (c : Sandbox.Config) : Prop := {
  ci_enabled : Enabled c = true;
  ci_valid : Validate (pf env) c = None;
  ci_root : CheckOutsideGitWorktree (host_fs env) (host_eval env) (Root c) = None;
  ci_temp : TempRoot c ≠ "" → CheckOutsideGitWorktree (host_fs env) (host_eval env) (TempRoot c) = None;
}.

Lemma check_Ok o u : check o = Ok u → o = None.
Proof. by destruct o. Qed.

Lemma valid_root c : Enabled c = true → Validate (pf env) c = None → Root c ≠ "".
Proof.
  unfold Enabled, Validate. intros He HV HR. apply bool_decide_eq_true in He. rewrite He in HV. rewrite HR in HV.
  cbn in HV. unfold Enabled in HV. rewrite He in HV. by repeat (case_match; try discriminate HV).
Qed.

Lemma parse_isolation_spec dn d c :
  parseSessionIsolation env dn = (d, Ok c) →
  Mode c = (isolation_mode env dn).1 ∧ Validate (pf env) c = None ∧ (Enabled c = true → checked_isolation c).
Proof.
  unfold parseSessionIsolation. destruct (isolation_mode env dn) as [mode def]. intros [= _ H]. cbn [fst].
  apply bind_Ok in H as (root & _ & H). apply bind_Ok in H as ([] & _ & H). apply bind_Ok in H as (paths & _ & H).
  apply bind_Ok in H as (domains & _ & H). apply bind_Ok in H as (namespace & _ & H). cbn zeta in H.
  apply bind_Ok in H as ([] & HV%check_Ok & H). apply bind_Ok in H as ([] & HW & H). injection H as <-.
  split_and!; [done|done|]. intros He. pose proof (valid_root _ He HV) as HR.
  unfold Enabled in He. cbn [Mode Root TempRoot] in *. rewrite He in HW. apply check_Ok in HW.
  unfold first_error in HW. cbn [map omap list_omap] in HW. rewrite (bool_decide_false (root = "")) in HW by done.
  destruct (CheckOutsideGitWorktree (host_fs env) (host_eval env) root) eqn:Hr; [done|].
  split; [done|done|done|]. cbn [TempRoot]. intros HT. rewrite bool_decide_false in HW by done.
  by destruct (CheckOutsideGitWorktree _ _ (get env (var "SESSION_TEMP_ROOT"))).
Qed.

Lemma isolation_mode_spec dn :
  (isolation_mode env dn).1 = if bool_decide (isolation_setting = "") && dn then "native" else isolation_setting.
Proof. unfold isolation_mode, isolation_setting. by destruct (_ && _). Qed.

Lemma isolation_spec dn c :
  sessionIsolationFromEnv env dn = Ok c →
  (checked_isolation c ∧ (isolation_setting = "native" ∨ (isolation_setting = "" ∧ dn = true))) ∨
  (Enabled c = false ∧ (isolation_setting = "off" ∨ (isolation_setting = "" ∧ dn = false))).
Proof.
  unfold sessionIsolationFromEnv. intros H.
  assert (∃ d, parseSessionIsolation env dn = (d, Ok c)) as [d Hd].
  { destruct (parseSessionIsolation env dn) as [[] [x|e]]; simplify_eq; eauto. }
  apply parse_isolation_spec in Hd as (Hm & HV & He). rewrite isolation_mode_spec in Hm. destruct (Enabled c) eqn:HE.
  - left. split; [by apply He|]. unfold Enabled in HE. apply bool_decide_eq_true in HE. rewrite HE in Hm.
    destruct (bool_decide (isolation_setting = "") && dn) eqn:Hb; go_bool; auto.
  - right. split; [done|]. unfold Validate in HV. rewrite HE in HV.
    destruct (bool_decide (Mode c = "") || bool_decide (Mode c = "off")) eqn:Hmode; [|done].
    unfold Enabled in HE. apply bool_decide_eq_false in HE.
    destruct (bool_decide (isolation_setting = "") && dn) eqn:Hb; [done|]. rewrite Hm in Hmode.
    apply orb_true_iff in Hmode as [Hs|Hs]; go_bool; [|by left]. right. split; [done|].
    rewrite bool_decide_true in Hb by done. by destruct dn.
Qed.

Lemma true_words_option raw : boolOption raw false = true → ∀ d, boolOption raw d = true.
Proof. unfold boolOption. case_bool_decide; [done|]. case_bool_decide; [done|]. by case_bool_decide. Qed.

(** What a provider adapter's configuration is, by the isolation it got. *)
Record native_configuration (provider auth : string) (c : Sandbox.Config) : Prop := {
  nc_checked : checked_isolation c;
  nc_setting : isolation_setting ∈ ["native"; ""];
  nc_real : mocked env provider = false;
  nc_workspace : get env (var (ToUpperASCII provider +:+ "_") +:+ "WORKSPACE") = "";
  nc_reuse : ∀ d, d = true → boolOption (get env (var (ToUpperASCII provider +:+ "_") +:+ "SESSION_REUSE")) d = true;
}.
Record open_configuration (provider auth : string) (c : Sandbox.Config) : Prop := {
  oc_disabled : Enabled c = false;
  oc_setting : isolation_setting = "off" ∨ (isolation_setting = "" ∧ mocked env provider = true);
  oc_auth : auth = "";
}.

Lemma provider_isolation_spec provider auth c :
  providerIsolationFromEnv env provider auth = Ok c →
  native_configuration provider auth c ∨ open_configuration provider auth c.
Proof.
  unfold providerIsolationFromEnv. intros (c' & Hc & H)%bind_Ok.
  apply isolation_spec in Hc as [[Hc Hs]|[Hc Hs]].
  - pose proof (ci_enabled _ Hc) as He. rewrite He in H. cbn [negb andb] in H. left.
    destruct (mocked env provider) eqn:Hm; [done|]. cbn [negb andb] in H.
    apply bind_Ok in H as ([] & Hn & H). injection H as <-. unfold nativeProviderOptions in Hn.
    destruct (bool_decide (get env (var (ToUpperASCII provider +:+ "_") +:+ "WORKSPACE") = "")) eqn:Hw; [|done]. cbn [negb] in Hn.
    destruct (bool_decide (get env (var (ToUpperASCII provider +:+ "_") +:+ "SESSION_REUSE") = "")) eqn:Hr;
      go_bool; split; try done; try (destruct Hs as [->|[-> _]]; set_solver).
    + intros d ->. unfold boolOption. by rewrite bool_decide_true.
    + intros d _. apply true_words_option. cbn [negb andb] in Hn. by destruct (boolOption _ false).
  - rewrite Hc in H. cbn [negb andb] in H. right. destruct (bool_decide (auth = "")) eqn:Ha; [|done]. cbn [negb andb] in H.
    injection H as <-. go_bool. split; [done| |done]. destruct Hs as [|[? Hm]]; [by left|right]. by go_bool.
Qed.

(** The provider adapters come from the provider cases. *)
Lemma adapter_config_inv mode a c mock :
  adapterFromEnv lib env mode = Ok a → adapter_config a = Some (c, mock) →
  Provider c = mode ∧ mock = mocked env mode ∧ HostAuthConcurrency c ∈ [""; "serial"; "client-managed"] ∧
  providerIsolationFromEnv env mode (HostAuthConcurrency c) = Ok (SessionIsolation c) ∧
  SessionReuse c = boolOption (get env (var (ToUpperASCII mode +:+ "_") +:+ "SESSION_REUSE")) (Enabled (SessionIsolation c)) ∧
  (mode = "codex" ∨ mode = "claude").
Proof.
  unfold adapterFromEnv. intros (timeout & _ & H)%bind_Ok Hc. cbn zeta in H.
  destruct (bool_decide (get env (var "HOST_AUTH_CONCURRENCY") ∈ _)) eqn:Hauth; [|done]. cbn [negb] in H.
  apply bool_decide_eq_true in Hauth.
  destruct (bool_decide (mode ∈ ["http"; "openclaw"])).
  { unfold http_adapter in H. ok_inv H. by injection H as <-. }
  destruct (bool_decide (mode = "a2a")). { unfold a2a_adapter in H. ok_inv H. by injection H as <-. }
  destruct (bool_decide (mode = "command")). { unfold command_adapter in H. ok_inv H. by injection H as <-. }
  destruct (bool_decide (mode = "claude")) eqn:Hm.
  { apply bool_decide_eq_true in Hm. subst mode. unfold claude_adapter in H. ok_inv H.
    injection H as <-. injection Hc as <- <-. cbn [Provider HostAuthConcurrency SessionIsolation SessionReuse].
    split_and!; try done. by right. }
  destruct (bool_decide (mode = "codex")) eqn:Hm'.
  { apply bool_decide_eq_true in Hm'. subst mode. unfold codex_adapter in H. ok_inv H.
    injection H as <-. injection Hc as <- <-.
    split_and!; try done. by left. }
  by case_bool_decide.
Qed.

(** The outcome for a model-driven client. *)
Inductive isolation_outcome (c : ProviderConfig) (mock : bool) : Prop :=
  | IO_isolated :
      checked_isolation (SessionIsolation c) → isolation_setting ∈ ["native"; ""] → mock = false →
      get env (var (ToUpperASCII (Provider c) +:+ "_") +:+ "WORKSPACE") = "" → SessionReuse c = true → isolation_outcome c mock
  | IO_opted_out :
      Enabled (SessionIsolation c) = false → isolation_setting = "off" → HostAuthConcurrency c = "" → isolation_outcome c mock
  | IO_mocked :
      Enabled (SessionIsolation c) = false → isolation_setting = "" → mock = true → Provider c = "codex" →
      HostAuthConcurrency c = "" → isolation_outcome c mock.

(** C15: A Codex or Claude client runs unisolated only when the operator said "off", or
    when the adapter is the Codex mock, which starts no client: an unset, blank or
    mistyped setting never does. An isolated one has a validated policy, roots
    outside every worktree, no operator workspace and session reuse on. *)
Theorem native_isolation_default mode a c mock :
  adapterFromEnv lib env mode = Ok a → adapter_config a = Some (c, mock) → isolation_outcome c mock.
Proof.
  intros Ha Hc. destruct (adapter_config_inv _ _ _ _ Ha Hc) as (Hp & -> & _ & Hi & Hr & Hmode).
  apply provider_isolation_spec in Hi as [[H1 H2 H3 H4 H5]|[H1 [H2|[H2 H3]] H4]].
  - apply IO_isolated; try done; [by rewrite Hp|]. rewrite Hr. apply H5, H1.
  - by apply IO_opted_out.
  - apply IO_mocked; try done. rewrite Hp. unfold mocked in H3. by go_bool.
Qed.
End isolation_facts.

(** ** Well-formed configurations and the width of durations *)

Definition in_int64 (z : Z) : Prop := int64_min <= z <= int64_max.

Lemma wrap64_range z : in_int64 (wrap64 z).
Proof. unfold in_int64, wrap64, int64_min, int64_max. pose proof (Z.mod_pos_bound (z + 2 ^ 63) (2 ^ 64) ltac:(lia)). lia. Qed.
Lemma wrap64_id z : wrap64 z = z ↔ in_int64 z.
Proof.
  split; [intros <-; apply wrap64_range|]. unfold in_int64, wrap64, int64_min, int64_max. intros Hz.
  rewrite Z.mod_small by lia. lia.
Qed.

(** A count of units is kept exactly when it fits; a larger one wraps around. *)
Lemma duration_exact n unit : 0 <= n → 0 < unit → duration n unit = n * unit ↔ n <= int64_max / unit.
Proof.
  intros Hn Hu. unfold duration. rewrite wrap64_id. unfold in_int64, int64_min, int64_max. split.
  - intros [_ H]. apply Z.div_le_lower_bound; lia.
  - intros H. split; [nia|]. pose proof (Z.mul_div_le (2 ^ 63 - 1) unit Hu). nia.
Qed.

(** What the operator may count on of the defaults of the SDK. *)
Definition sdk_sane (lib : sdk) : Prop :=
  Forall (λ z, 0 <= z <= int64_max)
    [DefaultCapacity lib; DefaultClaimWait lib; DefaultCommandWait lib; DefaultHeartbeatInterval lib;
     DefaultRetryMinimum lib; DefaultRetryMaximum lib].

Section node_facts.
Context {UL : UnicodeLower} {JE : JsonErrors} (lib : sdk) (env : surroundings).

Lemma Atoi_range s v : Atoi s = Some v → in_int64 v.
Proof.
  unfold Atoi, in_int64. cbv zeta. intros H. match type of H with match ?x with _ => _ end = _ => destruct x as [w|] end; [|done].
  destruct (_ && _) eqn:Hr; [|done]. injection H as <-. go_bool. lia.
Qed.

Lemma number_range name fallback n :
  0 <= fallback <= int64_max → number env name fallback = Ok n → 0 <= n <= int64_max.
Proof.
  unfold number, numberOption. intros Hf. case_bool_decide; [by intros [= <-]|].
  destruct (Atoi _) as [v|] eqn:Hv; [|done]. apply Atoi_range in Hv as [_ Hv].
  destruct (v <? 0) eqn:Hn; [done|]. intros [= <-]. go_bool. lia.
Qed.

Lemma default_units d unit : 0 <= d <= int64_max → 0 < unit → 0 <= d `quot` unit <= int64_max.
Proof. intros Hd Hu. rewrite Z.quot_div_nonneg by lia. split; [by apply Z.div_pos; lia|]. apply Z.div_le_upper_bound; nia. Qed.

(** One interval: the number the operator gave (or the default), in its unit. *)
Definition interval (name : string) (fallback unit value : Z) : Prop :=
  ∃ n, number env name (fallback `quot` unit) = Ok n ∧ 0 <= n <= int64_max ∧ in_int64 value ∧
    value = duration n unit ∧ (value = n * unit ↔ n <= int64_max / unit).

Lemma interval_intro name fallback unit n :
  0 <= fallback <= int64_max → 0 < unit → number env name (fallback `quot` unit) = Ok n →
  interval name fallback unit (duration n unit).
Proof.
  intros Hf Hu Hn. pose proof (number_range _ _ _ (default_units _ _ Hf Hu) Hn) as Hr. exists n.
  do 2 (split; [done|]). split; [apply wrap64_range|]. split; [done|]. apply duration_exact; [apply Hr|done].
Qed.

(** C20: Every interval of the Node is the configured count of its unit as long as that
    fits in 63 bits of nanoseconds, and is not that count otherwise: a count above
    9223372036 seconds (or 9223372036854 milliseconds) is accepted and wraps. *)
Theorem configured_intervals n :
  sdk_sane lib → NewFromLookup lib env = Ok n →
  0 <= Capacity n <= int64_max ∧
  interval "CLAIM_WAIT_SECONDS" (DefaultClaimWait lib) Second (ClaimWait n) ∧
  interval "COMMAND_WAIT_SECONDS" (DefaultCommandWait lib) Second (CommandWait n) ∧
  interval "HEARTBEAT_SECONDS" (DefaultHeartbeatInterval lib) Second (HeartbeatInterval n) ∧
  interval "RETRY_MIN_MS" (DefaultRetryMinimum lib) Millisecond (RetryMinimum n) ∧
  interval "RETRY_MAX_MS" (DefaultRetryMaximum lib) Millisecond (RetryMaximum n).
Proof.
  unfold sdk_sane. rewrite !list.Forall_cons. intros (H1 & H2 & H3 & H4 & H5 & H6 & _) H.
  unfold NewFromLookup in H. ok_inv H. injection H as <-. cbn.
  split_and!; try (by apply interval_intro); by eapply number_range; [|done].
Qed.

(** ** Shapes *)

Definition endpoint_checked (url : string) : Prop := url = "" ∨ ValidateModelEndpoint url = None.
Definition filled_names (l : list string) : Prop := Forall (λ s, s ≠ "") l.

(** A fresh provider configuration: nothing of a run in it yet. *)
Record provider_typed (provider : string) (c : ProviderConfig) : Prop := {
  pt_provider : Provider c = provider;
  pt_bin : Bin c ≠ "";
  pt_auth : HostAuthConcurrency c ∈ [""; "serial"; "client-managed"];
  pt_timeout : in_int64 (Timeout c);
  pt_endpoints : endpoint_checked (CodexBaseURL c) ∧ endpoint_checked (ClaudeBaseURL c);
  pt_allowlist : filled_names (EnvAllowlist c);
  pt_fresh : sandbox c = None ∧ toolPolicy c = None ∧ DelegationSocket c = "" ∧ boundMCPTools c = [];
}.

Definition adapter_typed (a : Adapter) : Prop :=
  match a with
  | AHTTP h => in_int64 (ha_Timeout h)
  | AA2A h => in_int64 (aa_Timeout h)
  | ACommand h => in_int64 (ca_Timeout h) ∧ filled_names (ca_EnvAllowlist h)
  | ANative c => provider_typed "claude" c
  | ACodex x => provider_typed "codex" (native x)
  end.

Record node_typed (n : Node) : Prop := {
  nt_adapter : adapter_typed (node_Adapter n);
  nt_helper h : node_Helper n = Some h → ∃ host port, h = fresh_server host port ∧ host ≠ "" ∧ 0 <= port <= int64_max;
  nt_public a : node_PublicA2A n = Some a →
    ∃ host port slug name d t, a = Lifecycle.new host port slug name d t ∧ host ≠ "" ∧ slug ≠ "" ∧ name ≠ "" ∧
      0 <= port <= int64_max ∧ Lifecycle.linv a;
  nt_capacity : 0 <= Capacity n <= int64_max;
}.

Lemma defaultString_filled v d : d ≠ "" → defaultString v d ≠ "".
Proof. unfold defaultString. by case_bool_decide. Qed.
Lemma parseCommaList_filled raw : filled_names (parseCommaList raw).
Proof. apply list.Forall_forall. intros x [Hx _]%elem_of_filter_bool. by go_bool. Qed.
Lemma checked_endpoint_ok url u : checked_endpoint url = Ok u → endpoint_checked url.
Proof. unfold checked_endpoint, endpoint_checked. case_bool_decide; [by left|]. intros Hc%check_Ok. by right. Qed.

Lemma adapter_typed_ok mode a : adapterFromEnv lib env mode = Ok a → adapter_typed a.
Proof.
  unfold adapterFromEnv. intros (timeout & _ & H)%bind_Ok. cbn zeta in H.
  destruct (bool_decide (get env (var "HOST_AUTH_CONCURRENCY") ∈ _)) eqn:Hauth; [|done]. cbn [negb] in H. go_bool.
  ok_inv H; unfold http_adapter, a2a_adapter, command_adapter, claude_adapter, codex_adapter in H; ok_inv H;
    injection H as <-; cbn [adapter_typed]; try apply wrap64_range; try (split; [apply wrap64_range|apply parseCommaList_filled]).
  all: split; cbn; try done; try (by apply defaultString_filled); try apply wrap64_range; try apply parseCommaList_filled.
  all: split; (by left) || (by eapply checked_endpoint_ok).
Qed.

(** C19: Whatever the environment says, the Node that comes out is well formed: every
    number is in the range of its type, servers are stopped and addressable, the
    provider configuration holds nothing of a run, a known authentication mode and
    only validated model endpoints. *)
Theorem configured_node_typed n : sdk_sane lib → NewFromLookup lib env = Ok n → node_typed n.
Proof.
  unfold sdk_sane. rewrite !list.Forall_cons. intros (Hcap & _) H. unfold NewFromLookup in H. ok_inv H. injection H as <-.
  split; cbn [node_Adapter node_Helper node_PublicA2A Capacity].
  - by eapply adapter_typed_ok.
  - intros h ->. rename Hstep0 into Hh. unfold helperFromEnv in Hh. ok_inv Hh. injection Hh as <-.
    eexists _, _. split_and!; [done|by apply defaultString_filled|..]; eapply number_range; [|done| |done]; done.
  - intros p ->. rename Hstep1 into Hh. unfold publicA2AFromEnv in Hh. ok_inv Hh. injection Hh as <-.
    do 6 eexists. split_and!; [done|by apply defaultString_filled..| | |apply Lifecycle.linv_new]; eapply number_range; [|done| |done]; done.
  - by eapply number_range; [|done].
Qed.
End node_facts.

(** ** What a report tells *)

(** The policy of a Node: what its report may depend on. *)
Definition policy_of (n : Node) : option (string * bool * bool * bool * string * bool) :=
  (λ '(c, mock), (Provider c, WebSearch c, Enabled (SessionIsolation c), SessionReuse c, HostAuthConcurrency c, mock))
    <$> adapter_config (node_Adapter n).

(** The report and its log line depend on the policy and the capacity alone: two
    Nodes that differ in tokens, certificates, endpoints, identities, paths, models
    or allowed variables print the same line. It calls a Node isolated exactly when
    it is, and warns exactly when it is not. *)
Theorem report_tells_policy version n n' :
  Capacity n = Capacity n' → policy_of n = policy_of n' →
  logConfigurationReport version n = logConfigurationReport version n' ∧
  ∀ p, cr_Native (Node_ConfigurationReport version n) = Some p → ∃ c mock,
    adapter_config (node_Adapter n) = Some (c, mock) ∧
    (np_SessionIsolation p = "native" ↔ Enabled (SessionIsolation c) = true) ∧
    ("native_isolation_disabled" ∈ cr_Warnings (Node_ConfigurationReport version n) ↔ Enabled (SessionIsolation c) = false) ∧
    ("mock_provider_enabled" ∈ cr_Warnings (Node_ConfigurationReport version n) ↔ mock = true).
Proof.
  intros Hcap Hpol. unfold policy_of in Hpol. split.
  - unfold logConfigurationReport, Node_ConfigurationReport. rewrite <-Hcap.
    destruct (adapter_config (node_Adapter n)) as [[c mock]|], (adapter_config (node_Adapter n')) as [[c' mock']|]; try done.
    cbn in Hpol. injection Hpol as HP HW HE HR HH ->. unfold policy_report, policy_warnings. by rewrite HP, HW, HE, HR, HH.
  - intros p. unfold Node_ConfigurationReport. destruct (adapter_config (node_Adapter n)) as [[c mock]|]; [|done].
    destruct (bool_decide (Provider c ∈ _)); [|done]. cbn [cr_Native cr_Warnings]. intros [= <-]. exists c, mock.
    split; [done|]. unfold policy_report, policy_warnings. cbn [np_SessionIsolation].
    destruct (Enabled (SessionIsolation c)), (bool_decide (defaultString (HostAuthConcurrency c) "serial" = "serial")), (1 <? Capacity n), mock; split_and!; set_solver.
Qed.

(** ** Instances *)
Module ConfigExamplesNode.

#[local] Instance lower : UnicodeLower := latin_lower.
#[local] Instance json_errors : JsonErrors := λ _, ENew "invalid character".

Definition lib : sdk :=
  {| DefaultCapacity := 1; DefaultClaimWait := 20 * Second; DefaultCommandWait := 20 * Second;
     DefaultHeartbeatInterval := 15 * Second; DefaultRetryMinimum := 500 * Millisecond; DefaultRetryMaximum := 30 * Second;
     TransportAuto := "auto"; A2AMethodMessageSend := "message/send";
     NormalizeA2AJSONRPCMethodForDialect := λ m _, m; NormalizeA2ADialect := λ d, d |}.

Definition lookup (l : list (string * string)) (k : string) : string :=
  default "" (snd <$> find (λ kv, bool_decide (kv.1 = k)) l).
Definition around (l : list (string * string)) : surroundings :=
  {| get := lookup l; wd := Some "/srv/agent"; pf := {| GOOS := "linux"; GOARCH := "amd64"; Geteuid := 1000 |};
     host_fs := ∅; host_eval := λ p, Some (Clean p) |}.
Definition claude_vars : list (string * string) :=
  [("OPENLINKER_AGENT_NODE_ADAPTER", "claude"); ("OPENLINKER_URL", "https://core.example/"); ("HOME", "/home/agent");
   ("OPENLINKER_AGENT_TOKEN", "secret")].
Definition long_heartbeat : list (string * string) := ("OPENLINKER_AGENT_NODE_HEARTBEAT_SECONDS", "9223372037") :: claude_vars.

Definition node_of (l : list (string * string)) : option Node :=
  match NewFromLookup lib (around l) with Ok n => Some n | Err _ => None end.

Lemma node_ok l n : node_of l = Some n → NewFromLookup lib (around l) = Ok n.
Proof. unfold node_of. destruct (NewFromLookup _ _); [by intros [= ->]|done]. Qed.

Lemma lib_sane : sdk_sane lib.
Proof. unfold sdk_sane, int64_max. rewrite !list.Forall_cons, list.Forall_nil. cbn. unfold Second, Millisecond. lia. Qed.

Lemma configured_intervals_witness :
  ∃ n, NewFromLookup lib (around long_heartbeat) = Ok n ∧ HeartbeatInterval n < 0 ∧
    interval (around long_heartbeat) "HEARTBEAT_SECONDS" (DefaultHeartbeatInterval lib) Second (HeartbeatInterval n).
Proof.
  destruct (node_of long_heartbeat) as [n|] eqn:Hn; [|vm_compute in Hn; discriminate]. exists n.
  split; [by apply node_ok|].
  split; [|exact (proj1 (proj2 (proj2 (proj2 (configured_intervals lib (around long_heartbeat) n lib_sane (node_ok _ _ Hn))))))].
  vm_compute in Hn. injection Hn as <-. reflexivity.
Defined.

Lemma configured_node_typed_witness : ∃ n, NewFromLookup lib (around claude_vars) = Ok n ∧ node_typed n.
Proof.
  destruct (node_of claude_vars) as [n|] eqn:Hn; [|vm_compute in Hn; discriminate]. exists n.
  split; [by apply node_ok|]. exact (configured_node_typed lib (around claude_vars) n lib_sane (node_ok _ _ Hn)).
Defined.

Definition claude_result : result Adapter := adapterFromEnv lib (around claude_vars) "claude".
Lemma native_isolation_default_witness :
  ∃ a c mock, claude_result = Ok a ∧ adapter_config a = Some (c, mock) ∧ Enabled (SessionIsolation c) = true ∧
    isolation_outcome (around claude_vars) c mock.
Proof.
  destruct claude_result as [a|e] eqn:Ha; [|vm_compute in Ha; discriminate].
  destruct (adapter_config a) as [[c mock]|] eqn:Hc; [|vm_compute in Ha; injection Ha as <-; discriminate Hc].
  exists a, c, mock. split; [reflexivity|]. split; [exact Hc|].
  pose proof (native_isolation_default lib (around claude_vars) "claude" a c mock) as Hio. specialize (Hio Ha Hc).
  split; [|exact Hio].
  vm_compute in Ha. injection Ha as <-. injection Hc as <- <-. reflexivity.
Defined.
(** A mistyped setting is refused, not taken for "off". *)
Example mistyped : adapterFromEnv lib (around (("OPENLINKER_AGENT_NODE_SESSION_ISOLATION", "none") :: claude_vars)) "claude" =
  Err (ENew "SESSION_ISOLATION must be off or native").
Proof. vm_compute. reflexivity. Qed.

Definition other_token : list (string * string) := ("OPENLINKER_AGENT_TOKEN", "other") :: claude_vars.
Lemma report_tells_policy_witness :
  ∃ n n', node_of claude_vars = Some n ∧ node_of other_token = Some n' ∧ AgentToken n ≠ AgentToken n' ∧
    logConfigurationReport "v1" n = logConfigurationReport "v1" n'.
Proof.
  destruct (node_of claude_vars) as [n|] eqn:Hn; [|vm_compute in Hn; discriminate].
  destruct (node_of other_token) as [n'|] eqn:Hn'; [|vm_compute in Hn'; discriminate].
  exists n, n'. vm_compute in Hn, Hn'. injection Hn as <-. injection Hn' as <-. do 2 (split; [done|]). split; [discriminate|].
  apply report_tells_policy; reflexivity.
Defined.
End ConfigExamplesNode.
