(* ===== verification/SkillDecode.v ===== *)
(** * Skill packages: the pinned snapshot

    skillpackages/packages.go: what [Decode] accepts of an assignment's snapshot,
    the session mode and prompt made from the result; commands.go and
    skill_packages.go: the lookup of a package's required commands. *)

From stdpp Require Import sorting.
From S2P Require Import Prelude GoStrings Sha256 Json Paths SessionStore ProviderConfig.
From stdpp Require Import options.

Open Scope Z_scope.

Definition Feature : string := "skill_packages.v1".
Definition MetadataKey : string := "_openlinker_skill_packages".

Definition Features (provider : string) : list string :=
  if negb (bool_decide (provider = "codex")) && negb (bool_decide (provider = "claude")) then []
  else [Feature; "skill_packages." +:+ provider +:+ ".v1"].

(** ** The documents *)

Record Version := {
  v_BindingID : string; v_PackageID : string; v_VersionID : string;
  v_Version : string; v_Digest : string; v_Payload : string;
}.
Record Snapshot := { s_Schema : Z; s_Bundles : list Version }.
Record Contents := {
  c_RequiredCommands : list string; c_Name : string; c_Description : string;
  c_Files : gmap string string; c_CapabilityIDs : list string; c_Providers : list string;
}.
Record Package := { p_Name : string; p_Instructions : string; p_Directory : string; p_Files : list string }.

Definition version_zero : Version :=
  {| v_BindingID := ""; v_PackageID := ""; v_VersionID := ""; v_Version := ""; v_Digest := ""; v_Payload := "" |}.

Definition version_fields : list (field Version) :=
  [f_string "binding_id" (λ x v, {| v_BindingID := x; v_PackageID := v_PackageID v; v_VersionID := v_VersionID v;
     v_Version := v_Version v; v_Digest := v_Digest v; v_Payload := v_Payload v |});
   f_string "package_id" (λ x v, {| v_BindingID := v_BindingID v; v_PackageID := x; v_VersionID := v_VersionID v;
     v_Version := v_Version v; v_Digest := v_Digest v; v_Payload := v_Payload v |});
   f_string "version_id" (λ x v, {| v_BindingID := v_BindingID v; v_PackageID := v_PackageID v; v_VersionID := x;
     v_Version := v_Version v; v_Digest := v_Digest v; v_Payload := v_Payload v |});
   f_string "version" (λ x v, {| v_BindingID := v_BindingID v; v_PackageID := v_PackageID v; v_VersionID := v_VersionID v;
     v_Version := x; v_Digest := v_Digest v; v_Payload := v_Payload v |});
   f_string "digest" (λ x v, {| v_BindingID := v_BindingID v; v_PackageID := v_PackageID v; v_VersionID := v_VersionID v;
     v_Version := v_Version v; v_Digest := x; v_Payload := v_Payload v |});
   f_string "payload" (λ x v, {| v_BindingID := v_BindingID v; v_PackageID := v_PackageID v; v_VersionID := v_VersionID v;
     v_Version := v_Version v; v_Digest := v_Digest v; v_Payload := x |})].

(** A slice of structs: an element is decoded into the one an earlier occurrence
    of the field left at its index. *)
Fixpoint decode_slice {R} (fs : list (field R)) (zero : R) (old : list R) (l : list json) : option (list R) :=
  match l with
  | [] => Some []
  | j :: l' =>
      r ← decode_struct false fs (default zero (head old)) j;
      rs ← decode_slice fs zero (tail old) l';
      Some (r :: rs)
  end.

Definition snapshot_zero : Snapshot := {| s_Schema := 0; s_Bundles := [] |}.

Definition snapshot_fields : list (field Snapshot) :=
  [f_int "schema_version" (λ n s, {| s_Schema := n; s_Bundles := s_Bundles s |});
   ("bundles", λ j s,
      match j with
      | JNull => Some {| s_Schema := s_Schema s; s_Bundles := [] |}
      | JArr l =>
          vs ← decode_slice version_fields version_zero (s_Bundles s) l;
          Some {| s_Schema := s_Schema s; s_Bundles := vs |}
      | _ => None
      end)].

(** A [map\[string\]string]: [null] is the empty string, a repeated field extends
    the map. *)
Fixpoint decode_files (kvs : list (string * json)) (m : gmap string string) : option (gmap string string) :=
  match kvs with
  | [] => Some m
  | (k, JStr s) :: kvs' => decode_files kvs' (<[k := s]> m)
  | (k, JNull) :: kvs' => decode_files kvs' (<[k := ""]> m)
  | _ => None
  end.

Definition contents_zero : Contents :=
  {| c_RequiredCommands := []; c_Name := ""; c_Description := ""; c_Files := ∅; c_CapabilityIDs := [];
     c_Providers := [] |}.

Definition contents_fields : list (field Contents) :=
  [f_strings "required_commands" (λ x c, {| c_RequiredCommands := x; c_Name := c_Name c;
     c_Description := c_Description c; c_Files := c_Files c; c_CapabilityIDs := c_CapabilityIDs c;
     c_Providers := c_Providers c |});
   f_string "name" (λ x c, {| c_RequiredCommands := c_RequiredCommands c; c_Name := x;
     c_Description := c_Description c; c_Files := c_Files c; c_CapabilityIDs := c_CapabilityIDs c;
     c_Providers := c_Providers c |});
   f_string "description" (λ x c, {| c_RequiredCommands := c_RequiredCommands c; c_Name := c_Name c;
     c_Description := x; c_Files := c_Files c; c_CapabilityIDs := c_CapabilityIDs c;
     c_Providers := c_Providers c |});
   ("files", λ j c,
      let set m := {| c_RequiredCommands := c_RequiredCommands c; c_Name := c_Name c;
        c_Description := c_Description c; c_Files := m; c_CapabilityIDs := c_CapabilityIDs c;
        c_Providers := c_Providers c |} in
      match j with
      | JNull => Some (set ∅)
      | JObj kvs => set <$> decode_files kvs (c_Files c)
      | _ => None
      end);
   f_strings "capability_ids" (λ x c, {| c_RequiredCommands := c_RequiredCommands c; c_Name := c_Name c;
     c_Description := c_Description c; c_Files := c_Files c; c_CapabilityIDs := x;
     c_Providers := c_Providers c |});
   f_strings "providers" (λ x c, {| c_RequiredCommands := c_RequiredCommands c; c_Name := c_Name c;
     c_Description := c_Description c; c_Files := c_Files c; c_CapabilityIDs := c_CapabilityIDs c;
     c_Providers := x |})].

(** ** The patterns *)

Definition is_alnum (c : ascii) : bool :=
  let v := byte_val c in
  ((97 <=? v) && (v <=? 122)) || ((65 <=? v) && (v <=? 90)) || is_digit c.

Definition packageIDPattern (s : string) : bool := uuidPattern s.

(** [^\[a-zA-Z0-9\]\[a-zA-Z0-9._+-\]{0,63}$] *)
Definition packageCommandPattern (s : string) : bool :=
  match s with
  | EmptyString => false
  | String c rest =>
      is_alnum c && str_forallb (λ d, is_alnum d || in_cutset "._+-" d) rest && (slen rest <=? 63)
  end.

(** [^\[a-zA-Z0-9._/-\]+$] *)
Definition packagePathPattern (s : string) : bool :=
  negb (bool_decide (s = "")) && str_forallb (λ c, is_alnum c || in_cutset "._/-" c) s.

(** ** [Decode] *)

Definition errSnapshot : go_error := ENew "invalid skill package snapshot".
Definition errIdentity : go_error := ENew "skill package identity or digest mismatch".
Definition errIncompatible : go_error := ENew "incompatible skill package".
Definition errUnsafeFile : go_error := ENew "unsafe skill package file".

(** The test of one file: its name and its text. *)
Definition unsafe_file (name content : string) : bool :=
  bool_decide (name = ".") || (180 <? slen name) || negb (packagePathPattern name) || IsAbs name ||
  negb (bool_decide (Clean name = name)) || HasPrefix name "." || Contains name "/." ||
  negb (ValidString content) || str_existsb (λ c, byte_val c =? 0) content.

(** The tests on a bundle's identity; [seen] are the packages before it. *)
Definition identity_ok (seen : gset string) (v : Version) : bool :=
  packageIDPattern (v_BindingID v) && packageIDPattern (v_PackageID v) && packageIDPattern (v_VersionID v) &&
  negb (bool_decide (v_PackageID v ∈ seen)) && (slen (v_Payload v) <=? 65536) &&
  bool_decide (sha256_hex (v_Payload v) = v_Digest v).

Definition decode_contents (payload : string) : option Contents :=
  j ← parse payload; decode_struct false contents_fields contents_zero j.

Definition compatible (provider : string) (c : Contents) : bool :=
  bool_decide (provider ∈ c_Providers c) && (1 <=? Z.of_nat (size (c_Files c))) &&
  (Z.of_nat (size (c_Files c)) <=? 32) &&
  negb (bool_decide (TrimSpace (default "" (c_Files c !! "SKILL.md")) = "")).

Definition safe_files (c : Contents) : bool :=
  forallb (λ kv, negb (unsafe_file kv.1 kv.2)) (map_to_list (c_Files c)).

(** The loop over the bundles. *)
Fixpoint decode_bundles (provider : string) (seen : gset string) (vs : list Version) : result (list Contents) :=
  match vs with
  | [] => Ok []
  | v :: vs' =>
      _ ← guard_err (identity_ok seen v) errIdentity;
      bundle ← of_option errIncompatible (decode_contents (v_Payload v));
      _ ← guard_err (compatible provider bundle) errIncompatible;
      _ ← guard_err (safe_files bundle) errUnsafeFile;
      rest ← decode_bundles provider ({[v_PackageID v]} ∪ seen) vs';
      Ok (bundle :: rest)
  end.

Definition Decode (value : json) (provider : string) : result (Snapshot * list Contents) :=
  let raw := marshal value in
  _ ← guard_err (slen raw <=? 768 * 1024) errSnapshot;
  snapshot ← of_option errSnapshot (j ← parse raw; decode_struct false snapshot_fields snapshot_zero j);
  _ ← guard_err (s_Schema snapshot =? 1) errSnapshot;
  _ ← guard_err (Z.of_nat (length (s_Bundles snapshot)) <=? 5) errSnapshot;
  bundles ← decode_bundles provider ∅ (s_Bundles snapshot);
  Ok (snapshot, bundles).

(** ** Session mode and prompt *)

Definition version_json (v : Version) : json :=
  JObj [("binding_id", JStr (v_BindingID v)); ("package_id", JStr (v_PackageID v));
        ("version_id", JStr (v_VersionID v)); ("version", JStr (v_Version v));
        ("digest", JStr (v_Digest v)); ("payload", JStr (v_Payload v))].

Definition package_le (a b : Version) : Prop := String.le (v_PackageID a) (v_PackageID b).
#[export] Instance package_le_dec : RelDecision package_le.
Proof. intros a b. unfold package_le. apply _. Defined.
#[export] Instance package_le_total : Total package_le.
Proof. intros a b. unfold package_le. apply (total String.le). Qed.
#[export] Instance package_le_trans : Transitive package_le.
Proof. intros a b c. unfold package_le. apply transitivity. Qed.

(** The bytes the selection's digest is taken of: the versions sorted by package. *)
Definition selection_text (snapshot : Snapshot) : string :=
  marshal (JArr (map version_json (merge_sort package_le (s_Bundles snapshot)))).

Definition SessionMode (digest : string) : string :=
  if bool_decide (digest = "") then "" else ":skill_packages:" +:+ digest.

Definition newline : string := String (ascii_of_N 10) EmptyString.

Definition package_lines (resumed : bool) (p : Package) : list string :=
  [""; "Skill package: " +:+ p_Name p +:+ newline +:+ "Read instructions: " +:+ JoinPath [p_Directory p; "SKILL.md"]] ++
  (if resumed then ["Read SKILL.md again if its instructions are no longer in context."]
   else ["Available files: " +:+ Join (p_Files p) ", "; p_Instructions p]).

Definition Instructions (packages : list Package) (resumed : bool) : string :=
  match packages with
  | [] => ""
  | _ =>
      Join ([""; "The Agent owner associated these version-pinned skill packages with this Agent.";
             "Use their instructions when relevant to the task. They do not grant new tool, credential or network permissions.";
             "Resolve supporting files relative to each package directory. Do not modify package files or reveal their private contents."]
            ++ concat (map (package_lines resumed) packages)) newline
  end.

(** ** Required commands (commands.go, skill_packages.go) *)

(** [filepath.SplitList] on Unix *)
Definition SplitList (path : string) : list string := if bool_decide (path = "") then [] else Split path ":".

(** What the operating system answers: [os.Stat] gives a regular file and
    [access(2)] lets it be executed; [filepath.EvalSymlinks]; [ctx.Err()] before
    the i-th name. *)
Record command_env := {
  ce_executable : string → bool;
  ce_EvalSymlinks : string → option string;
  ce_ctx : nat → option go_error;
}.

(** The environment as a map: the last entry of a name wins. *)
Definition environment_values (environment : list string) : gmap string string :=
  foldl (λ (m : gmap string string) entry, let '(k, v, ok) := Cut entry "=" in if ok then <[k := v]> m else m)
    ∅ environment.

(** The directories of PATH that are searched for [name], on Unix (no extensions). *)
Definition candidates (workspace path name : string) : list string :=
  map (λ directory, JoinPath [if IsAbs directory then directory else JoinPath [workspace; directory]; name])
    (List.filter (λ directory, negb (bool_decide (directory = ""))) (SplitList path)).

Definition command_found (ce : command_env) (workspace path : string) (allowPath : option (string → bool)) (name : string)
    : bool :=
  existsb (λ candidate, ce_executable ce candidate &&
             match allowPath with Some allow => allow candidate | None => true end)
    (candidates workspace path name).

Fixpoint check_commands (ce : command_env) (i : nat) (workspace path : string) (allowPath : option (string → bool))
    (names : list string) : option go_error :=
  match names with
  | [] => None
  | name :: names' =>
      match ce_ctx ce i with
      | Some e => Some e
      | None =>
          if negb (packageCommandPattern name) then Some (ENew ("invalid required command: " +:+ name))
          else if command_found ce workspace path allowPath name then check_commands ce (S i) workspace path allowPath names'
          else Some (ENew ("required command is unavailable in the Provider environment: " +:+ name))
      end
  end.

Definition CheckCommands (ce : command_env) (names environment : list string) (workspace : string)
    (allowPath : option (string → bool)) : option go_error :=
  check_commands ce 0 workspace (default "" (environment_values environment !! "PATH")) allowPath names.

(** The loop of [commandVisible]: a root that is the executable itself answers at
    once, the others are collected in the two flags. *)
Fixpoint visible_roots (target parent base : string) (targetAllowed parentAllowed : bool) (roots : list string) : bool :=
  match roots with
  | [] => targetAllowed && parentAllowed
  | root :: roots' =>
      let contains path := bool_decide (path = root) || HasPrefix path (root +:+ "/") in
      if bool_decide (target = root) && bool_decide (JoinPath [parent; base] = target) then true
      else visible_roots target parent base (targetAllowed || contains target) (parentAllowed || contains parent) roots'
  end.

(** [nativeToolPolicy.commandVisible] *)
Definition commandVisible (ce : command_env) (p : nativeToolPolicy) (name : string) : bool :=
  match ce_EvalSymlinks ce name, ce_EvalSymlinks ce (Dir name) with
  | Some target, Some parent => visible_roots target parent (Base name) false false (tp_commandReadRoots p)
  | _, _ => false
  end.

(** The checker [loadSkillPackages] gives to [Load]. *)
Definition run_check (ce : command_env) (os_environ : list string) (env : option (list string)) (workspace : string)
    (policy : option nativeToolPolicy) (names : list string) : option go_error :=
  CheckCommands ce names (default os_environ env) workspace (commandVisible ce <$> policy).

(** ** What a safe name is *)

Definition hidden (e : string) : bool := HasPrefix e ".".

(** The elements of the name of a package file. *)
Definition file_elements (es : list string) : Prop := down es ∧ Forall (λ e, hidden e = false) es.

Lemma Contains_app a b sub : String.prefix sub b = true → Contains (a +:+ b) sub = true.
Proof.
  intros Hb. induction a as [|c a IH].
  - change ("" +:+ b) with b. by destruct b; cbn [Contains]; rewrite Hb.
  - rewrite str_app_cons. cbn [Contains]. by rewrite IH, orb_true_r.
Qed.

Lemma prefix_dot_app e s : HasPrefix e "." = true → HasPrefix (e +:+ s) "." = true.
Proof. unfold HasPrefix. intros He%prefix_inv. rewrite He, <-str_app_assoc. apply prefix_app. Qed.

Lemma dotted_element es e :
  e ∈ es → HasPrefix e "." = true → HasPrefix (Join es "/") "." = true ∨ Contains (Join es "/") "/." = true.
Proof.
  intros Hin He. apply list_elem_of_split in Hin as (a & b & ->).
  assert (HasPrefix (Join (e :: b) "/") "." = true) as Hb.
  { destruct b as [|x b]; [done|]. by apply prefix_dot_app. }
  destruct a as [|x a]; [by left|right]. rewrite Join_app by done.
  apply Contains_app. unfold HasPrefix in Hb. apply prefix_inv in Hb. rewrite Hb.
  change ("/" +:+ "." +:+ str_drop (String.length ".") (Join (e :: b) "/"))
    with ("/." +:+ str_drop (String.length ".") (Join (e :: b) "/")). apply prefix_app.
Qed.

Lemma safe_name name content :
  unsafe_file name content = false → ∃ es, file_elements es ∧ name = Join es "/".
Proof.
  unfold unsafe_file. intros H. go_bool. assert (IsAbs name = false) as Habs by done.
  assert (elements_ok : Forall plain (resolve false (elements name))) by apply resolve_plain, elements_plain.
  assert (name = render false (resolve false (elements name))) as Hname.
  { transitivity (Clean name); [done|]. unfold Clean. by rewrite Habs. }
  set (es := resolve false (elements name)) in *. destruct (decide (es = [])) as [Hes|Hes].
  { by rewrite Hes in Hname. }
  assert (name = Join es "/") as Hj by (rewrite Hname; by destruct es).
  assert (Forall (λ e, hidden e = false) es) as Hh.
  { apply list.Forall_forall. intros e Hin. apply not_true_iff_false. intros Hdot.
    destruct (dotted_element es e Hin Hdot) as [Hx|Hx]; rewrite <-Hj in Hx; congruence. }
  exists es. split; [|done]. split; [|done]. split; [done|].
  rewrite list.Forall_forall in *. intros e Hin. split; [by apply elements_ok|]. intros ->. by specialize (Hh ".." Hin).
Qed.

(** ** What [Decode] promises *)

(** A bundle and the contents decoded from it, for one provider. *)
Record pinned (provider : string) (v : Version) (c : Contents) : Prop := {
  pn_ids : packageIDPattern (v_BindingID v) = true ∧ packageIDPattern (v_PackageID v) = true ∧
           packageIDPattern (v_VersionID v) = true;
  pn_payload : slen (v_Payload v) <= 65536 ∧ sha256_hex (v_Payload v) = v_Digest v;
  pn_contents : decode_contents (v_Payload v) = Some c;
  pn_provider : provider ∈ c_Providers c;
  pn_size : (1 ≤ size (c_Files c) ≤ 32)%nat;
  pn_skill : ∃ text, c_Files c !! "SKILL.md" = Some text ∧ TrimSpace text ≠ "";
  pn_files : ∀ name content, c_Files c !! name = Some content →
    slen name <= 180 ∧ ValidString content = true ∧ ∃ es, file_elements es ∧ name = Join es "/";
}.

Lemma identity_ok_spec seen v :
  identity_ok seen v = true →
  packageIDPattern (v_BindingID v) = true ∧ packageIDPattern (v_PackageID v) = true ∧
  packageIDPattern (v_VersionID v) = true ∧ v_PackageID v ∉ seen ∧ slen (v_Payload v) <= 65536 ∧
  sha256_hex (v_Payload v) = v_Digest v.
Proof. unfold identity_ok. intros H. go_bool. done. Qed.

Lemma compatible_spec provider c :
  compatible provider c = true →
  provider ∈ c_Providers c ∧ (1 ≤ size (c_Files c) ≤ 32)%nat ∧
  ∃ text, c_Files c !! "SKILL.md" = Some text ∧ TrimSpace text ≠ "".
Proof.
  unfold compatible. intros H. go_bool. split_and!; [done|lia..|].
  destruct (c_Files c !! "SKILL.md") as [text|] eqn:Ht; [by exists text|done].
Qed.

Lemma safe_files_spec c name content :
  safe_files c = true → c_Files c !! name = Some content →
  slen name <= 180 ∧ ValidString content = true ∧ ∃ es, file_elements es ∧ name = Join es "/".
Proof.
  unfold safe_files. rewrite forallb_forall. intros Hall Hl.
  apply elem_of_map_to_list, list_elem_of_In, Hall in Hl. simpl in Hl. apply negb_true_iff in Hl.
  pose proof (safe_name _ _ Hl). unfold unsafe_file in Hl. go_bool. done.
Qed.

Lemma decode_bundles_spec provider seen vs cs :
  decode_bundles provider seen vs = Ok cs →
  Forall2 (pinned provider) vs cs ∧ NoDup (map v_PackageID vs) ∧ (∀ v, v ∈ vs → v_PackageID v ∉ seen).
Proof.
  revert seen cs. induction vs as [|v vs IH]; intros seen cs; cbn [decode_bundles].
  { intros [= <-]. split_and!; [done|constructor|]. intros v Hv. by apply not_elem_of_nil in Hv. }
  unfold guard_err, of_option. destruct (identity_ok seen v) eqn:Hid; [|done].
  destruct (decode_contents (v_Payload v)) as [c|] eqn:Hc; [|done]. cbn [mbind result_bind].
  destruct (compatible provider c) eqn:Hcomp; [|done]. cbn [mbind result_bind].
  destruct (safe_files c) eqn:Hsafe; [|done]. cbn [mbind result_bind].
  destruct (decode_bundles provider _ vs) as [rest|] eqn:Hrest; [|done]. intros [= <-].
  destruct (IH _ _ Hrest) as (HF & HN & Hseen).
  destruct (identity_ok_spec _ _ Hid) as (H1 & H2 & H3 & H4 & H5 & H6).
  destruct (compatible_spec _ _ Hcomp) as (H7 & H8 & H9). split_and!.
  - constructor; [|done]. constructor; try done. intros name content. by apply safe_files_spec.
  - simpl. apply list.NoDup_cons. split; [|done]. intros Hin. apply list_elem_of_fmap in Hin as (w & Hw & Hin).
    apply (Hseen w Hin). rewrite <-Hw. set_solver.
  - intros w [->|Hw]%elem_of_cons; [done|]. specialize (Hseen w Hw). set_solver.
Qed.

Lemma Decode_spec value provider snapshot bundles :
  Decode value provider = Ok (snapshot, bundles) →
  (length (s_Bundles snapshot) ≤ 5)%nat ∧ NoDup (map v_PackageID (s_Bundles snapshot)) ∧
  Forall2 (pinned provider) (s_Bundles snapshot) bundles.
Proof.
  unfold Decode. intros H. ok_inv H. simplify_eq.
  assert (Z.of_nat (length (s_Bundles snapshot)) <= 5) as Hlen.
  { revert Hstep2. unfold guard_err. by destruct (Z.leb_spec (Z.of_nat (length (s_Bundles snapshot))) 5). }
  destruct (decode_bundles_spec _ _ _ _ Hstep3) as (HF & HN & _). split_and!; [lia|done..].
Qed.

(** ** The digest of a selection *)

Lemma selection_text_perm s1 s2 :
  NoDup (map v_PackageID (s_Bundles s1)) → s_Bundles s1 ≡ₚ s_Bundles s2 → selection_text s1 = selection_text s2.
Proof.
  intros HN Hp. unfold selection_text. do 3 f_equal.
  apply (Sorted_unique_strong package_le).
  - intros x y Hx Hy Hxy Hyx. rewrite merge_sort_Permutation in Hx, Hy. rewrite <-Hp in Hy.
    assert (v_PackageID x = v_PackageID y) as Heq by (by apply (anti_symm String.le)).
    apply list_elem_of_lookup in Hx as [i Hx], Hy as [j Hy].
    assert (i = j) as ->; [|by simplify_eq].
    eapply (NoDup_lookup _ i j _ HN); rewrite list_lookup_fmap; [by rewrite Hx|]. by rewrite Hy, Heq.
  - apply (Sorted_merge_sort package_le).
  - apply (Sorted_merge_sort package_le).
  - by rewrite !merge_sort_Permutation.
Qed.

(** C22: what is loaded is what the assignment pinned: an accepted snapshot has at
    most five bundles of distinct packages, and each is the decoding of a payload of at
    most 64 KiB whose SHA-256 is the digest the assignment names, for this provider,
    with 1 to 32 files and a non-blank SKILL.md, every file's name a relative path that
    only descends and has no hidden element; two bundles with the same digest have the
    same contents, unless their payloads are different with one digest; and the text a selection's digest
    is taken of does not depend on the order of the bundles. *)
Theorem decoded_packages_pinned value provider snapshot bundles :
  Decode value provider = Ok (snapshot, bundles) →
  (length (s_Bundles snapshot) ≤ 5)%nat ∧ NoDup (map v_PackageID (s_Bundles snapshot)) ∧
  Forall2 (pinned provider) (s_Bundles snapshot) bundles ∧
  (∀ v c v' c' provider', v ∈ s_Bundles snapshot → pinned provider v c → pinned provider' v' c' →
    v_Digest v = v_Digest v' → c = c' ∨ sha256_collides (v_Payload v) (v_Payload v')) ∧
  ∀ snapshot', s_Bundles snapshot ≡ₚ s_Bundles snapshot' → selection_text snapshot = selection_text snapshot'.
Proof.
  intros (Hlen & HN & HF)%Decode_spec.
  split_and!; [done..| |intros snapshot'; by apply selection_text_perm]. intros v c v' c' provider' _ Hv Hv' Hd.
  destruct (pn_payload _ _ _ Hv) as [_ Hs], (pn_payload _ _ _ Hv') as [_ Hs'].
  rewrite <-Hs, <-Hs' in Hd. apply sha256_hex_inj in Hd as [Hp|?]; [left|by right].
  pose proof (pn_contents _ _ _ Hv) as Hc. rewrite Hp, (pn_contents _ _ _ Hv') in Hc. by simplify_eq.
Qed.

(** ** The lookup of commands *)

Lemma check_commands_None ce i workspace path allow names :
  check_commands ce i workspace path allow names = None ↔
  ∀ k name, names !! k = Some name →
    ce_ctx ce (i + k)%nat = None ∧ packageCommandPattern name = true ∧ command_found ce workspace path allow name = true.
Proof.
  revert i. induction names as [|name names IH]; intros i; cbn [check_commands]; [done|]. split.
  - intros H k n Hk. destruct (ce_ctx ce i) eqn:Hc; [done|]. destruct (packageCommandPattern name) eqn:Hp; [|done].
    cbn [negb] in H. destruct (command_found _ _ _ _ name) eqn:Hf; [|done].
    destruct k as [|k]; simplify_eq/=; [by rewrite Nat.add_0_r|].
    rewrite Nat.add_succ_r. by apply (proj1 (IH (S i)) H).
  - intros H. destruct (H 0%nat name eq_refl) as (Hc & Hp & Hf). rewrite Nat.add_0_r in Hc. rewrite Hc, Hp, Hf. cbn [negb].
    apply IH. intros k n Hk. rewrite Nat.add_succ_l, <-Nat.add_succ_r. by apply (H (S k)).
Qed.

(** A path at or below one of the roots, by the text of the path. *)
Definition under_roots (roots : list string) (path : string) : Prop :=
  ∃ root, root ∈ roots ∧ (path = root ∨ HasPrefix path (root +:+ "/") = true).

Lemma exists_cons {A} (P : A → Prop) x l : (∃ y, y ∈ x :: l ∧ P y) ↔ P x ∨ ∃ y, y ∈ l ∧ P y.
Proof. setoid_rewrite elem_of_cons. naive_solver. Qed.

Lemma visible_roots_spec target parent base t0 p0 roots :
  visible_roots target parent base t0 p0 roots = true ↔
  (∃ root, root ∈ roots ∧ target = root ∧ JoinPath [parent; base] = target) ∨
  ((t0 = true ∨ under_roots roots target) ∧ (p0 = true ∨ under_roots roots parent)).
Proof.
  unfold under_roots. revert t0 p0. induction roots as [|root roots IH]; intros t0 p0; cbn [visible_roots].
  { rewrite andb_true_iff. set_solver. }
  destruct (bool_decide (target = root) && bool_decide (JoinPath [parent; base] = target)) eqn:Hhit.
  { go_bool. split; [intros _; left|done]. exists root. by split; [left|]. }
  rewrite IH, !orb_true_iff, !bool_decide_eq_true.
  assert (¬ (target = root ∧ JoinPath [parent; base] = target)) as Hno.
  { intros [-> Hj]. by rewrite Hj, !bool_decide_true in Hhit. }
  rewrite !exists_cons. tauto.
Qed.

(** a required command counts as available exactly when its name is well formed
    and some non-empty entry of the provider's PATH, taken relative to the workspace,
    has it as an executable regular file that the tool policy shows: under the policy
    either the file itself is a read root, or the directory it is looked up in and the
    file its links end at both lie under read roots. *)
Theorem required_commands_exact ce names environment workspace policy os_environ :
  (∀ i, ce_ctx ce i = None) →
  run_check ce os_environ (Some environment) workspace (Some policy) names = None ↔
  ∀ name, name ∈ names → packageCommandPattern name = true ∧
    ∃ entry, entry ∈ SplitList (default "" (environment_values environment !! "PATH")) ∧ entry ≠ "" ∧
      let candidate := JoinPath [if IsAbs entry then entry else JoinPath [workspace; entry]; name] in
      ce_executable ce candidate = true ∧
      ∃ target parent, ce_EvalSymlinks ce candidate = Some target ∧ ce_EvalSymlinks ce (Dir candidate) = Some parent ∧
        ((target ∈ tp_commandReadRoots policy ∧ JoinPath [parent; Base candidate] = target) ∨
         (under_roots (tp_commandReadRoots policy) target ∧ under_roots (tp_commandReadRoots policy) parent)).
Proof.
  intros Hctx. unfold run_check, CheckCommands. rewrite check_commands_None. cbn [default].
  assert (∀ name, command_found ce workspace (default "" (environment_values environment !! "PATH"))
    (Some (commandVisible ce policy)) name = true ↔ ∃ entry,
      entry ∈ SplitList (default "" (environment_values environment !! "PATH")) ∧ entry ≠ "" ∧
      let candidate := JoinPath [if IsAbs entry then entry else JoinPath [workspace; entry]; name] in
      ce_executable ce candidate = true ∧
      ∃ target parent, ce_EvalSymlinks ce candidate = Some target ∧ ce_EvalSymlinks ce (Dir candidate) = Some parent ∧
        ((target ∈ tp_commandReadRoots policy ∧ JoinPath [parent; Base candidate] = target) ∨
         (under_roots (tp_commandReadRoots policy) target ∧ under_roots (tp_commandReadRoots policy) parent)))
    as Hfound.
  { intros name. unfold command_found, candidates. rewrite existsb_exists. split.
    - intros (c & Hc & [Hx Hv]%andb_true_iff). apply list_elem_of_In, list_elem_of_fmap in Hc as (entry & -> & He).
      apply elem_of_filter_bool in He as [Hne He]. go_bool. exists entry. do 2 (split; [done|]). split; [done|].
      revert Hv. unfold commandVisible. destruct (ce_EvalSymlinks _ _) as [target|]; [|done].
      destruct (ce_EvalSymlinks _ _) as [parent|]; [|done]. intros Hv%visible_roots_spec. exists target, parent.
      do 2 (split; [done|]). destruct Hv as [(root & Hr & -> & Hj)|[[?|?] [?|?]]]; auto; done.
    - intros (entry & He & Hne & Hx & target & parent & Ht & Hpar & Hv). eexists. split.
      + apply list_elem_of_In, list_elem_of_fmap. exists entry. split; [done|]. apply elem_of_filter_bool.
        by rewrite bool_decide_false.
      + rewrite Hx. cbn [andb]. unfold commandVisible. rewrite Ht, Hpar. apply visible_roots_spec.
        destruct Hv as [[? ?]|[? ?]]; [left; by exists target|right; auto]. }
  split.
  - intros H name Hin. apply list_elem_of_lookup in Hin as [k Hk]. destruct (H k name Hk) as (_ & Hp & Hf).
    split; [done|]. by apply Hfound.
  - intros H k name Hk. destruct (H name) as [Hp Hf]; [by eapply list_elem_of_lookup_2|].
    split_and!; [done..|]. by apply Hfound.
Qed.

(** ** A snapshot of one package *)
Module SkillExample.
Definition uuid (d : string) : string := "00000000-0000-4000-8000-00000000000" +:+ d.

Definition payload : string :=
  marshal (JObj [("name", JStr "review"); ("required_commands", JArr [JStr "git"]); ("providers", JArr [JStr "codex"]);
    ("files", JObj [("SKILL.md", JStr "Review the change."); ("refs/style.md", JStr "Be brief.")])]).

Definition digest : string := Eval vm_compute in sha256_hex payload.

Definition version : Version :=
  {| v_BindingID := uuid "1"; v_PackageID := uuid "2"; v_VersionID := uuid "3"; v_Version := "1.0";
     v_Digest := digest; v_Payload := payload |}.

Definition value : json := JObj [("bundles", JArr [version_json version]); ("schema_version", JNum "1")].

Definition contents : Contents :=
  {| c_RequiredCommands := ["git"]; c_Name := "review"; c_Description := "";
     c_Files := <["SKILL.md" := "Review the change."]> (<["refs/style.md" := "Be brief."]> ∅);
     c_CapabilityIDs := []; c_Providers := ["codex"] |}.

Definition snapshot : Snapshot := {| s_Schema := 1; s_Bundles := [version] |}.

Lemma decoded : Decode value "codex" = Ok (snapshot, [contents]).
Proof. vm_compute. reflexivity. Qed.

Example decode_other_provider : Decode value "claude" = Err errIncompatible.
Proof. vm_compute. reflexivity. Qed.

Lemma decoded_packages_pinned_witness :
  (length (s_Bundles snapshot) ≤ 5)%nat ∧ NoDup (map v_PackageID (s_Bundles snapshot)) ∧
  Forall2 (pinned "codex") (s_Bundles snapshot) [contents] ∧
  (∀ v c v' c' provider', v ∈ s_Bundles snapshot → pinned "codex" v c → pinned provider' v' c' →
    v_Digest v = v_Digest v' → c = c' ∨ sha256_collides (v_Payload v) (v_Payload v')) ∧
  ∀ snapshot', s_Bundles snapshot ≡ₚ s_Bundles snapshot' → selection_text snapshot = selection_text snapshot'.
Proof. apply (decoded_packages_pinned value "codex" snapshot [contents]). exact decoded. Defined.

Example unsafe_names :
  map (λ name, unsafe_file name "") ["a/b.md"; "/etc/x"; "../x"; "a/../b"; "a/.git"; "a//b"; "a/"; ".x"; ""; "."; "a b"] =
  [false; true; true; true; true; true; true; true; true; true; true].
Proof. vm_compute. reflexivity. Qed.

(** A tool policy that shows /usr/bin; git is a link into /usr/lib/git. *)
Definition ce : command_env :=
  {| ce_executable := λ p, bool_decide (p = "/usr/bin/git"); ce_ctx := λ _, None;
     ce_EvalSymlinks := λ p, if bool_decide (p = "/usr/bin/git") then Some "/usr/lib/git" else Some p |}.
Definition policy (roots : list string) : nativeToolPolicy :=
  {| tp_codex := []; tp_codexFilesystem := ∅; tp_claude := ""; tp_commandReadRoots := roots |}.
Definition environment : list string := ["PATH=bin"; "PATH=:/usr/bin:/bin"].

Example git_hidden :
  run_check ce [] (Some environment) "/w" (Some (policy ["/usr/bin"])) ["git"] =
  Some (ENew "required command is unavailable in the Provider environment: git").
Proof. vm_compute. reflexivity. Qed.

Lemma required_commands_exact_witness :
  run_check ce [] (Some environment) "/w" (Some (policy ["/usr"])) ["git"] = None ∧
  ∀ name, name ∈ ["git"] → packageCommandPattern name = true.
Proof.
  assert (run_check ce [] (Some environment) "/w" (Some (policy ["/usr"])) ["git"] = None) as Hok by (vm_compute; reflexivity).
  split; [exact Hok|]. intros name Hin.
  exact (proj1 (proj1 (required_commands_exact ce ["git"] environment "/w" (policy ["/usr"]) [] (λ i, eq_refl)) Hok name Hin)).
Defined.
End SkillExample.
