(* ===== verification/SkillCache.v ===== *)
(** * Skill packages: the cache of verified files

    skillpackages/packages.go ([materialize], [Load]), recovery.go, git.go and
    shared_unix.go as programs over the calls they make to the operating system, to
    git and to the run's callbacks.  Every call is one atomic step, so several
    loaders at work in one cache are interleavings of such programs; each call may
    fail. *)

From S2P Require Import Prelude GoStrings Sha256 Json Paths PrivateFiles SessionStore SkillDecode.
From stdpp Require Import options.

Open Scope Z_scope.

(** ** Calls *)

(** The two [os.Root]s: of the workspace, for git's exclude file, and of the
    cache directory.  Names are relative to their root. *)
Inductive side := Work | Cache.

Definition ErrNotExist : go_error := ESentinel "os.ErrNotExist" "file does not exist".
Definition ErrExist : go_error := ESentinel "os.ErrExist" "file already exists".

(** [FileMode] bits: [i_perm] of an inode holds the permission bits and this one. *)
Definition ModeSetgid : Z := 2 ^ 22.
Definition Perm (mode : Z) : Z := Z.land mode (octal 7 7 7).

(** [os.Lstat] of a host path, with the owner and group of its [Stat_t]. *)
Record host_stat := { hs_kind : kind; hs_mode : Z; hs_uid : Z; hs_gid : Z }.

Inductive call : Type → Type :=
  (** methods of an [os.Root] *)
  | Lstat (r : side) (p : string) : call (result inode)
  | ReadFile (r : side) (p : string) : call (result string)
  | Mkdir (r : side) (p : string) (perm : Z) : call (option go_error)
  | MkdirAll (r : side) (p : string) (perm : Z) : call (option go_error)
  | Chmod (r : side) (p : string) (mode : Z) : call (option go_error)
  (** [OpenFile] with [O_WRONLY|O_CREATE|O_EXCL], and with [O_CREATE|O_WRONLY|O_APPEND] *)
  | OpenExcl (r : side) (p : string) (perm : Z) : call (option go_error)
  | OpenAppend (r : side) (p : string) (perm : Z) : call (option go_error)
  | Link (r : side) (p q : string) : call (option go_error)
  | Remove (r : side) (p : string) : call (option go_error)
  (** methods of the file opened at a name *)
  | FChmod (r : side) (p : string) (mode : Z) : call (option go_error)
  | FWrite (r : side) (p text : string) : call (option go_error)
  | FAppend (r : side) (p text : string) : call (option go_error)
  | FClose (r : side) (p : string) : call (option go_error)
  (** [root.Open(".")] and [ReadDir(n)]: names and kinds *)
  | OpenDir (r : side) : call (option go_error)
  | ReadDir (r : side) (n : nat) : call (list (string * kind) * option go_error)
  (** the host *)
  | Getwd : call (result string)
  | Abs (p : string) : call (result string)
  | EvalSymlinks (p : string) : call (result string)
  | HostLstat (p : string) : call (result host_stat)
  | OpenRoot (p : string) : call (option go_error)
  | Geteuid : call Z
  | Environ : call (list string)
  | Git (argv env : list string) : call (result string)
  (** 16 bytes of crypto/rand *)
  | Random : call string
  | CtxErr : call (option go_error)
  (** the request's callbacks *)
  | RunCheck (names : list string) : call (option go_error)
  | Emit (event : string) (payload : json) : call (option go_error).

(** What the system, git and the callbacks answer to one call.  A [fault] is an
    error other than "exists" and "does not exist"; a write that fails may leave some
    bytes.  [o_link] is what reading or creating through a symbolic link gives. *)
Record oracle := {
  o_fault : option (string * nat);
  o_umask : Z;
  o_link : result string;
  o_path : result string;
  o_stat : result host_stat;
  o_euid : Z;
  o_environ : list string;
  o_git : result string;
  o_random : string;
  o_answer : option go_error;
}.

Record world := { w_cache : filesystem; w_work : filesystem; w_events : list (string * json) }.

Definition tree (r : side) (w : world) : filesystem := match r with Work => w_work w | Cache => w_cache w end.
Definition set_tree (r : side) (t : filesystem) (w : world) : world :=
  match r with
  | Work => {| w_cache := w_cache w; w_work := t; w_events := w_events w |}
  | Cache => {| w_cache := t; w_work := w_work w; w_events := w_events w |}
  end.

Definition errNotDirectory : go_error := ENew "not a directory".

(** The directories above a name: each must be there and be a directory.  (The
    sources look at every directory of a name before they use the name.) *)
Definition ancestors (p : string) : list string :=
  map (λ n, Join (take n (Split p "/")) "/") (seq 1 (length (Split p "/") - 1)).

Fixpoint walk (t : filesystem) (dirs : list string) : option go_error :=
  match dirs with
  | [] => None
  | d :: dirs' =>
      match t !! d with
      | None => Some ErrNotExist
      | Some i => if bool_decide (i_kind i = KDirectory) then walk t dirs' else Some errNotDirectory
      end
  end.

(** The error of a call on a name, if the fault or the way to the name makes it fail. *)
Definition obstacle (o : oracle) (t : filesystem) (p : string) : option go_error :=
  match o_fault o with
  | Some (m, _) => Some (ENew m)
  | None => walk t (ancestors p)
  end.

Definition new_inode (o : oracle) (k : kind) (perm : Z) : inode :=
  {| i_kind := k; i_perm := Z.ldiff perm (o_umask o); i_owned := true; i_content := "" |}.
Definition with_mode (mode : Z) (i : inode) : inode :=
  {| i_kind := i_kind i; i_perm := mode; i_owned := i_owned i; i_content := i_content i |}.
Definition with_content (text : string) (i : inode) : inode :=
  {| i_kind := i_kind i; i_perm := i_perm i; i_owned := i_owned i; i_content := text |}.

(** [MkdirAll]: every missing directory on the way is made. *)
Fixpoint make_all (o : oracle) (perm : Z) (t : filesystem) (dirs : list string) : option go_error * filesystem :=
  match dirs with
  | [] => (None, t)
  | d :: dirs' =>
      match t !! d with
      | None => make_all o perm (<[d := new_inode o KDirectory perm]> t) dirs'
      | Some i =>
          match i_kind i with
          | KDirectory => make_all o perm t dirs'
          | KSymlink => (match o_link o with Ok _ => None | Err e => Some e end, t)
          | _ => (Some errNotDirectory, t)
          end
      end
  end.

Section Calls.
(** The order of directory entries is the system's. *)
Context {RO : RangeOrder string inode}.

(** The entries directly below the root. *)
Definition children (t : filesystem) : list (string * kind) :=
  map (λ kv, (kv.1, i_kind kv.2)) (List.filter (λ kv, match Split kv.1 "/" with [_] => true | _ => false end) (go_range t)).

Definition has_child (t : filesystem) (p : string) : bool :=
  existsb (λ kv, HasPrefix kv.1 (p +:+ "/")) (map_to_list t).

Definition fault_error (o : oracle) : option go_error := match o_fault o with Some (m, _) => Some (ENew m) | None => None end.

(** The effect of a call on one tree. *)
Definition create (o : oracle) (k : kind) (perm : Z) (p : string) (t : filesystem) : option go_error * filesystem :=
  match obstacle o t p with
  | Some e => (Some e, t)
  | None =>
      match t !! p with
      | Some _ => (Some ErrExist, t)
      | None => (None, <[p := new_inode o k perm]> t)
      end
  end.

Definition change_mode (o : oracle) (mode : Z) (p : string) (t : filesystem) : option go_error * filesystem :=
  match obstacle o t p with
  | Some e => (Some e, t)
  | None =>
      match t !! p with
      | Some i => (None, <[p := with_mode mode i]> t)
      | None => (Some ErrNotExist, t)
      end
  end.

Definition link (o : oracle) (p q : string) (t : filesystem) : option go_error * filesystem :=
  match obstacle o t p, obstacle o t q with
  | Some e, _ | None, Some e => (Some e, t)
  | None, None =>
      match t !! p, t !! q with
      | None, _ => (Some ErrNotExist, t)
      | Some _, Some _ => (Some ErrExist, t)
      | Some i, None => (None, <[q := i]> t)
      end
  end.

Definition remove (o : oracle) (p : string) (t : filesystem) : option go_error * filesystem :=
  match obstacle o t p with
  | Some e => (Some e, t)
  | None =>
      match t !! p with
      | None => (Some ErrNotExist, t)
      | Some i =>
          if bool_decide (i_kind i = KDirectory) && has_child t p then (Some (ENew "directory not empty"), t)
          else (None, delete p t)
      end
  end.

(** A write through an open file: to the inode while it has its name. *)
Definition write (o : oracle) (p text : string) (append : bool) (t : filesystem) : option go_error * filesystem :=
  let put part := alter (λ i, with_content (if append then i_content i +:+ part else part) i) p t in
  match o_fault o with
  | Some (m, n) => (Some (ENew m), put (str_take n text))
  | None => (None, put text)
  end.

Definition open_append (o : oracle) (p : string) (perm : Z) (t : filesystem) : option go_error * filesystem :=
  match obstacle o t p with
  | Some e => (Some e, t)
  | None =>
      match t !! p with
      | None => (None, <[p := new_inode o KRegular perm]> t)
      | Some i =>
          match i_kind i with
          | KRegular => (None, t)
          | KSymlink => (match o_link o with Ok _ => None | Err e => Some e end, t)
          | _ => (Some (ENew "is a directory"), t)
          end
      end
  end.

Definition lstat (o : oracle) (p : string) (t : filesystem) : result inode :=
  match obstacle o t p with
  | Some e => Err e
  | None => match t !! p with Some i => Ok i | None => Err ErrNotExist end
  end.

Definition read_file (o : oracle) (p : string) (t : filesystem) : result string :=
  match obstacle o t p with
  | Some e => Err e
  | None =>
      match t !! p with
      | None => Err ErrNotExist
      | Some i =>
          match i_kind i with
          | KRegular => Ok (i_content i)
          | KSymlink => o_link o
          | _ => Err (ENew "is a directory")
          end
      end
  end.

(** [ReadDir(n)] with n > 0: at the end of the directory no entry and [io.EOF]. *)
Definition read_dir (o : oracle) (n : nat) (t : filesystem) : list (string * kind) * option go_error :=
  let entries := take n (children t) in
  match o_fault o with
  | Some (m, k) => (take k entries, Some (ENew m))
  | None => (entries, match entries with [] => Some io_EOF | _ => None end)
  end.

(** [rand.Read] fills an array of 16 bytes. *)
Definition sixteen (bytes : string) : string := str_take 16 (bytes +:+ "................").

Definition on {A} (r : side) (f : filesystem → A * filesystem) (w : world) : A * world :=
  let '(a, t) := f (tree r w) in (a, set_tree r t w).

(** One call. *)
Definition exec {R} (o : oracle) (c : call R) (w : world) : R * world :=
  match c with
  | Lstat r p => (lstat o p (tree r w), w)
  | ReadFile r p => (read_file o p (tree r w), w)
  | Mkdir r p perm => on r (create o KDirectory perm p) w
  | MkdirAll r p perm =>
      on r (λ t, match fault_error o with
                 | Some e => (Some e, t)
                 | None => if bool_decide (p = ".") then (None, t) else make_all o perm t (ancestors p ++ [p])
                 end) w
  | Chmod r p mode => on r (change_mode o mode p) w
  | OpenExcl r p perm => on r (create o KRegular perm p) w
  | OpenAppend r p perm => on r (open_append o p perm) w
  | Link r p q => on r (link o p q) w
  | Remove r p => on r (remove o p) w
  | FChmod r p mode =>
      on r (λ t, match fault_error o with Some e => (Some e, t) | None => (None, alter (with_mode mode) p t) end) w
  | FWrite r p text => on r (write o p text false) w
  | FAppend r p text => on r (write o p text true) w
  | FClose r p => (fault_error o, w)
  | OpenDir r => (fault_error o, w)
  | ReadDir r n => (read_dir o n (tree r w), w)
  | Getwd | Abs _ | EvalSymlinks _ => (o_path o, w)
  | HostLstat _ => (o_stat o, w)
  | OpenRoot _ => (o_answer o, w)
  | Geteuid => (o_euid o, w)
  | Environ => (o_environ o, w)
  | Git _ _ => (o_git o, w)
  | Random => (sixteen (o_random o), w)
  | CtxErr => (o_answer o, w)
  | RunCheck _ => (o_answer o, w)
  | Emit event payload =>
      (o_answer o,
       match o_answer o with
       | Some _ => w
       | None => {| w_cache := w_cache w; w_work := w_work w; w_events := w_events w ++ [(event, payload)] |}
       end)
  end.
End Calls.

(** ** Programs *)

(** A sequence of calls, each chosen from the answers before it. *)
Inductive prog (A : Type) : Type :=
  | Ret (a : A)
  | Call {R : Type} (c : call R) (k : R → prog A).
Global Arguments Ret {_} _.
Global Arguments Call {_ _} _ _.

#[export] Instance prog_ret : MRet prog := @Ret.
#[export] Instance prog_bind : MBind prog := λ A B f,
  fix bind (p : prog A) : prog B :=
    match p with
    | Ret a => f a
    | Call c k => Call c (λ r, bind (k r))
    end.

Definition perform {R} (c : call R) : prog R := Call c Ret.

(** [if err := m; err != nil { return err }] before [k]. *)
Definition and_then (m k : prog (option go_error)) : prog (option go_error) :=
  m ≫= λ e, match e with Some e => Ret (Some e) | None => k end.

(** The same before code that returns a value. *)
Definition or_fail {A B} (m : prog (result A)) (k : A → prog (result B)) : prog (result B) :=
  m ≫= λ r, match r with Ok a => k a | Err e => Ret (Err e) end.

Declare Scope prog_scope.
Notation "m ?; k" := (and_then m k) (at level 100, right associativity) : prog_scope.
Open Scope prog_scope.

Definition is_error (e : option go_error) (target : go_error) : bool :=
  match e with Some e => errors_Is e target | None => false end.

(** *** Directories *)

Definition errRealDirectory : go_error := ENew "package directory must be a real directory".

(** One round of the loop of [packageDirectories]. *)
Definition package_directory (mode : Z) (current : string) : prog (option go_error) :=
  made ← perform (Mkdir Cache current (Perm mode));
  if bool_decide (made ≠ None) && negb (is_error made ErrExist) then Ret made
  else
    info ← perform (Lstat Cache current);
    match info with
    | Ok i => if bool_decide (i_kind i = KDirectory) then perform (Chmod Cache current mode) else Ret (Some errRealDirectory)
    | Err _ => Ret (Some errRealDirectory)
    end.

Fixpoint package_directories (mode : Z) (current : string) (parts : list string) : prog (option go_error) :=
  match parts with
  | [] => Ret None
  | part :: parts' =>
      package_directory mode (JoinPath [current; part]) ?;
      package_directories mode (JoinPath [current; part]) parts'
  end.

Definition packageDirectories (directory : string) (mode : Z) : prog (option go_error) :=
  package_directories mode "" (Split directory "/").

(** *** Files *)

Definition errNotRegularEntry : go_error := ENew "package cache entry is not a regular file".
Definition errContentMismatch : go_error := ENew "package cache content does not match its pinned version".

Definition existingMatches (shared : bool) (fileMode : Z) (target content : string) : prog (option go_error) :=
  info ← perform (Lstat Cache target);
  match info with
  | Ok i =>
      if is_regular i && (negb shared || (Perm (i_perm i) =? fileMode)) then
        found ← perform (ReadFile Cache target);
        match found with
        | Ok text => Ret (if bool_decide (text = content) then None else Some errContentMismatch)
        | Err _ => Ret (Some errContentMismatch)
        end
      else Ret (Some errNotRegularEntry)
  | Err _ => Ret (Some errNotRegularEntry)
  end.

(** [randomPackageSuffix] *)
Definition randomPackageSuffix : prog string := value ← perform Random; Ret (hex_encode value).

(** [if writeErr == nil { writeErr = ... }] *)
Definition keep_first (e : option go_error) (m : prog (option go_error)) : prog (option go_error) :=
  match e with Some _ => Ret e | None => m end.

(** A file that is not in the cache: written under a temporary name, then linked. *)
Definition install (shared : bool) (fileMode : Z) (target content : string) : prog (option go_error) :=
  suffix ← randomPackageSuffix;
  let temporary := target +:+ ".pending-" +:+ suffix in
  perform (OpenExcl Cache temporary fileMode) ?;
  chmodErr ← perform (FChmod Cache temporary fileMode);
  writeErr ← keep_first chmodErr (perform (FWrite Cache temporary content));
  closeErr ← perform (FClose Cache temporary);
  let writeErr := match writeErr with Some e => Some e | None => closeErr end in
  writeErr ← keep_first writeErr (perform (Link Cache temporary target));
  _ ← perform (Remove Cache temporary);
  if is_error writeErr ErrExist then existingMatches shared fileMode target content else Ret writeErr.

Definition package_file (shared : bool) (dirMode fileMode : Z) (directory name content : string) : prog (option go_error) :=
  let target := JoinPath [directory; name] in
  packageDirectories (Dir target) dirMode ?;
  info ← perform (Lstat Cache target);
  match info with
  | Ok _ => existingMatches shared fileMode target content
  | Err e => if errors_Is e ErrNotExist then install shared fileMode target content else Ret (Some e)
  end.

Fixpoint package_files (shared : bool) (dirMode fileMode : Z) (directory : string) (files : list (string * string))
    : prog (option go_error) :=
  match files with
  | [] => Ret None
  | (name, content) :: rest =>
      package_file shared dirMode fileMode directory name content ?;
      package_files shared dirMode fileMode directory rest
  end.

(** The names of a package, sorted, and its files in that order. *)
Definition sorted_names (files : gmap string string) : list string := sort_strings (map_to_list files).*1.
Definition sorted_files (files : gmap string string) : list (string * string) :=
  map (λ name, (name, default "" (files !! name))) (sorted_names files).

Definition materialize (directory : string) (files : gmap string string) (shared : bool) : prog (option go_error) :=
  let dirMode := if shared then Z.lor ModeSetgid (octal 7 5 0) else octal 7 0 0 in
  let fileMode := if shared then octal 4 4 0 else octal 4 0 0 in
  packageDirectories directory dirMode ?;
  package_files shared dirMode fileMode directory (sorted_files files).

(** *** Recovery (recovery.go) *)

(** The first entry that is, or can be completed to, a verified copy. *)
Fixpoint find_copy (prefix : string) (files : gmap string string) (entries : list (string * kind)) : prog (option string) :=
  match entries with
  | [] => Ret None
  | (name, k) :: entries' =>
      if negb (bool_decide (k = KDirectory)) || negb (HasPrefix name prefix) ||
         negb (bool_decide (slen name = slen prefix + 32))
      then find_copy prefix files entries'
      else
        failed ← materialize name files false;
        match failed with
        | None => Ret (Some name)
        | Some _ => find_copy prefix files entries'
        end
  end.

(** The directory and the error: the code returns both. *)
Definition recoverPrivatePackage (agentID digest : string) (files : gmap string string) : prog (string * option go_error) :=
  let prefix := agentID +:+ "-" +:+ digest +:+ "-recovered-" in
  opened ← perform (OpenDir Cache);
  match opened with
  | Some e => Ret ("", Some e)
  | None =>
      listing ← perform (ReadDir Cache 1024);
      let '(entries, readErr) := listing in
      if bool_decide (readErr ≠ None) && negb (is_error readErr io_EOF) then Ret ("", readErr)
      else
        copy ← find_copy prefix files entries;
        match copy with
        | Some name => Ret (name, None)
        | None =>
            suffix ← randomPackageSuffix;
            let name := prefix +:+ suffix in
            made ← perform (Mkdir Cache name (octal 7 0 0));
            match made with
            | Some e => Ret ("", Some e)
            | None => failed ← materialize name files false; Ret (name, failed)
            end
        end
  end.

Definition gitignore : string := ".gitignore".
Definition ignore_contents : string :=
  "# OpenLinker generated cache; never add package contents" +:+ newline +:+ "*" +:+ newline.
Definition is_ignore (r : result string) : bool := match r with Ok data => bool_decide (data = ignore_contents) | Err _ => false end.

(** [err != nil && !errors.Is(err, os.ErrNotExist)] as the error to return. *)
Definition unless_missing (e : option go_error) : option go_error := if is_error e ErrNotExist then None else e.

(** The deferred [root.Remove(temporary)] runs after [body]. *)
Definition with_removed (temporary : string) (body : prog (option go_error)) : prog (option go_error) :=
  e ← body; _ ← perform (Remove Cache temporary); Ret e.

Definition replace_marker (temporary : string) : prog (option go_error) :=
  writeErr ← perform (FWrite Cache temporary ignore_contents);
  closeErr ← perform (FClose Cache temporary);
  Ret (errors_Join [writeErr; closeErr]) ?;
  info ← perform (Lstat Cache gitignore);
  match info with
  | Ok i =>
      (if negb (is_regular i) && negb (bool_decide (i_kind i = KSymlink))
       then Ret (Some (ENew "cache ignore marker must be a file")) else Ret None) ?;
      (if is_regular i then e ← perform (Chmod Cache gitignore (octal 6 0 0)); Ret (unless_missing e) else Ret None) ?;
      (e ← perform (Remove Cache gitignore); Ret (unless_missing e))
  | Err e => Ret (unless_missing (Some e))
  end ?;
  linked ← perform (Link Cache temporary (Clean gitignore));
  match linked with
  | None => Ret None
  | Some e => found ← perform (ReadFile Cache gitignore); Ret (if is_ignore found then None else Some e)
  end.

Definition writeCacheIgnore : prog (option go_error) :=
  found ← perform (ReadFile Cache gitignore);
  if is_ignore found then Ret None
  else
    suffix ← randomPackageSuffix;
    let temporary := ".gitignore-" +:+ suffix in
    perform (OpenExcl Cache temporary (octal 6 0 0)) ?;
    with_removed temporary (replace_marker temporary).

(** *** A shared cache (shared_unix.go) *)

Definition errSharedCache : go_error :=
  ENew "shared skill cache requires host ownership, the configured group and mode 02750".

Definition CheckSharedCache (directory : string) (groupID : Z) : prog (option go_error) :=
  info ← perform (HostLstat directory);
  match info with
  | Err e => Ret (Some e)
  | Ok st =>
      euid ← perform Geteuid;
      if negb (bool_decide (hs_kind st = KDirectory)) || negb (Perm (hs_mode st) =? octal 7 5 0) ||
         (Z.land (hs_mode st) ModeSetgid =? 0) || negb (hs_uid st =? euid) || (groupID <=? 0) || negb (hs_gid st =? groupID)
      then Ret (Some errSharedCache)
      else
        resolved ← perform (EvalSymlinks directory);
        if negb (match resolved with Ok r => bool_decide (r = Clean directory) | Err _ => false end)
        then Ret (Some (ENew "shared skill cache must not have symlink ancestors"))
        else
          perform (OpenRoot directory) ?;
          suffix ← randomPackageSuffix;
          let name := ".write-probe-" +:+ suffix in
          perform (OpenExcl Cache name (octal 6 0 0)) ?;
          writeErr ← perform (FWrite Cache name "probe");
          closeErr ← perform (FClose Cache name);
          removeErr ← perform (Remove Cache name);
          Ret (errors_Join [writeErr; closeErr; removeErr])
  end.

(** *** Git's exclude file (git.go) *)

Definition workspaceRelative (workspace name : string) : option string :=
  match Rel workspace name with
  | Some rel =>
      if negb (bool_decide (rel = ".")) && negb (bool_decide (rel = "..")) && negb (HasPrefix rel "../") && negb (IsAbs rel)
      then Some rel else None
  | None => None
  end.

(** [strings.ToUpper] as far as a test for an ASCII prefix sees it: beyond ASCII
    only U+0131 and U+017F have an ASCII upper case. *)
Definition upper_rune (r : Z) : Z :=
  if (97 <=? r) && (r <=? 122) then r - 32 else if r =? 0x131 then 0x49 else if r =? 0x17F then 0x53 else r.
Definition is_git_variable (entry : string) : bool := HasPrefix (string_of_runes (map upper_rune (runes entry))) "GIT_".

Definition git_environment (environ : list string) : list string :=
  List.filter (λ entry, negb (is_git_variable entry)) environ ++
  ["GIT_CONFIG_NOSYSTEM=1"; "GIT_CONFIG_GLOBAL=/dev/null"; "GIT_OPTIONAL_LOCKS=0"].

Definition git (workspace gitdir : string) (environ args : list string) : prog (result string) :=
  perform (Git (["git"; "-c"; "core.fsmonitor=false"; "-C"; workspace; "--git-dir=" +:+ gitdir; "--work-tree=" +:+ workspace]
                ++ args) (git_environment environ)).

Definition rule : string := ".openlinker-skills/".
Definition rule_text : string := newline +:+ "# OpenLinker generated skill package cache" +:+ newline +:+ rule +:+ newline.
Definition has_rule (previous : string) : bool :=
  Contains (newline +:+ previous +:+ newline) (newline +:+ rule +:+ newline).

(** From [work.MkdirAll] to the append: the rule is in the exclude file. *)
Definition ensure_rule (relative : string) : prog (option go_error) :=
  perform (MkdirAll Work (Dir relative) (octal 7 0 0)) ?;
  info ← perform (Lstat Work relative);
  match info with
  | Ok i => if is_regular i then Ret None else Ret (Some (ENew "Git exclude must be a regular file"))
  | Err e => Ret (unless_missing (Some e))
  end ?;
  previous ← perform (ReadFile Work relative);
  match previous with
  | Err e => Ret (unless_missing (Some e))
  | Ok _ => Ret None
  end ?;
  if has_rule (match previous with Ok text => text | Err _ => "" end) then Ret None
  else
    perform (OpenAppend Work relative (octal 6 0 0)) ?;
    writeErr ← perform (FAppend Work relative rule_text);
    closeErr ← perform (FClose Work relative);
    Ret (errors_Join [writeErr; closeErr]).

(** From the first git command on. *)
Definition exclude_cache (workspace gitdir : string) : prog (option go_error) :=
  environ ← perform Environ;
  excluded ← git workspace gitdir environ ["rev-parse"; "--git-path"; "info/exclude"];
  match excluded with
  | Err e => Ret (Some e)
  | Ok text =>
      let name := TrimSpace text in
      if bool_decide (name = "") then Ret (Some (ENew "missing Git exclude path"))
      else
        match workspaceRelative workspace (if IsAbs name then name else JoinPath [workspace; name]) with
        | None => Ret None
        | Some relative =>
            tracked ← git workspace gitdir environ ["ls-files"; "--"; ".openlinker-skills"];
            match tracked with
            | Err e => Ret (Some e)
            | Ok files =>
                if 0 <? slen files then
                  Ret (Some (ENew "skill cache contains tracked files; remove them from version control before loading packages"))
                else
                  ensure_rule relative ?;
                  ignored ← git workspace gitdir environ ["check-ignore"; "--quiet"; ".openlinker-skills/probe"];
                  match ignored with
                  | Err e => Ret (Some (EWrap "skill cache is not excluded by Git: " e ""))
                  | Ok _ => Ret None
                  end
            end
        end
  end.

(** The directory [.git] stands for; [Ok None] where the code has nothing to do. *)
Definition find_gitdir (workspace : string) : prog (result (option string)) :=
  info ← perform (Lstat Work ".git");
  match info with
  | Err e => Ret (if errors_Is e ErrNotExist then Ok None else Err e)
  | Ok i =>
      match i_kind i with
      | KRegular =>
          if 4096 <? slen (i_content i) then Ret (Ok None)
          else
            raw ← perform (ReadFile Work ".git");
            match raw with
            | Err e => Ret (Err e)
            | Ok text =>
                let '(target, ok) := CutPrefix (TrimSpace text) "gitdir: " in
                Ret (Ok (if ok then Some (if IsAbs target then target else JoinPath [workspace; target]) else None))
            end
      | KDirectory => Ret (Ok (Some (JoinPath [workspace; ".git"])))
      | _ => Ret (Ok None)
      end
  end.

Definition protectSkillPackageCache (workspace : string) : prog (option go_error) :=
  absolute ← perform (Abs workspace);
  match absolute with
  | Err e => Ret (Some e)
  | Ok workspace =>
      real ← perform (EvalSymlinks workspace);
      match real with
      | Err e => Ret (Some e)
      | Ok workspace =>
          perform (OpenRoot workspace) ?;
          found ← find_gitdir workspace;
          match found with
          | Err e => Ret (Some e)
          | Ok None => Ret None
          | Ok (Some gitdir) =>
              resolved ← perform (EvalSymlinks gitdir);
              match resolved with
              | Err _ => Ret None
              | Ok gitdir =>
                  match workspaceRelative workspace gitdir with
                  | None => Ret None
                  | Some _ => exclude_cache workspace gitdir
                  end
              end
          end
      end
  end.

(** ** [Load] *)

(** [Cache] of packages.go *)
Record CacheConfig := { cf_Directory : string; cf_GroupID : Z }.

(** [rq_Emit] and [rq_CheckCommands] tell whether the callback is set. *)
Record Request := {
  rq_Snapshot : option json; rq_AgentID : string; rq_Trusted : bool; rq_Emit : bool; rq_CheckCommands : bool;
}.
Record Result := { rs_Digest : string; rs_Packages : list Package }.
Definition no_result : Result := {| rs_Digest := ""; rs_Packages := [] |}.

Definition receipt (snapshot : Snapshot) : json :=
  JArr (map (λ v, go_obj [("binding_id", JStr (v_BindingID v)); ("version_id", JStr (v_VersionID v));
                          ("digest", JStr (v_Digest v))]) (s_Bundles snapshot)).

Definition failed_event : string := "run.skill_packages.failed".
Definition loaded_event : string := "run.skill_packages.loaded".

(** The closure [fail] of [Load]. *)
Definition fail {A} (bindings : json) (cause : go_error) (code : string) : prog (result A) :=
  reported ← perform (Emit failed_event (go_obj [("bindings", bindings); ("error_code", JStr code)]));
  match reported with Some e => Ret (Err e) | None => Ret (Err cause) end.

(** [if err := m; err != nil { return fail(err, code) }] *)
Definition or_report {A B} (bindings : json) (code : string) (m : prog (result A)) (k : A → prog (result B)) : prog (result B) :=
  m ≫= λ r, match r with Ok a => k a | Err e => fail bindings e code end.
Definition as_result (m : prog (option go_error)) : prog (result unit) :=
  m ≫= λ e, Ret (match e with Some e => Err e | None => Ok tt end).

Definition errInvalidCommand : go_error := ENew "invalid required command".
Definition errNoChecker : go_error := ENew "Provider command availability checker is unavailable".
Definition errNoDirectory : go_error := ENew "shared cache requires an explicit directory".
Definition errCacheDirectory : go_error := ENew "skill package cache must be a real directory".

(** The loop that collects the required commands, without repetition. *)
Fixpoint collect_commands (acc : list string) (names : list string) : option (list string) :=
  match names with
  | [] => Some acc
  | name :: names' =>
      if packageCommandPattern name
      then collect_commands (if bool_decide (name ∈ acc) then acc else acc ++ [name]) names'
      else None
  end.

Definition check_required (hasChecker : bool) (commands : list string) : prog (result unit) :=
  match commands with
  | [] => Ret (Ok tt)
  | _ => if hasChecker then as_result (perform (RunCheck commands)) else Ret (Err errNoChecker)
  end.

(** The cache's directory: the configured one, or one made in the workspace. *)
Definition private_directory (workspace : string) : prog (result string) :=
  or_fail (if bool_decide (workspace = "") then perform Getwd else Ret (Ok workspace)) (λ workspace,
  or_fail (as_result (protectSkillPackageCache workspace)) (λ _,
  or_fail (as_result (perform (OpenRoot workspace))) (λ _,
  or_fail (as_result (perform (MkdirAll Work ".openlinker-skills" (octal 7 0 0)))) (λ _,
  Ret (Ok (JoinPath [workspace; ".openlinker-skills"])))))).

Definition open_cache (cache : CacheConfig) (workspace : string) : prog (result string) :=
  or_fail (if negb (bool_decide (cf_Directory cache = "")) then Ret (Ok (cf_Directory cache))
           else if negb (cf_GroupID cache =? 0) then Ret (Err errNoDirectory)
           else private_directory workspace) (λ directory,
  or_fail (perform (Abs directory)) (λ directory,
  info ← perform (HostLstat directory);
  if negb (match info with Ok st => bool_decide (hs_kind st = KDirectory) | Err _ => false end)
  then Ret (Err errCacheDirectory)
  else
    or_fail (as_result (if cf_GroupID cache =? 0 then Ret None else CheckSharedCache directory (cf_GroupID cache))) (λ _,
    or_fail (as_result (perform (OpenRoot directory))) (λ _,
    or_fail (as_result (if bool_decide (cf_Directory cache = "") then writeCacheIgnore else Ret None)) (λ _,
    Ret (Ok directory)))))).

(** What the loop over the bundles gathers: the packages and the recovered ones. *)
Record progress := { pr_packages : list Package; pr_recovered : gmap string string }.

(** One bundle in place: its directory below the root, and whether it is a recovery copy. *)
Definition place (agentID : string) (shared : bool) (v : Version) (c : Contents) : prog (result (string * bool)) :=
  let relative := JoinPath [agentID; v_Digest v] in
  failed ← materialize relative (c_Files c) shared;
  match failed with
  | None => Ret (Ok (relative, false))
  | Some e =>
      if shared then Ret (Err (EWrap "could not materialize pinned skill package: " e ""))
      else
        copy ← recoverPrivatePackage agentID (v_Digest v) (c_Files c);
        match copy with
        | (name, None) => Ret (Ok (name, true))
        | (_, Some e) => Ret (Err (EWrap "could not materialize pinned skill package: " e ""))
        end
  end.

Definition package_of (directory relative : string) (c : Contents) : Package :=
  {| p_Name := c_Name c; p_Instructions := default "" (c_Files c !! "SKILL.md");
     p_Directory := JoinPath [directory; relative]; p_Files := sorted_names (c_Files c) |}.

Fixpoint place_all (bindings : json) (agentID directory : string) (shared : bool) (bundles : list (Version * Contents))
    (acc : progress) : prog (result progress) :=
  match bundles with
  | [] => Ret (Ok acc)
  | (v, c) :: rest =>
      canceled ← perform CtxErr;
      match canceled with
      | Some e => Ret (Err e)
      | None =>
          or_report bindings "package_materialization_failed" (place agentID shared v c) (λ '(relative, copied),
          place_all bindings agentID directory shared rest
            {| pr_packages := pr_packages acc ++ [package_of directory relative c];
               pr_recovered := if copied : bool then <[v_PackageID v := relative]> (pr_recovered acc)
                               else pr_recovered acc |})
      end
  end.

(** The digest of the selection, and of the places of its recovered packages. *)
Definition result_digest (snapshot : Snapshot) (recovered : gmap string string) : string :=
  let raw := selection_text snapshot in
  if bool_decide (recovered = ∅) then sha256_hex raw
  else sha256_hex (raw +:+ marshal (go_obj (map (λ kv, (kv.1, JStr kv.2)) (map_to_list recovered)))).

Definition Load (req : Request) (provider workspace : string) (cache : CacheConfig) : prog (result Result) :=
  match rq_Snapshot req with
  | None => Ret (Ok no_result)
  | Some value =>
      match Decode value provider with
      | Err e => Ret (Err e)
      | Ok (snapshot, []) => Ret (Ok no_result)
      | Ok (snapshot, bundles) =>
          if negb (rq_Trusted req) || negb (packageIDPattern (rq_AgentID req))
          then Ret (Err (ENew "skill package execution requires trusted Runtime authority"))
          else if negb (rq_Emit req) then Ret (Err (ENew "skill package loading requires a durable event channel"))
          else
            let bindings := receipt snapshot in
            match collect_commands [] (concat (map c_RequiredCommands bundles)) with
            | None => fail bindings errInvalidCommand "package_invalid"
            | Some commands =>
                or_report bindings "dependency_missing" (check_required (rq_CheckCommands req) commands) (λ _,
                or_report bindings "package_materialization_failed" (open_cache cache workspace) (λ directory,
                or_fail (place_all bindings (rq_AgentID req) directory (negb (cf_GroupID cache =? 0))
                           (zip (s_Bundles snapshot) bundles) {| pr_packages := []; pr_recovered := ∅ |}) (λ placed,
                reported ← perform (Emit loaded_event (go_obj [("bindings", bindings)]));
                match reported with
                | Some e => Ret (Err e)
                | None => Ret (Ok {| rs_Digest := result_digest snapshot (pr_recovered placed);
                                     rs_Packages := pr_packages placed |})
                end)))
            end
      end
  end.

(** ** The adapter's use of it (skill_packages.go) *)

(** The fields of the adapters' [RunContext] that concern packages. *)
Record PackageRun := {
  pr_run : RunContext;
  pr_PackageSnapshot : option json;
  pr_Emit : bool;
  pr_SkillPackagesDigest : string;
  pr_LoadedSkillPackages : list Package;
}.

(** [loadSkillPackages]; [SkillDecode.run_check] is the checker behind [RunCheck]. *)
Definition loadSkillPackages (run : PackageRun) (provider workspace : string) : prog (result PackageRun) :=
  or_fail (Load {| rq_Snapshot := pr_PackageSnapshot run; rq_AgentID := rx_AgentID (pr_run run);
                   rq_Trusted := bool_decide (is_Some (rx_Authority (pr_run run))); rq_Emit := pr_Emit run;
                   rq_CheckCommands := true |} provider workspace {| cf_Directory := ""; cf_GroupID := 0 |}) (λ loaded,
  Ret (Ok {| pr_run := pr_run run; pr_PackageSnapshot := pr_PackageSnapshot run; pr_Emit := pr_Emit run;
             pr_SkillPackagesDigest := rs_Digest loaded; pr_LoadedSkillPackages := rs_Packages loaded |})).

Definition skillPackageSessionMode (run : PackageRun) : string := SessionMode (pr_SkillPackagesDigest run).
Definition skillPackageInstructions (run : PackageRun) : string :=
  Instructions (pr_LoadedSkillPackages run) (rx_SkillPackagesAlreadyLoaded (pr_run run)).

(** ** Running *)
Section Run.
Context {RO : RangeOrder string inode}.

(** One program alone: the i-th call gets the i-th answer. *)
Fixpoint run {A} (answers : nat → oracle) (i : nat) (p : prog A) (w : world) : A * world :=
  match p with
  | Ret a => (a, w)
  | Call c k => let '(r, w') := exec (answers i) c w in run answers (S i) (k r) w'
  end.

(** Several programs on one world: any of them makes its next call. *)
Inductive pstep {A} : list (prog A) * world → list (prog A) * world → Prop :=
  | pstep_call i R (c : call R) k o r ps w w' :
      ps !! i = Some (Call c k) → exec o c w = (r, w') → pstep (ps, w) (<[i := k r]> ps, w').
End Run.
