(* ===== verification/SkillLogic.v ===== *)
(** * Skill packages: a logic for concurrent loaders

    [good p own Q t]: the program [p] (SkillCache), started in the cache [t] with the
    temporary files [own], makes only the calls a loader is allowed, whatever other
    loaders do in between, and ends as [Q] says.  The rules for single calls come
    first, then [at_], the form in which whole programs are specified. *)

From S2P Require Import Prelude GoStrings Sha256 Json Paths PrivateFiles SessionStore ProviderConfig SkillDecode SkillCache.
From stdpp Require Import options.

Open Scope Z_scope.
Open Scope prog_scope.

(** ** Names of temporary files *)

(** The last 41 bytes of a name are ".pending-" and a random suffix. *)
Definition pending_name (e : string) : bool :=
  (41 <=? slen e) && bool_decide (str_take 9 (str_drop (String.length e - 41) e) = ".pending-").
Definition temp_element (e : string) : bool :=
  pending_name e || HasPrefix e ".gitignore-" || HasPrefix e ".write-probe-".
Definition scratch (x : string) : bool := existsb temp_element (Split x "/").

(** An element of a package's path. *)
Definition ok_element (e : string) : Prop := plain e ∧ hidden e = false ∧ pending_name e = false.
Definition ok_path (es : list string) : Prop := es ≠ [] ∧ Forall ok_element es.

Lemma ok_down es : ok_path es → down es.
Proof.
  intros [Hne He]. split; [done|]. eapply list.Forall_impl; [exact He|]. intros e (Hp & Hh & _). split; [done|].
  intros ->. done.
Qed.

Lemma ok_app a b : ok_path a → Forall ok_element b → ok_path (a ++ b).
Proof. intros [Hne Ha] Hb. split; [by destruct a|]. by apply Forall_app. Qed.

Lemma not_hidden_prefix e p : hidden e = false → HasPrefix p "." = true → HasPrefix e p = false.
Proof.
  unfold hidden. intros He Hp. apply not_true_iff_false. intros Hx. unfold HasPrefix in *.
  apply prefix_inv in Hx. apply prefix_inv in Hp. rewrite Hx, Hp, <-str_app_assoc, prefix_app in He. done.
Qed.

Lemma ok_element_temp e : ok_element e → temp_element e = false.
Proof.
  intros (_ & Hh & Hp). unfold temp_element. by rewrite Hp, !not_hidden_prefix.
Qed.

Lemma ok_scratch es : ok_path es → scratch (Join es "/") = false.
Proof.
  intros Hok. pose proof (down_plain es (ok_down es Hok)) as Hp. destruct Hok as [Hne He]. unfold scratch.
  rewrite Split_Join by done. apply not_true_iff_false. intros (e & Hin & Ht)%existsb_exists.
  rewrite list.Forall_forall in He. apply list_elem_of_In, He, ok_element_temp in Hin. congruence.
Qed.

Lemma ok_not_ignore es : ok_path es → Join es "/" ≠ gitignore.
Proof.
  intros Hok Heq. pose proof (down_plain es (ok_down es Hok)) as Hp. destruct Hok as [Hne He].
  pose proof (Split_Join es Hne Hp) as Hs. rewrite Heq in Hs. change (Split gitignore "/") with [".gitignore"] in Hs.
  subst es. apply list.Forall_cons in He as [(_ & Hh & _) _]. done.
Qed.

(** ** Interference *)

(** What may become of an inode: a directory may get other modes. *)
Definition same (i i' : inode) : Prop := i_kind i' = i_kind i ∧ (i_kind i ≠ KDirectory → i' = i).

Lemma same_refl i : same i i.
Proof. done. Qed.
Lemma same_trans i j k : same i j → same j k → same i k.
Proof. intros [H1 H2] [H3 H4]. split; [congruence|]. intros H. rewrite H4 by congruence. auto. Qed.

Definition keeps (P : string → Prop) (t t' : filesystem) : Prop :=
  ∀ x i, P x → t !! x = Some i → ∃ i', t' !! x = Some i' ∧ same i i'.

Lemma keeps_refl P t : keeps P t t.
Proof. intros x i _ Hx. by exists i. Qed.
Lemma keeps_trans P t1 t2 t3 : keeps P t1 t2 → keeps P t2 t3 → keeps P t1 t3.
Proof.
  intros H1 H2 x i HP Hx. destruct (H1 x i HP Hx) as (j & Hj & Hs). destruct (H2 x j HP Hj) as (k & Hk & Hs').
  exists k. split; [done|]. by eapply same_trans.
Qed.
Lemma keeps_impl (P P' : string → Prop) t t' : (∀ x, P' x → P x) → keeps P t t' → keeps P' t t'.
Proof. intros HP H x i Hx. apply H. auto. Qed.

(** What a loader that owns the temporary files [own] can rely on, and what it
    guarantees to the others. *)
Definition stable (own : gset string) (x : string) : Prop := x ≠ gitignore ∧ (x ∈ own ∨ scratch x = false).
Definition rely (own : gset string) : filesystem → filesystem → Prop := keeps (stable own).
Definition foreign (own : gset string) (x : string) : Prop := x ≠ gitignore ∧ x ∉ own.
Definition guarantee (own : gset string) : filesystem → filesystem → Prop := keeps (foreign own).

Lemma rely_weaken own own' t t' : own' ⊆ own → rely own t t' → rely own' t t'.
Proof. intros Hsub. apply keeps_impl. intros x [Hx Hs]. split; [done|]. set_solver. Qed.

(** The temporary files of a loader: not there before it made them. *)
Definition own_ok (own : gset string) (t : filesystem) : Prop :=
  ∀ x, x ∈ own → is_Some (t !! x) ∧ scratch x = true ∧ x ≠ gitignore.

Lemma guarantee_rely own t t' : own_ok own t → guarantee own t t' → rely ∅ t t'.
Proof.
  intros Hown. apply keeps_impl. intros x [Hne [Hin|Hs]]; [set_solver|]. split; [done|].
  intros Hin. destruct (Hown x Hin) as (_ & Hx & _). congruence.
Qed.

Section Logic.
Context {RO : RangeOrder string inode}.

Definition own_after {R} (own : gset string) (c : call R) : R → gset string :=
  match c in call R' return R' → gset string with
  | OpenExcl Cache p _ => λ r, match r with None => {[p]} ∪ own | Some _ => own end
  | Remove Cache p => λ r, match r with None => own ∖ {[p]} | Some _ => own end
  | _ => λ _, own
  end.

(** The calls a loader is allowed in a tree. *)
Definition permitted {R} (own : gset string) (c : call R) (t : filesystem) : Prop :=
  match c with
  | Chmod Cache p _ => p = gitignore ∨ ∀ i, t !! p = Some i → i_kind i = KDirectory
  | OpenExcl Cache p _ => scratch p = true ∧ p ≠ gitignore
  | FChmod Cache p _ | FWrite Cache p _ => p ∈ own
  | Remove Cache p => p ∈ own ∨ p = gitignore
  | MkdirAll Cache _ _ | OpenAppend Cache _ _ | FAppend Cache _ _ => False
  | _ => True
  end.

Fixpoint good {A} (p : prog A) (own : gset string) (Q : A → gset string → filesystem → Prop) (t : filesystem) : Prop :=
  ∀ t1, rely own t t1 →
  match p with
  | Ret a => Q a own t1
  | Call c k =>
      permitted own c t1 ∧
      ∀ o w r w', w_cache w = t1 → exec o c w = (r, w') → good (k r) (own_after own c r) Q (w_cache w')
  end.

Lemma good_mono {A} (p : prog A) own Q t t' : rely own t t' → good p own Q t → good p own Q t'.
Proof. destruct p; intros Hr Hg t1 Ht1; apply Hg; by eapply keeps_trans. Qed.

Lemma good_conseq {A} (p : prog A) own (Q Q' : A → gset string → filesystem → Prop) t :
  (∀ a own t, Q a own t → Q' a own t) → good p own Q t → good p own Q' t.
Proof.
  intros HQ. revert own t. induction p as [a|R c k IH]; intros own t Hg t1 Ht1; [auto|].
  destruct (Hg t1 Ht1) as [Hp Hk]. split; [done|]. intros o w r w' Hw He. eapply IH, Hk; eauto.
Qed.

Lemma good_bind {A B} (m : prog A) (k : A → prog B) own Q t :
  good m own (λ a own' t', good (k a) own' Q t') t → good (m ≫= k) own Q t.
Proof.
  revert own t. induction m as [a|R c j IH]; intros own t Hg.
  - apply (Hg t). apply keeps_refl.
  - intros t1 Ht1. destruct (Hg t1 Ht1) as [Hp Hk]. split; [done|]. intros o w r w' Hw He.
    apply IH. by eapply Hk.
Qed.
End Logic.

(** ** One call keeps to the guarantee *)

Lemma keeps_insert P p i t : (P p → ∀ j, t !! p = Some j → same j i) → keeps P t (<[p := i]> t).
Proof.
  intros H x j HP Hx. destruct (decide (x = p)) as [->|Hne].
  - exists i. split; [by rewrite lookup_insert_eq|]. auto.
  - exists j. split; [by rewrite lookup_insert_ne|apply same_refl].
Qed.
Lemma keeps_delete P p t : ¬ P p → keeps P t (delete p t).
Proof. intros H x j HP Hx. exists j. split; [|apply same_refl]. rewrite lookup_delete_ne; [done|]. by intros ->. Qed.
Lemma keeps_alter P p f t : (P p → ∀ j, t !! p = Some j → same j (f j)) → keeps P t (alter f p t).
Proof.
  intros H x j HP Hx. destruct (decide (x = p)) as [->|Hne].
  - exists (f j). split; [by rewrite lookup_alter_eq, Hx|]. auto.
  - exists j. split; [by rewrite lookup_alter_ne|apply same_refl].
Qed.

Lemma keeps_present P own t t' : keeps P t t' → (∀ x, x ∈ own → P x) → own_ok own t → own_ok own t'.
Proof.
  intros Hk HP Hown x Hx. destruct (Hown x Hx) as ([i Hi] & Hs & Hne). split_and!; [|done..].
  destruct (Hk x i (HP x Hx) Hi) as (i' & Hi' & _). by exists i'.
Qed.

(** A step of the tree: what it keeps, what it leaves of the owned names. *)
Definition fair (own own' : gset string) (t t' : filesystem) : Prop :=
  guarantee own t t' ∧ (own_ok own t → own_ok own' t') ∧ ∀ x, x ∈ own' → x ∈ own ∨ t !! x = None.

Lemma fair_refl own t : fair own own t t.
Proof. split_and!; [apply keeps_refl|done|auto]. Qed.

Lemma fair_all own t t' : keeps (λ _, True) t t' → fair own own t t'.
Proof.
  intros Hk. split_and!; [by eapply keeps_impl; [|exact Hk]| |auto]. by apply (keeps_present (λ _, True)).
Qed.

Lemma fair_alter own p f t : p ∈ own → fair own own t (alter f p t).
Proof.
  intros Hp. split_and!; [|intros Hown x Hx|auto].
  - apply keeps_alter. by intros [_ []].
  - destruct (Hown x Hx) as (Hi & Hs & Hne). split_and!; [|done..].
    destruct (decide (x = p)) as [->|]; [rewrite lookup_alter_eq|by rewrite lookup_alter_ne].
    by apply fmap_is_Some.
Qed.

Lemma fair_create own o k perm p t r t' : create o k perm p t = (r, t') → fair own own t t'.
Proof.
  unfold create. intros H. repeat case_match; simplify_eq; try apply fair_refl.
  apply fair_all, keeps_insert. congruence.
Qed.

Lemma fair_open own o perm p t r t' :
  create o KRegular perm p t = (r, t') → scratch p = true → p ≠ gitignore →
  fair own (match r with None => {[p]} ∪ own | Some _ => own end) t t'.
Proof.
  unfold create. intros H Hs Hne. repeat case_match; simplify_eq; try apply fair_refl.
  split_and!.
  - apply keeps_insert. congruence.
  - intros Hown x [->%elem_of_singleton|Hx]%elem_of_union.
    + rewrite lookup_insert_eq. by split_and!.
    + destruct (Hown x Hx) as (Hi & ? & ?). split_and!; [|done..].
      destruct (decide (x = p)) as [->|]; [by rewrite lookup_insert_eq|by rewrite lookup_insert_ne].
  - intros x [->%elem_of_singleton|Hx]%elem_of_union; auto.
Qed.

Lemma fair_chmod own o mode p t r t' :
  change_mode o mode p t = (r, t') → p = gitignore ∨ (∀ i, t !! p = Some i → i_kind i = KDirectory) → fair own own t t'.
Proof.
  unfold change_mode. intros H Hp. repeat case_match; simplify_eq; try apply fair_refl.
  split_and!; [|intros Hown x Hx|auto].
  - apply keeps_insert. intros [Hne _] j Hj. destruct Hp as [|Hd]; [done|]. simplify_eq. split; [done|].
    intros Hk. by destruct Hk; apply Hd.
  - destruct (Hown x Hx) as (Hi & Hs & Hne). split_and!; [|done..].
    destruct (decide (x = p)) as [->|]; [by rewrite lookup_insert_eq|by rewrite lookup_insert_ne].
Qed.

Lemma fair_link own o p q t r t' : link o p q t = (r, t') → fair own own t t'.
Proof.
  unfold link. intros H. repeat case_match; simplify_eq; try apply fair_refl.
  apply fair_all, keeps_insert. congruence.
Qed.

Lemma fair_remove own o p t r t' :
  remove o p t = (r, t') → p ∈ own ∨ p = gitignore →
  fair own (match r with None => own ∖ {[p]} | Some _ => own end) t t'.
Proof.
  unfold remove. intros H Hp. repeat case_match; simplify_eq; try apply fair_refl.
  split_and!.
  - apply keeps_delete. intros [Hne Hno]. by destruct Hp.
  - intros Hown x [Hx Hxp]%elem_of_difference. destruct (Hown x Hx) as (Hi & ? & ?). split_and!; [|done..].
    rewrite lookup_delete_ne; [done|]. intros ->. by apply Hxp, elem_of_singleton.
  - set_solver.
Qed.

Section Step.
Context {RO : RangeOrder string inode}.

Lemma exec_fair {R} own (c : call R) o w r w' :
  permitted own c (w_cache w) → exec o c w = (r, w') → fair own (own_after own c r) (w_cache w) (w_cache w').
Proof.
  intros Hp He. destruct c as [s p|s p|s p perm|s p perm|s p mode|s p perm|s p perm|s p q|s p|s p mode|s p text|s p text
    |s p|s|s n| |p|p|p|p| | |argv env| | |names|ev pl]; try destruct s; cbn in Hp, He; try (by simplify_eq; apply fair_refl);
    unfold on in He; cbn [tree] in He; try (case_match; simplify_eq; apply fair_refl).
  - destruct (create _ _ _ _ _) eqn:Hc. simplify_eq. by eapply fair_create.
  - done.
  - destruct (change_mode _ _ _ _) eqn:Hc. simplify_eq. by eapply fair_chmod.
  - destruct (create _ _ _ _ _) eqn:Hc. simplify_eq. destruct Hp. by eapply fair_open.
  - done.
  - destruct (link _ _ _ _) eqn:Hc. simplify_eq. by eapply fair_link.
  - destruct (remove _ _ _) eqn:Hc. simplify_eq. by eapply fair_remove.
  - destruct (fault_error o); simplify_eq; [apply fair_refl|by apply fair_alter].
  - unfold write in He. destruct (o_fault o) as [[m n]|]; simplify_eq; by apply fair_alter.
  - done.
Qed.

(** ** Rules *)

Lemma own_after_other {R} own (c : call R) r :
  match c with OpenExcl Cache _ _ | Remove Cache _ => False | _ => True end → own_after own c r = own.
Proof. by destruct c as [| | | | |[] | | |[] | | | | | | | | | | | | | | | | | |]. Qed.

(** A call that neither looks at the cache nor changes it, as far as the proof needs. *)
Definition elsewhere {R} (c : call R) : bool :=
  match c with
  | Lstat Cache _ | ReadFile Cache _ | Mkdir Cache _ _ | MkdirAll Cache _ _ | Chmod Cache _ _ | OpenExcl Cache _ _
  | OpenAppend Cache _ _ | Link Cache _ _ | Remove Cache _ | FChmod Cache _ _ | FWrite Cache _ _ | FAppend Cache _ _
  | ReadDir Cache _ | Random => false
  | _ => true
  end.

Lemma elsewhere_exec {R} (c : call R) o w r w' : elsewhere c = true → exec o c w = (r, w') → w_cache w' = w_cache w.
Proof.
  intros Hc He. destruct c as [s p|s p|s p perm|s p perm|s p mode|s p perm|s p perm|s p q|s p|s p mode|s p text|s p text
    |s p|s|s n| |p|p|p|p| | |argv env| | |names|ev pl]; try destruct s; cbn in Hc, He; try done; unfold on in He;
    try (by simplify_eq); by repeat case_match; simplify_eq.
Qed.

Lemma elsewhere_permitted {R} (c : call R) own t : elsewhere c = true → permitted own c t ∧ ∀ r, own_after own c r = own.
Proof. by destruct c as [[]|[]|[]|[]|[]|[]|[]|[]|[]|[]|[]|[]|[]|[]|[]| | | | | | | | | | | |]. Qed.

(** Rules for one call before the rest of a program. *)
Section Calls.
Context {A : Type}.
Implicit Types (Q : A → gset string → filesystem → Prop).

Lemma good_elsewhere {R} (c : call R) k own Q t :
  elsewhere c = true → (∀ r, good (k r) own Q t) → good (Call c k) own Q t.
Proof.
  intros Hc Hk t1 Ht1. destruct (elsewhere_permitted c own t1 Hc) as [Hp Ha]. split; [done|]. intros o w r w' <- He.
  rewrite Ha, (elsewhere_exec _ _ _ _ _ Hc He). by eapply good_mono.
Qed.

Lemma good_random k own Q t : (∀ v, String.length v = 16%nat → good (k v) own Q t) → good (Call Random k) own Q t.
Proof.
  intros Hk t1 Ht1. split; [done|]. intros o w r w' <- He. cbn [exec] in He. injection He as <- <-. eapply good_mono; [done|]. apply Hk.
  unfold sixteen. rewrite str_take_length, str_length_app.
  change (String.length "................") with 16%nat. lia.
Qed.

Lemma good_open p perm k own Q t :
  scratch p = true → p ≠ gitignore →
  (∀ t1 e, rely own t t1 → good (k (Some e)) own Q t1) →
  (∀ t1 i, rely own t t1 → t1 !! p = Some i → i_kind i = KRegular → good (k None) ({[p]} ∪ own) Q t1) →
  good (Call (OpenExcl Cache p perm) k) own Q t.
Proof.
  intros Hs Hne Herr Hok t1 Ht1. split; [done|]. intros o w r w' <- He. cbn in He. unfold on in He. cbn [tree] in He.
  destruct (create _ _ _ _ _) as [r0 t2] eqn:Hc. simplify_eq. cbn [w_cache set_tree].
  unfold create in Hc. repeat case_match; simplify_eq; try (by apply Herr).
  eapply Hok; [|by rewrite lookup_insert_eq|done].
  eapply keeps_trans; [exact Ht1|]. apply keeps_insert. congruence.
Qed.

(** An owned file is still there, as it was. *)
Lemma rely_own own p i t t1 :
  p ∈ own → scratch p = true → p ≠ gitignore → i_kind i = KRegular → t !! p = Some i → rely own t t1 → t1 !! p = Some i.
Proof.
  intros Hp Hs Hne Hk Hi Hr. destruct (Hr p i) as (i' & Hi' & _ & Heq); [by split; [|left]|done|].
  rewrite Hi'. f_equal. apply Heq. by rewrite Hk.
Qed.

Lemma rely_alter own p f t t1 :
  scratch p = true → rely own t t1 → rely ∅ t (alter f p t1).
Proof.
  intros Hs Hr. eapply keeps_trans; [by eapply rely_weaken, Hr; set_solver|].
  apply keeps_alter. intros [_ [|Hx]]; [set_solver|congruence].
Qed.

Lemma good_fchmod p mode i k own Q t :
  p ∈ own → scratch p = true → p ≠ gitignore → t !! p = Some i → i_kind i = KRegular →
  (∀ t1 r i', rely ∅ t t1 → t1 !! p = Some i' → i_kind i' = KRegular → good (k r) own Q t1) →
  good (Call (FChmod Cache p mode) k) own Q t.
Proof.
  intros Hp Hs Hne Hi Hk Hg t1 Ht1. split; [done|]. intros o w r w' <- He. cbn in He. unfold on in He. cbn [tree] in He.
  pose proof (rely_own _ _ _ _ _ Hp Hs Hne Hk Hi Ht1) as Hi1.
  destruct (fault_error o); simplify_eq; cbn [w_cache set_tree].
  - eapply Hg; [by eapply rely_weaken, Ht1; set_solver|exact Hi1|done].
  - eapply Hg; [by eapply rely_alter|by rewrite lookup_alter_eq, Hi1|done].
Qed.

Lemma good_fwrite p text i k own Q t :
  p ∈ own → scratch p = true → p ≠ gitignore → t !! p = Some i → i_kind i = KRegular →
  (∀ t1 r i', rely ∅ t t1 → t1 !! p = Some i' → i_kind i' = KRegular → (r = None → i_content i' = text) →
     good (k r) own Q t1) →
  good (Call (FWrite Cache p text) k) own Q t.
Proof.
  intros Hp Hs Hne Hi Hk Hg t1 Ht1. split; [done|]. intros o w r w' <- He. cbn in He. unfold on in He. cbn [tree] in He.
  pose proof (rely_own _ _ _ _ _ Hp Hs Hne Hk Hi Ht1) as Hi1. unfold write in He.
  destruct (o_fault o) as [[m n]|]; simplify_eq; cbn [w_cache set_tree];
    (eapply Hg; [by eapply rely_alter|by rewrite lookup_alter_eq, Hi1|done|done]).
Qed.

(** Linking an owned file to a name that is free. *)
Lemma good_link p q i k own Q t :
  p ∈ own → scratch p = true → p ≠ gitignore → t !! p = Some i → i_kind i = KRegular →
  (∀ t1 r, rely own t t1 → (r = None → t1 !! q = Some i) → good (k r) own Q t1) →
  good (Call (Link Cache p q) k) own Q t.
Proof.
  intros Hp Hs Hne Hi Hk Hg t1 Ht1. split; [done|]. intros o w r w' <- He. cbn in He. unfold on in He. cbn [tree] in He.
  pose proof (rely_own _ _ _ _ _ Hp Hs Hne Hk Hi Ht1) as Hi1.
  destruct (link _ _ _ _) as [r0 t2] eqn:Hc. simplify_eq. cbn [w_cache set_tree].
  unfold link in Hc. repeat case_match; simplify_eq; try (by apply Hg).
  apply Hg; [|by rewrite lookup_insert_eq]. eapply keeps_trans; [exact Ht1|]. apply keeps_insert. congruence.
Qed.

Lemma good_remove p k own Q t :
  p ∈ own ∧ scratch p = true ∨ p = gitignore →
  (∀ t1 r own', rely ∅ t t1 → good (k r) own' Q t1) → good (Call (Remove Cache p) k) own Q t.
Proof.
  intros Hp Hg t1 Ht1. split; [destruct Hp as [[]|]; [by left|by right]|]. intros o w r w' <- He. cbn in He. unfold on in He.
  cbn [tree] in He. destruct (remove _ _ _) as [r0 t2] eqn:Hc. simplify_eq. cbn [w_cache set_tree]. apply Hg.
  eapply keeps_trans; [by eapply rely_weaken, Ht1; set_solver|].
  unfold remove in Hc. repeat case_match; simplify_eq; try apply keeps_refl.
  apply keeps_delete. intros [Hne [|Hx]]; [set_solver|]. destruct Hp as [[]|]; congruence.
Qed.

(** ** Specifications of whole programs

    [at_ t p Q]: run from the tree [t] with any temporary files, [p] ends as [Q] says,
    in a tree that keeps what [t] had. *)
Definition at_ (t : filesystem) (p : prog A) (Q : A → filesystem → Prop) : Prop :=
  ∀ own, good p own (λ a _ t', rely ∅ t t' ∧ Q a t') t.
End Calls.
End Step.

Section Specs.
Context {RO : RangeOrder string inode}.

Lemma at_ret {A} t (a : A) Q : (∀ t', rely ∅ t t' → Q a t') → at_ t (Ret a) Q.
Proof. intros HQ own t1 Ht1. assert (rely ∅ t t1) by (eapply rely_weaken, Ht1; set_solver). auto. Qed.

Lemma at_conseq {A} t (p : prog A) (Q Q' : A → filesystem → Prop) :
  at_ t p Q → (∀ a t', rely ∅ t t' → Q a t' → Q' a t') → at_ t p Q'.
Proof. intros Hp HQ own. eapply good_conseq, Hp. cbn. intros a _ t' [Hr Ha]. auto. Qed.

Lemma at_bind {A B} t (m : prog A) (k : A → prog B) Qm Q :
  at_ t m Qm → (∀ a t', rely ∅ t t' → Qm a t' → at_ t' (k a) Q) → at_ t (m ≫= k) Q.
Proof.
  intros Hm Hk own. apply good_bind. eapply good_conseq, Hm. cbn. intros a own' t' [Hr Ha].
  eapply good_conseq, Hk; [|done|done]. cbn. intros b _ t'' [Hr' Hb]. split; [by eapply keeps_trans|done].
Qed.

(** The four ways the programs are put together. *)
Lemma at_and_then t (m k : prog (option go_error)) Qm Q :
  at_ t m Qm → (∀ e t', rely ∅ t t' → Qm (Some e) t' → ∀ t'', rely ∅ t' t'' → Q (Some e) t'') →
  (∀ t', rely ∅ t t' → Qm None t' → at_ t' k Q) → at_ t (m ?; k) Q.
Proof.
  intros Hm Hs Hk. unfold and_then. eapply at_bind; [exact Hm|]. intros [e|] t' Hr HQ; [apply at_ret; eauto|eauto].
Qed.

Lemma at_or_fail {A B} t (m : prog (result A)) (k : A → prog (result B)) Qm (Q : B → filesystem → Prop) :
  at_ t m (λ r t', ∀ a, r = Ok a → Qm a t') →
  (∀ a t', rely ∅ t t' → Qm a t' → at_ t' (k a) (λ r t', ∀ b, r = Ok b → Q b t')) →
  at_ t (or_fail m k) (λ r t', ∀ b, r = Ok b → Q b t').
Proof.
  intros Hm Hk. unfold or_fail. eapply at_bind; [exact Hm|]. intros [a|e] t' Hr HQ; cbn; [eauto|]. by apply at_ret.
Qed.

Lemma at_elsewhere {R} t (c : call R) : elsewhere c = true → at_ t (perform c) (λ _ _, True).
Proof.
  intros Hc own. apply good_elsewhere; [done|]. intros r t1 Ht1. split; [|done]. eapply rely_weaken, Ht1. set_solver.
Qed.

Lemma at_random t : at_ t randomPackageSuffix (λ s _, ∃ v, s = hex_encode v ∧ String.length v = 16%nat).
Proof.
  intros own. unfold randomPackageSuffix, perform. cbn [mbind prog_bind]. apply good_random. intros v Hv t1 Ht1.
  split; [eapply rely_weaken, Ht1; set_solver|eauto].
Qed.

Lemma at_fail {A} t bindings cause code (Q : A → filesystem → Prop) : at_ t (fail bindings cause code) (λ r t', ∀ b, r = Ok b → Q b t').
Proof.
  unfold fail. eapply at_bind; [by apply at_elsewhere|]. intros [e|] t' _ _; by apply at_ret.
Qed.

Lemma at_or_report {A B} t bindings code (m : prog (result A)) (k : A → prog (result B)) Qm (Q : B → filesystem → Prop) :
  at_ t m (λ r t', ∀ a, r = Ok a → Qm a t') →
  (∀ a t', rely ∅ t t' → Qm a t' → at_ t' (k a) (λ r t', ∀ b, r = Ok b → Q b t')) →
  at_ t (or_report bindings code m k) (λ r t', ∀ b, r = Ok b → Q b t').
Proof.
  intros Hm Hk. unfold or_report. eapply at_bind; [exact Hm|]. intros [a|e] t' Hr HQ; cbn; [eauto|]. apply at_fail.
Qed.

Lemma at_as_result t (m : prog (option go_error)) (Q : filesystem → Prop) :
  at_ t m (λ r t', r = None → ∀ t'', rely ∅ t' t'' → Q t'') → at_ t (as_result m) (λ r t', ∀ b, r = Ok b → Q t').
Proof.
  intros Hm. unfold as_result. eapply at_bind; [exact Hm|]. intros [e|] t' Hr HQ; apply at_ret; [done|]. intros t'' Hr' _ _.
  by apply HQ.
Qed.

(** *** What a loader knows of a name of its package *)

Definition stable_name (x : string) : Prop := x ≠ gitignore ∧ scratch x = false.
Definition known (t : filesystem) (x : string) (i : inode) : Prop := ∃ i', t !! x = Some i' ∧ same i i'.
Definition placed (t : filesystem) (x content : string) : Prop :=
  ∃ i, t !! x = Some i ∧ i_kind i = KRegular ∧ i_content i = content.

Lemma ok_stable es : ok_path es → stable_name (Join es "/").
Proof. intros H. split; [by apply ok_not_ignore|by apply ok_scratch]. Qed.

Lemma known_keeps t t' x i : stable_name x → rely ∅ t t' → known t x i → known t' x i.
Proof.
  intros [Hne Hs] Hr (j & Hj & Hsame). destruct (Hr x j) as (i' & Hi' & Hs'); [by split; [|right]|done|].
  exists i'. split; [done|]. by eapply same_trans.
Qed.

Lemma placed_keeps t t' x content : stable_name x → rely ∅ t t' → placed t x content → placed t' x content.
Proof.
  intros [Hne Hs] Hr (i & Hi & Hk & Hc). destruct (Hr x i) as (i' & Hi' & Hk' & Heq); [by split; [|right]|done|].
  rewrite Heq in Hi' by (by rewrite Hk). by exists i.
Qed.

Lemma at_lstat t x : stable_name x → at_ t (perform (Lstat Cache x)) (λ r t', ∀ i, r = Ok i → known t' x i).
Proof.
  intros Hx own t1 Ht1. split; [done|]. intros o w r w' <- He. cbn in He. simplify_eq. intros t2 Ht2.
  assert (rely ∅ (w_cache w') t2) as Hr by (eapply rely_weaken, Ht2; set_solver).
  split; [eapply keeps_trans; [|exact Hr]; eapply rely_weaken, Ht1; set_solver|]. intros i Hi.
  eapply known_keeps; [done|exact Hr|]. exists i. split; [|apply same_refl]. unfold lstat in Hi. by repeat case_match; simplify_eq.
Qed.

Lemma at_lstat_any t x : at_ t (perform (Lstat Cache x)) (λ _ _, True).
Proof.
  intros own t1 Ht1. split; [done|]. intros o w r w' <- He. cbn in He. simplify_eq. intros t2 Ht2.
  split; [|done]. eapply keeps_trans; (eapply rely_weaken; [|done]); set_solver.
Qed.

Lemma at_read t x i :
  stable_name x → known t x i → i_kind i = KRegular →
  at_ t (perform (ReadFile Cache x)) (λ r t', ∀ text, r = Ok text → placed t' x text).
Proof.
  intros Hx Hi Hk own t1 Ht1. split; [done|]. intros o w r w' <- He. cbn in He. simplify_eq. intros t2 Ht2.
  assert (rely ∅ (w_cache w') t2) as Hr by (eapply rely_weaken, Ht2; set_solver).
  assert (rely ∅ t (w_cache w')) as Hr1 by (eapply rely_weaken, Ht1; set_solver).
  split; [by eapply keeps_trans|]. intros text Htext. eapply placed_keeps; [done|exact Hr|].
  destruct (known_keeps _ _ _ _ Hx Hr1 Hi) as (j & Hj & Hkj & _). unfold read_file in Htext. rewrite Hj, Hkj, Hk in Htext.
  case_match; simplify_eq. exists j. by rewrite Hkj.
Qed.

Lemma at_mkdir t x perm : at_ t (perform (Mkdir Cache x perm)) (λ _ _, True).
Proof.
  intros own t1 Ht1. split; [done|]. intros o w r w' <- He.
  assert (rely own (w_cache w) (w_cache w')) as Hr.
  { cbn in He. unfold on in He. cbn [tree] in He. destruct (create _ _ _ _ _) as [r0 t2] eqn:Hc. simplify_eq.
    cbn [w_cache set_tree]. unfold create in Hc. repeat case_match; simplify_eq; try apply keeps_refl.
    apply keeps_insert. congruence. }
  intros t2 Ht2. split; [|done]. eapply (rely_weaken own); [set_solver|].
  eapply keeps_trans; [exact Ht1|]. by eapply keeps_trans.
Qed.

Lemma at_chmod t x mode i :
  stable_name x → known t x i → i_kind i = KDirectory → at_ t (perform (Chmod Cache x mode)) (λ _ _, True).
Proof.
  intros Hx Hi Hk own t1 Ht1.
  assert (∃ j, t1 !! x = Some j ∧ i_kind j = KDirectory) as (j & Hj & Hkj).
  { edestruct (known_keeps t t1) as (j & Hj & Hkj & _); [done|eapply rely_weaken, Ht1; set_solver|done|].
    exists j. split; [done|congruence]. }
  split; [right; intros i' Hi'; by simplify_eq|]. intros o w r w' <- He.
  assert (rely own (w_cache w) (w_cache w')) as Hr.
  { cbn in He. unfold on in He. cbn [tree] in He. destruct (change_mode _ _ _ _) as [r0 t2] eqn:Hc. simplify_eq.
    cbn [w_cache set_tree]. unfold change_mode in Hc. repeat case_match; simplify_eq; try apply keeps_refl.
    apply keeps_insert. intros _ j' Hj'. simplify_eq. split; [done|]. intros Hd. by destruct Hd. }
  intros t2 Ht2. split; [|done]. eapply (rely_weaken own); [set_solver|].
  eapply keeps_trans; [exact Ht1|]. by eapply keeps_trans.
Qed.

(** *** Directories *)

Lemma at_package_directory t mode x : stable_name x → at_ t (package_directory mode x) (λ _ _, True).
Proof.
  intros Hx. unfold package_directory. eapply at_bind; [apply at_mkdir|]. intros made t1 _ _.
  destruct (bool_decide (made ≠ None) && _); [by apply at_ret|].
  eapply at_bind; [by apply at_lstat|]. intros [i|e] t2 _ Hi; [|by apply at_ret].
  destruct (bool_decide (i_kind i = KDirectory)) eqn:Hk; [|by apply at_ret]. go_bool. by eapply at_chmod, Hk; [|apply Hi].
Qed.

(** The name of the directory reached after some elements. *)
Definition name_of (es : list string) : string := match es with [] => "" | _ => Join es "/" end.

Lemma JoinPath_step es e : Forall ok_element (es ++ [e]) → JoinPath [name_of es; e] = Join (es ++ [e]) "/".
Proof.
  intros [Hes He]%Forall_app. assert (down [e]) as Hd by by apply (ok_down [e]).
  destruct es as [|e0 es]; [|by apply (JoinPath_down (e0 :: es) [e]); [apply ok_down|]].
  unfold JoinPath. cbn [name_of List.filter app]. rewrite (bool_decide_true ("" = "")) by done. cbn [negb].
  apply list.Forall_cons in He as [((Hne & _) & _) _]. rewrite bool_decide_false by done. cbn [negb].
  by apply (Clean_down [e]).
Qed.

Lemma at_package_directories mode done_ rest :
  Forall ok_element (done_ ++ rest) → ∀ t, at_ t (package_directories mode (name_of done_) rest) (λ _ _, True).
Proof.
  revert done_. induction rest as [|e rest IH]; intros done_ Hok t; cbn [package_directories]; [by apply at_ret|].
  assert (Forall ok_element (done_ ++ [e])) as Hok1.
  { apply Forall_app in Hok as [? Hr]. apply list.Forall_cons in Hr as [? _]. apply Forall_app; auto. }
  assert (JoinPath [name_of done_; e] = name_of (done_ ++ [e])) as ->.
  { rewrite JoinPath_step by done. unfold name_of. by destruct done_. }
  eapply at_and_then.
  - apply at_package_directory. replace (name_of (done_ ++ [e])) with (Join (done_ ++ [e]) "/") by (by destruct done_).
    apply ok_stable. split; [by destruct done_|done].
  - done.
  - intros t' _ _. apply IH. by rewrite <-(assoc_L (++)).
Qed.

Lemma at_packageDirectories t es mode : ok_path es → at_ t (packageDirectories (Join es "/") mode) (λ _ _, True).
Proof.
  intros Hok. pose proof (down_plain es (ok_down es Hok)). destruct Hok as [Hne He].
  unfold packageDirectories. rewrite Split_Join by done. by apply (at_package_directories mode []).
Qed.
End Specs.
