(* ===== verification/SkillCacheProps.v ===== *)
(** * Skill packages: concurrent loaders and reports

    The specifications of the loader's programs in the logic of SkillLogic, the
    theorem on any number of loaders in one cache, and what a load reports. *)

From S2P Require Import Prelude GoStrings Sha256 Json Paths PrivateFiles SessionStore ProviderConfig SkillDecode SkillCache SkillLogic.
From stdpp Require Import options.

Open Scope Z_scope.
Open Scope prog_scope.

(** ** Names made by the loader *)

Definition no_slash (s : string) : bool := str_forallb (λ c, negb (bool_decide (c = "/"%char))) s.

Lemma hex_suffix v : String.length v = 16%nat → slen (hex_encode v) = 32 ∧ no_slash (hex_encode v) = true.
Proof. intros Hv. unfold slen. rewrite hex_encode_length, Hv. split; [done|apply hex_no_slash]. Qed.

Lemma str_drop_app_n n a b : n = String.length a → str_drop n (a +:+ b) = b.
Proof. intros ->. apply str_drop_app. Qed.

Lemma pending_name_app e sfx : slen sfx = 32 → pending_name (e +:+ ".pending-" +:+ sfx) = true.
Proof.
  intros Hs. unfold pending_name, slen in *. rewrite !str_length_app. change (String.length ".pending-") with 9%nat.
  rewrite (str_drop_app_n _ e) by lia.
  change 9%nat with (String.length ".pending-"). rewrite str_take_app, bool_decide_true by done.
  rewrite andb_true_r. apply Z.leb_le. change (String.length ".pending-") with 9%nat. lia.
Qed.

(** The temporary name beside a target. *)
Lemma temporary_name es sfx :
  ok_path es → slen sfx = 32 → no_slash sfx = true →
  scratch (Join es "/" +:+ ".pending-" +:+ sfx) = true ∧ Join es "/" +:+ ".pending-" +:+ sfx ≠ gitignore.
Proof.
  intros Hok Hlen Hsl. split.
  - pose proof (down_plain es (ok_down es Hok)) as Hp. destruct Hok as [Hne He].
    destruct es as [|e ds _] using rev_ind; [done|].
    assert (Join (ds ++ [e]) "/" +:+ ".pending-" +:+ sfx = Join (ds ++ [e +:+ ".pending-" +:+ sfx]) "/") as ->.
    { destruct ds as [|d ds]; [done|]. rewrite !Join_app by done. cbn [Join]. by rewrite !str_app_assoc. }
    apply Forall_app in Hp as [Hd [(He1 & _ & He2) _]%list.Forall_cons].
    unfold scratch. rewrite Split_Join; [|by destruct ds|].
    + apply existsb_exists. eexists. split; [apply list_elem_of_In, elem_of_app; right; by left|].
      unfold temp_element. by rewrite pending_name_app.
    + apply Forall_app. split; [done|]. apply list.Forall_cons. split; [|done]. split_and!.
      * by destruct e.
      * destruct e as [|? [|]]; done.
      * rewrite !str_forallb_app, He2. cbn. exact Hsl.
  - intros Heq. apply (f_equal String.length) in Heq. rewrite !str_length_app in Heq. unfold slen in Hlen.
    change (String.length ".pending-") with 9%nat in Heq. change (String.length gitignore) with 10%nat in Heq. lia.
Qed.

Section FileSpecs.
Context {RO : RangeOrder string inode}.

Lemma at_existingMatches t shared mode x content :
  stable_name x → at_ t (existingMatches shared mode x content) (λ r t', r = None → placed t' x content).
Proof.
  intros Hx. unfold existingMatches. eapply at_bind; [by apply at_lstat|]. intros [i|e] t1 _ Hi; [|by apply at_ret].
  destruct (is_regular i && _) eqn:Hr; [|by apply at_ret]. apply andb_true_iff in Hr as [Hr _]. unfold is_regular in Hr. go_bool.
  eapply at_bind; [by eapply at_read, Hr; [|apply Hi]|]. intros [text|e] t2 _ Htext; [|by apply at_ret].
  apply at_ret. intros t3 Ht3. case_bool_decide as Heq; [|done]. intros _. subst text.
  eapply placed_keeps; [done|exact Ht3|]. by apply Htext.
Qed.

(** The tail of [install]: the temporary file is removed, a lost race is checked. *)
Lemma good_finish own t t0 shared mode x content tmp writeErr :
  stable_name x → tmp ∈ own → scratch tmp = true → rely ∅ t0 t → (writeErr = None → placed t x content) →
  good (_ ← perform (Remove Cache tmp);
        if is_error writeErr ErrExist then existingMatches shared mode x content else Ret writeErr) own
    (λ r _ t', rely ∅ t0 t' ∧ (r = None → placed t' x content)) t.
Proof.
  intros Hx Hin Hs Hr Hp. unfold perform. cbn [mbind prog_bind].
  apply (good_remove tmp); [by left|]. intros t1 _ own1 Ht1. destruct (is_error writeErr ErrExist) eqn:He.
  - eapply good_conseq, at_existingMatches; [|done]. cbn. intros a _ t2 [Ht2 Ha]. split; [|done].
    eapply keeps_trans; [exact Hr|]. by eapply keeps_trans.
  - intros t2 Ht2. assert (rely ∅ t1 t2) as Hr2 by (eapply rely_weaken, Ht2; set_solver). split.
    + eapply keeps_trans; [exact Hr|]. by eapply keeps_trans.
    + intros ->. eapply placed_keeps; [done|exact Hr2|]. eapply placed_keeps; [done|exact Ht1|auto].
Qed.

Lemma at_install t es shared mode content :
  ok_path es → at_ t (install shared mode (Join es "/") content) (λ r t', r = None → placed t' (Join es "/") content).
Proof.
  intros Hok own. pose proof (ok_stable es Hok) as Hx. set (x := Join es "/") in *. unfold install.
  apply good_bind. eapply good_conseq, at_random. cbn beta. intros sfx own1 t1 [Hr1 (v & -> & Hv)].
  destruct (hex_suffix v Hv) as [Hl Hsl]. destruct (temporary_name es _ Hok Hl Hsl) as [Hs Hne]. fold x in Hs, Hne.
  set (tmp := x +:+ ".pending-" +:+ hex_encode v) in *. cbv zeta. unfold and_then, perform. cbn [mbind prog_bind].
  apply good_open; [done..| |].
  { intros t2 e Ht2 t3 Ht3. split; [|done]. eapply keeps_trans; [exact Hr1|]. eapply (rely_weaken own1); [set_solver|].
    by eapply keeps_trans. }
  intros t2 i Ht2 Hi Hk. set (own2 := {[tmp]} ∪ own1). assert (tmp ∈ own2) as Hin by set_solver.
  assert (rely ∅ t t2) as Hr2 by (eapply keeps_trans; [exact Hr1|eapply rely_weaken, Ht2; set_solver]).
  apply (good_fchmod tmp mode i); [done..|]. intros t3 chmodErr i3 Hr3 Hi3 Hk3.
  assert (rely ∅ t t3) as Hrt3 by by eapply keeps_trans.
  destruct chmodErr as [e|]; cbn [keep_first].
  { apply good_elsewhere; [done|]. intros closeErr. cbn [keep_first prog_bind].
    by apply good_finish. }
  cbn [prog_bind]. apply (good_fwrite tmp content i3); [done..|]. intros t4 writeErr i4 Hr4 Hi4 Hk4 Hw.
  assert (rely ∅ t t4) as Hrt4 by by eapply keeps_trans.
  apply good_elsewhere; [done|]. intros closeErr.
  destruct (match writeErr with Some e => Some e | None => closeErr end) as [e|] eqn:Hwe; cbn [keep_first prog_bind].
  { by apply good_finish. }
  apply (good_link tmp x i4); [done..|]. intros t5 linkErr Ht5 Hl5.
  apply good_finish; [done..| |].
  - eapply keeps_trans; [exact Hrt4|]. eapply rely_weaken, Ht5. set_solver.
  - intros Hn. exists i4. destruct writeErr; [done|]. auto.
Qed.
End FileSpecs.

(** ** A package in place *)

Definition ok_files (files : gmap string string) : Prop :=
  ∀ name content, files !! name = Some content → ∃ es, ok_path es ∧ name = Join es "/".

(** Every file of a package is in the cache below a directory, with its content. *)
Definition all_placed (t : filesystem) (directory : string) (files : gmap string string) : Prop :=
  ∀ name content, files !! name = Some content → placed t (JoinPath [directory; name]) content.

Lemma target_name rs es : ok_path rs → ok_path es →
  JoinPath [Join rs "/"; Join es "/"] = Join (rs ++ es) "/" ∧ ok_path (rs ++ es).
Proof. intros Hr He. split; [by apply JoinPath_down; apply ok_down|]. destruct He. by apply ok_app. Qed.

Lemma all_placed_keeps t t' rs files :
  ok_path rs → ok_files files → rely ∅ t t' → all_placed t (Join rs "/") files → all_placed t' (Join rs "/") files.
Proof.
  intros Hrs Hf Hr Hp name content Hn. specialize (Hp name content Hn). destruct (Hf name content Hn) as (es & Hes & ->).
  destruct (target_name rs es Hrs Hes) as [Heq Hok]. rewrite Heq in *. eapply placed_keeps; [|done|done]. by apply ok_stable.
Qed.

Lemma elem_of_sorted_files files name content : (name, content) ∈ sorted_files files ↔ files !! name = Some content.
Proof.
  unfold sorted_files, sorted_names, sort_strings. rewrite list_elem_of_fmap. setoid_rewrite sorting.merge_sort_Permutation.
  split.
  - intros (n & [= <- ->] & Hn). apply list_elem_of_fmap in Hn as ([n c] & -> & Hn). apply elem_of_map_to_list in Hn. cbn.
    by rewrite Hn.
  - intros Hn. exists name. split; [by rewrite Hn|]. apply list_elem_of_fmap. exists (name, content). split; [done|].
    by apply elem_of_map_to_list.
Qed.

Section PackageSpecs.
Context {RO : RangeOrder string inode}.

Lemma at_package_file t rs shared dirMode fileMode name content es :
  ok_path rs → ok_path es → name = Join es "/" →
  at_ t (package_file shared dirMode fileMode (Join rs "/") name content)
    (λ r t', r = None → placed t' (JoinPath [Join rs "/"; name]) content).
Proof.
  intros Hrs Hes ->. destruct (target_name rs es Hrs Hes) as [Heq Hok]. unfold package_file. rewrite Heq. cbv zeta.
  pose proof (ok_stable _ Hok) as Hx. eapply at_and_then.
  - destruct Hes as [Hne He]. destruct es as [|e ds _] using rev_ind; [done|].
    apply Forall_app in He as [Hd [(Hp & _) _]%list.Forall_cons].
    rewrite (assoc_L (++)), Dir_down; [|by apply ok_down, ok_app|done]. by apply at_packageDirectories, ok_app.
  - done.
  - intros t' _ _. eapply at_bind; [apply at_lstat_any|]. intros [i|e] t1 _ _; [by apply at_existingMatches|].
    destruct (errors_Is e ErrNotExist); [by apply at_install|by apply at_ret].
Qed.

Lemma at_package_files t rs shared dirMode fileMode files :
  ok_path rs → Forall (λ f, ∃ es, ok_path es ∧ f.1 = Join es "/") files →
  at_ t (package_files shared dirMode fileMode (Join rs "/") files)
    (λ r t', r = None → ∀ f, f ∈ files → placed t' (JoinPath [Join rs "/"; f.1]) f.2).
Proof.
  intros Hrs Hf. revert t. induction Hf as [|[name content] files (es & Hes & Hn) Hf IH]; intros t; cbn [package_files].
  { apply at_ret. intros t' _ _ f Hin. by apply not_elem_of_nil in Hin. }
  cbn in Hn. eapply at_and_then; [by eapply at_package_file|done|]. intros t1 _ Hp. specialize (Hp eq_refl).
  eapply at_conseq; [apply IH|]. cbn. intros r t2 Hr Hall Hnone f [->|Hin]%elem_of_cons; [|by apply Hall].
  cbn. subst name. destruct (target_name rs es Hrs Hes) as [Heq Hok]. rewrite Heq in *.
  eapply placed_keeps; [by apply ok_stable|done|done].
Qed.

Lemma at_materialize t rs files shared :
  ok_path rs → ok_files files →
  at_ t (materialize (Join rs "/") files shared) (λ r t', r = None → all_placed t' (Join rs "/") files).
Proof.
  intros Hrs Hf. unfold materialize. eapply at_and_then; [by apply at_packageDirectories|done|]. intros t1 _ _.
  eapply at_conseq.
  - apply at_package_files; [done|]. apply list.Forall_forall. intros [name content] Hin%elem_of_sorted_files. by eapply Hf.
  - cbn. intros r t2 _ Hall Hnone name content Hn. apply (Hall Hnone (name, content)). by apply elem_of_sorted_files.
Qed.
End PackageSpecs.

(** ** Identifiers and digests as names *)

(** Neither a slash nor a dot. *)
Definition word (e : string) : bool := str_forallb (λ c, negb (bool_decide (c = "/"%char)) && negb (bool_decide (c = "."%char))) e.

Lemma str_forallb_drop p n s : str_forallb p s = true → str_forallb p (str_drop n s) = true.
Proof. revert s. induction n as [|n IH]; intros [|c s]; try done. cbn. intros [_ Hs]%andb_true_iff. auto. Qed.

Lemma word_ok e : word e = true → e ≠ "" → ok_element e.
Proof.
  intros Hw Hne. split_and!; [split_and!; [done| |]| |].
  - by intros ->.
  - eapply str_forallb_impl, Hw. by intros c [? _]%andb_true_iff.
  - unfold hidden. destruct (HasPrefix e ".") eqn:Hx; [|done]. apply prefix_inv in Hx. by rewrite Hx in Hw.
  - unfold pending_name. destruct (bool_decide _) eqn:Hx; [|by rewrite andb_false_r]. go_bool. exfalso.
    apply (str_forallb_drop _ (String.length e - 41)) in Hw. set (e' := str_drop _ e) in *.
    rewrite <-(str_take_drop 9 e'), Hx in Hw. done.
Qed.

Lemma lower_hex_word c : is_lower_hex c = true → negb (bool_decide (c = "/"%char)) && negb (bool_decide (c = "."%char)) = true.
Proof.
  intros Hc. apply andb_true_iff. rewrite !negb_true_iff, !bool_decide_eq_false. split; by intros ->.
Qed.

Lemma uuid_word s : uuidPattern s = true → word s = true ∧ s ≠ "".
Proof.
  intros H. split; [|by intros ->]. unfold word. eapply str_forallb_impl; [|apply (Split_forallb (λ c, negb (bool_decide (c = "/"%char)) && negb (bool_decide (c = "."%char))) s "-")].
  { intros c [Hc|Hc]%orb_true_iff; [go_bool; by subst c|done]. }
  unfold uuidPattern in H.
  destruct (Split s "-") as [|a [|b [|c [|d [|e [|]]]]]]; try done. unfold hex_group in H. go_bool.
  repeat constructor; eapply str_forallb_impl; try done; apply lower_hex_word.
Qed.

Lemma digest_word s : word (sha256_hex s) = true ∧ sha256_hex s ≠ "".
Proof.
  split.
  - unfold sha256_hex, word. apply hex_encode_forallb. intros z Hz.
    assert (∀ n, (n < 16)%nat → negb (bool_decide (hex_digit (Z.of_nat n) = "/"%char)) &&
      negb (bool_decide (hex_digit (Z.of_nat n) = "."%char)) = true) as H.
    { intros n Hn. do 16 (destruct n as [|n]; [reflexivity|]). lia. }
    rewrite <-(Z2Nat.id z) by lia. apply H. lia.
  - intros Heq. apply (f_equal String.length) in Heq. by rewrite sha256_hex_length in Heq.
Qed.

(** A directory of a recovered copy. *)
Lemma recovered_name a d name :
  word a = true → word d = true → a ≠ "" → no_slash name = true →
  HasPrefix name (a +:+ "-" +:+ d +:+ "-recovered-") = true → slen name = slen (a +:+ "-" +:+ d +:+ "-recovered-") + 32 →
  ok_element name.
Proof.
  intros Ha Hd Hne Hsl Hpre Hlen. apply prefix_inv in Hpre. set (pre := a +:+ "-" +:+ d +:+ "-recovered-") in *.
  set (s := str_drop (String.length pre) name) in *. clearbody s. subst name.
  rewrite slen_app in Hlen. assert (String.length s = 32%nat) as Hs by (unfold slen in Hlen; lia).
  destruct a as [|c a]; [done|]. split_and!; [split_and!; [done| |done]| |].
  - subst pre. rewrite <-str_app_assoc. by destruct a.
  - unfold hidden. cbn in Ha. apply andb_true_iff in Ha as [[_ Hc]%andb_true_iff _]. go_bool.
    unfold HasPrefix. subst pre. rewrite !str_app_cons. cbn [String.prefix].
    destruct (Stdlib.Strings.Ascii.ascii_dec "." c) as [<-|]; done.
  - unfold pending_name. apply andb_false_iff. right. apply bool_decide_eq_false.
    assert (pre +:+ s = (String c a +:+ "-" +:+ d +:+ "-r") +:+ ("ecovered-" +:+ s)) as ->.
    { subst pre. rewrite <-!str_app_assoc. done. }
    rewrite (str_drop_app_n _ (String c a +:+ "-" +:+ d +:+ "-r")).
    + change 9%nat with (String.length "ecovered-"). by rewrite str_take_app.
    + rewrite (str_length_app _ ("ecovered-" +:+ s)), (str_length_app _ s), Hs.
      change (String.length "ecovered-") with 9%nat. lia.
Qed.

Lemma Split_single s c w : Split s c = [w] → str_forallb (λ d, negb (bool_decide (d = c))) s = true.
Proof.
  revert w. induction s as [|d s IH]; [done|]. intros w. cbn [Split str_forallb]. case_bool_decide as Hd.
  - intros [= _ Hs]. by destruct s as [|d' s]; cbn in Hs; [|case_bool_decide; [|destruct (Split s c)]].
  - destruct (Split s c) as [|w' ws] eqn:Hs; [by destruct s; cbn in Hs; repeat case_match|].
    intros [= _ ->]. cbn. by eapply IH.
Qed.

Lemma child_no_slash {RO : RangeOrder string inode} t e : e ∈ children t → no_slash e.1 = true.
Proof.
  unfold children. intros (kv & -> & Hkv)%list_elem_of_fmap. apply elem_of_filter_bool in Hkv as [Hs _].
  destruct (Split kv.1 "/") as [|w [|]] eqn:Hsp; try done. by eapply Split_single.
Qed.

Lemma elem_of_take_sub {A} n (l : list A) x : x ∈ take n l → x ∈ l.
Proof. rewrite <-(take_drop n l) at 2. intros. apply elem_of_app. by left. Qed.

Section RecoverySpecs.
Context {RO : RangeOrder string inode}.

Lemma at_read_dir t n : at_ t (perform (ReadDir Cache n)) (λ r _, Forall (λ e, no_slash e.1 = true) r.1).
Proof.
  intros own t1 Ht1. split; [done|]. intros o w r w' <- He. cbn in He. simplify_eq. intros t2 Ht2.
  split; [eapply keeps_trans; (eapply rely_weaken; [|done]); set_solver|].
  apply list.Forall_forall. intros e Hin. apply (child_no_slash (w_cache w')). unfold read_dir in Hin.
  destruct (o_fault o) as [[m k]|]; cbn in Hin; repeat apply elem_of_take_sub in Hin; done.
Qed.

(** The directory names one word: it is a package's path. *)
Lemma ok_single e : ok_element e → ok_path [e].
Proof. intros He. split; [done|]. by apply list.Forall_cons. Qed.

Lemma at_find_copy t a d files entries :
  word a = true → word d = true → a ≠ "" → ok_files files → Forall (λ e, no_slash e.1 = true) entries →
  at_ t (find_copy (a +:+ "-" +:+ d +:+ "-recovered-") files entries)
    (λ r t', ∀ name, r = Some name → ok_element name ∧ all_placed t' name files).
Proof.
  intros Ha Hd Hne Hf He. revert t. induction He as [|[name k] entries Hn He IH]; intros t; cbn [find_copy]; [by apply at_ret|].
  destruct (_ || _) eqn:Hskip; [apply IH|]. go_bool. cbn in Hn.
  assert (ok_element name) as Hok by (by eapply (recovered_name a d)).
  pose proof (ok_single name Hok) as Hp. eapply at_bind; [by apply (at_materialize _ [name])|].
  intros [e|] t1 _ Hall; [apply IH|]. apply at_ret. intros t2 Ht2 ? [= <-]. split; [done|].
  eapply (all_placed_keeps _ _ [name]); [done..|]. by apply Hall.
Qed.

Lemma fresh_recovered a d v : word a = true → word d = true → a ≠ "" → String.length v = 16%nat →
  ok_element ((a +:+ "-" +:+ d +:+ "-recovered-") +:+ hex_encode v).
Proof.
  intros Ha Hd Hne Hv. destruct (hex_suffix v Hv) as [Hl Hs]. eapply (recovered_name a d); try done.
  - unfold no_slash in *. rewrite !str_forallb_app, Hs. unfold word in Ha, Hd.
    assert (∀ s, word s = true → no_slash s = true) as Hw.
    { intros s. apply str_forallb_impl. by intros c [? _]%andb_true_iff. }
    unfold no_slash, word in Hw. by rewrite !Hw.
  - apply prefix_app.
  - rewrite slen_app. lia.
Qed.

Lemma at_recover t a d files :
  word a = true → word d = true → a ≠ "" → ok_files files →
  at_ t (recoverPrivatePackage a d files)
    (λ r t', ∀ name, r = (name, None) → ok_element name ∧ all_placed t' name files).
Proof.
  intros Ha Hd Hne Hf. unfold recoverPrivatePackage. eapply at_bind; [by apply at_elsewhere|].
  intros [e|] t1 _ _; [by apply at_ret|]. eapply at_bind; [apply at_read_dir|]. intros [entries readErr] t2 _ He.
  destruct (bool_decide (readErr ≠ None) && _) eqn:Hre.
  { apply at_ret. intros t' _ name [= <- ->]. go_bool. done. }
  eapply at_bind; [by apply at_find_copy|]. intros [name|] t3 _ Hcopy.
  { apply at_ret. intros t4 Ht4 ? [= <-]. destruct (Hcopy name eq_refl) as [Hok Hall]. split; [done|].
    by eapply (all_placed_keeps _ _ [name]); [apply ok_single|..]. }
  eapply at_bind; [apply at_random|]. intros suffix t4 _ (v & -> & Hv).
  pose proof (fresh_recovered a d v Ha Hd Hne Hv) as Hok. set (name := _ +:+ hex_encode v) in *. cbv zeta.
  pose proof (ok_single name Hok) as Hp. eapply at_bind; [apply at_mkdir|]. intros [e|] t5 _ _; [by apply at_ret|].
  eapply at_bind; [by apply (at_materialize _ [name])|]. intros failed t6 _ Hall. apply at_ret. intros t7 Ht7 ? [= <- ->].
  split; [done|]. eapply (all_placed_keeps _ _ [name]); [done..|]. by apply Hall.
Qed.
End RecoverySpecs.

(** ** Programs that touch no package

    [tame tmps p]: in the cache [p] writes only to the temporary files [tmps] and to
    the ignore marker. *)
Definition tame_call {R} (tmps : gset string) (c : call R) : Prop :=
  match c with
  | FWrite Cache p _ | FChmod Cache p _ => p ∈ tmps
  | Chmod Cache p _ | Remove Cache p => p = gitignore
  | OpenExcl Cache _ _ | MkdirAll Cache _ _ | OpenAppend Cache _ _ | FAppend Cache _ _ => False
  | _ => True
  end.

(** Every call a program can make satisfies [P]. *)
Fixpoint only {A} (P : ∀ R, call R → Prop) (p : prog A) : Prop :=
  match p with
  | Ret _ => True
  | @Call _ R c k => P R c ∧ ∀ r, only P (k r)
  end.

Definition tame {A} (tmps : gset string) (p : prog A) : Prop := only (λ R c, tame_call tmps c) p.

Lemma only_bind {A B} P (m : prog A) (k : A → prog B) : only P m → (∀ a, only P (k a)) → only P (m ≫= k).
Proof. intros Hm Hk. induction m as [a|R c j IH]; [apply Hk|]. destruct Hm as [Hc Hj]. split; [done|]. intros r. by apply IH. Qed.
Lemma only_perform {R} (P : ∀ R, call R → Prop) (c : call R) : P R c → only P (perform c).
Proof. by split. Qed.
Lemma only_ret {A} P (a : A) : only P (Ret a).
Proof. done. Qed.
Lemma only_impl {A} (P Q : ∀ R, call R → Prop) (p : prog A) : (∀ R c, P R c → Q R c) → only P p → only Q p.
Proof. intros HPQ. induction p as [a|R c k IH]; [done|]. intros [Hc Hk]. split; auto. Qed.
Lemma tame_perform {R} tmps (c : call R) : tame_call tmps c → tame tmps (perform c).
Proof. by split. Qed.

(** Walk through the text of a program whose calls are all allowed. *)
Ltac walk_calls :=
  unfold tame;
  repeat first
    [ apply only_ret
    | apply only_perform; first [done | cbn; set_solver]
    | assumption
    | match goal with H : _ |- _ => solve [apply H] end
    | apply only_bind; [|intros ?]
    | progress unfold and_then, or_fail, or_report, fail, as_result, with_removed, randomPackageSuffix, keep_first
    | case_match
    | progress cbv beta zeta ].

Section TameSpecs.
Context {RO : RangeOrder string inode}.

Lemma tame_exec {R} tmps own (c : call R) o w r w' :
  tame_call tmps c → tmps ⊆ own → (∀ x, x ∈ tmps → scratch x = true ∧ x ≠ gitignore) → exec o c w = (r, w') →
  permitted own c (w_cache w) ∧ rely ∅ (w_cache w) (w_cache w') ∧ tmps ⊆ own_after own c r.
Proof.
  intros Hc Hsub Htmp He.
  destruct c as [s p|s p|s p perm|s p perm|s p mode|s p perm|s p perm|s p q|s p|s p mode|s p text|s p text
    |s p|s|s n| |p|p|p|p| | |argv env| | |names|ev pl]; try destruct s; cbn in Hc, He; try done; unfold on in He; cbn [tree] in He;
    try (by simplify_eq; split_and!; [done|apply keeps_refl|done]);
    try (by case_match; simplify_eq; split_and!; [done|apply keeps_refl|done]).
  - destruct (create _ _ _ _ _) eqn:Hcr. simplify_eq. split_and!; [done| |done]. cbn.
    unfold create in Hcr. repeat case_match; simplify_eq; try apply keeps_refl. apply keeps_insert. congruence.
  - destruct (change_mode _ _ _ _) eqn:Hcr. simplify_eq. split_and!; [by left| |done]. cbn.
    unfold change_mode in Hcr. repeat case_match; simplify_eq; try apply keeps_refl. apply keeps_insert. by intros [? _].
  - destruct (link _ _ _ _) eqn:Hcr. simplify_eq. split_and!; [done| |done]. cbn.
    unfold link in Hcr. repeat case_match; simplify_eq; try apply keeps_refl. apply keeps_insert. congruence.
  - destruct (remove _ _ _) as [r0 t'] eqn:Hcr. simplify_eq. split_and!; [by right| |].
    + cbn. unfold remove in Hcr. repeat case_match; simplify_eq; try apply keeps_refl. apply keeps_delete. by intros [? _].
    + cbn. destruct r; [done|]. intros x Hx. apply elem_of_difference. split; [auto|]. intros ->%elem_of_singleton. by apply (Htmp gitignore).
  - destruct (fault_error o); simplify_eq; split_and!; try done; [by apply Hsub|apply keeps_refl|by apply Hsub|].
    apply keeps_alter. intros [_ [|Hs]]; [set_solver|]. destruct (Htmp p Hc). congruence.
  - unfold write in He. destruct (o_fault o) as [[m n]|]; simplify_eq; split_and!; try done; try (by apply Hsub);
      apply keeps_alter; intros [_ [|Hs]]; try set_solver; destruct (Htmp p Hc); congruence.
  - simplify_eq. split_and!; [done| |done]. case_match; apply keeps_refl.
Qed.

Lemma tame_good {A} (p : prog A) tmps own t :
  tame tmps p → tmps ⊆ own → (∀ x, x ∈ tmps → scratch x = true ∧ x ≠ gitignore) →
  good p own (λ _ own' t', tmps ⊆ own' ∧ rely ∅ t t') t.
Proof.
  intros Hp Hsub Htmp. revert own t Hp Hsub. induction p as [a|R c k IH]; intros own t Hp Hsub t1 Ht1.
  - split; [done|]. eapply rely_weaken, Ht1. set_solver.
  - destruct Hp as [Hc Hk]. split.
    + destruct c as [| | | |[]|[]|[]| |[]|[]|[]|[]| | | | | | | | | | | | | | |]; cbn in *; auto; by apply Hsub.
    + intros o w r w' <- He. destruct (tame_exec tmps own c o w r w' Hc Hsub Htmp He) as (_ & Hr & Hsub').
      eapply good_conseq, IH; [|apply Hk|done]. cbn. intros _ own' t' [? ?]. split; [done|].
      eapply keeps_trans; [eapply rely_weaken, Ht1; set_solver|]. by eapply keeps_trans.
Qed.

Lemma at_tame {A} t (p : prog A) : tame ∅ p → at_ t p (λ _ _, True).
Proof. intros Hp own. eapply good_conseq, (tame_good p ∅); [|done|set_solver..]. by intros _ _ t' [_ ?]. Qed.

(** A program around one temporary file: made, used and removed. *)
Lemma at_temporary {A B} t tmp perm (body : prog A) (e0 : go_error → B) (f : A → option go_error → B) :
  scratch tmp = true → tmp ≠ gitignore → tame {[tmp]} body →
  at_ t (opened ← perform (OpenExcl Cache tmp perm);
         match opened with
         | Some e => Ret (e0 e)
         | None => a ← body; removed ← perform (Remove Cache tmp); Ret (f a removed)
         end) (λ _ _, True).
Proof.
  intros Hs Hne Hb own. unfold perform. cbn [mbind prog_bind]. apply good_open; [done..| |].
  - intros t1 e Ht1 t2 Ht2. split; [|done]. eapply (rely_weaken own); [set_solver|]. by eapply keeps_trans.
  - intros t1 i Ht1 Hi Hk. apply good_bind. eapply good_conseq, (tame_good body {[tmp]}); [|done|set_solver|].
    + cbn beta. intros a own' t2 [Hsub Hr]. apply (good_remove tmp); [left; set_solver|]. intros t3 r own3 Hr3 t4 Ht4. split; [|done].
      eapply keeps_trans; [eapply (rely_weaken own), Ht1; set_solver|]. eapply keeps_trans; [exact Hr|].
      eapply keeps_trans; [exact Hr3|]. eapply rely_weaken, Ht4. set_solver.
    + intros x ->%elem_of_singleton. done.
Qed.

(** The two prefixes of temporary names at the root. *)
Lemma prefix_scratch p v :
  p = ".gitignore-" ∨ p = ".write-probe-" → String.length v = 16%nat →
  scratch (p +:+ hex_encode v) = true ∧ p +:+ hex_encode v ≠ gitignore.
Proof.
  intros Hp Hv. destruct (hex_suffix v Hv) as [Hl Hs]. split.
  - unfold scratch. rewrite Split_no_sep.
    + cbn [existsb]. rewrite orb_false_r. unfold temp_element, HasPrefix.
      destruct Hp as [-> | ->]; rewrite prefix_app, ?orb_true_r; done.
    + rewrite str_forallb_app. unfold no_slash in Hs. rewrite Hs. by destruct Hp as [-> | ->].
  - intros Heq. apply (f_equal String.length) in Heq. rewrite str_length_app in Heq. unfold slen in Hl.
    change (String.length gitignore) with 10%nat in Heq. lia.
Qed.

Lemma at_writeCacheIgnore t : at_ t writeCacheIgnore (λ _ _, True).
Proof.
  unfold writeCacheIgnore. eapply at_bind; [by apply at_tame, tame_perform|]. intros found t1 _ _.
  destruct (is_ignore found); [by apply at_ret|]. eapply at_bind; [apply at_random|]. intros sfx t2 _ (v & -> & Hv).
  destruct (prefix_scratch ".gitignore-" v (or_introl eq_refl) Hv) as [Hs Hne]. cbv zeta.
  set (tmp := ".gitignore-" +:+ hex_encode v) in *.
  apply (at_temporary t2 tmp (octal 6 0 0) (replace_marker tmp) Some (λ e _, e)); [done..|]. unfold replace_marker. walk_calls.
Qed.

Lemma at_CheckSharedCache t directory gid : at_ t (CheckSharedCache directory gid) (λ _ _, True).
Proof.
  unfold CheckSharedCache. eapply at_bind; [by apply at_tame, tame_perform|]. intros [st|e] t1 _ _; [|by apply at_ret].
  eapply at_bind; [by apply at_tame, tame_perform|]. intros euid t2 _ _. destruct (_ || _); [by apply at_ret|].
  eapply at_bind; [by apply at_tame, tame_perform|]. intros resolved t3 _ _. destruct (negb _); [by apply at_ret|].
  eapply at_and_then; [by apply at_tame, tame_perform|done|]. intros t4 _ _.
  eapply at_bind; [apply at_random|]. intros sfx t5 _ (v & -> & Hv). cbv zeta.
  destruct (prefix_scratch ".write-probe-" v (or_intror eq_refl) Hv) as [Hs Hne].
  set (tmp := ".write-probe-" +:+ hex_encode v) in *.
  refine (at_temporary t5 tmp (octal 6 0 0)
    (w ← perform (FWrite Cache tmp "probe"); c ← perform (FClose Cache tmp); Ret (w, c)) Some
    (λ wc r, errors_Join [wc.1; wc.2; r]) Hs Hne _). walk_calls.
Qed.
End TameSpecs.

(** ** [Load] *)
Section LoadSpec.
Context {RO : RangeOrder string inode}.

Lemma tame_protect workspace : tame ∅ (protectSkillPackageCache workspace).
Proof. unfold protectSkillPackageCache, find_gitdir, exclude_cache, git, ensure_rule. walk_calls. Qed.

Lemma at_open_cache t cache workspace : at_ t (open_cache cache workspace) (λ _ _, True).
Proof.
  assert (Htame : ∀ {A B} t (m : prog (result A)) (k : A → prog (result B)),
    at_ t m (λ _ _, True) → (∀ a t', at_ t' (k a) (λ _ _, True)) → at_ t (or_fail m k) (λ _ _, True)).
  { intros A B t0 m k Hm Hk. eapply at_bind; [exact Hm|]. intros [a|e] t' _ _; [apply Hk|by apply at_ret]. }
  assert (Hres : ∀ t m, at_ t m (λ _ _, True) → at_ t (as_result m) (λ _ _, True)).
  { intros t0 m Hm. eapply at_bind; [exact Hm|]. intros [e|] t' _ _; by apply at_ret. }
  unfold open_cache. apply Htame.
  { apply at_tame. unfold private_directory. walk_calls; apply tame_protect. }
  intros directory t1. apply Htame; [by apply at_tame, tame_perform|]. intros dir t2.
  eapply at_bind; [by apply at_tame, tame_perform|]. intros info t3 _ _. destruct (negb _); [by apply at_ret|].
  apply Htame; [apply Hres; case_match; [by apply at_ret|apply at_CheckSharedCache]|]. intros _ t4.
  apply Htame; [by apply Hres, at_tame, tame_perform|]. intros _ t5.
  apply Htame; [apply Hres; case_match; [apply at_writeCacheIgnore|by apply at_ret]|]. intros _ t6. by apply at_ret.
Qed.

(** A package of the result stands for its bundle: its files are in the cache. *)
Definition in_place (t : filesystem) (directory : string) (c : Contents) (p : Package) : Prop :=
  ∃ rs, ok_path rs ∧ p = package_of directory (Join rs "/") c ∧ all_placed t (Join rs "/") (c_Files c).

Lemma in_place_keeps t t' directory c p :
  ok_files (c_Files c) → rely ∅ t t' → in_place t directory c p → in_place t' directory c p.
Proof.
  intros Hf Hr (rs & Hrs & -> & Hall). exists rs. do 2 (split; [done|]). by eapply all_placed_keeps.
Qed.

Lemma in_places_keep t t' directory cs ps :
  Forall (λ c, ok_files (c_Files c)) cs → rely ∅ t t' → Forall2 (in_place t directory) cs ps → Forall2 (in_place t' directory) cs ps.
Proof.
  intros Hd Hr. induction 1 as [|c p cs ps Hc HF IH]; constructor; apply list.Forall_cons in Hd as [? ?]; [|auto].
  by eapply in_place_keeps.
Qed.

Definition sound (v : Version) (c : Contents) : Prop := sha256_hex (v_Payload v) = v_Digest v ∧ ok_files (c_Files c).

Lemma at_place t a shared v c :
  uuidPattern a = true → sound v c →
  at_ t (place a shared v c) (λ r t', ∀ x, r = Ok x → ∃ rs, ok_path rs ∧ x.1 = Join rs "/" ∧ all_placed t' x.1 (c_Files c)).
Proof.
  intros Ha [Hd Hf]. destruct (uuid_word a Ha) as [Haw Han]. destruct (digest_word (v_Payload v)) as [Hdw Hdn]. rewrite Hd in *.
  assert (ok_path [a; v_Digest v]) as Hrs by (split; [done|]; repeat constructor; by apply word_ok).
  assert (JoinPath [a; v_Digest v] = Join [a; v_Digest v] "/") as Hj
    by by apply (JoinPath_down [a] [v_Digest v]); apply ok_down, ok_single, word_ok.
  unfold place. rewrite Hj. cbv zeta. eapply at_bind; [by apply at_materialize|]. intros [e|] t1 _ Hall.
  - destruct shared; [by apply at_ret|]. eapply at_bind; [by apply at_recover|]. intros [name [e'|]] t2 _ Hcopy; [by apply at_ret|].
    apply at_ret. intros t3 Ht3 ? [= <-]. cbn [fst]. destruct (Hcopy name eq_refl) as [Hok Hall']. exists [name].
    split; [by apply ok_single|]. split; [done|]. by eapply (all_placed_keeps _ _ [name]); [apply ok_single|..].
  - apply at_ret. intros t2 Ht2 ? [= <-]. cbn [fst]. exists [a; v_Digest v]. do 2 (split; [done|]).
    exact (all_placed_keeps t1 t2 [a; v_Digest v] (c_Files c) Hrs Hf Ht2 (Hall eq_refl)).
Qed.

Lemma at_place_all t bindings a directory shared bundles acc done_ :
  uuidPattern a = true → Forall (λ vc, sound vc.1 vc.2) bundles → Forall (λ c, ok_files (c_Files c)) done_ →
  Forall2 (in_place t directory) done_ (pr_packages acc) →
  at_ t (place_all bindings a directory shared bundles acc)
    (λ r t', ∀ x, r = Ok x → Forall2 (in_place t' directory) (done_ ++ bundles.*2) (pr_packages x)).
Proof.
  intros Ha Hb. revert t acc done_. induction Hb as [|[v c] bundles Hs Hb IH]; intros t acc done_ Hdone Hacc; cbn [place_all].
  { apply at_ret. intros t' Hr x [= <-]. rewrite app_nil_r. by eapply in_places_keep. }
  eapply at_bind; [by apply at_tame, tame_perform|]. intros [e|] t1 Hr1 _; [by apply at_ret|].
  eapply at_or_report; [by apply at_place|]. intros [relative copied] t2 Hr2 (rs & Hrs & Hrel & Hall). cbn in Hrel, Hall.
  eapply at_conseq; [eapply (IH _ _ (done_ ++ [c]))|].
  - apply Forall_app. split; [done|]. apply list.Forall_cons. split; [apply Hs|done].
  - cbn [pr_packages]. apply Forall2_app.
    + by apply (in_places_keep t t2); [|exact (keeps_trans _ _ _ _ Hr1 Hr2)|].
    + constructor; [|done]. exists rs. by rewrite <-Hrel.
  - cbn. intros r t' _ HF x Hx. specialize (HF x Hx). by rewrite <-(assoc_L (++)) in HF.
Qed.
End LoadSpec.

(** No file of the package is named like a temporary one. *)
Definition untemporary (c : Contents) : Prop :=
  ∀ name content, c_Files c !! name = Some content → Forall (λ e, pending_name e = false) (Split name "/").

Lemma pinned_sound provider v c : pinned provider v c → untemporary c → sound v c.
Proof.
  intros Hp Hu. split; [apply Hp|]. intros name content Hn. destruct (pn_files _ _ _ Hp name content Hn) as (_ & _ & es & [Hd Hh] & ->).
  exists es. split; [|done]. specialize (Hu _ _ Hn). rewrite Split_Join in Hu by (try apply down_plain; done || apply Hd).
  destruct Hd as [Hne He]. split; [done|]. rewrite list.Forall_forall in *. intros e Hin.
  split_and!; [by apply He|by apply Hh|by apply Hu].
Qed.

(** What a successful load promises of the cache. *)
Definition loaded (req : Request) (provider : string) (res : Result) (t : filesystem) : Prop :=
  match rq_Snapshot req with
  | None => res = no_result
  | Some value =>
      ∃ snapshot bundles directory, Decode value provider = Ok (snapshot, bundles) ∧
        Forall2 (in_place t directory) bundles (rs_Packages res)
  end.

Definition well_named (req : Request) (provider : string) : Prop :=
  ∀ value snapshot bundles, rq_Snapshot req = Some value → Decode value provider = Ok (snapshot, bundles) →
    Forall untemporary bundles.

Section LoadTheorem.
Context {RO : RangeOrder string inode}.

Lemma Forall_zip_sound provider vs cs :
  Forall2 (pinned provider) vs cs → Forall untemporary cs → Forall (λ vc, sound vc.1 vc.2) (zip vs cs).
Proof.
  induction 1 as [|v c vs cs Hp HF IH]; [done|]. intros [Hu Hus]%list.Forall_cons. cbn. apply list.Forall_cons.
  split; [by eapply pinned_sound|auto].
Qed.

Lemma at_Load t req provider workspace cache :
  well_named req provider →
  at_ t (Load req provider workspace cache) (λ r t', ∀ res, r = Ok res → loaded req provider res t').
Proof.
  intros Hwell. unfold Load, loaded. destruct (rq_Snapshot req) as [value|] eqn:Hsn; [|apply at_ret; by intros t' _ ? [= <-]].
  destruct (Decode value provider) as [[snapshot bundles]|e] eqn:Hdec; [|by apply at_ret].
  destruct bundles as [|c0 cs0] eqn:Hbundles.
  { apply at_ret. intros t' _ ? [= <-]. exists snapshot, [], "". split; [done|constructor]. }
  rewrite <-Hbundles in *. clear c0 cs0 Hbundles.
  destruct (negb _ || _) eqn:Htrust; [by apply at_ret|]. destruct (negb (rq_Emit req)); [by apply at_ret|].
  go_bool. cbv zeta. destruct (collect_commands _ _) as [commands|]; [|apply at_fail].
  eapply (at_or_report _ _ _ _ _ (λ _ _, True)).
  { eapply at_conseq; [apply at_tame|done]. unfold check_required. destruct commands; [done|]. walk_calls. }
  intros _ t1 _ _. eapply (at_or_report _ _ _ _ _ (λ _ _, True)).
  { eapply at_conseq; [apply at_open_cache|done]. }
  intros directory t2 _ _.
  assert (Forall2 (pinned provider) (s_Bundles snapshot) bundles) as Hpin by by eapply Decode_spec.
  assert (Forall (λ vc, sound vc.1 vc.2) (zip (s_Bundles snapshot) bundles)) as Hzip
    by (eapply Forall_zip_sound; [done|by eapply Hwell]).
  eapply at_or_fail.
  { eapply at_conseq; [apply (at_place_all _ _ _ directory _ _ _ []); [done|exact Hzip|constructor|constructor]|].
    cbn beta. intros r t3 _ HF x Hx. exact (HF x Hx). }
  cbn beta. intros placed t3 _ HF. rewrite snd_zip in HF by (rewrite (Forall2_length Hpin); done).
  eapply at_bind; [by apply at_tame, tame_perform|]. intros [e|] t4 Hr4 _; apply at_ret; [done|].
  intros t5 Hr5 res [= <-]. exists snapshot, bundles, directory. split; [done|]. cbn [rs_Packages].
  eapply in_places_keep; [|exact (keeps_trans _ _ _ _ Hr4 Hr5)|exact HF].
  pose proof (Hwell _ _ _ Hsn Hdec) as Hu. clear -Hpin Hu. induction Hpin as [|v c vs cs Hp Hpin IH]; [done|].
  apply list.Forall_cons in Hu as [? ?]. apply list.Forall_cons. split; [|auto]. by eapply pinned_sound.
Qed.
End LoadTheorem.

(** ** Any number of loaders *)
Section Pool.
Context {RO : RangeOrder string inode} {A : Type}.

(** Every program is good with its own temporary files, and what was in the cache
    at the start is still there. *)
Record pool_ok (init : filesystem) (posts : list (A → filesystem → Prop)) (ps : list (prog A)) (owns : list (gset string))
    (t : filesystem) : Prop := {
  po_good : ∀ n p own Q, ps !! n = Some p → owns !! n = Some own → posts !! n = Some Q → good p own (λ a _ t', Q a t') t;
  po_length : length owns = length ps ∧ length posts = length ps;
  po_own : ∀ n own, owns !! n = Some own → own_ok own t ∧ ∀ x, x ∈ own → init !! x = None;
  po_disjoint : ∀ n m own own', n ≠ m → owns !! n = Some own → owns !! m = Some own' → own ## own';
  po_init : keeps (λ x, x ≠ gitignore) init t;
}.

Lemma pool_step init posts ps owns w ps' w' :
  pool_ok init posts ps owns (w_cache w) → pstep (ps, w) (ps', w') → ∃ owns', pool_ok init posts ps' owns' (w_cache w').
Proof.
  intros Hok Hstep. inversion Hstep as [n R c k o r qs v v' Hn He]; subst. clear Hstep.
  destruct Hok as [Hgood [Hl1 Hl2] Hown Hdis Hinit].
  assert (n < length ps)%nat as Hlt by by eapply lookup_lt_Some.
  destruct (lookup_lt_is_Some_2 owns n) as [own Hon]; [lia|]. destruct (lookup_lt_is_Some_2 posts n) as [Q HQn]; [lia|].
  destruct (Hgood n _ own Q Hn Hon HQn (w_cache w) (keeps_refl _ _)) as [Hperm Hk].
  specialize (Hk o w r w' eq_refl He). pose proof (exec_fair own c o w r w' Hperm He) as (Hg & Hown' & Hnew).
  destruct (Hown n own Hon) as [Hownok Hfresh]. exists (<[n := own_after own c r]> owns). constructor.
  - intros m p own2 Q2. destruct (decide (n = m)) as [<-|Hne].
    + rewrite !list_lookup_insert_eq by (rewrite ?Hl1; done). intros ? ? ?. by simplify_eq.
    + rewrite !list_lookup_insert_ne by done. intros Hp Ho HQ. eapply good_mono; [|by eapply Hgood].
      destruct (Hown m own2 Ho) as [Ho2 _]. eapply keeps_impl; [|exact Hg]. intros x [Hx [Hin|Hs]]; split; try done.
      * specialize (Hdis n m own own2 Hne Hon Ho). set_solver.
      * intros Hin. destruct (Hownok x Hin) as (_ & ? & _). congruence.
  - by rewrite !length_insert.
  - intros m own2. destruct (decide (n = m)) as [<-|Hne].
    + rewrite list_lookup_insert_eq by (by rewrite Hl1). intros [= <-]. split; [auto|]. intros x Hx.
      destruct (Hnew x Hx) as [Hin|Hnone]; [auto|]. destruct (init !! x) as [i|] eqn:Hi; [|done].
      destruct (Hinit x i) as (i' & Hi' & _); [|done|congruence]. by destruct (Hown' Hownok x Hx) as (_ & _ & ?).
    + rewrite list_lookup_insert_ne by done. intros Ho. destruct (Hown m own2 Ho) as [Ho2 Hf2]. split; [|done].
      eapply keeps_present; [exact Hg| |done]. intros x Hx. destruct (Ho2 x Hx) as (_ & _ & Hng). split; [done|].
      specialize (Hdis n m own own2 Hne Hon Ho). set_solver.
  - assert (∀ m own2, n ≠ m → owns !! m = Some own2 → own_after own c r ## own2) as Hd.
    { intros m own2 Hne Ho x Hx Hx2. destruct (Hown m own2 Ho) as [Ho2 _].
      specialize (Hdis n m own own2 Hne Hon Ho). destruct (Hnew x Hx) as [Hin|Hnone]; [set_solver|].
      destruct (Ho2 x Hx2) as ([i Hi] & _). congruence. }
    intros m1 m2 o1 o2 Hne. destruct (decide (n = m1)) as [<-|H1], (decide (n = m2)) as [<-|H2]; try done;
      rewrite ?list_lookup_insert_eq by (by rewrite Hl1); rewrite ?list_lookup_insert_ne by done.
    + intros [= <-] Ho. by eapply Hd.
    + intros Ho [= <-]. symmetry. by eapply Hd.
    + by apply Hdis.
  - intros x i Hx Hi. destruct (Hinit x i Hx Hi) as (i1 & Hi1 & Hs1). destruct (Hg x i1) as (i2 & Hi2 & Hs2); [|done|].
    { split; [done|]. intros Hin. by rewrite (Hfresh x Hin) in Hi. }
    exists i2. split; [done|]. by eapply same_trans.
Qed.

Lemma pool_reach init posts ps owns w ps' w' :
  pool_ok init posts ps owns (w_cache w) → rtc pstep (ps, w) (ps', w') → ∃ owns', pool_ok init posts ps' owns' (w_cache w').
Proof.
  intros Hok Hr. remember (ps, w) as s eqn:Hs. remember (ps', w') as s' eqn:Hs'.
  revert ps owns w Hs Hok. induction Hr as [s|s [ps1 w1] s' Hstep Hr IH]; intros ps owns w -> Hok; simplify_eq; [eauto|].
  destruct (pool_step _ _ _ _ _ _ _ Hok Hstep) as [owns1 Hok1]. by eapply IH.
Qed.
End Pool.

(** ** The calls of each program *)

Definition cache_call {R} (c : call R) : Prop :=
  match c with
  | Lstat Cache _ | ReadFile Cache _ | Mkdir Cache _ _ | Chmod Cache _ _ | OpenExcl Cache _ _ | Link Cache _ _ | Remove Cache _
  | FChmod Cache _ _ | FWrite Cache _ _ | FClose Cache _ | OpenDir Cache | ReadDir Cache _ | Random => True
  | _ => False
  end.

Lemma calls_package_directories mode current parts : only (@cache_call) (package_directories mode current parts).
Proof.
  revert current. induction parts as [|part parts IH]; intros current; cbn [package_directories]; [done|].
  unfold package_directory. walk_calls.
Qed.

Lemma calls_existingMatches shared mode target content : only (@cache_call) (existingMatches shared mode target content).
Proof. unfold existingMatches. walk_calls. Qed.

Lemma calls_package_file shared dirMode fileMode directory name content :
  only (@cache_call) (package_file shared dirMode fileMode directory name content).
Proof.
  pose proof calls_existingMatches. pose proof calls_package_directories.
  unfold package_file, packageDirectories, install. walk_calls.
Qed.

Lemma calls_materialize directory files shared : only (@cache_call) (materialize directory files shared).
Proof.
  unfold materialize. apply only_bind; [apply calls_package_directories|]. intros [e|]; [done|].
  induction (sorted_files files) as [|[name content] fs IH]; [done|]. cbn [package_files].
  apply only_bind; [apply calls_package_file|]. by intros [e|].
Qed.

Lemma calls_recover a d files : only (@cache_call) (recoverPrivatePackage a d files).
Proof.
  assert (∀ prefix entries, only (@cache_call) (find_copy prefix files entries)) as Hfind.
  { intros prefix. induction entries as [|[name k] entries IH]; cbn [find_copy]; [done|]. pose proof calls_materialize. walk_calls. }
  pose proof calls_materialize. unfold recoverPrivatePackage. walk_calls.
Qed.

Lemma calls_place a shared v c : only (@cache_call) (place a shared v c).
Proof. pose proof calls_materialize. pose proof calls_recover. unfold place. walk_calls. Qed.

(** Everything before the bundles. *)
Definition open_call {R} (c : call R) : Prop :=
  match c with
  | Mkdir Work _ _ | Chmod Work _ _ | OpenExcl Work _ _ | Link Work _ _ | Remove Work _ | FChmod Work _ _ | FWrite Work _ _
  | Emit _ _ | CtxErr => False
  | _ => True
  end.

Lemma calls_open_cache cache workspace : only (@open_call) (open_cache cache workspace).
Proof.
  unfold open_cache, private_directory, protectSkillPackageCache, find_gitdir, exclude_cache, git, ensure_rule,
    CheckSharedCache, writeCacheIgnore, replace_marker. walk_calls.
Qed.

Lemma calls_check hasChecker commands : only (@open_call) (check_required hasChecker commands).
Proof. unfold check_required. destruct commands; [done|]. walk_calls. Qed.

Lemma cache_open {R} (c : call R) : cache_call c → open_call c.
Proof. by destruct c as [[]|[]|[]|[]|[]|[]|[]|[]|[]|[]|[]|[]|[]|[]|[]| | | | | | | | | | | |]. Qed.

(** ** What a load reports *)

(** What a caller can see of one call: an event and the channel's answer, or that
    the context has ended. *)
Inductive note := Reported (event : string) (payload : json) (answer : option go_error) | Canceled (e : go_error).

Definition note_of {R} (c : call R) : R → option note :=
  match c in call R' return R' → option note with
  | Emit event payload => λ r, Some (Reported event payload r)
  | CtxErr => λ r, Canceled <$> r
  | _ => λ _, None
  end.

(** The notes and the result of a run, whatever the calls answer. *)
Fixpoint outcome {A} (p : prog A) (notes : list note) (a : A) : Prop :=
  match p with
  | Ret b => notes = [] ∧ a = b
  | Call c k =>
      ∃ r, match note_of c r with
           | Some n => ∃ notes', notes = n :: notes' ∧ outcome (k r) notes' a
           | None => outcome (k r) notes a
           end
  end.

Lemma outcome_bind {A B} (m : prog A) (k : A → prog B) notes b :
  outcome (m ≫= k) notes b → ∃ n1 a n2, notes = n1 ++ n2 ∧ outcome m n1 a ∧ outcome (k a) n2 b.
Proof.
  revert notes. induction m as [a|R c j IH]; intros notes Ho; [by exists [], a, notes|].
  destruct Ho as [r Hr]. destruct (note_of c r) as [n|] eqn:Hn.
  - destruct Hr as (notes' & -> & Hr). destruct (IH r notes' Hr) as (n1 & a & n2 & -> & Hm & Hk).
    exists (n :: n1), a, n2. split_and!; [done| |done]. exists r. rewrite Hn. eauto.
  - destruct (IH r notes Hr) as (n1 & a & n2 & -> & Hm & Hk). exists n1, a, n2. split_and!; [done| |done].
    exists r. by rewrite Hn.
Qed.

Lemma outcome_silent {A} (p : prog A) notes a : only (@open_call) p → outcome p notes a → notes = [].
Proof.
  revert notes. induction p as [b|R c k IH]; intros notes Hp Ho; [by destruct Ho|]. destruct Hp as [Hc Hk], Ho as [r Hr].
  assert (note_of c r = None) as Hn by by destruct c. rewrite Hn in Hr. by eapply IH.
Qed.

Lemma outcome_fail {A} bindings cause code notes (r : result A) :
  outcome (fail bindings cause code) notes r →
  ∃ answer, notes = [Reported failed_event (go_obj [("bindings", bindings); ("error_code", JStr code)]) answer] ∧
    r = Err (default cause answer).
Proof.
  unfold fail. intros (n1 & a & n2 & -> & Hm & Hk)%outcome_bind. destruct Hm as [e (n' & -> & -> & ->)].
  destruct e as [e|]; destruct Hk as [-> ->]; eauto.
Qed.

(** The failures that are reported, and how. *)
Definition failure_noted (snapshot : Snapshot) (notes : list note) (e : go_error) : Prop :=
  notes = [Canceled e] ∨
  ∃ code answer, notes = [Reported failed_event (go_obj [("bindings", receipt snapshot); ("error_code", JStr code)]) answer] ∧
    (answer = None ∨ answer = Some e).

Lemma outcome_or_report {A B} snapshot code (m : prog (result A)) (k : A → prog (result B)) notes r :
  only (@open_call) m → outcome (or_report (receipt snapshot) code m k) notes r →
  (∃ a, outcome (k a) notes r) ∨ (∃ e, r = Err e ∧ failure_noted snapshot notes e).
Proof.
  intros Hm. unfold or_report. intros (n1 & a & n2 & -> & Ho & Hk)%outcome_bind.
  rewrite (outcome_silent _ _ _ Hm Ho). destruct a as [a|e]; [by left; exists a|right].
  apply outcome_fail in Hk as (answer & -> & ->). exists (default e answer). split; [done|].
  right. exists code, answer. split; [done|]. destruct answer; auto.
Qed.

Lemma outcome_place_all snapshot a directory shared bundles acc notes r :
  outcome (place_all (receipt snapshot) a directory shared bundles acc) notes r →
  (∃ x, r = Ok x ∧ notes = []) ∨ (∃ e, r = Err e ∧ failure_noted snapshot notes e).
Proof.
  revert acc notes. induction bundles as [|[v c] bundles IH]; intros acc notes; cbn [place_all].
  { intros [-> ->]. left. eauto. }
  intros (n1 & x & n2 & -> & Hc & Hk)%outcome_bind. destruct Hc as [y Hy]. destruct y as [e|].
  - destruct Hy as (n' & -> & -> & ->). destruct Hk as [-> ->]. right. exists e. split; [done|]. by left.
  - destruct Hy as [-> ->]. apply outcome_or_report in Hk.
    + destruct Hk as [[[relative copied] Hk]|Hk]; [by eapply IH|by right].
    + eapply only_impl, calls_place. intros R c0. apply cache_open.
Qed.

(** A load that gets as far as the cache: the snapshot is accepted and not empty,
    the run is trusted, its Agent is named and it has an event channel. *)
Definition reportable (req : Request) (provider : string) (snapshot : Snapshot) : Prop :=
  ∃ value bundles, rq_Snapshot req = Some value ∧ Decode value provider = Ok (snapshot, bundles) ∧ bundles ≠ [] ∧
    rq_Trusted req = true ∧ packageIDPattern (rq_AgentID req) = true ∧ rq_Emit req = true.

(** a load reports exactly once.  However the system, git and the callbacks
    answer, a load that got as far as the cache ends in one of four ways: it succeeds
    and has emitted just the loaded event, accepted by the channel; it fails and has
    emitted just the failed event, its error the cause or the channel's own; it fails
    with the error with which the channel refused the loaded event; or it was canceled
    and nothing was emitted.  Any other load emits nothing. *)
Theorem load_reported_once req provider workspace cache notes r :
  outcome (Load req provider workspace cache) notes r →
  (∀ snapshot, reportable req provider snapshot →
     let bindings := receipt snapshot in
     let loaded_note := Reported loaded_event (go_obj [("bindings", bindings)]) in
     match r with
     | Ok _ => notes = [loaded_note None]
     | Err e => notes = [loaded_note (Some e)] ∨ failure_noted snapshot notes e
     end) ∧
  ((∀ snapshot, ¬ reportable req provider snapshot) → notes = []).
Proof.
  unfold Load. destruct (rq_Snapshot req) as [value|] eqn:Hsn.
  2:{ intros [-> ->]. split; [|done]. intros snapshot (v & b & ? & _). congruence. }
  destruct (Decode value provider) as [[snapshot bundles]|e] eqn:Hdec.
  2:{ intros [-> ->]. split; [|done]. intros sn (v & b & ? & ? & _). congruence. }
  assert (∀ sn, reportable req provider sn → sn = snapshot ∧ bundles ≠ [] ∧ rq_Trusted req = true ∧
    packageIDPattern (rq_AgentID req) = true ∧ rq_Emit req = true) as Hrep.
  { intros sn (v & b & H1 & H2 & H3 & H4). rewrite Hsn in H1. injection H1 as <-. rewrite Hdec in H2.
    apply Ok_inj in H2. injection H2 as -> ->. auto. }
  destruct bundles as [|c0 cs0] eqn:Hbundles.
  { intros [-> ->]. split; [|done]. by intros sn (_ & ? & _)%Hrep. }
  rewrite <-Hbundles in *. assert (bundles ≠ []) as Hne by by rewrite Hbundles. clear c0 cs0 Hbundles.
  destruct (rq_Trusted req) eqn:Htr, (packageIDPattern (rq_AgentID req)) eqn:Hid; cbn [negb orb];
    try (intros [-> ->]; split; [by intros sn (_ & _ & ? & ? & _)%Hrep|done]).
  destruct (rq_Emit req) eqn:Hem; cbn [negb]; [|intros [-> ->]; split; [by intros sn (_ & _ & _ & _ & ?)%Hrep|done]].
  intros Ho. split; [|intros Hno; destruct (Hno snapshot); by exists value, bundles].
  intros sn [-> _]%Hrep. cbv zeta in *. revert Ho. destruct (collect_commands _ _) as [commands|].
  2:{ intros (answer & -> & ->)%outcome_fail. right. right. eexists _, answer. split; [done|]. destruct answer; auto. }
  intros [[[] Ho]|(e & -> & He)]%outcome_or_report; [|by right|apply calls_check].
  apply outcome_or_report in Ho as [[directory Ho]|(e & -> & He)]; [|by right|apply calls_open_cache].
  unfold or_fail in Ho. apply outcome_bind in Ho as (n1 & x & n2 & -> & Hp & Hk).
  apply outcome_place_all in Hp as [(y & -> & ->)|(e & -> & He)].
  - apply outcome_bind in Hk as (n3 & answer & n4 & -> & Hm & Hk). destruct Hm as [z (n' & -> & -> & ->)].
    destruct z as [e|]; destruct Hk as [-> ->]; [by left|done].
  - destruct Hk as [-> ->]. rewrite app_nil_r. by right.
Qed.

(** ** The repository *)

(** Files of the workspace only grow: a file keeps its kind and mode and what it had
    stays in front. *)
Definition grown (i i' : inode) : Prop :=
  i_kind i' = i_kind i ∧ i_perm i' = i_perm i ∧ ∃ added, i_content i' = i_content i +:+ added.
Definition grows (t t' : filesystem) : Prop := ∀ x i, t !! x = Some i → ∃ i', t' !! x = Some i' ∧ grown i i'.

Lemma grown_refl i : grown i i.
Proof. split_and!; [done..|]. exists "". by rewrite str_app_nil_r. Qed.
Lemma grows_refl t : grows t t.
Proof. intros x i Hx. exists i. split; [done|apply grown_refl]. Qed.
Lemma grows_trans t1 t2 t3 : grows t1 t2 → grows t2 t3 → grows t1 t3.
Proof.
  intros H1 H2 x i Hx. destruct (H1 x i Hx) as (j & Hj & Hk & Hp & s & Hs). destruct (H2 x j Hj) as (k & Hk' & Hk2 & Hp2 & s2 & Hs2).
  exists k. split; [done|]. split_and!; [congruence..|]. exists (s +:+ s2). by rewrite Hs2, Hs, str_app_assoc.
Qed.
Lemma grows_new t p i : t !! p = None → grows t (<[p := i]> t).
Proof.
  intros Hp x j Hx. exists j. split; [|apply grown_refl]. rewrite lookup_insert_ne; [done|]. congruence.
Qed.

Lemma grows_make_all o perm t dirs r t' : make_all o perm t dirs = (r, t') → grows t t'.
Proof.
  revert t. induction dirs as [|d dirs IH]; intros t; cbn [make_all]; [intros [= <- <-]; apply grows_refl|].
  destruct (t !! d) as [i|] eqn:Hd.
  - destruct (i_kind i); try (intros [= <- <-]; apply grows_refl). apply IH.
  - intros H. eapply grows_trans; [by apply grows_new|by eapply IH].
Qed.

Section Repository.
Context {RO : RangeOrder string inode}.

(** The calls of a load, in the repository. *)
Definition repository_call {R} (c : call R) : Prop :=
  match c with
  | Mkdir Work _ _ | Chmod Work _ _ | OpenExcl Work _ _ | Link Work _ _ | Remove Work _ | FChmod Work _ _ | FWrite Work _ _ => False
  | _ => True
  end.

Lemma exec_grows {R} (c : call R) o w r w' : repository_call c → exec o c w = (r, w') → grows (w_work w) (w_work w').
Proof.
  intros Hc He.
  destruct c as [s p|s p|s p perm|s p perm|s p mode|s p perm|s p perm|s p q|s p|s p mode|s p text|s p text
    |s p|s|s n| |p|p|p|p| | |argv env| | |names|ev pl]; try destruct s; cbn in Hc, He; try done; unfold on in He; cbn [tree] in He;
    try (by simplify_eq; apply grows_refl); try (by repeat case_match; simplify_eq; apply grows_refl).
  - destruct (fault_error o); simplify_eq; [apply grows_refl|]. case_bool_decide; simplify_eq; [apply grows_refl|].
    destruct (make_all _ _ _ _) eqn:Hm. simplify_eq. by eapply grows_make_all.
  - destruct (open_append _ _ _ _) eqn:Hm. simplify_eq. unfold open_append in Hm. cbn [w_work set_tree].
    repeat case_match; simplify_eq; try apply grows_refl. by apply grows_new.
  - destruct (write _ _ _ _ _) eqn:Hm. simplify_eq. unfold write in Hm. cbn [w_work set_tree].
    assert (∀ part, grows (w_work w) (alter (λ i, with_content (i_content i +:+ part) i) p (w_work w))) as Ha.
    { intros part x i Hx. destruct (decide (x = p)) as [->|Hne].
      - exists (with_content (i_content i +:+ part) i). split; [by rewrite lookup_alter_eq, Hx|]. split_and!; [done..|]. by exists part.
      - exists i. split; [by rewrite lookup_alter_ne|apply grown_refl]. }
    destruct (o_fault o) as [[m n]|]; simplify_eq; apply Ha.
Qed.

Lemma calls_Load req provider workspace cache : only (@repository_call) (Load req provider workspace cache).
Proof.
  assert (∀ bindings a directory shared bundles acc,
    only (@repository_call) (place_all bindings a directory shared bundles acc)) as Hplace.
  { intros bindings a directory shared. induction bundles as [|[v c] bundles IH]; intros acc; cbn [place_all]; [done|].
    assert (only (@repository_call) (place a shared v c)) as Hp.
    { eapply only_impl, calls_place. intros R c0. by destruct c0 as [[]|[]|[]|[]|[]|[]|[]|[]|[]|[]|[]|[]|[]|[]|[]| | | | | | | | | | | |]. }
    walk_calls. }
  assert (∀ R (c : call R), open_call c → repository_call c) as Himpl.
  { intros R c0. by destruct c0 as [[]|[]|[]|[]|[]|[]|[]|[]|[]|[]|[]|[]|[]|[]|[]| | | | | | | | | | | |]. }
  assert (only (@repository_call) (open_cache cache workspace)) as Hopen by (eapply only_impl, calls_open_cache; apply Himpl).
  assert (∀ h l, only (@repository_call) (check_required h l)) as Hcheck by (intros; eapply only_impl, calls_check; apply Himpl).
  unfold Load. walk_calls.
Qed.
End Repository.

(** ** The theorems on concurrent loads *)

Record load_call := { lc_Request : Request; lc_provider : string; lc_workspace : string; lc_cache : CacheConfig }.
Definition start (l : load_call) : prog (result Result) := Load (lc_Request l) (lc_provider l) (lc_workspace l) (lc_cache l).

(** C21: any number of loads, of any Agents and packages, share one cache safely.
    However their system calls interleave and whichever of them fail: a file that was
    in the cache is never replaced, altered or removed (only the ignore marker is, and
    directories get their modes), the files of the repository at most grow at the end,
    and whenever a load has succeeded, every file of every package it returns is in
    the cache as a regular file with exactly the content pinned by the digest. *)
Theorem loads_share_cache {RO : RangeOrder string inode} (loads : list load_call) w0 ps w :
  Forall (λ l, well_named (lc_Request l) (lc_provider l)) loads →
  rtc pstep (map start loads, w0) (ps, w) →
  (∀ x i, x ≠ ".gitignore" → w_cache w0 !! x = Some i → ∃ i', w_cache w !! x = Some i' ∧ same i i') ∧
  grows (w_work w0) (w_work w) ∧
  ∀ n l res, loads !! n = Some l → ps !! n = Some (Ret (Ok res)) → loaded (lc_Request l) (lc_provider l) res (w_cache w).
Proof.
  intros Hwell Hr.
  pose (posts := map (λ l (r : result Result) t, ∀ res, r = Ok res → loaded (lc_Request l) (lc_provider l) res t) loads).
  assert (pool_ok (w_cache w0) posts (map start loads) (replicate (length loads) ∅) (w_cache w0)) as Hok.
  { constructor.
    - intros n p own Q Hp Ho HQ. apply list_lookup_fmap_Some in Hp as (l & -> & Hl), HQ as (l' & -> & Hl'). simplify_eq.
      apply lookup_replicate in Ho as [-> _]. eapply good_conseq, at_Load; [by intros a _ t [_ Ha]|].
      rewrite list.Forall_lookup in Hwell. by eapply Hwell.
    - unfold posts. by rewrite length_replicate, !List.length_map.
    - intros n own [-> _]%lookup_replicate. split; intros x Hx; set_solver.
    - intros n m o1 o2 _ [-> _]%lookup_replicate [-> _]%lookup_replicate. set_solver.
    - apply keeps_refl. }
  destruct (pool_reach _ _ _ _ _ _ _ Hok Hr) as (owns & [Hgood [Hl1 Hl2] _ _ Hinit]). split_and!.
  - intros x i Hx. by apply Hinit.
  - assert (Forall (only (@repository_call)) (map start loads)) as Hcalls.
    { apply Forall_fmap, list.Forall_true. intros l. apply calls_Load. }
    clear -Hr Hcalls. remember (map start loads, w0) as s eqn:Hs. remember (ps, w) as s' eqn:Hs'.
    revert Hs Hcalls. generalize (map start loads) as qs. revert w0.
    induction Hr as [|s s1 s' Hstep Hr IH]; intros w0 qs -> Hc; [simplify_eq; apply grows_refl|].
    inversion Hstep as [n R c k o r qs' v v' Hn He]; subst. destruct (list.Forall_lookup_1 _ _ _ _ Hc Hn) as [Hcc Hk].
    eapply grows_trans; [by eapply exec_grows|]. eapply IH; [done..|]. apply list.Forall_insert; [done|apply Hk].
  - intros n l res Hl Hp. destruct (lookup_lt_is_Some_2 owns n) as [own Ho]; [rewrite Hl1; by eapply lookup_lt_Some|].
    assert (posts !! n = Some (λ (r : result Result) t, ∀ res, r = Ok res → loaded (lc_Request l) (lc_provider l) res t)) as HQ.
    { apply list_lookup_fmap_Some. by exists l. }
    exact (Hgood n _ own _ Hp Ho HQ _ (keeps_refl _ _) res eq_refl).
Qed.

(** ** One load alone *)
Section Alone.
Context {RO : RangeOrder string inode}.

(** A run is a sequence of steps of its program in the pool. *)
Lemma run_steps {A} answers i (p : prog A) w a w' n ps :
  run answers i p w = (a, w') → ps !! n = Some p → rtc pstep (ps, w) (<[n := Ret a]> ps, w').
Proof.
  revert i w ps. induction p as [b|R c k IH]; intros i w ps Hrun Hn; cbn [run] in Hrun.
  - injection Hrun as -> ->. by rewrite list_insert_id.
  - destruct (exec (answers i) c w) as [r w1] eqn:He. eapply rtc_l; [by eapply pstep_call|].
    specialize (IH r (S i) w1 (<[n := k r]> ps) Hrun). rewrite list_insert_insert_eq in IH. apply IH.
    apply list_lookup_insert_eq. by eapply lookup_lt_Some.
Qed.

Lemma run_outcome {A} answers i (p : prog A) w : ∃ notes, outcome p notes (run answers i p w).1.
Proof.
  revert i w. induction p as [b|R c k IH]; intros i w; cbn [run outcome]; [by exists []|].
  destruct (exec (answers i) c w) as [r w1]. destruct (IH r (S i) w1) as [notes Ho].
  destruct (note_of c r) as [note|] eqn:Hn; [exists (note :: notes)|exists notes]; exists r; rewrite Hn; eauto.
Qed.
End Alone.

Module LoadExample.
Import SkillExample.

Definition request : Request :=
  {| rq_Snapshot := Some value; rq_AgentID := uuid "9"; rq_Trusted := true; rq_Emit := true; rq_CheckCommands := true |}.
Definition private : CacheConfig := {| cf_Directory := ""; cf_GroupID := 0 |}.

(** Every call succeeds; paths resolve to the workspace. *)
Definition calm (i : nat) : oracle :=
  {| o_fault := None; o_umask := octal 0 7 7; o_link := Err ErrNotExist; o_path := Ok "/w";
     o_stat := Ok {| hs_kind := KDirectory; hs_mode := octal 7 0 0; hs_uid := 0; hs_gid := 0 |}; o_euid := 0;
     o_environ := []; o_git := Err (ENew "git"); o_random := "0123456789abcdef"; o_answer := None |}.

Definition empty : world := {| w_cache := ∅; w_work := ∅; w_events := [] |}.

(** An earlier copy of the package that was damaged. *)
Definition skill_path : string := uuid "9" +:+ "/" +:+ digest +:+ "/SKILL.md".
Definition damaged : world :=
  {| w_cache := <[skill_path := {| i_kind := KRegular; i_perm := octal 6 0 0; i_owned := true; i_content := "tampered" |}]>
                (<[uuid "9" +:+ "/" +:+ digest := new_inode (calm 0) KDirectory (octal 7 0 0)]>
                (<[uuid "9" := new_inode (calm 0) KDirectory (octal 7 0 0)]> ∅));
     w_work := ∅; w_events := [] |}.

Definition directories (r : result Result) : list string :=
  match r with Ok res => map p_Directory (rs_Packages res) | Err _ => [] end.

Example load_places :
  let '(r, w) := run calm 0 (Load request "codex" "/w" private) empty in
  directories r = ["/w/" +:+ uuid "9" +:+ "/" +:+ digest] ∧
  (i_content <$> w_cache w !! skill_path) = Some "Review the change." ∧ map fst (w_events w) = [loaded_event].
Proof. vm_compute. done. Qed.

(** The damaged tree stays as it is; a fresh copy takes its place. *)
Example load_recovers :
  let '(r, w) := run calm 0 (Load request "codex" "/w" private) damaged in
  directories r = ["/w/" +:+ uuid "9" +:+ "-" +:+ digest +:+ "-recovered-30313233343536373839616263646566"] ∧
  (i_content <$> w_cache w !! skill_path) = Some "tampered".
Proof. vm_compute. done. Qed.

Definition load : load_call :=
  {| lc_Request := request; lc_provider := "codex"; lc_workspace := "/w"; lc_cache := private |}.

Lemma request_well_named : well_named request "codex".
Proof.
  intros v s b [= <-] Hd. rewrite decoded in Hd. apply Ok_inj in Hd. injection Hd as <- <-.
  apply list.Forall_cons. split; [|done]. intros name content Hn. unfold contents, c_Files in Hn.
  apply lookup_insert_Some in Hn as [[<- _]|[_ Hn]]; [by repeat constructor|].
  apply lookup_insert_Some in Hn as [[<- _]|[_ Hn]]; [by repeat constructor|done].
Qed.

Lemma load_succeeds : match (run calm 0 (start load) empty).1 with Ok _ => true | Err _ => false end = true.
Proof. vm_compute. reflexivity. Qed.

Lemma loads_share_cache_witness :
  ∃ res w, rtc pstep ([start load; start load], empty) ([Ret (Ok res); start load], w) ∧ loaded request "codex" res (w_cache w).
Proof.
  pose proof load_succeeds as Hok. destruct (run calm 0 (start load) empty) as [r w] eqn:Hrun.
  destruct r as [res|e]; [|discriminate Hok]. exists res, w.
  pose proof (run_steps calm 0 (start load) empty _ _ 0 [start load; start load] Hrun eq_refl) as Hsteps.
  split; [exact Hsteps|].
  assert (Forall (λ l, well_named (lc_Request l) (lc_provider l)) [load; load]) as Hwell.
  { apply list.Forall_cons. split; [exact request_well_named|]. apply list.Forall_cons. by split; [exact request_well_named|]. }
  pose proof (loads_share_cache [load; load] empty _ _ Hwell Hsteps) as (_ & _ & H).
  exact (H 0%nat load res eq_refl eq_refl).
Defined.

Lemma load_reported_once_witness :
  ∃ notes res, outcome (start load) notes (Ok res) ∧
    notes = [Reported loaded_event (go_obj [("bindings", receipt snapshot)]) None].
Proof.
  pose proof load_succeeds as Hok. destruct (run_outcome calm 0 (start load) empty) as [notes Ho].
  destruct (run calm 0 (start load) empty).1 as [res|e]; [|discriminate Hok]. exists notes, res. split; [exact Ho|].
  refine (proj1 (load_reported_once request "codex" "/w" private notes (Ok res) Ho) snapshot _).
  exists value, [contents]. split; [reflexivity|]. split; [exact decoded|]. split; [discriminate|].
  split; [reflexivity|]. split; [vm_compute; reflexivity|reflexivity].
Defined.
End LoadExample.
