(* ===== verification/CodexHome.v ===== *)
(** * The private home of a Codex process

    pkg/adapters/codexhome/home.go: every attempt runs in a fresh CODEX_HOME below
    the operator's, with links to two rollout directories and one authentication
    file.  Paths are keys of the file system under their cleaned names. *)

From S2P Require Import Prelude GoStrings Json Paths PrivateFiles SessionStore Environment Sandbox Resolve ProviderConfig Isolation.
From stdpp Require Import options.

Open Scope Z_scope.

Definition LauncherEnvironment : string := "OPENLINKER_CODEX_RPC_LAUNCHER".
Definition PrepareEnvironment : string := "OPENLINKER_CODEX_RPC_PREPARE".

(** What the operating system answers. *)
Record home_env := {
  (** [Supported]: the host is not Windows *)
  he_supported : bool;
  (** [os.MkdirAll]: [Some n] fails once the first [n] elements exist *)
  he_mkdirall : string → option nat;
  (** [os.Mkdir] fails otherwise than with [ErrExist] *)
  he_mkdir : string → option go_error;
  (** [os.MkdirTemp] *)
  he_temp : filesystem → string → result string;
  he_symlink : string → bool;
  (** [os.WriteFile]: [Some part] fails and leaves [part] *)
  he_write : option string;
  (** [os.Lstat] works, be it to find nothing *)
  he_lstat : string → bool;
  (** [os.RemoveAll] gets to the entry *)
  he_removeall : string → bool;
}.

Section OS.
Context (he : home_env).

Definition below (dir p : string) : bool := bool_decide (clean_elements dir `prefix_of` clean_elements p).

(** [None]: the file does not exist. *)
Definition Lstat (p : string) (w : world) : result (option inode) :=
  if he_lstat he p then Ok (w_fs w !! Clean p) else Err (ENew "lstat").
Definition MkdirAll (p : string) (w : world) : bool * world :=
  match he_mkdirall he p with
  | None => (true, make_all p w)
  | Some n => (false, make_all (ancestor (clean_elements p) n) w)
  end.
Definition Mkdir (p : string) (w : world) : option go_error * world :=
  match w_fs w !! p, he_mkdir he p with
  | Some _, _ => (None, w)
  | None, Some e => (Some e, w)
  | None, None => (None, set_fs (insert p private_dir) w)
  end.
Definition link_to (target : string) : inode :=
  {| i_kind := KSymlink; i_perm := octal 7 7 7; i_owned := true; i_content := target |}.
Definition Symlink (target p : string) (w : world) : bool * world :=
  match w_fs w !! p with
  | Some _ => (false, w)
  | None => if he_symlink he p then (true, set_fs (insert p (link_to target)) w) else (false, w)
  end.
Definition WriteFile (p raw : string) (w : world) : bool * world :=
  match he_write he with
  | Some part => (false, set_fs (insert p (private_file part)) w)
  | None => (true, set_fs (insert p (private_file raw)) w)
  end.
Definition RemoveAll (dir : string) (w : world) : world :=
  set_fs (filter (λ kv, below dir kv.1 && he_removeall he kv.1 = false)) w.

(** The operator's home. *)
Definition source_home (values : gmap string string) : result string :=
  let variable k := default "" (values !! k) in
  source ← (if bool_decide (variable "CODEX_HOME" = "") then
              let home := if bool_decide (variable "HOME" = "") then variable "USERPROFILE" else variable "HOME" in
              if bool_decide (home = "") then Err (ENew "Codex isolation requires HOME or CODEX_HOME")
              else Ok (JoinPath [home; ".codex"])
            else Ok (variable "CODEX_HOME"));
  if IsAbs source then Ok source else Err (ENew "Codex home must be absolute").

Definition private_state (r : result (option inode)) : bool :=
  match r with Ok (Some i) => is_directory i && owner_only i && i_owned i | _ => false end.
Definition own_source (r : result (option inode)) : bool :=
  match r with Ok (Some i) => is_directory i && negb (group_writable i) && i_owned i | _ => false end.
Definition own_auth (i : inode) : bool :=
  is_regular i && owner_only i && i_owned i && negb (Z.shiftl 1 20 <? slen (i_content i)).

(** [privateDirectory] of home.go *)
Definition check_private (p : string) : stM world unit := λ w,
  (if private_state (Lstat p w) then Ok tt
   else Err (ENew "isolated Codex state must be an owner-only non-symlink directory"), w).

Definition rollouts : list string := ["sessions"; "archived_sessions"].
Fixpoint state_directories (root : string) (names : list string) : stM world unit := λ w,
  match names with
  | [] => (Ok tt, w)
  | name :: names' =>
      let p := JoinPath [root; name] in
      match Mkdir p w with
      | (Some e, w1) => (Err e, w1)
      | (None, w1) => (check_private p ≫= λ _, state_directories root names') w1
      end
  end.
Fixpoint link_rollouts (root home : string) (names : list string) : stM world unit := λ w,
  match names with
  | [] => (Ok tt, w)
  | name :: names' =>
      match Symlink (JoinPath [root; name]) (JoinPath [home; name]) w with
      | (false, w1) => (Err (ENew "link isolated Codex rollouts (symlink support is required)"), w1)
      | (true, w1) => link_rollouts root home names' w1
      end
  end.

Definition max_key : Z := 32768.
Definition key_document (key : string) : string := marshal (go_obj [("OPENAI_API_KEY", JStr key)]).

(** The authentication of the attempt: a private file for an API key, else a link
    to the operator's checked one, if there is one. *)
Definition authentication (source home key : string) : stM world unit := λ w,
  if negb (bool_decide (key = "")) then
    if max_key <? slen key then (Err (ENew "Codex API key exceeds size limit"), w)
    else match WriteFile (JoinPath [home; "auth.json"]) (key_document key) w with
         | (false, w1) => (Err (ENew "prepare private Codex API-key authentication"), w1)
         | (true, w1) => (Ok tt, w1)
         end
  else
    let auth := JoinPath [source; "auth.json"] in
    match Lstat auth w with
    | Err _ => (Err (ENew "inspect native Codex authentication"), w)
    | Ok None => (Ok tt, w)
    | Ok (Some i) =>
        if negb (own_auth i) then (Err (ENew "native Codex auth must be an owner-only regular non-symlink file"), w)
        else match Symlink auth (JoinPath [home; "auth.json"]) w with
             | (false, w1) => (Err (ENew "link native Codex authentication"), w1)
             | (true, w1) => (Ok tt, w1)
             end
    end.

(** The entries the process keeps. *)
Definition home_entry (entry : string) : bool :=
  negb (bool_decide ((Cut entry "=").1.1 ∈ ["CODEX_HOME"; PrepareEnvironment; LauncherEnvironment])).

Definition state_root (source : string) : string := JoinPath [source; "openlinker-rpc-v1"].

(** Up to the temporary directory: the source, the state directory and a fresh home. *)
Definition open_home (environment : list string) : stM world (string * string * string) := λ w,
  if negb (he_supported he)
  then (Err (ENew "isolated Codex app-server requires a POSIX host; Windows DACL isolation is not implemented"), w)
  else
    match source_home (env_values environment) with
    | Err e => (Err e, w)
    | Ok source =>
        let '(made, w1) := MkdirAll source w in
        if negb made then (Err (ENew "create native Codex home"), w1)
        else if negb (own_source (Lstat source w1))
        then (Err (ENew "native Codex home must be an owned directory without shared write access"), w1)
        else
          let root := state_root source in
          let '(made, w2) := MkdirAll root w1 in
          if negb made then (Err (ENew "create isolated Codex state directory"), w2)
          else
            match (check_private root ≫= λ _, state_directories root rollouts) w2 with
            | (Err e, w3) => (Err e, w3)
            | (Ok _, w3) =>
                match he_temp he (w_fs w3) root with
                | Err e => (Err e, w3)
                | Ok home => (Ok (source, root, home), set_fs (insert home private_dir) w3)
                end
            end
    end.

(** [Prepare]; the second result is the home that the returned function removes. *)
Definition Prepare (environment : list string) : stM world (list string * string) := λ w,
  match open_home environment w with
  | (Err e, w1) => (Err e, w1)
  | (Ok (source, root, home), w1) =>
      match (link_rollouts root home rollouts ≫= λ _,
             authentication source home (default "" (env_values environment !! "CODEX_API_KEY"))) w1 with
      | (Err e, w2) => (Err e, RemoveAll home w2)
      | (Ok _, w2) => (Ok (List.filter home_entry environment ++ ["CODEX_HOME=" +:+ home], home), w2)
      end
  end.
End OS.

(** ** What [Prepare] does to the file system *)

(** [os.MkdirTemp] makes a new name in the directory it is given: nothing is at or
    below it. *)
Definition fresh_temp (he : home_env) : Prop :=
  ∀ fs dir p, he_temp he fs dir = Ok p →
    ∃ n, component n ∧ p = JoinPath [dir; n] ∧ ∀ q, is_Some (fs !! q) → below p q = false.

(** From [w] to [w'] only the tree of [home] changed. *)
Definition only_below (home : string) (w w' : world) : Prop :=
  w_locked w' = w_locked w ∧ ∀ q, below home q = false → w_fs w' !! q = w_fs w !! q.
#[export] Instance only_below_preorder home : PreOrder (only_below home).
Proof.
  split; [by split|]. intros w1 w2 w3 [L1 H1] [L2 H2]. split; [congruence|]. intros q Hq. by rewrite H2, H1.
Qed.
Lemma only_below_insert home p i w : below home p = true → only_below home w (set_fs (insert p i) w).
Proof. intros Hp. split; [done|]. intros q Hq. simpl. rewrite lookup_insert_ne; [done|]. intros ->. congruence. Qed.

Lemma below_child home n : IsAbs home = true → component n → below home (JoinPath [home; n]) = true.
Proof. intros Ha Hn. unfold below. destruct (join_child home n Ha Hn) as [_ ->]. apply bool_decide_eq_true. by eexists. Qed.
Lemma below_self home : below home home = true.
Proof. apply bool_decide_eq_true. done. Qed.

Section Props.
Context (he : home_env).

Lemma MkdirAll_grows p w : grows w (MkdirAll he p w).2.
Proof. unfold MkdirAll. destruct (he_mkdirall he p); apply make_all_grows. Qed.
Lemma Mkdir_grows p w : grows w (Mkdir he p w).2.
Proof.
  unfold Mkdir. destruct (w_fs w !! p) eqn:Hp; [done|]. destruct (he_mkdir he p); [done|]. by apply grows_insert.
Qed.

Lemma check_private_spec p w r w' :
  check_private he p w = (r, w') → w' = w ∧ (r = Ok tt → Clean p = p → private_at w p).
Proof.
  unfold check_private. destruct (private_state (Lstat he p w)) eqn:Hp; intros [= <- <-]; (split; [done|]); [|done].
  intros _ Hc. revert Hp. unfold Lstat. destruct (he_lstat he p); [|done]. rewrite Hc. cbn [private_state].
  destruct (w_fs w !! p) as [i|] eqn:Hi; [|done]. intros H. go_bool. by exists i.
Qed.

Lemma clean_join dir n : IsAbs dir = true → component n → Clean (JoinPath [dir; n]) = JoinPath [dir; n].
Proof.
  intros Ha [(Hn & _) _]. rewrite JoinPath_two by (done || by apply abs_nonempty). apply Clean_idempotent.
Qed.

Lemma state_directories_spec root names w r w' :
  IsAbs root = true → Forall component names → state_directories he root names w = (r, w') →
  grows w w' ∧ (r = Ok tt → Forall (λ n, private_at w' (JoinPath [root; n])) names).
Proof.
  intros Ha Hn. revert w. induction Hn as [|n names Hc _ IH]; intros w; cbn [state_directories]; [by intros [= <- <-]|].
  pose proof (Mkdir_grows (JoinPath [root; n]) w) as Hg. destruct (Mkdir he _ w) as [[e|] w1]; cbn [snd] in Hg; [by intros [= <- <-]|].
  unfold mbind, stM_bind. destruct (check_private he _ w1) as [[[]|e] w2] eqn:Hp; apply check_private_spec in Hp as [-> Hp];
    [|by intros [= <- <-]]. intros [Hg' Hr]%IH. split; [by etrans|]. intros Hok. constructor; [|by apply Hr].
  eapply private_at_grows; [done|]. apply Hp; [done|by apply clean_join].
Qed.

Lemma source_home_abs values source : source_home values = Ok source → IsAbs source = true.
Proof. unfold source_home. intros (s & _ & H)%bind_Ok. destruct (IsAbs s) eqn:Hs; by simplify_eq. Qed.

Lemma state_root_abs source : IsAbs source = true → IsAbs (state_root source) = true.
Proof. intros Ha. by apply join_child. Qed.
Lemma rollout_components : Forall component rollouts.
Proof. by repeat constructor. Qed.

(** The operator's home and the state below it were checked. *)
Record checked_state (source : string) (w : world) : Prop := {
  cs_source : ∃ i, w_fs w !! Clean source = Some i ∧ is_directory i = true ∧ group_writable i = false ∧ i_owned i = true;
  cs_root : private_at w (state_root source);
  cs_rollouts : Forall (λ n, private_at w (JoinPath [state_root source; n])) rollouts;
}.

Lemma open_home_spec environment w r w' :
  open_home he environment w = (r, w') →
  match r with
  | Err _ => grows w w'
  | Ok (source, root, home) =>
      ∃ w0, source_home (env_values environment) = Ok source ∧ root = state_root source ∧ grows w w0 ∧
        checked_state source w0 ∧ he_temp he (w_fs w0) root = Ok home ∧ w' = set_fs (insert home private_dir) w0
  end.
Proof.
  unfold open_home. destruct (he_supported he); cbn [negb]; [|by intros [= <- <-]].
  destruct (source_home _) as [source|e] eqn:Hs; [|by intros [= <- <-]].
  pose proof (source_home_abs _ _ Hs) as Ha. pose proof (MkdirAll_grows source w) as Hg1.
  destruct (MkdirAll he source w) as [made w1]. cbn [snd] in Hg1. destruct made; cbn [negb]; [|by intros [= <- <-]].
  destruct (own_source (Lstat he source w1)) eqn:Ho; cbn [negb]; [|by intros [= <- <-]].
  pose proof (MkdirAll_grows (state_root source) w1) as Hg2. destruct (MkdirAll he (state_root source) w1) as [made w2].
  cbn [snd] in Hg2. assert (grows w w2) as Hg by by etrans. destruct made; cbn [negb]; [|by intros [= <- <-]].
  unfold mbind, stM_bind. destruct (check_private he _ w2) as [[[]|e] w3] eqn:Hp; apply check_private_spec in Hp as [-> Hp];
    [|by intros [= <- <-]].
  destruct (state_directories he _ _ w2) as [[[]|e] w3] eqn:Hd;
    apply state_directories_spec in Hd as [Hg3 Hd]; [|by apply state_root_abs|apply rollout_components| |by apply state_root_abs|apply rollout_components];
    (assert (grows w w3) by by etrans); [|by intros [= <- <-]].
  destruct (he_temp he _ _) as [home|e] eqn:Ht; [|by intros [= <- <-]]. intros [= <- <-]. exists w3. split_and!; try done.
  split; [|by eapply private_at_grows, Hp; [exact Hg3|done|apply clean_join]|by apply Hd].
  revert Ho. unfold Lstat. destruct (he_lstat he source); [|done]. cbn [own_source].
  destruct (w_fs w1 !! Clean source) as [i|] eqn:Hi; [|done]. intros Ho. go_bool. exists i. split; [|done].
  apply Hg3, Hg2. done.
Qed.

(** *** The fresh home *)

Lemma link_rollouts_below root home names w r w' :
  IsAbs home = true → Forall component names → link_rollouts he root home names w = (r, w') → only_below home w w'.
Proof.
  intros Ha Hn. revert w. induction Hn as [|n names Hc _ IH]; intros w; cbn [link_rollouts]; [by intros [= <- <-]|].
  unfold Symlink. destruct (w_fs w !! _); [by intros [= <- <-]|]. destruct (he_symlink he _); [|by intros [= <- <-]].
  intros H%IH. etrans; [|exact H]. apply only_below_insert. by apply below_child.
Qed.

Lemma authentication_below source home key w r w' :
  IsAbs home = true → authentication he source home key w = (r, w') → only_below home w w'.
Proof.
  intros Ha. assert (below home (JoinPath [home; "auth.json"]) = true) as Hb by by apply below_child.
  unfold authentication, WriteFile, Symlink. destruct (negb _).
  - destruct (_ <? _); [by intros [= <- <-]|]. destruct (he_write he); intros [= <- <-]; by apply only_below_insert.
  - destruct (Lstat he _ w) as [[i|]|]; [|by intros [= <- <-]..]. destruct (own_auth i); cbn [negb]; [|by intros [= <- <-]].
    destruct (w_fs w !! _); [by intros [= <- <-]|]. destruct (he_symlink he _); intros [= <- <-]; [|done].
    by apply only_below_insert.
Qed.

(** The entry for the authentication, if any, and the whole tree of the home. *)
Definition auth_entry (source key : string) (fs : filesystem) : option inode :=
  if bool_decide (key = "") then (λ _, link_to (JoinPath [source; "auth.json"])) <$> fs !! Clean (JoinPath [source; "auth.json"])
  else Some (private_file (key_document key)).
Definition rollout_links (source home : string) : filesystem :=
  <[JoinPath [home; "archived_sessions"] := link_to (JoinPath [state_root source; "archived_sessions"])]>
  (<[JoinPath [home; "sessions"] := link_to (JoinPath [state_root source; "sessions"])]> {[ home := private_dir ]}).
Definition home_files (source home key : string) (fs : filesystem) : filesystem :=
  match auth_entry source key fs with
  | Some i => <[JoinPath [home; "auth.json"] := i]> (rollout_links source home)
  | None => rollout_links source home
  end.

Lemma link_rollouts_ok source home w r w' :
  link_rollouts he (state_root source) home rollouts (set_fs (insert home private_dir) w) = (Ok r, w') →
  w' = set_fs (λ fs, rollout_links source home ∪ fs) w.
Proof.
  unfold rollouts. cbn [link_rollouts]. unfold Symlink. destruct (w_fs _ !! JoinPath [home; "sessions"]); [done|].
  destruct (he_symlink he _); [|done]. destruct (w_fs _ !! JoinPath [home; "archived_sessions"]); [done|].
  destruct (he_symlink he _); [|done]. intros [= _ <-]. unfold set_fs, rollout_links. cbn. f_equal.
  by rewrite <-!insert_union_l, <-insert_union_singleton_l.
Qed.

Lemma authentication_ok source home key w0 w r w' :
  (∀ p, p = Clean (JoinPath [source; "auth.json"]) → w_fs w !! p = w_fs w0 !! p) →
  authentication he source home key w = (Ok r, w') →
  w' = set_fs (λ fs, match auth_entry source key (w_fs w0) with Some i => <[JoinPath [home; "auth.json"] := i]> fs | None => fs end) w ∧
  (key = "" → ∀ i, w_fs w0 !! Clean (JoinPath [source; "auth.json"]) = Some i → own_auth i = true) ∧ slen key <= max_key.
Proof.
  intros Hsame. unfold authentication, auth_entry, WriteFile, Symlink. case_bool_decide as Hk; cbn [negb].
  - unfold Lstat. destruct (he_lstat he _); [|done]. rewrite (Hsame _ eq_refl). destruct (w_fs w0 !! _) as [i|] eqn:Hi; cbn [fmap option_fmap option_map].
    + destruct (own_auth i) eqn:Ho; cbn [negb]; [|done]. destruct (w_fs w !! _); [done|]. destruct (he_symlink he _); [|done].
      intros [= _ <-]. split_and!; [done| |by subst]. by intros _ i' [= <-].
    + intros [= _ <-]. split_and!; [by destruct w|done|by subst].
  - destruct (max_key <? slen key) eqn:Hl; [done|]. destruct (he_write he); [done|]. intros [= _ <-]. go_bool. done.
Qed.

Lemma removed_grows home w0 w w' :
  (∀ p, he_removeall he p = true) → (∀ q, is_Some (w_fs w0 !! q) → below home q = false) →
  grows w w0 → only_below home w0 w' → grows w (RemoveAll he home w').
Proof.
  intros Hall Hfresh [L K N] [L' H]. unfold RemoveAll. split; simpl; [congruence| |].
  - intros q i Hq%K. apply map_lookup_filter_Some. rewrite H by eauto. split; [done|]. cbn [fst]. by rewrite Hfresh by eauto.
  - intros q i [Hq Hb]%map_lookup_filter_Some. cbn [fst] in Hb. rewrite Hall, andb_true_r in Hb. rewrite H in Hq by done. by apply N.
Qed.
End Props.

(** *** The claim *)

(** The attempt's home: where it is, what is in it, and what the process is told. *)
Record attempt_home (environment : list string) (w w' : world) (environment' : list string) (home : string) : Prop := {
  ah_tree : ∃ source w0 n,
    source_home (env_values environment) = Ok source ∧ grows w w0 ∧ checked_state source w0 ∧
    component n ∧ home = JoinPath [state_root source; n] ∧ (∀ q, is_Some (w_fs w0 !! q) → below home q = false) ∧
    (let key := default "" (env_values environment !! "CODEX_API_KEY") in
     w_locked w' = w_locked w ∧ w_fs w' = home_files source home key (w_fs w0) ∪ w_fs w0 ∧ slen key <= max_key ∧
     (key = "" → ∀ i, w_fs w0 !! Clean (JoinPath [source; "auth.json"]) = Some i → own_auth i = true));
  ah_kept entry : entry ∈ environment → home_entry entry = true → entry ∈ environment';
  ah_entries entry : entry ∈ environment' →
    entry = "CODEX_HOME=" +:+ home ∨
    (entry ∈ environment ∧ env_name entry ∉ ["CODEX_HOME"; PrepareEnvironment; LauncherEnvironment]);
}.

(** C31: A Codex attempt gets a fresh home below the operator's checked one, holding
    exactly two rollout links and the authentication; nothing that existed is
    altered, and after a failure or the cleanup nothing of the home is left. *)
Theorem codex_home_private he environment w r w' :
  fresh_temp he → (∀ p, he_removeall he p = true) → Prepare he environment w = (r, w') →
  match r with
  | Err _ => grows w w'
  | Ok (environment', home) => attempt_home environment w w' environment' home ∧ grows w (RemoveAll he home w')
  end.
Proof.
  intros Hfresh Hall. unfold Prepare. destruct (open_home he environment w) as [[[[source root] home]|e] w1] eqn:Ho;
    apply open_home_spec in Ho; [|by intros [= <- <-]].
  destruct Ho as (w0 & Hs & -> & Hg & Hstate & Ht & ->). pose proof (source_home_abs _ _ Hs) as Ha.
  destruct (Hfresh _ _ _ Ht) as (n & Hn & Hhome & Hq). pose proof (state_root_abs _ Ha) as Hr.
  assert (IsAbs home = true) as Hha by (rewrite Hhome; by apply join_child).
  set (key := default "" _). pose proof (only_below_insert home home private_dir w0 (below_self home)) as Hb0.
  unfold mbind, stM_bind. destruct (link_rollouts he _ home rollouts _) as [[[]|e] w2] eqn:Hl;
    pose proof (link_rollouts_below he _ _ _ _ _ _ Hha rollout_components Hl) as Hb1.
  2:{ intros [= <- <-]. eapply removed_grows; [done|exact Hq|done|]. by etrans. }
  destruct (authentication he source home key w2) as [[[]|e] w3] eqn:Hau;
    pose proof (authentication_below he _ _ _ _ _ _ Hha Hau) as Hb2;
    (assert (only_below home w0 w3) as Hb by (etrans; [exact Hb0|by etrans])).
  2:{ intros [= <- <-]. by eapply removed_grows. }
  intros [= <- <-]. split; [|by eapply removed_grows].
  apply link_rollouts_ok in Hl as ->. apply (authentication_ok he source home key w0) in Hau as (-> & Hauth & Hkey).
  - split.
    + exists source, w0, n. fold key. cbv zeta. split_and!; try done; [apply Hg|]. cbn [w_fs set_fs]. unfold home_files.
      destruct (auth_entry source key (w_fs w0)); [by rewrite insert_union_l|done].
    + intros entry He Hk. apply elem_of_app. left. by apply elem_of_filter_bool.
    + intros entry [[Hk He]%elem_of_filter_bool| ->%list_elem_of_singleton]%elem_of_app; [right|by left].
      unfold home_entry in Hk. go_bool. done.
  - intros p ->. cbn [w_fs set_fs]. assert (below home (Clean (JoinPath [source; "auth.json"])) = false) as Hnb; [|exact (eq_trans (proj2 Hb1 _ Hnb) (proj2 Hb0 _ Hnb))].
    apply bool_decide_eq_false. rewrite clean_elements_Clean. destruct (join_child source "auth.json" Ha) as [_ ->]; [done|].
    rewrite Hhome. destruct (join_child (state_root source) n Hr Hn) as [_ ->].
    destruct (join_child source "openlinker-rpc-v1" Ha) as [_ Her]; [done|]. unfold state_root. rewrite Her.
    intros Hp%prefix_length. rewrite !length_app in Hp. simpl in Hp. lia.
Qed.

(** ** An instance *)
Module HomeExample.

Definition he : home_env :=
  {| he_supported := true; he_mkdirall := λ _, None; he_mkdir := λ _, None;
     he_temp := λ fs dir, if bool_decide (map_Forall (λ q _, below (JoinPath [dir; "attempt-1"]) q = false) fs)
                          then Ok (JoinPath [dir; "attempt-1"]) else Err (ENew "exists");
     he_symlink := λ _, true; he_write := None; he_lstat := λ _, true; he_removeall := λ _, true |}.
Definition login : inode := private_file "{}".
Definition start : world :=
  {| w_fs := {[ "/home/agent/.codex" := private_dir; "/home/agent/.codex/auth.json" := login;
                "/home/agent/.codex/config.toml" := private_file "personal" ]}; w_locked := ∅ |}.
Definition environment : list string := ["HOME=/home/agent"; "CODEX_HOME=/home/agent/.codex"; "PATH=/bin"].
Definition prepared : result (list string * string) := (Prepare he environment start).1.

Lemma fresh : fresh_temp he.
Proof.
  intros fs dir p. cbn. case_bool_decide as Hf; [|done]. intros [= <-]. exists "attempt-1".
  split; [done|]. split; [done|]. intros q [i Hi]. by apply (Hf q i).
Qed.
Lemma home_shape :
  prepared = Ok (["HOME=/home/agent"; "PATH=/bin"; "CODEX_HOME=/home/agent/.codex/openlinker-rpc-v1/attempt-1"],
                 "/home/agent/.codex/openlinker-rpc-v1/attempt-1").
Proof. vm_compute. reflexivity. Qed.

Lemma codex_home_private_witness :
  attempt_home environment start (Prepare he environment start).2
    ["HOME=/home/agent"; "PATH=/bin"; "CODEX_HOME=/home/agent/.codex/openlinker-rpc-v1/attempt-1"]
    "/home/agent/.codex/openlinker-rpc-v1/attempt-1".
Proof.
  pose proof home_shape as Hp. unfold prepared in Hp.
  pose proof (codex_home_private he environment start (Prepare he environment start).1 (Prepare he environment start).2
                fresh (λ _, eq_refl) (surjective_pairing _)) as H.
  rewrite Hp in H. exact (proj1 H).
Defined.
End HomeExample.
