(* ===== verification/CodexLaunch.v ===== *)
(** * Launching the Codex app-server

    pkg/adapters/codexturn/native.go (the command of a native process),
    codex_runtime_files.go (the grants for Codex's sandbox helpers) and codex_rpc.go
    ([runCodexRPC], which hands both to [CodexTurn.Run]). *)

From S2P Require Import Prelude GoStrings Json CodexRpc CodexTurn Paths PrivateFiles SessionStore Environment Sandbox ProviderConfig ToolPolicy CodexHome.
From stdpp Require Import options.

Open Scope Z_scope.

(** The fields of an [exec.Cmd] the sources set. *)
Record Command := { cmd_Path : string; cmd_Args : list string; cmd_Dir : string; cmd_Env : list string }.

(** [codexturn.PreparedCommand]; the cleanup is the home to remove. *)
Record PreparedCommand := {
  pc_Command : option Command; pc_Workspace : string; pc_Cleanup : option string; pc_Track : bool;
}.
Definition no_command : PreparedCommand :=
  {| pc_Command := None; pc_Workspace := ""; pc_Cleanup := None; pc_Track := false |}.

Record NativeCommand := {
  nc_Bin : string; nc_Workspace : string;
  (** [None] is nil *)
  nc_Arguments : option (string → list string);
  nc_Env : option (list string); nc_EnvAllowlist : list string;
}.

(** The host of a native launch. *)
Record native_env := {
  ne_home : home_env;
  ne_abs : string → result string;
  ne_eval : string → result string;
  ne_environ : list string;
  ne_username : string;
}.

Definition codex_allowed : list string :=
  ["CODEX_API_KEY"; "CODEX_HOME"; "HTTP_PROXY"; "HTTPS_PROXY"; "NO_PROXY"; "ALL_PROXY"; "CODEX_CA_CERTIFICATE"; "SSL_CERT_FILE"].

(** The environment before the home is prepared. *)
Definition native_environment (ne : native_env) (environment allowlist : list string) : list string :=
  Environment (ne_username ne) environment (codex_allowed ++ allowlist) ++ ["LC_ALL=C"; "LANG=C"].

(** [PrepareNative] *)
Definition PrepareNative (ne : native_env) (c : NativeCommand) (w : world) : PreparedCommand * option go_error * world :=
  match nc_Arguments c with
  | None => (no_command, Some (ENew "Codex native launch arguments are required"), w)
  | Some arguments =>
      match (absolute ← ne_abs ne (nc_Workspace c); ne_eval ne absolute) with
      | Err e => (no_command, Some (EWrap "resolve Codex workspace: " e ""), w)
      | Ok workspace =>
          let environment := default (ne_environ ne) (nc_Env c) in
          let launcher := bool_decide ((LauncherEnvironment +:+ "=1") ∈ environment) in
          let environment := native_environment ne environment (nc_EnvAllowlist c) in
          let command env := {| cmd_Path := nc_Bin c; cmd_Args := arguments workspace; cmd_Dir := workspace; cmd_Env := env |} in
          let started env cleanup :=
            {| pc_Command := Some (command env); pc_Workspace := workspace; pc_Cleanup := cleanup; pc_Track := true |} in
          if launcher then (started (environment ++ [PrepareEnvironment +:+ "=1"]) None, None, w)
          else
            match Prepare (ne_home ne) environment w with
            | (Err e, w1) => (no_command, Some e, w1)
            | (Ok (environment, home), w1) => (started environment (Some home), None, w1)
            end
      end
  end.

(** ** The grants for the sandbox helpers (codex_runtime_files.go) *)

Inductive looked (A : Type) := Found (a : A) | Missing | Failed.
Global Arguments Found {_} _.
Global Arguments Missing {_}.
Global Arguments Failed {_}.

(** What the file system answers; [ge_Info] is [DirEntry.Info]. *)
Record grant_env := {
  ge_ReadDir : string → looked (list (string * kind));
  ge_Info : string → string → option inode;
  ge_Lstat : string → looked inode;
  ge_Stat : string → looked inode;
  ge_Eval : string → option string;
}.

Definition helper_names : list string := ["codex-linux-sandbox"; "codex-execve-wrapper"; "apply_patch"; "applypatch"].
Definition maxAliasDirs : nat := 1024.

(** The last value of a variable; an entry without "=" sets the empty one. *)
Definition cut_value (name : string) (env : list string) : string :=
  foldl (λ v entry, let '(k, x, _) := Cut entry "=" in if bool_decide (k = name) then x else v) "" env.
Definition alias_root (env : list string) : string :=
  let configHome := if bool_decide (cut_value "CODEX_HOME" env = "") then JoinPath [cut_value "HOME" env; ".codex"]
                    else cut_value "CODEX_HOME" env in
  JoinPath [configHome; "tmp"; "arg0"].

Section grants.
Context (ge : grant_env).

Definition empty_lock (i : option inode) : bool :=
  match i with Some i => is_regular i && bool_decide (i_content i = "") | None => false end.

(** The first loop over an alias directory: nothing but helpers and their lock. *)
Fixpoint check_entries (aliasDir : string) (entries : list (string * kind)) : option go_error :=
  match entries with
  | [] => None
  | (name, _) :: rest =>
      if bool_decide (name ∈ helper_names) then check_entries aliasDir rest
      else if bool_decide (name = ".lock") then
        if empty_lock (ge_Info ge aliasDir name) then check_entries aliasDir rest
        else Some (ENew "unsafe Codex sandbox helper lock")
      else Some (ENew "Codex helper directory contains unexpected data")
  end.

(** The variables of the outer function the loops write. *)
Record grant := { g_files : gmap string string; g_found : bool; g_active : bool }.

(** The second loop: one helper link. *)
Definition grant_helper (aliasDir name : string) (g : grant) : result grant :=
  let path := JoinPath [aliasDir; name] in
  match ge_Lstat ge path with
  | Missing => Ok g
  | Failed => Err (ENew "unsafe Codex runtime helper")
  | Found info =>
      if negb (bool_decide (i_kind info = KSymlink)) then Err (ENew "unsafe Codex runtime helper")
      else
        match ge_Stat ge path with
        | Missing => Ok g
        | Failed => Err (ENew "Codex runtime helper is not executable code")
        | Found target =>
            if negb (is_regular target) || (Z.land (i_perm target) (octal 1 1 1) =? 0)
            then Err (ENew "Codex runtime helper is not executable code")
            else
              match ge_Eval ge path with
              | None => Err (ENew "cannot resolve Codex helper executable")
              | Some resolved =>
                  Ok {| g_files := <[resolved := "read"]> (g_files g); g_active := true;
                        g_found := g_found g || bool_decide (name = "codex-linux-sandbox") |}
              end
        end
  end.
Fixpoint grant_helpers (aliasDir : string) (names : list string) (g : grant) : result grant :=
  match names with
  | [] => Ok g
  | name :: rest => g1 ← grant_helper aliasDir name g; grant_helpers aliasDir rest g1
  end.

Definition alias_prefix : string := "codex-arg0".
(** The body of the loop over the directories. *)
Definition grant_dir (root : string) (entry : string * kind) (g : grant) : result grant :=
  if negb (bool_decide (entry.2 = KDirectory)) || negb (HasPrefix entry.1 alias_prefix) then Ok g
  else
    let aliasDir := JoinPath [root; entry.1] in
    match ge_ReadDir ge aliasDir with
    | Missing => Ok g
    | Failed => Err (ENew "cannot inspect Codex sandbox helper directory")
    | Found entries =>
        match check_entries aliasDir entries with
        | Some e => Err e
        | None =>
            g1 ← grant_helpers aliasDir helper_names {| g_files := g_files g; g_found := g_found g; g_active := false |};
            Ok {| g_files := if g_active g1 then <[aliasDir := "read"]> (g_files g1) else g_files g1;
                  g_found := g_found g1; g_active := g_active g1 |}
        end
    end.
Fixpoint grant_dirs (root : string) (dirs : list (string * kind)) (g : grant) : result grant :=
  match dirs with
  | [] => Ok g
  | dir :: rest => g1 ← grant_dir root dir g; grant_dirs root rest g1
  end.

(** The table of [codexRuntimeFileGrants] *)
Definition runtime_files (env : list string) (base : gmap string string) : result (gmap string string) :=
  let root := alias_root env in
  match ge_ReadDir ge root with
  | Found dirs =>
      if (maxAliasDirs <? length dirs)%nat then Err (ENew "cannot resolve Codex sandbox helper aliases")
      else
        g ← grant_dirs root dirs {| g_files := base; g_found := false; g_active := false |};
        if g_found g then Ok (g_files g) else Err (ENew "Codex did not create its required Linux sandbox helper")
  | _ => Err (ENew "cannot resolve Codex sandbox helper aliases")
  end.

Definition filesystem_key : string := "permissions.openlinker_session.filesystem".
Definition file_table (files : gmap string string) : json := go_obj (map (λ kv, (kv.1, JStr kv.2)) (map_to_list files)).

(** [codexRuntimeFileGrants]: the error, or the override it adds. *)
Definition codexRuntimeFileGrants (env : list string) (base : gmap string string) : result (string * json) :=
  files ← runtime_files env base; Ok (filesystem_key, file_table files).
End grants.

(** ** One turn of the app-server (codex_rpc.go) *)

(** The child process and the client on top of it, as [TurnEnv] without the calls
    [runCodexRPC] supplies; [ho_others] is what other runs and processes did to the
    file system while the turn ran. *)
Class CodexHost (W : Type) := {
  ho_ctx_err : W → option go_error;
  ho_StdinPipe : W → option go_error * W;
  ho_StdoutPipe : W → option go_error * W;
  ho_Start : option Command → W → option go_error * W;
  ho_Track : W → option go_error * W;
  ho_Finish : W → option go_error * W;
  ho_Call : string → json → W → result Message * W;
  ho_Notify : string → W → option go_error * W;
  ho_rounds : W → list pick;
  ho_learn : W → list ipick;
  ho_client_err : W → option go_error;
  ho_grants : W → grant_env;
  ho_others : W → world → world;
}.

Section rpc.
Context `{!Float64, !CodexProtocol, !UnicodePrint} {W : Type} `{!CodexHost W}.
Context (t : tool_env) (ne : native_env).

(** The host, and the variables the closures share: the file system, the prepared
    command with the home to remove, and the overrides. *)
Record launch_state := {
  ls_host : W; ls_world : world; ls_prepared : PreparedCommand; ls_overrides : list (string * json);
}.
Definition on_host {A} (f : W → A * W) (s : launch_state) : A * launch_state :=
  let '(a, h) := f (ls_host s) in
  (a, {| ls_host := h; ls_world := ls_world s; ls_prepared := ls_prepared s; ls_overrides := ls_overrides s |}).

Section turn.
Context (c : ProviderConfig) (bin workspace sandbox_mode : string).

(** The [Prepare] closure. *)
Definition prepare_command (w : world) : PreparedCommand * option go_error * world :=
  match sandbox c with
  | Some s =>
      ({| pc_Command := Some {| cmd_Path := bin; cmd_Args := codexAppServerArguments (te_environ t) c workspace sandbox_mode;
                                cmd_Dir := Workspace c; cmd_Env := host_command_environment t c s |};
          pc_Workspace := workspace; pc_Cleanup := None; pc_Track := true |}, None, w)
  | None =>
      PrepareNative ne {| nc_Bin := bin; nc_Workspace := workspace; nc_Env := Env c; nc_EnvAllowlist := EnvAllowlist c;
                          nc_Arguments := Some (λ cwd, codexAppServerArguments (te_environ t) c cwd sandbox_mode) |} w
  end.
Definition prepare (s : launch_state) : prepared * option go_error * launch_state :=
  let '(p, e, w) := prepare_command (ls_world s) in
  ({| p_command := bool_decide (is_Some (pc_Command p)); p_Workspace := pc_Workspace p;
      p_Cleanup := bool_decide (is_Some (pc_Cleanup p)); p_Track := pc_Track p |}, e,
   {| ls_host := ls_host s; ls_world := w; ls_prepared := p; ls_overrides := ls_overrides s |}).

(** The [before] closure: on Linux the policy of an isolated run needs the grants. *)
Definition before : option (launch_state → option go_error * launch_state) :=
  match toolPolicy c with
  | Some p =>
      if bool_decide (te_GOOS t = "linux") then
        Some (λ s,
          match codexRuntimeFileGrants (ho_grants (ls_host s)) (default [] (Env c)) (tp_codexFilesystem p) with
          | Err e => (Some e, s)
          | Ok override => (None, {| ls_host := ls_host s; ls_world := ls_world s; ls_prepared := ls_prepared s;
                                     ls_overrides := ls_overrides s ++ [override] |})
          end)
      else None
  | None => None
  end.

Definition turn_env : TurnEnv launch_state := {|
  te_ctx_err := λ s, ho_ctx_err (ls_host s);
  te_Prepare := prepare;
  te_StdinPipe := on_host ho_StdinPipe; te_StdoutPipe := on_host ho_StdoutPipe;
  te_Start := λ s, on_host (ho_Start (pc_Command (ls_prepared s))) s;
  te_Track := on_host ho_Track; te_Finish := on_host ho_Finish;
  te_Call := λ method params, on_host (ho_Call method params);
  te_Notify := λ method, on_host (ho_Notify method);
  te_Before := before;
  te_ThreadConfig := ls_overrides;
  te_rounds := λ s, ho_rounds (ls_host s); te_learn := λ s, ho_learn (ls_host s);
  te_client_err := λ s, ho_client_err (ls_host s);
|}.
End turn.

Definition turn_config (c : ProviderConfig) (sandbox_mode sessionID prompt : string) (persistent emit : bool) : CodexTurn.Config :=
  {| c_Prepare := true; c_SessionID := sessionID; c_Prompt := prompt; c_Sandbox := sandbox_mode; c_Model := Model c;
     c_Approval := CodexApproval c; c_Persistent := persistent;
     c_UseConfiguredPermissions := bool_decide (is_Some (toolPolicy c)); c_Observer := true; c_Emit := emit |}.
Definition fresh_turn : hstate := {| final := ""; emitted := []; observed := [] |}.

(** [runCodexRPC]: the outcome of the turn; the private home is removed last. *)
Definition runCodexRPC (c : ProviderConfig) (bin workspace sandbox_mode sessionID prompt : string) (persistent emit : bool)
    (h : W) (w : world) : outcome * list taction * W * world :=
  let start := {| tw := {| ls_host := h; ls_world := w; ls_prepared := no_command; ls_overrides := [] |};
                  acts := []; th := fresh_turn |} in
  let '(o, s) := @CodexTurn.Run _ _ launch_state (turn_env c bin workspace sandbox_mode)
                   (turn_config c sandbox_mode sessionID prompt persistent emit) start in
  let w1 := ho_others (ls_host (tw s)) (ls_world (tw s)) in
  (o, acts s, ls_host (tw s),
   match pc_Cleanup (ls_prepared (tw s)) with Some home => RemoveAll (ne_home ne) home w1 | None => w1 end).
End rpc.
Global Arguments launch_state : clear implicits.

(** ** What is granted *)
Section granted.
Context (ge : grant_env) (root : string).

(** A helper of a readable alias directory: a link to an executable file. *)
Record helper_link (dirs : list (string * kind)) (dir name resolved : string) : Prop := {
  hl_dir : (dir, KDirectory) ∈ dirs;
  hl_prefix : HasPrefix dir alias_prefix = true;
  hl_read : ∃ entries, ge_ReadDir ge (JoinPath [root; dir]) = Found entries;
  hl_name : name ∈ helper_names;
  hl_link : ∃ info, ge_Lstat ge (JoinPath [JoinPath [root; dir]; name]) = Found info ∧ i_kind info = KSymlink;
  hl_target : ∃ target, ge_Stat ge (JoinPath [JoinPath [root; dir]; name]) = Found target ∧ is_regular target = true ∧
                        Z.land (i_perm target) (octal 1 1 1) ≠ 0;
  hl_resolved : ge_Eval ge (JoinPath [JoinPath [root; dir]; name]) = Some resolved;
}.
Definition granted (dirs : list (string * kind)) (p : string) : Prop :=
  ∃ dir name resolved, helper_link dirs dir name resolved ∧ (p = resolved ∨ p = JoinPath [root; dir]).

(** What the loops keep: the table is the base with read grants for helpers. *)
Record grants_ok (dirs : list (string * kind)) (base : gmap string string) (g : grant) : Prop := {
  go_files p : g_files g !! p = base !! p ∨ (g_files g !! p = Some "read" ∧ granted dirs p);
  go_found : g_found g = true → ∃ dir resolved, helper_link dirs dir "codex-linux-sandbox" resolved;
}.

Lemma grants_ok_insert dirs base g p found active :
  grants_ok dirs base g → granted dirs p →
  (found = true → g_found g = true ∨ ∃ dir, helper_link dirs dir "codex-linux-sandbox" p) →
  grants_ok dirs base {| g_files := <[p := "read"]> (g_files g); g_found := found; g_active := active |}.
Proof.
  intros [F O] Hp Hf. split; cbn [g_files g_found].
  - intros q. destruct (decide (p = q)) as [<-|Hq]; [right; by rewrite lookup_insert_eq|]. rewrite lookup_insert_ne by done. apply F.
  - intros H. destruct (Hf H) as [H'|(dir & Hl)]; [by apply O|by exists dir, p].
Qed.

Lemma grant_helper_ok dirs base dir name g g' :
  (dir, KDirectory) ∈ dirs → HasPrefix dir alias_prefix = true → (∃ entries, ge_ReadDir ge (JoinPath [root; dir]) = Found entries) →
  name ∈ helper_names → grants_ok dirs base g →
  (g_active g = true → granted dirs (JoinPath [root; dir])) →
  grant_helper ge (JoinPath [root; dir]) name g = Ok g' →
  grants_ok dirs base g' ∧ (g_active g' = true → granted dirs (JoinPath [root; dir])).
Proof.
  intros Hd Hpre Hre Hn Hg Ha. unfold grant_helper. destruct (ge_Lstat ge _) as [info| |] eqn:Hl; [|by intros [= <-]|done].
  case_bool_decide as Hk; cbn [negb]; [|done]. destruct (ge_Stat ge _) as [target| |] eqn:Hs; [|by intros [= <-]|done].
  destruct (negb (is_regular target) || _) eqn:Ht; [done|]. destruct (ge_Eval ge _) as [resolved|] eqn:He; [|done].
  intros [= <-]. go_bool. assert (helper_link dirs dir name resolved) as Hh by (split; eauto). split.
  - apply (grants_ok_insert dirs base g resolved); [done|exists dir, name, resolved; eauto|].
    intros [?| ->%bool_decide_eq_true]%orb_true_iff; [by left|right; by exists dir].
  - intros _. exists dir, name, resolved. eauto.
Qed.

Lemma grant_helpers_ok dirs base dir names g g' :
  (dir, KDirectory) ∈ dirs → HasPrefix dir alias_prefix = true → (∃ entries, ge_ReadDir ge (JoinPath [root; dir]) = Found entries) →
  Forall (λ n, n ∈ helper_names) names → grants_ok dirs base g →
  (g_active g = true → granted dirs (JoinPath [root; dir])) →
  grant_helpers ge (JoinPath [root; dir]) names g = Ok g' →
  grants_ok dirs base g' ∧ (g_active g' = true → granted dirs (JoinPath [root; dir])).
Proof.
  intros Hd Hpre Hre Hn. revert g. induction Hn as [|n names Hn _ IH]; intros g Hg Ha; cbn [grant_helpers]; [by intros [= <-]|].
  intros (g1 & H1 & H2)%bind_Ok. apply (grant_helper_ok dirs base) in H1 as [Hg1 Ha1]; try done. by apply (IH g1).
Qed.

Lemma grant_dir_ok dirs base entry g g' :
  entry ∈ dirs → grants_ok dirs base g → grant_dir ge root entry g = Ok g' → grants_ok dirs base g'.
Proof.
  intros He Hg. unfold grant_dir. case_bool_decide as Hk; cbn [negb orb]; [|by intros [= <-]].
  destruct (HasPrefix entry.1 alias_prefix) eqn:Hpre; cbn [negb]; [|by intros [= <-]].
  destruct (ge_ReadDir ge _) as [entries| |] eqn:Hre; [|by intros [= <-]|done]. destruct (check_entries ge _ entries); [done|].
  intros (g1 & H1 & [= <-])%bind_Ok.
  apply (grant_helpers_ok dirs base) in H1 as [Hg1 Ha1]; [|by destruct entry; simpl in *; subst|done|by eexists|by apply list.Forall_forall| |done].
  - destruct (g_active g1) eqn:Hact; [|destruct Hg1 as [F O]; split; [exact F|exact O]].
    apply (grants_ok_insert dirs base g1 (JoinPath [root; entry.1])); [done|by apply Ha1|by left].
  - destruct Hg as [F O]. split; [exact F|exact O].
Qed.

Lemma grant_dirs_ok dirs base rest g g' :
  Forall (λ e, e ∈ dirs) rest → grants_ok dirs base g → grant_dirs ge root rest g = Ok g' → grants_ok dirs base g'.
Proof.
  intros Hr. revert g. induction Hr as [|entry rest He _ IH]; intros g Hg; cbn [grant_dirs]; [by intros [= <-]|].
  intros (g1 & H1%(grant_dir_ok dirs base) & H2)%bind_Ok; [|done|done]. by apply (IH g1).
Qed.
(** Conversely no helper link is passed over, and no later step takes a grant back. *)
Definition reads (g : grant) (p : string) : Prop := g_files g !! p = Some "read".

Lemma reads_insert (g : grant) p q : reads g p → <[q := "read"]> (g_files g) !! p = Some "read".
Proof. intros Hp. destruct (decide (q = p)) as [->|Hq]; [by rewrite lookup_insert_eq|by rewrite lookup_insert_ne]. Qed.

Lemma grant_helper_reads dir name g g' :
  grant_helper ge (JoinPath [root; dir]) name g = Ok g' →
  (∀ p, reads g p → reads g' p) ∧ (g_active g = true → g_active g' = true) ∧
  ∀ dirs resolved, helper_link dirs dir name resolved → reads g' resolved ∧ g_active g' = true.
Proof.
  intros H. split; [|split; [|intros dirs resolved [_ _ _ _ (info & Hl & Hk) (target & Hs & Hr & Hx) He]]]; revert H; unfold grant_helper.
  3: rewrite Hl, Hk, Hs, Hr, He, (proj2 (Z.eqb_neq _ _)) by done; intros <-%Ok_inj; split; [apply lookup_insert_eq|done].
  all: destruct (ge_Lstat ge _) as [info| |]; [|by intros <-%Ok_inj|done]; case_bool_decide; cbn [negb]; [|done].
  all: destruct (ge_Stat ge _) as [target| |]; [|by intros <-%Ok_inj|done]; destruct (negb (is_regular target) || _); [done|].
  all: destruct (ge_Eval ge _) as [resolved|]; [|done]; intros <-%Ok_inj; try done.
  intros p Hp. by apply reads_insert.
Qed.

Lemma grant_helpers_reads dir names g g' :
  grant_helpers ge (JoinPath [root; dir]) names g = Ok g' →
  (∀ p, reads g p → reads g' p) ∧ (g_active g = true → g_active g' = true) ∧
  ∀ dirs name resolved, name ∈ names → helper_link dirs dir name resolved → reads g' resolved ∧ g_active g' = true.
Proof.
  revert g. induction names as [|n names IH]; intros g; cbn [grant_helpers].
  - intros <-%Ok_inj. split_and!; [done..|]. by intros dirs name resolved Hn%not_elem_of_nil.
  - intros (g1 & H1 & H2)%bind_Ok. destruct (grant_helper_reads _ _ _ _ H1) as (R1 & A1 & L1), (IH g1 H2) as (R2 & A2 & L2).
    split_and!; [eauto..|]. intros dirs name resolved [->|Hn]%elem_of_cons Hl; [|by eapply L2]. destruct (L1 dirs resolved Hl). eauto.
Qed.

Lemma grant_dir_reads entry g g' :
  grant_dir ge root entry g = Ok g' →
  (∀ p, reads g p → reads g' p) ∧
  ∀ dirs dir name resolved, entry = (dir, KDirectory) → helper_link dirs dir name resolved → reads g' resolved ∧ reads g' (JoinPath [root; dir]).
Proof.
  intros H. assert ((∀ p, reads g p → reads g' p) ∧
    (entry.2 = KDirectory → HasPrefix entry.1 alias_prefix = true → (∃ es, ge_ReadDir ge (JoinPath [root; entry.1]) = Found es) →
     ∀ dirs name resolved, helper_link dirs entry.1 name resolved → reads g' resolved ∧ reads g' (JoinPath [root; entry.1]))) as [R L].
  - revert H. unfold grant_dir. case_bool_decide; cbn [negb orb]; [|by intros <-%Ok_inj]. destruct (HasPrefix entry.1 alias_prefix); cbn [negb]; [|by intros <-%Ok_inj].
    destruct (ge_ReadDir ge _) as [entries| |]; [|intros <-%Ok_inj; split; [done|by intros _ _ [es Hes]]|done].
    destruct (check_entries ge _ entries); [done|]. intros (g1 & H1 & <-%Ok_inj)%bind_Ok. destruct (grant_helpers_reads _ _ _ _ H1) as (R & _ & L).
    split; [intros p Hp%R|intros _ _ _ dirs name resolved Hl; destruct (L dirs name resolved (hl_name _ _ _ _ Hl) Hl) as [Hr Ha]]; unfold reads; cbn [g_files].
    + destruct (g_active g1); [by apply reads_insert|done].
    + rewrite Ha. split; [by apply reads_insert|apply lookup_insert_eq].
  - split; [done|]. intros dirs dir name resolved -> Hl. eapply (L eq_refl); [apply Hl|apply Hl|exact Hl].
Qed.

Lemma grant_dirs_reads rest g g' :
  grant_dirs ge root rest g = Ok g' →
  (∀ p, reads g p → reads g' p) ∧
  ∀ dirs dir name resolved, (dir, KDirectory) ∈ rest → helper_link dirs dir name resolved → reads g' resolved ∧ reads g' (JoinPath [root; dir]).
Proof.
  revert g. induction rest as [|entry rest IH]; intros g; cbn [grant_dirs].
  - intros <-%Ok_inj. split; [done|]. by intros dirs dir name resolved Hn%not_elem_of_nil.
  - intros (g1 & H1 & H2)%bind_Ok. destruct (grant_dir_reads _ _ _ H1) as (R1 & L1), (IH g1 H2) as (R2 & L2).
    split; [eauto|]. intros dirs dir name resolved [<-|Hd]%elem_of_cons Hl; [|by eapply L2].
    destruct (L1 dirs dir name resolved eq_refl Hl). eauto.
Qed.
End granted.

(** C32: The table of the grants for Codex's sandbox helpers says "read" for the
    executable a helper link resolves to and for the directory of such a link,
    whatever the policy said of them, is the policy everywhere else, and exists
    only if the sandbox helper does. *)
Theorem helper_grants_minimal ge env base files :
  runtime_files ge env base = Ok files →
  ∃ dirs, ge_ReadDir ge (alias_root env) = Found dirs ∧ (length dirs <= maxAliasDirs)%nat ∧
    (∀ p, granted ge (alias_root env) dirs p → files !! p = Some "read") ∧
    (∀ p, ¬ granted ge (alias_root env) dirs p → files !! p = base !! p) ∧
    ∃ dir resolved, helper_link ge (alias_root env) dirs dir "codex-linux-sandbox" resolved.
Proof.
  unfold runtime_files. destruct (ge_ReadDir ge _) as [dirs| |] eqn:Hd; [|done..].
  destruct (maxAliasDirs <? length dirs)%nat eqn:Hl; [done|]. intros (g & Hg & Hf)%bind_Ok. destruct (g_found g) eqn:Hfound; simplify_eq.
  go_bool. apply grant_dirs_reads in Hg as Hr. destruct Hr as [_ Hr].
  apply (grant_dirs_ok ge (alias_root env) dirs base) in Hg as [F O]; [|by apply list.Forall_forall|by split; [left|]].
  exists dirs. split; [done|]. split; [done|]. split_and!; [|by intros p Hp; destruct (F p) as [?|[_ ?]]|by apply O].
  intros p (dir & name & resolved & Hlink & [->| ->]); by eapply (Hr dirs dir name resolved (hl_dir _ _ _ _ _ _ Hlink)).
Qed.

(** ** A concrete table of grants *)
Module LaunchExample.
Definition env : list string := ["HOME=/home/agent"].
Definition aliases : string := "/home/agent/.codex/tmp/arg0".
Definition alias_dir : string := "/home/agent/.codex/tmp/arg0/codex-arg0xyz".
Definition helper : string := "/home/agent/.codex/tmp/arg0/codex-arg0xyz/codex-linux-sandbox".
Definition node (k : kind) (perm : Z) : inode := {| i_kind := k; i_perm := perm; i_owned := true; i_content := "" |}.
Definition host : grant_env := {|
  ge_ReadDir := λ p, if bool_decide (p = aliases) then Found [("codex-arg0xyz", KDirectory); ("other", KDirectory)]
                     else if bool_decide (p = alias_dir) then Found [(".lock", KRegular); ("codex-linux-sandbox", KSymlink)]
                     else Missing;
  ge_Info := λ _ _, Some (node KRegular (octal 6 0 0));
  ge_Lstat := λ p, if bool_decide (p = helper) then Found (node KSymlink (octal 7 7 7)) else Missing;
  ge_Stat := λ p, if bool_decide (p = helper) then Found (node KRegular (octal 7 5 5)) else Missing;
  ge_Eval := λ p, if bool_decide (p = helper) then Some "/usr/bin/codex" else None;
|}.
Definition policy : gmap string string := {["/workspace" := "write"]}.
Definition table : gmap string string := {["/workspace" := "write"; "/usr/bin/codex" := "read"; alias_dir := "read"]}.

(** A rule of the policy at the target of a helper becomes read access. *)
Example write_becomes_read :
  (λ files, files !! "/usr/bin/codex") <$> match runtime_files host env {["/usr/bin/codex" := "write"]} with Ok f => Some f | Err _ => None end
  = Some (Some "read").
Proof. vm_compute. reflexivity. Qed.
(** Without a helper link nothing is granted and the turn does not start. *)
Example no_helper :
  runtime_files {| ge_ReadDir := λ p, if bool_decide (p = aliases) then Found [] else Missing; ge_Info := ge_Info host;
                   ge_Lstat := ge_Lstat host; ge_Stat := ge_Stat host; ge_Eval := ge_Eval host |} env policy
  = Err (ENew "Codex did not create its required Linux sandbox helper").
Proof. vm_compute. reflexivity. Qed.

Lemma helper_grants_minimal_witness :
  runtime_files host env policy = Ok table ∧
  ∃ dirs, ge_ReadDir host (alias_root env) = Found dirs ∧ (length dirs <= maxAliasDirs)%nat ∧
    (∀ p, granted host (alias_root env) dirs p → table !! p = Some "read") ∧
    (∀ p, ¬ granted host (alias_root env) dirs p → table !! p = policy !! p) ∧
    ∃ dir resolved, helper_link host (alias_root env) dirs dir "codex-linux-sandbox" resolved.
Proof.
  assert (runtime_files host env policy = Ok table) as E by (vm_compute; reflexivity).
  split; [exact E|]. exact (helper_grants_minimal host env policy table E).
Defined.
End LaunchExample.
