(* ===== verification/ProviderRunProps.v ===== *)
(** * Claims about provider runs

    What [CodexProvider.Run] and [ClaudeProvider.Run] (ProviderRun) do in order:
    what is held when, how often a client is started, which failures are returned
    and which session the next run resumes. *)

From S2P Require Import Prelude GoStrings Sha256 Json JsonRoundtrip ProviderOutput ProviderStream CodexRpc CodexTurn NodeHandler Paths PrivateFiles SessionStore Environment Sandbox ProviderConfig ToolPolicy Isolation SkillDecode SkillCache SkillCacheProps CodexHome CodexLaunch ProviderRun.
From stdpp Require Import options.

Open Scope Z_scope.

(** ** What a run does, in order *)

(** [e] is [e'] or one of the errors it was made from. *)
Inductive carries (e : go_error) : go_error → Prop :=
  | carries_self : carries e e
  | carries_wrap pre e' post : carries e e' → carries e (EWrap pre e' post)
  | carries_join es e' : e' ∈ es → carries e e' → carries e (EJoin es).

Lemma carries_Is e e' t : carries e e' → errors_Is e t = true → errors_Is e' t = true.
Proof.
  intros Hc Ht. induction Hc as [|pre e' post _ IH|es e' Hin _ IH]; [done|by apply errors_Is_wrap|by eapply errors_Is_join].
Qed.

Lemma join_deferred_some (r : run_result) e : is_Some r.2 ∨ is_Some e → is_Some (join_deferred r e).2.
Proof. unfold join_deferred. cbn. destruct r as [v [e0|]], e as [e1|]; cbn; eauto. by intros [[]|[]]. Qed.
Lemma join_deferred_left (r : run_result) e e0 e1 :
  r.2 = Some e1 → carries e0 e1 → ∃ e', (join_deferred r e).2 = Some e' ∧ carries e0 e'.
Proof.
  intros Hr Hc. unfold join_deferred. cbn [snd]. rewrite Hr. destruct e; cbn; eexists; (split; [done|]);
    apply (carries_join _ _ e1); auto; by left.
Qed.
Lemma join_deferred_right (r : run_result) e : ∃ e', (join_deferred r (Some e)).2 = Some e' ∧ carries e e'.
Proof.
  unfold join_deferred. destruct r as [v [e0|]]; cbn; eexists; (split; [done|]); apply (carries_join _ _ e);
    (apply carries_self || set_solver).
Qed.

Section shape.
#[local] Set Default Proof Using "Type*".
Context {UL : UnicodeLower} {RO : RangeOrder string inode} {W : Type} (env : provider_env).
Context (name label mode_prefix : string) (body : ready → run_state W → run_result * run_state W).
(** The body appends to the log. *)
Context (Hbody : ∀ d s res s', body d s = (res, s') → ∃ l, st_log s' = st_log s ++ l).
Implicit Types (s : run_state W) (d : ready).

Definition emit_log (r : AgentRun) : list run_action :=
  if gr_Emit r then [REmit delta_event (text_payload (label +:+ " is processing the task."))] else [].
Definition open_log (box : option Session) : list run_action := match box with Some b => [ROpen b] | None => [] end.
Definition lock_log d : list run_action :=
  if rd_reuse d then
    (match sandbox (rd_config d) with Some _ => [] | None => [RLock (rd_namespace d) (rd_workspace d) (rd_key d)] end)
    ++ [RLoad (rd_sessionID d) (rd_generation d)]
  else [].
Definition unlock_log d : list run_action :=
  if rd_reuse d then match sandbox (rd_config d) with Some _ => [] | None => [RUnlock] end else [].
Definition close_log (box : option Session) (e : option go_error) : list run_action :=
  match box with Some _ => [RClose e] | None => [] end.

Lemma run_session_log c r s res s' :
  run_session env name mode_prefix body c r s = (res, s') →
  ∃ d s1 s2, body d s1 = (res, s2) ∧ rd_config d = c ∧ rd_run d = r ∧ st_log s1 = st_log s ++ lock_log d ∧
    st_log s' = st_log s2 ++ unlock_log d ∧ (rd_reuse d = false → rd_sessionID d = "" ∧ rd_generation d = 1).
Proof.
  unfold run_session. set (d0 := ready_of _ _ _ _ _ _ _). destruct (rd_reuse d0) eqn:Hr.
  - set (s1 := with_lock _ _ _ _ _ _). destruct (load_session d0 s1) as [[sessionID generation] x].
    set (d := ready_of _ _ _ c r sessionID generation). destruct (body d _) as [res1 s2] eqn:Hb. intros [= <- <-].
    exists d, (log (RLoad sessionID generation) s1), s2. split; [exact Hb|]. clear Hb.
    assert (rd_reuse d = true) as Hr' by exact Hr. unfold lock_log, unlock_log. rewrite Hr'. cbn [rd_config d].
    unfold s1, with_lock, without_lock. change (rd_config d) with c.
    destruct (sandbox c); cbn; rewrite ?app_nil_r, <-?app_assoc; by split_and!.
  - intros Hb. exists d0, s, s'. unfold lock_log, unlock_log. rewrite Hr, !app_nil_r. by split_and!.
Qed.

(** A run that got its permit: the parts of its log, and its result from the body's. *)
Record ran (r : AgentRun) (box : option Session) (l : list run_action) (v : run_result) : Prop := {
  rn_parts : ∃ d s1 s2 res n lb released closed,
    body d s1 = (res, s2) ∧ st_log s2 = st_log s1 ++ lb ∧ sandbox (rd_config d) = box ∧
    (rd_reuse d = false → rd_sessionID d = "" ∧ rd_generation d = 1) ∧
    l = emit_log r ++ open_log box ++ [RPermit n] ++ lock_log d ++ lb ++ unlock_log d ++ [RRelease released] ++ close_log box closed ∧
    v = join_deferred (join_deferred res released) closed ∧ (box = None → closed = None);
}.
(** A lock taken when the context had ended, and released. *)
Definition mid_log (m : option (option go_error)) : list run_action :=
  match m with Some e => [RPermit 1; RDropRelease e] | None => [] end.
(** A run that did not: nothing but an error. *)
Definition refused (r : AgentRun) (box : option Session) (l : list run_action) (v : run_result) : Prop :=
  v.1 = no_runtime_result ∧ is_Some v.2 ∧
  ((∃ m closed, l = emit_log r ++ open_log box ++ mid_log m ++ close_log box closed ∧
      ∀ e, closed = Some e → ∃ e', v.2 = Some e' ∧ carries e e') ∨
   ∃ b e, l = emit_log r ++ [ROpen b; RDropClose e]).

Lemma run_permitted_log c r s v s' :
  run_permitted env name mode_prefix body c r s = (Some v, s') →
  (∃ m, st_log s' = st_log s ++ mid_log m ∧ v.1 = no_runtime_result ∧ is_Some v.2) ∨
  ∃ d s1 s2 res n lb released, body d s1 = (res, s2) ∧ st_log s2 = st_log s1 ++ lb ∧ rd_config d = c ∧
    (rd_reuse d = false → rd_sessionID d = "" ∧ rd_generation d = 1) ∧
    st_log s' = st_log s ++ [RPermit n] ++ lock_log d ++ lb ++ unlock_log d ++ [RRelease released] ∧
    v = join_deferred res released.
Proof.
  unfold run_permitted. destruct (acquireHostAuthPermit _ _ _ _ _ _) as [p|]; [|done].
  destruct (pm_error p) as [e|].
  { intros [= <- <-]. left. exists (pm_ignored p). split; [|split; [done|by eexists]].
    destruct (pm_ignored p); cbn; [by rewrite <- app_assoc|by rewrite app_nil_r]. }
  destruct (run_session _ _ _ _ _ _ _) as [res s1] eqn:Hs. set (e := if (pm_holding p =? 0)%nat then _ else _).
  intros [= <- <-]. right. apply run_session_log in Hs as (d & s2 & s3 & Hb & Hc & _ & Hpre & Hpost & Hfirst).
  destruct (Hbody _ _ _ _ Hb) as [lb Hlb]. exists d, s2, s3, res, (pm_holding p), lb, e. split_and!; try done.
  cbn. rewrite Hpost, Hlb, Hpre. cbn. by rewrite <-!app_assoc.
Qed.

Lemma run_packages_log c r s v s' :
  run_packages env name mode_prefix body c r s = (Some v, s') →
  (∃ m, st_log s' = st_log s ++ mid_log m ∧ v.1 = no_runtime_result ∧ is_Some v.2) ∨
  ∃ d s1 s2 res n lb released, body d s1 = (res, s2) ∧ st_log s2 = st_log s1 ++ lb ∧ sandbox (rd_config d) = sandbox c ∧
    (rd_reuse d = false → rd_sessionID d = "" ∧ rd_generation d = 1) ∧
    st_log s' = st_log s ++ [RPermit n] ++ lock_log d ++ lb ++ unlock_log d ++ [RRelease released] ∧
    v = join_deferred res released.
Proof.
  unfold run_packages. set (c1 := providerConfigForDelegationRun _ _ _).
  assert (sandbox c1 = sandbox c) as Hbox by (unfold c1, providerConfigForDelegationRun; by case_bool_decide).
  destruct (SkillCache.run _ _ _ _) as [[p|e] skills]; [|intros [= <- <-]; left; exists None; cbn; rewrite app_nil_r; by eauto].
  intros [H|(d & s1 & s2 & res & n & lb & released & Hb & Hlb & Hd & H)]%run_permitted_log; [by left|right].
  exists d, s1, s2, res, n, lb, released. by rewrite <-Hbox, Hd.
Qed.

Lemma prepare_sandbox c r w c' w' x :
  sandbox c = None → prepareIsolatedSession (pe_tools env) (pe_os env) (pe_close env)
    (if Enabled (SessionIsolation c) then with_provider name c else c) r w = (Ok c', w', x) →
  bool_decide (is_Some (sandbox c')) = Enabled (SessionIsolation c).
Proof.
  intros Hc. unfold prepareIsolatedSession. destruct (validateSessionIsolation _ _); [done|].
  destruct (Enabled (SessionIsolation c)) eqn:He.
  - change (SessionIsolation (with_provider name c)) with (SessionIsolation c). rewrite He. cbn [negb].
    destruct (trusted_authority r) as [[principal key]|]; [|done]. destruct (nativeClientEnvironment _ _); [|done].
    destruct (OpenClient _ _ _ w) as [[b|?] w1]; [|done]. destruct (newNativeToolPolicy _ _ _); [|by destruct (Close _ _ _ _ _) as [[??]?]].
    by intros [= <- _ _].
  - rewrite He. cbn [negb]. intros [= <- _ _]. by rewrite Hc.
Qed.

Lemma provider_run_log c r s v s' :
  sandbox c = None → provider_run env name label mode_prefix body c r s = (Some v, s') →
  ∃ l box, st_log s' = st_log s ++ l ∧ (refused r box l v ∨ ran r box l v).
Proof.
  intros Hc. unfold provider_run. set (s0 := if gr_Emit r then _ else s).
  assert (st_log s0 = st_log s ++ emit_log r) as Hs0.
  { unfold s0, emit_log. destruct (gr_Emit r); [done|by rewrite app_nil_r]. }
  destruct (prepareIsolatedSession _ _ _ _ _ _) as [[[c1|e] w] x] eqn:Hp.
  2:{ intros [= <- <-]. destruct x as [[b x]|].
      - exists (emit_log r ++ [ROpen b; RDropClose x]), None. split; [cbn; by rewrite Hs0, <- !app_assoc|]. left.
        split; [done|]. split; [by eexists|]. right. by exists b, x.
      - exists (emit_log r), None. split; [exact Hs0|]. left. split; [done|]. split; [by eexists|]. left. exists None, None.
        cbn. rewrite !app_nil_r. by split. }
  apply (prepare_sandbox c) in Hp; [|done]. set (s1 := match sandbox c1 with Some _ => _ | None => _ end).
  destruct (run_packages _ _ _ _ _ _ s1) as [[v1|] s2] eqn:Hr; [|done].
  assert (st_log s1 = st_log s ++ emit_log r ++ open_log (sandbox c1)) as Hs1.
  { unfold s1. destruct (sandbox c1) as [b|]; cbn; [|by rewrite app_nil_r].
    rewrite bool_decide_true in Hp by eauto. rewrite <-Hp. cbn. by rewrite Hs0, <-app_assoc. }
  intros Hfin.
  assert (∃ closed, v = join_deferred v1 closed ∧ st_log s' = st_log s2 ++ close_log (sandbox c1) closed ∧
    (sandbox c1 = None → closed = None)) as (closed & -> & Hs' & Hclosed).
  { destruct (Enabled (SessionIsolation c)).
    - unfold close_sandbox in Hfin. destruct (sandbox c1) as [b|]; [|done].
      destruct (Close _ _ _ b _) as [[ce b'] w']. injection Hfin as <- <-. by exists ce.
    - injection Hfin as <- <-. exists None. destruct (sandbox c1); [done|]. cbn. by rewrite app_nil_r. }
  apply run_packages_log in Hr as [(m & Hl & Hv1 & Hv2)|(d & s3 & s4 & res & n & lb & released & Hb & Hlb & Hbox & Hfirst & Hl & ->)].
  - exists (emit_log r ++ open_log (sandbox c1) ++ mid_log m ++ close_log (sandbox c1) closed), (sandbox c1).
    split; [by rewrite Hs', Hl, Hs1, <-!app_assoc|]. left. split; [done|].
    split; [apply join_deferred_some; by left|]. left. exists m, closed. split; [done|]. intros e ->. apply join_deferred_right.
  - exists (emit_log r ++ open_log (sandbox c1) ++ [RPermit n] ++ lock_log d ++ lb ++ unlock_log d ++ [RRelease released] ++
            close_log (sandbox c1) closed), (sandbox c1).
    split; [by rewrite Hs', Hl, Hs1, <-!app_assoc|]. right. split.
    exists d, s3, s4, res, n, lb, released, closed. by split_and!.
Qed.
End shape.

(** ** The attempts of a run *)

(** The last attempt of a run, and the session it saved. *)
Inductive last_attempt (sid : string) : list run_action → Prop :=
  | la_only p m e : last_attempt sid [RAttempt sid p m e]
  | la_saved p m e id se : last_attempt sid [RAttempt sid p m e; RSave id se].
(** A run's use of its session: one attempt, or a second one with a new session,
    once the first had reported its session missing and the mapping was deleted. *)
Inductive session_use (recoverable : go_error → Prop) (sid : string) : list run_action → Prop :=
  | su_last l : last_attempt sid l → session_use recoverable sid l
  | su_stuck p e de : sid ≠ "" → recoverable e → session_use recoverable sid [RAttempt sid p true (Some e); RDelete (Some de)]
  | su_retry p e l : sid ≠ "" → recoverable e → last_attempt "" l →
      session_use recoverable sid ([RAttempt sid p true (Some e); RDelete None] ++ l).

(** What an incomplete cleanup of a process was turned into. *)
Definition surfaced (l : list run_action) (r : option go_error) : Prop :=
  ∀ sid p m e, RAttempt sid p m (Some e) ∈ l → errors_Is e ErrProcessCleanup = true →
    ∃ e', r = Some e' ∧ carries e e'.
Definition saves (l : list run_action) : Prop := ∃ id e, RSave id e ∈ l.
Definition error_of {A} (r : result A) : option go_error := match r with Ok _ => None | Err e => Some e end.

Lemma surfaced_attempt sid p m e r :
  (∀ e0, e = Some e0 → errors_Is e0 ErrProcessCleanup = true → ∃ e', r = Some e' ∧ carries e0 e') →
  surfaced [RAttempt sid p m e] r.
Proof. intros H sid' p' m' e' Hin Hc. apply list_elem_of_singleton in Hin. injection Hin as _ _ _ He. by eapply H. Qed.
Lemma surfaced_app l l' r : surfaced l r → surfaced l' r → surfaced (l ++ l') r.
Proof. intros H H' sid p m e [Hin|Hin]%elem_of_app; [by eapply H|by eapply H']. Qed.
Lemma surfaced_other l r : (∀ sid p m e, RAttempt sid p m e ∉ l) → surfaced l r.
Proof. intros H sid p m e Hin. by destruct (H sid p m (Some e)). Qed.

Section store_log.
Context {W : Type} (env : provider_env).
Implicit Types (s : run_state W) (d : ready).

Lemma save_session_log d id s e s' :
  save_session env d id s = (e, s') → st_log s' = st_log s ++ [RSave id e] ∧ st_host s' = st_host s.
Proof. unfold save_session, on_store. destruct (saveSessionForClientMode _ _ _ _ _ _ _ _ _ _ _) as [e0 fs]. by intros [= <- <-]. Qed.
Lemma delete_session_log d s e s' : delete_session env d s = (e, s') → st_log s' = st_log s ++ [RDelete e].
Proof. unfold delete_session, on_store. destruct (deleteSessionID _ _ _ _ _ _) as [e0 fs]. by intros [= <- <-]. Qed.
End store_log.

Section codex_log.
#[local] Set Default Proof Using "Type*".
Context {UL : UnicodeLower} {RO : RangeOrder string inode} {W : Type} (env : provider_env).
Context `{F64 : !Float64, CP : !CodexProtocol, UP : !UnicodePrint, HO : !CodexHost W}.
Implicit Types (s : run_state W) (d : ready).

Definition codex_recoverable (e : go_error) : Prop :=
  errors_Is e ErrSessionMissing = true ∧ errors_Is e ErrProcessCleanup = false.

Lemma codex_attempt_log d sid s o s' :
  codex_attempt env d sid s = (o, s') →
  (∃ p, st_log s' = st_log s ++ [RAttempt sid p (match o_err o with Some e => errors_Is e ErrSessionMissing | None => false end) (o_err o)]) ∧
  (o_err o = None → valid_id (o_thread o) = true ∧ (sid ≠ "" → o_thread o = sid)).
Proof.
  unfold codex_attempt. destruct (runCodexRPC _ _ _ _ _ _ _ _ _ _ _ _) as [[[o1 acts] h] w] eqn:Hr. intros [= <- <-].
  split; [by eexists|]. revert Hr. unfold runCodexRPC. destruct (CodexTurn.Run _ _) as [o2 s2] eqn:Ht.
  intros [= <- _ _ _]. intros He. by destruct (Run_thread _ _ _ _ Ht He).
Qed.

Lemma recovers_inv sid attempt e :
  codexRecoversMissingSession sid attempt e = true → sid ≠ "" ∧ attempt = 0%nat ∧ codex_recoverable e.
Proof. unfold codexRecoversMissingSession, codex_recoverable. intros H. go_bool. done. Qed.

Lemma cancelled_cleanup cause e timeout :
  errors_Is e ErrProcessCleanup = true → carries e (codexCanceledResult cause (Some e) timeout).
Proof. intros He. unfold codexCanceledResult. rewrite He. apply (carries_join _ _ e); [set_solver|constructor]. Qed.

Lemma codex_failure_log d o e s e' s' :
  codex_failure env d o e s = (e', s') →
  ∃ l, st_log s' = st_log s ++ l ∧ (l = [] ∨ (rd_reuse d = true ∧ ∃ se, l = [RSave (o_thread o) se])) ∧
    carries e e'.
Proof.
  unfold codex_failure. destruct (_ && _ && _) eqn:Hc.
  - apply andb_true_iff in Hc as [Hc _]. apply andb_true_iff in Hc as [_ Hr].
    destruct (save_session env d (o_thread o) s) as [[se|] s1] eqn:Hs; apply save_session_log in Hs as [Hs _]; intros [= <- <-];
      (eexists; split; [exact Hs|]; split; [right; eauto|]); [apply (carries_join _ _ e); [by left|]|apply carries_wrap]; constructor.
  - intros [= <- <-]. exists []. rewrite app_nil_r. split; [done|]. split; [by left|]. apply carries_wrap. constructor.
Qed.

(** The last attempt: what it logged, and what the loop returns. *)
Record loop_end d (sid : string) (rec : bool) (l : list run_action) (x : result (string * string * bool)) : Prop := {
  le_last : last_attempt sid l;
  le_surfaced : surfaced l (error_of x);
  le_saves : saves l → rd_reuse d = true;
  le_ok id summary r : x = Ok (id, summary, r) →
    r = rec ∧ valid_id id = true ∧ (sid ≠ "" → id = sid) ∧ ∃ p m, l = [RAttempt sid p m None];
}.

Lemma no_saves sid p m e : ¬ saves [RAttempt sid p m e].
Proof. by intros (id & se & [=]%list_elem_of_singleton). Qed.

Lemma codex_round rounds attempt d sid obs sum rec s x s' :
  codex_attempts env (S rounds) attempt d sid obs sum rec s = (x, s') →
  (∃ l, st_log s' = st_log s ++ l ∧ loop_end d sid rec l x) ∨
  (∃ p e, sid ≠ "" ∧ attempt = 0%nat ∧ codex_recoverable e ∧
     ((∃ de, st_log s' = st_log s ++ [RAttempt sid p true (Some e); RDelete (Some de)] ∧ x = Err de) ∨
      (∃ o s2, st_log s2 = st_log s ++ [RAttempt sid p true (Some e); RDelete None] ∧
         codex_attempts env rounds (S attempt) d "" (o_thread o) (o_final o) true s2 = (x, s')))).
Proof.
  cbn [codex_attempts]. destruct (codex_attempt env d sid s) as [o s1] eqn:Ha. apply codex_attempt_log in Ha as [[p Hl] Hid].
  destruct (ho_ctx_err (st_host s1)) as [cause|].
  { intros [= <- <-]. left. eexists. split; [exact Hl|]. split; [constructor| |by intros ?%no_saves|done].
    apply surfaced_attempt. intros e0 -> Hc. eexists. split; [done|]. by apply cancelled_cleanup. }
  destruct (o_err o) as [e|].
  2:{ intros [= <- <-]. left. eexists. split; [exact Hl|]. destruct (Hid eq_refl) as [Hv Hs].
      split; [constructor|by apply surfaced_attempt|by intros ?%no_saves|]. intros ??? [= <- <- <-]. split_and!; eauto. }
  destruct (codexRecoversMissingSession sid attempt e) eqn:Hr.
  - apply recovers_inv in Hr as (Hne & -> & Hrec). destruct Hrec as [Hm Hc]. rewrite Hm in Hl.
    destruct (delete_session env d s1) as [[de|] s2] eqn:Hd; apply delete_session_log in Hd; rewrite Hl, <-app_assoc in Hd.
    + intros [= <- <-]. right. exists p, e. split_and!; try done. left. by exists de.
    + intros Hx. right. exists p, e. split_and!; try done. right. by exists o, s2.
  - destruct (codex_failure env d o e s1) as [e' s2] eqn:Hf. intros [= <- <-]. left.
    apply codex_failure_log in Hf as (l & Hl2 & Hshape & Hc). exists ([RAttempt sid p (errors_Is e ErrSessionMissing) (Some e)] ++ l).
    split; [by rewrite Hl2, Hl, <-app_assoc|].
    assert (surfaced ([RAttempt sid p (errors_Is e ErrSessionMissing) (Some e)] ++ l) (Some e')) as Hsurf.
    { apply surfaced_app; [apply surfaced_attempt; intros e0 [= <-]; eauto|]. apply surfaced_other.
      intros ???? Hin. destruct Hshape as [->|(_ & se & ->)]; set_solver. }
    destruct Hshape as [->|(Hreuse & se & ->)]; split; try done; [constructor|by intros ?%no_saves|constructor].
Qed.

(** The whole loop. *)
Record loop_ends d (l : list run_action) (x : result (string * string * bool)) : Prop := {
  ls_use : session_use codex_recoverable (rd_sessionID d) l;
  ls_surfaced : surfaced l (error_of x);
  ls_saves : saves l → rd_reuse d = true;
  ls_ok id summary r : x = Ok (id, summary, r) →
    valid_id id = true ∧ ∃ sid l0 p m, l = l0 ++ [RAttempt sid p m None] ∧ ¬ saves l ∧ (sid ≠ "" → id = sid) ∧
      ((r = false ∧ sid = rd_sessionID d ∧ l0 = []) ∨
       (r = true ∧ sid = "" ∧ ∃ p0 e0, rd_sessionID d ≠ "" ∧ codex_recoverable e0 ∧
          l0 = [RAttempt (rd_sessionID d) p0 true (Some e0); RDelete None]));
}.

Lemma codex_loop d s x s' :
  codex_attempts env 2 0 d (rd_sessionID d) "" "" false s = (x, s') → ∃ l, st_log s' = st_log s ++ l ∧ loop_ends d l x.
Proof.
  intros [(l & Hl & [H1 H2 H3 H4])|(p & e & Hne & _ & Hrec & H)]%codex_round.
  - exists l. split; [done|]. split; [by constructor|done|done|].
    intros id summary r (-> & Hv & Hid & p & m & ->)%H4. split; [done|]. exists (rd_sessionID d), [], p, m.
    split_and!; try done; [apply no_saves|by left].
  - assert (surfaced [RAttempt (rd_sessionID d) p true (Some e)] (error_of x)) as Hs.
    { apply surfaced_attempt. intros e0 [= <-]. destruct Hrec as [_ Hc]. congruence. }
    destruct H as [(de & Hl & ->)|(o & s2 & Hl & [(l & Hl2 & [H1 H2 H3 H4])|(? & ? & Hnn & _)]%codex_round)]; [| |done].
    + eexists. split; [exact Hl|]. split; [by constructor| | |done].
      * apply (surfaced_app [_]); [done|]. apply surfaced_other. set_solver.
      * intros (id & se & Hin). set_solver.
    + exists ([RAttempt (rd_sessionID d) p true (Some e); RDelete None] ++ l). split; [by rewrite Hl2, Hl, <-app_assoc|].
      split; [by constructor| | |].
      * apply (surfaced_app [_]); [done|]. apply (surfaced_app [_]); [apply surfaced_other; set_solver|done].
      * intros (id & se & Hin). apply H3. exists id, se. set_solver.
      * intros id summary r (-> & Hv & Hid & p' & m & ->)%H4. split; [done|].
        exists "", [RAttempt (rd_sessionID d) p true (Some e); RDelete None], p', m.
        split_and!; try done; [intros (? & ? & Hin); set_solver|]. right. split_and!; eauto.
Qed.

(** *** The body *)
Record codex_ends d (l : list run_action) (res : run_result) : Prop := {
  ce_use : session_use codex_recoverable (rd_sessionID d) l;
  ce_surfaced : surfaced l res.2;
  ce_saves : saves l → rd_reuse d = true;
  ce_failed : is_Some res.2 → res.1 = no_runtime_result;
  ce_ok : res.2 = None → ∃ id sid l0 p m, valid_id id = true ∧ (sid ≠ "" → id = sid) ∧
    l = l0 ++ [RAttempt sid p m None] ++ (if rd_reuse d then [RSave id None] else []);
}.

Lemma session_use_save R sid l sid' p m e id se :
  (l = [RAttempt sid p m e] ∧ sid' = sid) ∨ (∃ p0 e0, sid ≠ "" ∧ R e0 ∧ sid' = "" ∧ l = [RAttempt sid p0 true (Some e0); RDelete None] ++ [RAttempt "" p m e]) →
  session_use R sid (l ++ [RSave id se]).
Proof.
  intros [[-> ->]|(p0 & e0 & Hne & HR & -> & ->)]; [constructor; constructor|].
  rewrite <-app_assoc. apply su_retry; [done..|constructor].
Qed.

Lemma codex_body_log d s res s' :
  codex_body env d s = (res, s') → ∃ l, st_log s' = st_log s ++ l ∧ codex_ends d l res.
Proof.
  unfold codex_body. destruct (codex_attempts env 2 0 d _ _ _ _ s) as [[[[id summary] r]|e] s1] eqn:Hl;
    apply codex_loop in Hl as (l & Hl & [Huse Hsurf Hsaves Hok]).
  2:{ intros [= <- <-]. exists l. split; [done|]. by split. }
  destruct (Hok _ _ _ eq_refl) as (Hv & sid & l0 & p & m & -> & Hns & Hsid & Hcase). clear Hok.
  destruct (rd_reuse d) eqn:Hr.
  2:{ intros [= <- <-]. exists (l0 ++ [RAttempt sid p m None]). split; [done|]. split; [done|done|congruence|by intros []|].
      intros _. exists id, sid, l0, p, m. rewrite Hr. by split_and!. }
  destruct (save_session env d id s1) as [e s2] eqn:Hs. apply save_session_log in Hs as [Hs _]. intros Hfin.
  exists ((l0 ++ [RAttempt sid p m None]) ++ [RSave id e]).
  assert (st_log s' = st_log s2) as -> by (destruct e; by injection Hfin as _ <-).
  split; [by rewrite Hs, Hl, <-app_assoc|].
  assert (session_use codex_recoverable (rd_sessionID d) ((l0 ++ [RAttempt sid p m None]) ++ [RSave id e])) as Huse'.
  { apply (session_use_save _ _ _ sid p m None). destruct Hcase as [(_ & -> & ->)|(_ & -> & p0 & e0 & Hne & HR & ->)]; [by left|].
    right. by exists p0, e0. }
  assert (surfaced ((l0 ++ [RAttempt sid p m None]) ++ [RSave id e]) res.2) as Hsurf'.
  { intros sid0 p0 m0 e0 [Hin|[=]%list_elem_of_singleton]%elem_of_app Hc. by destruct (Hsurf _ _ _ _ Hin Hc) as (? & [=] & _). }
  destruct e as [e|]; injection Hfin as <- _; (split; [done|done|done| |]).
  - done.
  - done.
  - by intros [].
  - intros _. exists id, sid, l0, p, m. rewrite Hr, <-app_assoc. by split_and!.
Qed.
End codex_log.

Section claude_log.
#[local] Set Default Proof Using "Type*".
Context {UL : UnicodeLower} {W : Type} (env : provider_env).
Context `{F64 : !Float64, HO : !ClaudeHost W}.
Implicit Types (s : run_state W) (d : ready).

Lemma claude_attempt_log d sid s o s' :
  claude_attempt env d sid s = (o, s') →
  ∃ p, st_log s' = st_log s ++ [RAttempt sid p (claude_missing o) (claude_error o)].
Proof. unfold claude_attempt. destruct (hc_Run _ _ _) as [p h]. intros [= <- <-]. by eexists. Qed.

Definition any_error (e : go_error) : Prop := True.

(** The last attempt, and what the loop returns. *)
Record claude_end (sid : string) (rec : bool) (l : list run_action) (x : result (ClaudeResult.claudeResponse * string * bool)) : Prop := {
  cl_last : ∃ p m e, l = [RAttempt sid p m e];
  cl_ok r resumed rec' : x = Ok (r, resumed, rec') → rec' = rec ∧ resumed = sid ∧ ∃ p m, l = [RAttempt sid p m None];
}.

Lemma claude_round rounds attempt d sid resp rec s x s' :
  claude_attempts env (S rounds) attempt d sid resp rec s = (x, s') →
  (∃ l, st_log s' = st_log s ++ l ∧ claude_end sid rec l x) ∨
  (∃ p e, sid ≠ "" ∧ attempt = 0%nat ∧
     ((∃ de e', st_log s' = st_log s ++ [RAttempt sid p true (Some e); RDelete (Some de)] ∧ x = Err e') ∨
      (∃ resp' s2, st_log s2 = st_log s ++ [RAttempt sid p true (Some e); RDelete None] ∧
         claude_attempts env rounds (S attempt) d "" resp' true s2 = (x, s')))).
Proof.
  cbn [claude_attempts]. destruct (claude_attempt env d sid s) as [o s1] eqn:Ha. apply claude_attempt_log in Ha as [p Hl].
  assert (∀ e, claude_end sid rec [RAttempt sid p (claude_missing o) (claude_error o)] (Err e)) as Hfail.
  { intros e. split; [by eexists _, _, _|done]. }
  set (rest := match hc_ctx_err (st_host s1) with Some _ => _ | None => _ end).
  assert (rest = (x, s') →
    (∃ l, st_log s' = st_log s ++ l ∧ claude_end sid rec l x) ∨
    (∃ p e, sid ≠ "" ∧ attempt = 0%nat ∧
     ((∃ de e', st_log s' = st_log s ++ [RAttempt sid p true (Some e); RDelete (Some de)] ∧ x = Err e') ∨
      (∃ resp' s2, st_log s2 = st_log s ++ [RAttempt sid p true (Some e); RDelete None] ∧
         claude_attempts env rounds (S attempt) d "" resp' true s2 = (x, s'))))) as Hrest.
  { unfold rest. destruct (hc_ctx_err (st_host s1)); [intros [= <- <-]; left; eexists; split; [exact Hl|apply Hfail]|].
    destruct (claude_error o) as [e|] eqn:He.
    2:{ intros [= <- <-]. left. eexists. split; [exact Hl|]. split; [by eexists _, _, _|]. intros ??? [= <- <- <-]. split_and!; eauto. }
    destruct (claude_recovers sid attempt o) eqn:Hr.
    - unfold claude_recovers in Hr. apply andb_true_iff in Hr as [Hr Hm]. rewrite Hm in Hl. go_bool. subst attempt.
      destruct (delete_session env d s1) as [[de|] s2] eqn:Hd; apply delete_session_log in Hd; rewrite Hl, <-app_assoc in Hd;
        intros Hx; right; exists p, e; (split; [done|]); (split; [done|]).
      + left. injection Hx as <- <-. exists de. eexists. split; [exact Hd|reflexivity].
      + right. eexists _, s2. split; [exact Hd|exact Hx].
    - intros [= <- <-]. left. eexists. split; [exact Hl|apply Hfail]. }
  destruct (co_parseErr o); [|exact Hrest]. destruct (co_streamErr o); [|exact Hrest].
  intros [= <- <-]. left. eexists. split; [exact Hl|apply Hfail].
Qed.

Lemma claude_loop d s x s' :
  claude_attempts env 2 0 d (rd_sessionID d) ClaudeResult.zero_response false s = (x, s') →
  ∃ l, st_log s' = st_log s ++ l ∧ session_use any_error (rd_sessionID d) l ∧ ¬ saves l ∧
    ∀ r resumed rec, x = Ok (r, resumed, rec) →
      ∃ l0 p m, l = l0 ++ [RAttempt resumed p m None] ∧
        ((rec = false ∧ resumed = rd_sessionID d ∧ l0 = []) ∨
         (rec = true ∧ resumed = "" ∧ ∃ p0 e0, rd_sessionID d ≠ "" ∧ l0 = [RAttempt (rd_sessionID d) p0 true (Some e0); RDelete None])).
Proof.
  intros [(l & Hl & [(p & m & e & ->) Hok])|(p & e & Hne & _ & H)]%claude_round.
  - exists [RAttempt (rd_sessionID d) p m e]. split; [done|]. split; [constructor; constructor|]. split; [apply no_saves|].
    intros r resumed rec (-> & -> & p' & m' & Heq)%Hok. exists [], p', m'. split; [exact Heq|]. by left.
  - destruct H as [(de & e' & Hl & ->)|(resp & s2 & Hl & [(l & Hl2 & [(p' & m & e' & ->) Hok])|(? & ? & Hnn & _)]%claude_round)]; [| |done].
    + eexists. split; [exact Hl|]. split; [by constructor|]. split; [|done]. intros (id & se & Hin). set_solver.
    + exists ([RAttempt (rd_sessionID d) p true (Some e); RDelete None] ++ [RAttempt "" p' m e']).
      split; [by rewrite Hl2, Hl, <-app_assoc|]. split; [constructor; [done|done|constructor]|].
      split; [intros (id & se & Hin); set_solver|]. intros r resumed rec (-> & -> & p2 & m2 & Heq)%Hok.
      exists [RAttempt (rd_sessionID d) p true (Some e); RDelete None], p2, m2. rewrite Heq. split; [done|]. right. eauto 10.
Qed.

Record claude_ends d (l : list run_action) (res : run_result) : Prop := {
  ke_use : session_use any_error (rd_sessionID d) l;
  ke_saves : saves l → rd_reuse d = true;
  ke_failed : is_Some res.2 → res.1 = no_runtime_result;
  ke_ok : res.2 = None → ∃ sid l0 p m rest, l = l0 ++ [RAttempt sid p m None] ++ rest ∧
    (rest = [] ∨ ∃ id, rest = [RSave id None] ∧ TrimSpace id ≠ "");
}.

Lemma claude_body_log d s res s' :
  claude_body env d s = (res, s') → ∃ l, st_log s' = st_log s ++ l ∧ claude_ends d l res.
Proof.
  unfold claude_body. destruct (claude_attempts env 2 0 d _ _ _ s) as [[[[r resumed] rec]|e] s1] eqn:Hl;
    apply claude_loop in Hl as (l & Hl & Huse & Hns & Hok).
  2:{ intros [= <- <-]. exists l. by repeat split. }
  destruct (Hok _ _ _ eq_refl) as (l0 & p & m & -> & Hcase). clear Hok. cbv zeta. case_bool_decide as Hsum.
  { intros [= <- <-]. eexists. split; [exact Hl|]. by repeat split. }
  destruct (rd_reuse d && _) eqn:Hr.
  2:{ intros [= <- <-]. eexists. split; [exact Hl|]. split; [done|done|by intros []|]. intros _.
      exists resumed, l0, p, m, []. rewrite app_nil_r. split; [done|by left]. }
  go_bool. set (id := ClaudeResult.r_SessionID r) in *. destruct (save_session env d id s1) as [e s2] eqn:Hs.
  apply save_session_log in Hs as [Hs _]. intros Hfin. exists ((l0 ++ [RAttempt resumed p m None]) ++ [RSave id e]).
  assert (st_log s' = st_log s2) as -> by (destruct e; by injection Hfin as _ <-).
  split; [by rewrite Hs, Hl, <-app_assoc|].
  assert (session_use any_error (rd_sessionID d) ((l0 ++ [RAttempt resumed p m None]) ++ [RSave id e])) as Huse'.
  { apply (session_use_save _ _ _ resumed p m None). destruct Hcase as [(_ & -> & ->)|(_ & -> & p0 & e0 & Hne & ->)]; [by left|].
    right. by exists p0, e0. }
  destruct e as [e|]; injection Hfin as <- _; (split; [done|done| |]); [done|done|by intros []|].
  intros _. exists resumed, l0, p, m, [RSave id None]. rewrite <-app_assoc. split; [done|]. right. eauto.
Qed.
End claude_log.

(** *** The discipline of a run

    What a run holds, innermost first. *)
Inductive hold := HSandbox | HPermit | HLock.
#[export] Instance hold_eq_dec : EqDecision hold.
Proof. solve_decision. Defined.

Definition owns (held : list hold) : bool := bool_decide (HSandbox ∈ held) || bool_decide (HLock ∈ held).
Definition release (h : hold) (held : list hold) : option (list hold) :=
  match held with h' :: rest => if bool_decide (h' = h) then Some rest else None | [] => None end.
Definition acquire (h : hold) (held : list hold) : option (list hold) := if bool_decide (h ∈ held) then None else Some (h :: held).

(** One action: what must be held, and what is held after it.  The session of the
    sandbox comes first, the permit second and the lock last. *)
Definition track (held : list hold) (a : run_action) : option (list hold) :=
  match a with
  | REmit _ _ => Some held
  | ROpen _ => match held with [] => acquire HSandbox held | _ => None end
  | RClose _ | RDropClose _ => release HSandbox held
  | RPermit _ => if bool_decide (HLock ∈ held) then None else acquire HPermit held
  | RRelease _ | RDropRelease _ => release HPermit held
  | RLock _ _ _ => if bool_decide (HSandbox ∈ held) then None else acquire HLock held
  | RUnlock => release HLock held
  | RLoad _ _ | RSave _ _ | RDelete _ => if owns held then Some held else None
  | RAttempt sid _ _ _ => if bool_decide (HPermit ∈ held) && (bool_decide (sid = "") || owns held) then Some held else None
  end.
Fixpoint tracked (held : list hold) (l : list run_action) : option (list hold) :=
  match l with
  | [] => Some held
  | a :: l' => held' ← track held a; tracked held' l'
  end.

Lemma tracked_app held l l' : tracked held (l ++ l') = (h ← tracked held l; tracked h l').
Proof. revert held. induction l as [|a l IH]; intros held; [done|]. cbn. destruct (track held a); [apply IH|done]. Qed.
Lemma tracked_then held h l l' r : tracked held l = Some h → tracked h l' = r → tracked held (l ++ l') = r.
Proof. intros Hl Hl'. by rewrite tracked_app, Hl. Qed.

Lemma session_use_tracked R sid l held :
  session_use R sid l → HPermit ∈ held → (owns held = true ∨ (sid = "" ∧ ¬ saves l)) → tracked held l = Some held.
Proof.
  intros Hu Hp Ho. assert (∀ sid p m e, owns held = true ∨ sid = "" → track held (RAttempt sid p m e) = Some held) as Ha.
  { intros sid0 p m e H. cbn. rewrite bool_decide_true by done. destruct H as [->| ->]; [by rewrite orb_true_r|done]. }
  assert (∀ sid l, last_attempt sid l → owns held = true ∨ (sid = "" ∧ ¬ saves l) → tracked held l = Some held) as Hlast.
  { intros sid0 l0 Hl H. assert (owns held = true ∨ sid0 = "") as Hs by tauto.
    destruct Hl as [p m e|p m e id se]; cbn [tracked]; rewrite Ha by done; [done|]. cbn.
    destruct H as [->|[_ H]]; [done|]. destruct H. exists id, se. set_solver. }
  destruct Hu as [l Hl|p e de Hne HR|p e l Hne HR Hl]; [by eapply Hlast| |].
  - destruct Ho as [Ho|[? _]]; [|done]. cbn [tracked]. rewrite Ha by auto. cbn. by rewrite Ho.
  - destruct Ho as [Ho|[? _]]; [|done]. cbn [app tracked]. rewrite Ha by auto. cbn. rewrite Ho. cbn. eapply Hlast; [done|auto].
Qed.

(** ** Claims about runs *)

(** The actions on the provider and its session. *)
Definition is_use (a : run_action) : bool :=
  match a with RAttempt _ _ _ _ | RSave _ _ | RDelete _ => true | _ => false end.
Definition uses (l : list run_action) : list run_action := List.filter is_use l.

Lemma last_attempt_uses sid l : last_attempt sid l → uses l = l.
Proof. by destruct 1. Qed.
Lemma session_use_uses R sid l : session_use R sid l → uses l = l.
Proof.
  destruct 1 as [l Hl| |p e l _ _ Hl]; [by eapply last_attempt_uses|done|]. unfold uses. rewrite List.filter_app.
  by rewrite (last_attempt_uses _ _ Hl : List.filter _ l = l).
Qed.

(** The parts of a log around the body. *)
Lemma uses_emit label r : uses (emit_log label r) = [].
Proof. unfold emit_log. by destruct (gr_Emit r). Qed.
Lemma uses_lock d : uses (lock_log d) = [] ∧ uses (unlock_log d) = [].
Proof. unfold lock_log, unlock_log. destruct (rd_reuse d), (sandbox (rd_config d)); done. Qed.
Lemma uses_open box e : uses (open_log box) = [] ∧ uses (close_log box e) = [].
Proof. by destruct box. Qed.

(** The actions of the two deferred calls. *)
Definition is_deferred (a : run_action) : bool := match a with RRelease _ | RClose _ => true | _ => false end.
Definition deferred (l : list run_action) : list run_action := List.filter is_deferred l.
Lemma deferred_emit label r : deferred (emit_log label r) = [].
Proof. unfold emit_log. by destruct (gr_Emit r). Qed.
Lemma deferred_open box : deferred (open_log box) = [].
Proof. by destruct box. Qed.
Lemma deferred_lock d : deferred (lock_log d) = [] ∧ deferred (unlock_log d) = [].
Proof. unfold lock_log, unlock_log. destruct (rd_reuse d), (sandbox (rd_config d)); done. Qed.
Lemma session_use_deferred R sid l : session_use R sid l → deferred l = [].
Proof.
  assert (∀ sid l, last_attempt sid l → deferred l = []) as Hl by by destruct 1.
  destruct 1 as [l H| |p e l _ _ H]; [by eapply Hl|done|]. unfold deferred. rewrite List.filter_app. by apply Hl in H.
Qed.

(** What they report is part of the error returned. *)
Definition deferred_reported (l : list run_action) (r : option go_error) : Prop :=
  ∀ e, RRelease (Some e) ∈ l ∨ RClose (Some e) ∈ l → ∃ e', r = Some e' ∧ carries e e'.

Section around.
#[local] Set Default Proof Using "Type*".
Context {UL : UnicodeLower} {RO : RangeOrder string inode} {W : Type}.
Context (body : ready → run_state W → run_result * run_state W).
Context (R : go_error → Prop) (ends : ready → list run_action → run_result → Prop).
Context (Hbody : ∀ d s res s', body d s = (res, s') → ∃ l, st_log s' = st_log s ++ l ∧ ends d l res).
Context (Huse : ∀ d l res, ends d l res → session_use R (rd_sessionID d) l ∧ (saves l → rd_reuse d = true)).

(** The parts of a run again, with what the body's log is known to be. *)
Lemma ran_ends label r box l v :
  ran label body r box l v → ∃ d res n lb released closed,
    ends d lb res ∧ session_use R (rd_sessionID d) lb ∧ (saves lb → rd_reuse d = true) ∧ sandbox (rd_config d) = box ∧
    (rd_reuse d = false → rd_sessionID d = "") ∧ (box = None → closed = None) ∧
    l = emit_log label r ++ open_log box ++ [RPermit n] ++ lock_log d ++ lb ++ unlock_log d ++ [RRelease released] ++ close_log box closed ∧
    v = join_deferred (join_deferred res released) closed.
Proof.
  intros [(d & s1 & s2 & res & n & lb & released & closed & Hb & Hlb & Hbox & Hfirst & Hl & Hv & Hc)].
  destruct (Hbody _ _ _ _ Hb) as (lb' & Hlb' & Hends). assert (lb' = lb) as -> by (rewrite Hlb in Hlb'; by apply app_inv_head in Hlb').
  destruct (Huse _ _ _ Hends) as [Hu Hs]. exists d, res, n, lb, released, closed. split_and!; try done. by intros [??]%Hfirst.
Qed.

Lemma tracked_emit label r held : tracked held (emit_log label r) = Some held.
Proof. unfold emit_log. by destruct (gr_Emit r). Qed.

Lemma ran_tracked label r box l v : ran label body r box l v → tracked [] l = Some [].
Proof.
  intros (d & res & n & lb & released & closed & _ & Hu & Hs & Hbox & Hfirst & _ & -> & _)%ran_ends.
  eapply tracked_then; [apply tracked_emit|]. rewrite <-Hbox. unfold lock_log, unlock_log.
  destruct (rd_reuse d) eqn:Hr.
  - destruct (sandbox (rd_config d)) as [b|]; cbn [open_log close_log app].
    + cbn [tracked track]. refine (tracked_then _ _ lb _ _ (session_use_tracked R _ _ _ Hu _ _) _); [set_solver|by left|done].
    + cbn [tracked track]. refine (tracked_then _ _ lb _ _ (session_use_tracked R _ _ _ Hu _ _) _); [set_solver|by left|done].
  - assert (¬ saves lb) as Hns by (intros ?%Hs; congruence). specialize (Hfirst eq_refl).
    destruct (sandbox (rd_config d)) as [b|]; cbn [open_log close_log app];
      (cbn [tracked track]; refine (tracked_then _ _ lb _ _ (session_use_tracked R _ _ _ Hu _ _) _); [set_solver|by right|done]).
Qed.
Lemma refused_tracked label r box l v : refused label r box l v → tracked [] l = Some [].
Proof.
  intros (_ & _ & [(m & closed & -> & _)|(b & e & ->)]); (eapply tracked_then; [apply tracked_emit|]); [|done].
  by destruct box, m.
Qed.

Lemma ran_uses_body label r box l d n lb released closed :
  session_use R (rd_sessionID d) lb →
  l = emit_log label r ++ open_log box ++ [RPermit n] ++ lock_log d ++ lb ++ unlock_log d ++ [RRelease released] ++ close_log box closed →
  uses l = lb ∧ deferred l = RRelease released :: close_log box closed.
Proof.
  intros Hu ->. unfold uses, deferred. rewrite !List.filter_app.
  change (List.filter is_use) with uses. change (List.filter is_deferred) with deferred. split.
  - rewrite uses_emit, (proj1 (uses_open box closed)), (proj2 (uses_open box closed)), (proj1 (uses_lock d)), (proj2 (uses_lock d)).
    rewrite (session_use_uses _ _ _ Hu). cbn. by rewrite app_nil_r.
  - rewrite deferred_emit, deferred_open, (proj1 (deferred_lock d)), (proj2 (deferred_lock d)), (session_use_deferred _ _ _ Hu).
    by destruct box.
Qed.

Lemma ran_uses label r box l v :
  ran label body r box l v → ∃ sid, session_use R sid (uses l) ∧ (sid ≠ "" → ∃ gen, RLoad sid gen ∈ l).
Proof.
  intros (d & res & n & lb & released & closed & _ & Hu & Hs & Hbox & Hfirst & _ & Hl & _)%ran_ends. exists (rd_sessionID d).
  destruct (ran_uses_body _ _ _ _ _ _ _ _ _ Hu Hl) as [-> _]. split; [done|]. intros Hne. exists (rd_generation d). rewrite Hl.
  unfold lock_log. destruct (rd_reuse d); [|by destruct (Hne (Hfirst eq_refl))].
  rewrite !elem_of_app. do 3 right. left. right. by left.
Qed.

(** Errors of the body, of the release and of the closing reach the caller. *)
Lemma ran_reports label r box l v :
  ran label body r box l v → deferred_reported l v.2 ∧
    ∃ d res, ends d (uses l) res ∧ ∀ e0 e, res.2 = Some e → carries e0 e → ∃ e', v.2 = Some e' ∧ carries e0 e'.
Proof.
  intros (d & res & n & lb & released & closed & He & Hu & _ & _ & _ & Hc & Hl & ->)%ran_ends.
  destruct (ran_uses_body _ _ _ _ _ _ _ _ _ Hu Hl) as [Hlb Hd]. split.
  - intros e Hin. assert (released = Some e ∨ (∃ b, box = Some b ∧ closed = Some e)) as [->|(b & -> & ->)].
    { assert (RRelease (Some e) ∈ deferred l ∨ RClose (Some e) ∈ deferred l) as Hin'.
      { unfold deferred. rewrite !elem_of_filter_bool. destruct Hin; auto. }
      rewrite Hd in Hin'. destruct box as [b|]; cbn [close_log] in Hin'; set_unfold in Hin'.
      - destruct Hin' as [[[= ->]|[[=]|[]]]|[[=]|[[= ->]|[]]]]; [by left|right; eauto].
      - destruct Hin' as [[[= ->]|[]]|[[=]|[]]]. by left. }
    + destruct (join_deferred_right res e) as (e1 & H1 & Hc1). by apply (join_deferred_left _ closed e e1).
    + apply join_deferred_right.
  - exists d, res. split; [by rewrite Hlb|]. intros e0 e Hr Hc0. destruct (join_deferred_left res released e0 e Hr Hc0) as (e1 & H1 & Hc1).
    by apply (join_deferred_left _ closed e0 e1).
Qed.
End around.

(** The actions whose errors the source ignores. *)
Definition is_drop (a : run_action) : bool := match a with RDropClose _ | RDropRelease _ => true | _ => false end.
Definition drops (l : list run_action) : list run_action := List.filter is_drop l.

Lemma refused_reports label r box l v : refused label r box l v → deferred_reported l v.2.
Proof.
  intros (_ & _ & H) e Hin.
  assert (RRelease (Some e) ∈ deferred l ∨ RClose (Some e) ∈ deferred l) as Hin'.
  { unfold deferred. rewrite !elem_of_filter_bool. destruct Hin; auto. }
  destruct H as [(m & closed & -> & Hc)|(b & x & ->)]; unfold deferred in Hin'; rewrite !List.filter_app in Hin';
    change (List.filter is_deferred) with deferred in Hin'; rewrite deferred_emit in Hin'.
  - apply Hc. rewrite deferred_open in Hin'. destruct box as [b|], m; cbn in Hin'; set_unfold in Hin'; naive_solver.
  - cbn in Hin'. set_unfold in Hin'. naive_solver.
Qed.
Lemma refused_uses label r box l v : refused label r box l v → uses l = [] ∧ is_Some v.2.
Proof.
  intros (_ & Hv & H). split; [|done].
  destruct H as [(m & closed & -> & _)|(b & x & ->)]; unfold uses; rewrite !List.filter_app; fold (uses (emit_log label r)); rewrite uses_emit; [|done].
  fold (uses (open_log box)) (uses (close_log box closed)). rewrite (proj1 (uses_open box closed)), (proj2 (uses_open box closed)).
  by destruct m.
Qed.

Lemma session_use_drops R sid l : session_use R sid l → drops l = [].
Proof.
  assert (∀ sid l, last_attempt sid l → drops l = []) as Hl by by destruct 1.
  destruct 1 as [l H| |p e l _ _ H]; [by eapply Hl|done|]. unfold drops. rewrite List.filter_app. by apply Hl in H.
Qed.
Lemma ran_drops {UL : UnicodeLower} {RO : RangeOrder string inode} {W} (body : ready → run_state W → run_result * run_state W) R ends
    (Hbody : ∀ d s res s', body d s = (res, s') → ∃ l, st_log s' = st_log s ++ l ∧ ends d l res)
    (Huse : ∀ d l res, ends d l res → session_use R (rd_sessionID d) l ∧ (saves l → rd_reuse d = true)) label r box l v :
  ran label body r box l v → drops l = [].
Proof.
  intros (d & res & n & lb & released & closed & _ & Hu & _ & _ & _ & _ & -> & _)%(ran_ends body R ends Hbody Huse).
  unfold drops. rewrite !List.filter_app. fold (drops lb). rewrite (session_use_drops _ _ _ Hu).
  unfold emit_log, lock_log, unlock_log. by destruct (gr_Emit r), box, (rd_reuse d), (sandbox (rd_config d)).
Qed.

Section claims.
#[local] Set Default Proof Using "Type*".
Context {UL : UnicodeLower} {RO : RangeOrder string inode}.
Context `{F64 : !Float64, CP : !CodexProtocol, UP : !UnicodePrint} {W1 W2 : Type} `{XH : !CodexHost W1, KH : !ClaudeHost W2}.

Lemma codex_run_log env c r (s : run_state W1) v s' :
  sandbox c = None → CodexProvider_Run env c r s = (Some v, s') →
  ∃ l box, st_log s' = st_log s ++ l ∧ (refused "Codex" r box l v ∨ ran "Codex" (codex_body env) r box l v).
Proof.
  apply provider_run_log. intros d s0 res s1 (l & Hl & _)%codex_body_log. by exists l.
Qed.
Lemma claude_run_log env c r (s : run_state W2) v s' :
  sandbox c = None → ClaudeProvider_Run env c r s = (Some v, s') →
  ∃ l box, st_log s' = st_log s ++ l ∧ (refused "Claude Code" r box l v ∨ ran "Claude Code" (claude_body env) r box l v).
Proof.
  apply provider_run_log. intros d s0 res s1 (l & Hl & _)%claude_body_log. by exists l.
Qed.
Lemma codex_ends_use d l res : codex_ends d l res → session_use codex_recoverable (rd_sessionID d) l ∧ (saves l → rd_reuse d = true).
Proof. by intros [? _ ? _ _]. Qed.
Lemma claude_ends_use d l res : claude_ends d l res → session_use any_error (rd_sessionID d) l ∧ (saves l → rd_reuse d = true).
Proof. by intros [? ? _ _]. Qed.

(** C27: Whatever happens in a run of either provider, the sandbox is opened before
    the permit is taken and the permit before the session's lock, processes run
    under the permit, the session's mapping is used only under the lock or the
    sandbox, and everything taken is released in the reverse order. *)
Theorem run_holds_and_releases env c r :
  sandbox c = None →
  (∀ (s : run_state W1) v s', CodexProvider_Run env c r s = (Some v, s') → ∃ l, st_log s' = st_log s ++ l ∧ tracked [] l = Some []) ∧
  (∀ (s : run_state W2) v s', ClaudeProvider_Run env c r s = (Some v, s') → ∃ l, st_log s' = st_log s ++ l ∧ tracked [] l = Some []).
Proof.
  intros Hc. split.
  - intros s v s' Hr. destruct (codex_run_log env c r s v s' Hc Hr) as (l & box & Hl & [H|H]); exists l; (split; [done|]).
    + by eapply refused_tracked.
    + eapply ran_tracked; [apply codex_body_log|apply codex_ends_use|exact H].
  - intros s v s' Hr. destruct (claude_run_log env c r s v s' Hc Hr) as (l & box & Hl & [H|H]); exists l; (split; [done|]).
    + by eapply refused_tracked.
    + eapply ran_tracked; [apply claude_body_log|apply claude_ends_use|exact H].
Qed.

(** C28: A run starts its provider at most twice.  The second start comes only
    after the first resumed a saved session that its client reported missing
    (for Codex without an incomplete cleanup) and after the mapping was deleted,
    and begins a new session; a run that started nothing returns an error. *)
Theorem session_retried_once env c r :
  sandbox c = None →
  (∀ (s : run_state W1) v s', CodexProvider_Run env c r s = (Some v, s') → ∃ l, st_log s' = st_log s ++ l ∧
     ((uses l = [] ∧ is_Some v.2) ∨
      ∃ sid, session_use codex_recoverable sid (uses l) ∧ (sid ≠ "" → ∃ gen, RLoad sid gen ∈ l))) ∧
  (∀ (s : run_state W2) v s', ClaudeProvider_Run env c r s = (Some v, s') → ∃ l, st_log s' = st_log s ++ l ∧
     ((uses l = [] ∧ is_Some v.2) ∨
      ∃ sid, session_use any_error sid (uses l) ∧ (sid ≠ "" → ∃ gen, RLoad sid gen ∈ l))).
Proof.
  intros Hc. split.
  - intros s v s' Hr. destruct (codex_run_log env c r s v s' Hc Hr) as (l & box & Hl & [H|H]); exists l; (split; [done|]).
    + left. by eapply refused_uses.
    + right. eapply ran_uses; [apply codex_body_log|apply codex_ends_use|exact H].
  - intros s v s' Hr. destruct (claude_run_log env c r s v s' Hc Hr) as (l & box & Hl & [H|H]); exists l; (split; [done|]).
    + left. by eapply refused_uses.
    + right. eapply ran_uses; [apply claude_body_log|apply claude_ends_use|exact H].
Qed.

(** What may be ignored: only in a run that started no client and returns an error. *)
Definition drops_harmless (l : list run_action) (v : run_result) : Prop :=
  drops l ≠ [] → uses l = [] ∧ v.1 = no_runtime_result ∧ is_Some v.2.

(** C29: No failure after the fact is hidden by a success, a cancellation or a later
    attempt: an incomplete cleanup of a Codex process, an error of the deferred release
    of the permit and an error of the deferred closing of the sandbox are part of the
    error returned.  The two errors the source ignores, of closing a session whose tool
    policy was refused and of releasing a lock that was taken when the context had
    already ended, occur only in a run that started no client and returns the error it
    was refused with. *)
Theorem failures_surface env c r :
  sandbox c = None →
  (∀ (s : run_state W1) v s', CodexProvider_Run env c r s = (Some v, s') →
     ∃ l, st_log s' = st_log s ++ l ∧ surfaced l v.2 ∧ deferred_reported l v.2 ∧ drops_harmless l v) ∧
  (∀ (s : run_state W2) v s', ClaudeProvider_Run env c r s = (Some v, s') →
     ∃ l, st_log s' = st_log s ++ l ∧ deferred_reported l v.2 ∧ drops_harmless l v).
Proof.
  intros Hc. split.
  - intros s v s' Hr. destruct (codex_run_log env c r s v s' Hc Hr) as (l & box & Hl & [H|H]); exists l; (split; [done|]).
    + destruct (refused_uses _ _ _ _ _ H) as [Hu Hv]. split_and!; [|by eapply refused_reports|intros _; by split_and!; [|apply H|]].
      intros sid p m e Hin.
      assert (RAttempt sid p m (Some e) ∈ uses l) as Hin' by by apply elem_of_filter_bool. rewrite Hu in Hin'. by apply not_elem_of_nil in Hin'.
    + pose proof (ran_drops _ _ _ (codex_body_log env) codex_ends_use _ _ _ _ _ H) as Hdr.
      destruct (ran_reports _ _ _ (codex_body_log env) codex_ends_use _ _ _ _ _ H) as [Hd (d & res & He & Hcar)]. split_and!; [|done|done].
      intros sid p m e Hin Hclean. destruct (ce_surfaced _ _ _ He sid p m e) as (e1 & H1 & H2); [by apply elem_of_filter_bool|done|].
      by apply (Hcar e e1).
  - intros s v s' Hr. destruct (claude_run_log env c r s v s' Hc Hr) as (l & box & Hl & [H|H]); exists l; (split; [done|]).
    + destruct (refused_uses _ _ _ _ _ H) as [Hu Hv]. split; [by eapply refused_reports|]. intros _. by split_and!; [|apply H|].
    + split; [by destruct (ran_reports _ _ _ (claude_body_log env) claude_ends_use _ _ _ _ _ H)|].
      pose proof (ran_drops _ _ _ (claude_body_log env) claude_ends_use _ _ _ _ _ H). done.
Qed.

(** *** The session of the next run *)

Lemma session_use_head R sid l : session_use R sid l → ∃ p m e rest, l = RAttempt sid p m e :: rest.
Proof. by destruct 1 as [l [p m e|p m e id se]|p e de|p e l _ _ _]; eexists _, _, _, _. Qed.

(** The state in which a run saves its session. *)
Definition after_attempts env (d : ready) (s : run_state W1) : run_state W1 :=
  (codex_attempts env 2 0 d (rd_sessionID d) "" "" false s).2.

(** A loop that succeeds returns the thread of its last turn, and ends with it. *)
Lemma codex_attempts_thread env d rounds : ∀ attempt sid obs sum rec (s s' : run_state W1) id summary r,
  codex_attempts env rounds attempt d sid obs sum rec s = (Ok (id, summary, r), s') → (rounds ≠ 0)%nat →
  (rounds + attempt = 2)%nat →
  ∃ sid' s0 o, codex_attempt env d sid' s0 = (o, s') ∧ o_err o = None ∧ o_thread o = id ∧ ho_ctx_err (st_host s') = None.
Proof.
  induction rounds as [|rounds IH]; intros attempt sid obs sum rec s s' id summary r H Hn Hr; [done|]. cbn [codex_attempts] in H.
  destruct (codex_attempt env d sid s) as [o s1] eqn:Ha. destruct (ho_ctx_err (st_host s1)) eqn:Hctx; [done|].
  destruct (o_err o) as [e|] eqn:He; [|injection H as <- <- <- <-; by exists sid, s, o].
  destruct (codexRecoversMissingSession sid attempt e) eqn:Hrec; [|by destruct (codex_failure _ _ _ _ _)].
  apply recovers_inv in Hrec as (_ & -> & _). destruct (delete_session env d s1) as [[de|] s2]; [done|].
  eapply IH; [exact H|lia|lia].
Qed.

Lemma codex_body_saved env d (s : run_state W1) res s' :
  codex_body env d s = (res, s') → res.2 = None → rd_reuse d = true →
  ∃ sid s0 o, codex_attempt env d sid s0 = (o, after_attempts env d s) ∧ o_err o = None ∧ valid_id (o_thread o) = true ∧
    save_session env d (o_thread o) (after_attempts env d s) = (None, s').
Proof.
  unfold codex_body, after_attempts. destruct (codex_attempts env 2 0 d _ _ _ _ s) as [[[[id summary] rec]|e] s1] eqn:Hl; [|by intros [= <- <-]].
  pose proof (codex_attempts_thread _ _ _ _ _ _ _ _ _ _ _ _ _ Hl ltac:(done) ltac:(done)) as (sid & s0 & o & Ha & He & <- & _).
  apply codex_loop in Hl as (l & _ & [_ _ _ Hok]). destruct (Hok _ _ _ eq_refl) as (Hv & _). intros H Hres Hr. rewrite Hr in H.
  destruct (save_session env d (o_thread o) s1) as [[e|] s2] eqn:Hs; injection H as <- <-; [done|]. by exists sid, s0, o.
Qed.

(** Two runs look for the same session. *)
Record same_session (d d' : ready) : Prop := {
  ss_namespace : rd_namespace d' = rd_namespace d;
  ss_workspace : rd_workspace d' = rd_workspace d;
  ss_key : rd_key d' = rd_key d;
  ss_path : rd_path d' = rd_path d;
  ss_mode : rd_mode d' = rd_mode d;
}.

Definition codex_session env : ProviderConfig → AgentRun → run_state W1 → run_result * run_state W1 :=
  run_session env "codex" "codex_rpc_v1:" (codex_body env).
Definition codex_ready env (c : ProviderConfig) (r : AgentRun) : ready := ready_of env "codex" "codex_rpc_v1:" c r "" 1.

Lemma valid_id_trim id : valid_id id = true → TrimSpace id ≠ "".
Proof. unfold valid_id. intros H. by go_bool. Qed.

(** A run from its lock to the result, with the session it found. *)
Definition found_session env c r (s : run_state W1) : ready * run_state W1 :=
  let d := codex_ready env c r in
  let s1 := with_lock env c (rd_namespace d) (rd_workspace d) (rd_key d) s in
  let '(id, generation, _) := load_session d s1 in
  (ready_of env "codex" "codex_rpc_v1:" c r id generation, log (RLoad id generation) s1).

(** C30: The thread a successful Codex run used is the one the next run of the same
    session resumes: the thread that its last turn, the one that succeeded, observed is
    saved before the result is returned, and a later run that finds the same principal,
    conversation, workspace and mode starts its client with that thread. *)
Theorem next_run_resumes env env' c r r' (s s' t : run_state W1) v :
  let d := codex_ready env c r in
  let t1 := with_lock env' c (rd_namespace d) (rd_workspace d) (rd_key d) t in
  let before := after_attempts env (found_session env c r s).1 (found_session env c r s).2 in
  codex_session env c r s = (v, s') → v.2 = None → rd_reuse d = true → same_session d (codex_ready env' c r') →
  TrimSpace (rd_mode d) = rd_mode d → rd_mode d ≠ "" →
  Read (w_fs (st_world t1)) (rd_path d) = Read (w_fs (st_world s')) (rd_path d) →
  ∃ sid s0 o, codex_attempt env (found_session env c r s).1 sid s0 = (o, before) ∧ o_err o = None ∧
    let id := o_thread o in
    valid_id id = true ∧ uses (st_log s') = uses (st_log before) ++ [RSave id None] ∧
    (storable (pe_write env (st_writes before)) (pe_now env (st_writes before)) (rd_path d) (rd_workspace d) id (rd_mode d)
       (rd_generation (found_session env c r s).1) (w_fs (st_world before)) →
     ∀ v' t', codex_session env' c r' t = (v', t') →
       ∃ gen p m e l, st_log t' = st_log t1 ++ RLoad (TrimSpace id) gen :: RAttempt (TrimSpace id) p m e :: l).
Proof.
  intros d t1 before. subst before. unfold codex_session, run_session, found_session. fold (codex_ready env c r). fold d.
  destruct (load_session d _) as [[sid gen] x]. cbn [fst snd]. set (before := after_attempts env _ _). intros Hrun Hv Hr Hsame Hmode Hne Hread.
  rewrite Hr in Hrun. destruct (codex_body env _ _) as [res s2] eqn:Hb.
  injection Hrun as <- <-. apply codex_body_saved in Hb as (sid' & s0 & o & Hat & Hoe & Hid & Hs); [|done|exact Hr]. fold before in Hs, Hat.
  assert (w_fs (st_world (without_lock c s2)) = w_fs (st_world s2)) as Hw by (unfold without_lock; by destruct (sandbox c)).
  rewrite Hw in Hread. unfold save_session, on_store in Hs.
  cbn [rd_path rd_namespace rd_workspace rd_key rd_mode rd_generation rd_run ready_of] in Hs.
  destruct (saveSessionForClientMode _ _ _ _ _ _ _ _ _ _ _) as [e fs'] eqn:Hsave. injection Hs as -> <-.
  cbn [st_world w_fs log] in Hread. exists sid', s0, o. split; [exact Hat|]. split; [done|]. cbv zeta. split; [done|].
  set (id := o_thread o) in *. split.
  { unfold without_lock. destruct (sandbox c); cbn [log st_log]; unfold uses; rewrite ?List.filter_app; [done|]. by rewrite app_nil_r. }
  intros Hst v' t'. destruct (saved_session_loaded _ _ _ _ _ _ _ _ _ _ _ _ Hst (valid_id_trim _ Hid) Hsave) as [Hload _].
  fold (codex_ready env' c r'). set (d' := codex_ready env' c r') in *. destruct Hsame as [E1 E2 E3 E4 E5].
  assert (rd_reuse d' = true) as Hr'. { revert Hr. unfold rd_reuse. by rewrite E3. }
  rewrite Hr', E1, E2, E3. fold t1. unfold load_session. rewrite E1, E2, E3, E4, E5. unfold store_of. rewrite Hread.
  rewrite (Hload (rd_mode d) : loadSessionForClientMode _ (rd_namespace d) _ (rd_key d) _ = _).
  unfold effective_mode. rewrite Hmode, (bool_decide_false (rd_mode d = "")), bool_decide_true by done.
  destruct (codex_body env' _ _) as [res' s3] eqn:Hb. intros [= _ <-].
  apply codex_body_log in Hb as (l & Hl & [Huse _ _ _ _]). destruct (session_use_head _ _ _ Huse) as (p & m & e & rest & ->).
  exists (if gen =? 0 then 1 else gen), p, m, e. unfold without_lock. cbn [rd_sessionID ready_of] in Hl. cbn [st_log log] in Hl.
  rewrite <-app_assoc in Hl. destruct (sandbox c); [by exists rest|].
  exists (rest ++ [RUnlock]). cbn [st_log log]. rewrite Hl, <-!app_assoc. reflexivity.
Qed.
End claims.

(** ** Instances *)
Module RunExample.
#[local] Instance floats : Float64 := Some.
#[local] Instance lower : UnicodeLower := latin_lower.
#[local] Instance printable : UnicodePrint := λ _, true.
#[local] Existing Instance TurnWitness.protocol_instance.

(** A Codex host that counts the turns; the first attempt to resume in a run that
    says so fails because the rollout is gone. *)
Record codex_host := { xh_gone : bool; xh_turns : nat }.
Definition gone (h : codex_host) : codex_host := {| xh_gone := false; xh_turns := xh_turns h |}.
Definition call (method : string) (h : codex_host) : result CodexRpc.Message * codex_host :=
  if bool_decide (method = "thread/resume") && xh_gone h
  then (Err (ERpc (-32600) "no rollout found for thread id thread" "rpc error"), gone h)
  else (Ok TurnWitness.answer, h).
#[local] Instance codex : CodexHost codex_host := {|
  ho_ctx_err := λ _, None; ho_StdinPipe := λ h, (None, h); ho_StdoutPipe := λ h, (None, h);
  ho_Start := λ _ h, (None, {| xh_gone := xh_gone h; xh_turns := S (xh_turns h) |});
  ho_Track := λ h, (None, h); ho_Finish := λ h, (None, h); ho_Call := λ method _, call method; ho_Notify := λ _ h, (None, h);
  ho_rounds := λ _, [PFirst TurnWitness.completed]; ho_learn := λ _, []; ho_client_err := λ _, None;
  ho_grants := λ _, {| ge_ReadDir := λ _, Missing; ge_Info := λ _ _, None; ge_Lstat := λ _, Missing; ge_Stat := λ _, Missing;
                       ge_Eval := λ _, None |};
  ho_others := λ _ w, w;
|}.

Definition native : native_env :=
  {| ne_home := HomeExample.he; ne_abs := Ok; ne_eval := Ok; ne_environ := ["HOME=/home/agent"; "PATH=/bin"]; ne_username := "agent" |}.
Definition env : provider_env :=
  {| pe_tools := IsolationExamples.tools; pe_os := IsolationExamples.os; pe_native := native; pe_close := (None, None, None);
     pe_getwd := "/srv/agent"; pe_cacheDir := None; pe_tempDir := "/tmp"; pe_skills := LoadExample.calm; pe_ctx := None;
     pe_path := None; pe_polls := IsolationExamples.rounds; pe_rounds := 0; pe_emit := None; pe_release := None;
     pe_others := λ w, w; pe_write := λ _, SessionWitness.env; pe_now := λ _, "2026-01-01T00:00:00Z" |}.
Definition off : Sandbox.Config :=
  {| Mode := ""; Root := ""; Namespace := ""; RuntimeBin := ""; TempRoot := ""; ReadPaths := []; AllowedDomains := [] |}.
Definition config : ProviderConfig :=
  {| boundMCPTools := []; boundMCPDigest := ""; SessionIsolation := off; HostAuthConcurrency := "";
     sandbox := None; toolPolicy := None; DelegationTargets := []; DelegationProxyBin := ""; DelegationBrokerRoot := "";
     DelegationSocket := ""; ProviderConfig.Version := ""; Provider := "codex"; Bin := ""; Workspace := "/srv/agent"; Model := "";
     ProviderConfig.Sandbox := ""; Permission := ""; AllowedTools := []; Timeout := 0; SessionReuse := true;
     SessionStorePath := "/c/codex.json"; WebSearch := false; CodexApproval := ""; CodexBaseURL := ""; ClaudeBaseURL := "";
     Env := None; EnvAllowlist := []; ExecutionProfile := "" |}.
Definition run : AgentRun :=
  {| gr_pkg := {| pr_run := IsolationExamples.run; pr_PackageSnapshot := None; pr_Emit := true; pr_SkillPackagesDigest := "";
                  pr_LoadedSkillPackages := [] |};
     gr_delegation := no_delegation; gr_Input := JStr "hi"; gr_Metadata := JObj []; gr_A2A := JObj [] |}.
Definition start (gone : bool) (fs : filesystem) : run_state codex_host :=
  {| st_world := {| w_fs := fs; w_locked := ∅ |}; st_skills := LoadExample.empty; st_host := {| xh_gone := gone; xh_turns := 0 |};
     st_log := []; st_writes := 0 |}.
Definition first : option run_result * run_state codex_host := CodexProvider_Run env config run (start false ∅).
Definition saved : filesystem := w_fs (st_world first.2).
(** The next run of the conversation finds the rollout gone. *)
Definition second : option run_result * run_state codex_host := CodexProvider_Run env config run (start true saved).

Definition shape (a : run_action) : string :=
  match a with
  | REmit _ _ => "emit" | ROpen _ => "open" | RClose _ | RDropClose _ => "close" | RPermit _ => "permit" | RRelease _ | RDropRelease _ => "release"
  | RLock _ _ _ => "lock" | RUnlock => "unlock" | RLoad id _ => "load " +:+ id
  | RAttempt sid _ true _ => "missing " +:+ sid | RAttempt sid _ false _ => "run " +:+ sid
  | RSave id None => "save " +:+ id | RSave _ (Some _) => "save failed"
  | RDelete None => "delete" | RDelete (Some _) => "delete failed"
  end.
Example first_run : map shape (st_log first.2) =
  ["emit"; "permit"; "lock"; "load "; "run "; "save thread"; "unlock"; "release"].
Proof. vm_compute. reflexivity. Qed.
Example second_run : map shape (st_log second.2) =
  ["emit"; "permit"; "lock"; "load thread"; "missing thread"; "delete"; "run "; "save thread"; "unlock"; "release"].
Proof. vm_compute. reflexivity. Qed.
Example durations : map Duration_String [30 * 60 * 10 ^ 9; 1500000000; 90061000000000; 1500; 2000000; 0; -1] =
  ["30m0s"; "1.5s"; "25h1m1s"; "1.5" +:+ micro; "2ms"; "0s"; "-1ns"].
Proof. vm_compute. reflexivity. Qed.

(** A Claude host that answers every prompt. *)
Definition answer_line : string :=
  marshal (JObj [("type", JStr "result"); ("subtype", JStr "success"); ("is_error", JBool false); ("result", JStr "done");
                 ("session_id", JStr "abc")]) +:+ SkillDecode.newline.
#[local] Instance claude : ClaudeHost unit := {|
  hc_ctx_err := λ _, None; hc_others := λ _ w, w;
  hc_Run := λ _ _ h, ({| cp_stdout := [answer_line]; cp_stderr := []; cp_err := None |}, h);
|}.
Definition claude_start : run_state unit :=
  {| st_world := {| w_fs := ∅; w_locked := ∅ |}; st_skills := LoadExample.empty; st_host := tt; st_log := []; st_writes := 0 |}.
Definition claude_first : option run_result * run_state unit := ClaudeProvider_Run env config run claude_start.
Example claude_run : map shape (st_log claude_first.2) =
  ["emit"; "permit"; "lock"; "load "; "run "; "save abc"; "unlock"; "release"].
Proof. vm_compute. reflexivity. Qed.

Definition finished {A B} (p : option A * B) : bool := match p.1 with Some _ => true | None => false end.
Lemma second_finishes : finished second = true.
Proof. vm_compute. reflexivity. Qed.
Lemma claude_finishes : finished claude_first = true.
Proof. vm_compute. reflexivity. Qed.
Lemma finished_eq {A B} (p : option A * B) : finished p = true → ∃ v, p = (Some v, p.2).
Proof. destruct p as [[v|] b]; [|done]. by exists v. Qed.

Lemma run_holds_and_releases_witness :
  (∃ l, st_log second.2 = [] ++ l ∧ tracked [] l = Some []) ∧ (∃ l, st_log claude_first.2 = [] ++ l ∧ tracked [] l = Some []).
Proof.
  destruct (run_holds_and_releases env config run eq_refl) as [Hx Hk].
  destruct (finished_eq _ second_finishes) as [v Hv]. destruct (finished_eq _ claude_finishes) as [v' Hv'].
  split; [exact (Hx _ _ _ Hv)|exact (Hk _ _ _ Hv')].
Defined.

Lemma session_retried_once_witness :
  ∃ l, st_log second.2 = [] ++ l ∧ ∃ v : run_result,
    ((uses l = [] ∧ is_Some v.2) ∨ ∃ sid, session_use codex_recoverable sid (uses l) ∧ (sid ≠ "" → ∃ gen, RLoad sid gen ∈ l)).
Proof.
  destruct (session_retried_once env config run eq_refl) as [Hx _]. destruct (finished_eq _ second_finishes) as [v Hv].
  destruct (Hx _ _ _ Hv) as (l & Hl & H). exists l. split; [exact Hl|]. exists v. exact H.
Defined.

Lemma failures_surface_witness :
  ∃ l v, second = (Some v, second.2) ∧ st_log second.2 = [] ++ l ∧ surfaced l v.2 ∧ deferred_reported l v.2 ∧ drops_harmless l v.
Proof.
  destruct (failures_surface env config run eq_refl) as [Hx _]. destruct (finished_eq _ second_finishes) as [v Hv].
  destruct (Hx _ _ _ Hv) as (l & H). exists l, v. split; [exact Hv|exact H].
Defined.

(** Two runs of one conversation. *)
Definition talk1 : run_result * run_state codex_host := codex_session env config run (start false ∅).
Definition later : run_state codex_host := start false (w_fs (st_world talk1.2)).
Definition talk2 : run_result * run_state codex_host := codex_session env config run later.
Definition before : run_state codex_host :=
  after_attempts env (found_session env config run (start false ∅)).1 (found_session env config run (start false ∅)).2.

Lemma talk1_ok : bool_decide (talk1.1.2 = None) = true.
Proof. vm_compute. reflexivity. Qed.
Lemma talk1_saves : list.last (uses (st_log talk1.2)) = Some (RSave "thread" None).
Proof. vm_compute. reflexivity. Qed.
Lemma store_before : w_fs (st_world before) !! "/c/codex.json" = None ∧ w_fs (st_world before) !! "/c/.sessions-1.tmp" = None.
Proof. vm_compute. done. Qed.
Lemma ready_mode : TrimSpace (rd_mode (codex_ready env config run)) = rd_mode (codex_ready env config run).
Proof. vm_compute. reflexivity. Qed.
Lemma before_storable :
  storable (pe_write env (st_writes before)) (pe_now env (st_writes before)) "/c/codex.json" "/srv/agent" "thread"
    (rd_mode (codex_ready env config run)) (rd_generation (found_session env config run (start false ∅)).1) (w_fs (st_world before)).
Proof.
  destruct store_before as [Hp Ht].
  assert (0 <= rd_generation (found_session env config run (start false ∅)).1 < 2 ^ 64) as Hg.
  { replace (rd_generation _) with 1 by (vm_compute; reflexivity). split; [lia|done]. }
  split; [| |reflexivity|vm_compute; reflexivity|reflexivity|vm_compute; reflexivity|exact Hg].
  - intros tmp [= <-]. split; [exact Ht|done].
  - unfold Read, settled, readStore. rewrite Hp. cbn. intros k r Hk. by rewrite lookup_empty in Hk.
Qed.

Lemma next_run_resumes_witness :
  ∃ gen p m e l, st_log talk2.2 = [RLock "codex/principal-v1" "/srv/agent" (rd_key (codex_ready env config run))] ++
    RLoad "thread" gen :: RAttempt "thread" p m e :: l.
Proof.
  pose proof talk1_ok as Hok. apply bool_decide_eq_true in Hok.
  assert (same_session (codex_ready env config run) (codex_ready env config run)) as Hsame by by split.
  assert (rd_reuse (codex_ready env config run) = true) as Hr by (vm_compute; reflexivity).
  destruct (next_run_resumes env env config run run (start false ∅) talk1.2 later talk1.1
              (surjective_pairing _) Hok Hr Hsame ready_mode ltac:(discriminate) eq_refl) as (sid & s0 & o & _ & _ & _ & Hid & H).
  assert (o_thread o = "thread") as Hth.
  { apply (f_equal list.last) in Hid. rewrite talk1_saves, last_snoc in Hid. by injection Hid. }
  rewrite Hth in H. destruct (H before_storable talk2.1 talk2.2 (surjective_pairing _)) as (gen & p & m & e & l & Hl).
  exists gen, p, m, e, l. exact Hl.
Defined.
End RunExample.
