(* ===== verification/Descendants.v ===== *)
(** * Descendants of a native provider

    pkg/adapters/providerprocess/descendants_darwin.go: the identities recorded from
    process snapshots, their pruning and the identity-checked termination.  The
    kernel is a parameter; every answer it gives is logged, so that a signal can be
    compared with the lookup before it.  [lookup] of a set is always [readProcess]
    and [signal] always [unix.Kill], as [TrackDescendants] sets them. *)

From S2P Require Import Prelude.
From stdpp Require Import options.

Open Scope Z_scope.

Definition descendantLimit : nat := 1024.
Definition errDescendantTracking : go_error :=
  ESentinel "errDescendantTracking" "native provider descendant tracking failed".
Definition errDescendantCleanup : go_error :=
  ESentinel "errDescendantCleanup" "native provider descendant cleanup incomplete".

(** The [unix.Errno] values the code tells apart. *)
Definition ESRCH : go_error := ESentinel "ESRCH" "no such process".
Definition ENOENT : go_error := ESentinel "ENOENT" "no such file or directory".
Definition EIO : go_error := ESentinel "EIO" "input/output error".

Record Timeval := { Sec : Z; Usec : Z }.
#[export] Instance Timeval_eq_dec : EqDecision Timeval.
Proof. solve_decision. Defined.

Record processIdentity := { pid : Z; parent : Z; uid : Z; start : Timeval; zombie : bool }.
#[export] Instance processIdentity_eq_dec : EqDecision processIdentity.
Proof. solve_decision. Defined.
(** Go's zero value, which a map returns for an absent key. *)
Definition no_process : processIdentity :=
  {| pid := 0; parent := 0; uid := 0; start := {| Sec := 0; Usec := 0 |}; zombie := false |}.

(** The fields of [unix.KinfoProc] that are read. *)
Record KinfoProc := { P_pid : Z; P_stat : Z; P_starttime : Timeval; Ppid : Z; Uid : Z }.
Definition processRecord (p : KinfoProc) : processIdentity :=
  {| pid := P_pid p; parent := Ppid p; uid := Uid p; start := P_starttime p; zombie := P_stat p =? 5 |}.

Definition sameProcess (a b : processIdentity) : bool :=
  (1 <? pid a) && (pid a =? pid b) && (uid a =? uid b) && bool_decide (start a = start b).

(** The kernel, its clock and the waits of the program. *)
Class Kernel (W : Type) := {
  k_euid : Z;
  (** [SysctlKinfoProc] and [SysctlRaw] of "kern.proc.pid" *)
  k_proc : Z → W → result KinfoProc * W;
  k_raw : Z → W → result string * W;
  (** [SysctlKinfoProcSlice] of "kern.proc.uid" for the effective user *)
  k_list : W → result (list KinfoProc) * W;
  (** [unix.Kill] with [SIGKILL] *)
  k_kill : Z → W → option go_error * W;
  k_now : W → Z;
  k_sleep : Z → W → W;
}.

(** The answers of the kernel, in order. *)
Inductive event :=
  | ERead (p : Z) (r : result processIdentity)
  | EList (r : result (list processIdentity))
  | EKill (p : Z) (e : option go_error).

Section tracking.
Context {W : Type} `{!Kernel W, !RangeOrder Z processIdentity}.

(** The kernel and what it was asked. *)
Record kstate := { k_host : W; k_log : list event }.
Implicit Types s : kstate.

Definition logged (e : event) (h : W) s : kstate := {| k_host := h; k_log := k_log s ++ [e] |}.

Definition read_kernel (p : Z) (h : W) : result processIdentity * W :=
  let '(r, h1) := k_proc p h in
  match r with
  | Ok k => (Ok (processRecord k), h1)
  | Err e =>
      if errors_Is e EIO then
        let '(raw, h2) := k_raw p h1 in
        match raw with
        | Ok bytes => if bool_decide (bytes = "") then (Err ESRCH, h2) else (Err e, h2)
        | Err _ => (Err e, h2)
        end
      else (Err e, h1)
  end.
Definition readProcess (p : Z) s : result processIdentity * kstate :=
  let '(r, h) := read_kernel p (k_host s) in (r, logged (ERead p r) h s).

Definition processSnapshot s : result (list processIdentity) * kstate :=
  let '(r, h) := k_list (k_host s) in
  let r' := match r with Ok l => Ok (map processRecord l) | Err e => Err e end in
  (r', logged (EList r') h s).

Definition kill (p : Z) s : option go_error * kstate :=
  let '(e, h) := k_kill p (k_host s) in (e, logged (EKill p e) h s).

Notation identities := (gmap Z processIdentity).
Record descendantSet := { root : processIdentity; known : identities }.

Definition gone (e : go_error) : bool := errors_Is e ESRCH || errors_Is e ENOENT.

(** One pass of the loop of [prune]. *)
Definition prune_one (r : processIdentity) (current : identities) (p : Z) (recorded : processIdentity) (m : identities) s
    : identities * kstate :=
  if p =? pid r then (m, s)
  else
    match current !! p with
    | Some listed => (if bool_decide (start listed = start recorded) then m else delete p m, s)
    | None =>
        let '(live, s1) := readProcess p s in
        (match live with
         | Err e => if gone e then delete p m else m
         | Ok live => if bool_decide (start live = start recorded) then m else delete p m
         end, s1)
    end.
Fixpoint prune_all (r : processIdentity) (current : identities) (entries : list (Z * processIdentity)) (m : identities) s
    : identities * kstate :=
  match entries with
  | [] => (m, s)
  | (p, recorded) :: rest => let '(m1, s1) := prune_one r current p recorded m s in prune_all r current rest m1 s1
  end.
(** [descendantSet.prune] *)
Definition prune (current : identities) (d : descendantSet) s : descendantSet * kstate :=
  let '(m, s1) := prune_all (root d) current (go_range (known d)) (known d) s in
  ({| root := root d; known := m |}, s1).

(** The map of the snapshot: the last entry of a PID counts. *)
Definition index (l : list processIdentity) : identities := foldl (λ m p, <[pid p := p]> m) ∅ l.

Definition skipped (r : processIdentity) (previous : option processIdentity) (child : processIdentity) : bool :=
  match previous with Some p => sameProcess p child | None => false end
  || (pid child <=? 1) || zombie child || negb (uid child =? uid r).
Definition earlier (a b : Timeval) : bool := (Sec a <? Sec b) || ((Sec a =? Sec b) && (Usec a <? Usec b)).
(** The parent in [s.known] that admits the child. *)
Definition admits (current : identities) (m : identities) (child : processIdentity) : bool :=
  match m !! parent child with
  | None => false
  | Some p =>
      let now := default no_process (current !! pid p) in
      sameProcess p now && negb (zombie now) && negb (earlier (start child) (start p))
  end.
Definition full (m : identities) (previous : option processIdentity) : bool :=
  negb (bool_decide (is_Some previous)) && (descendantLimit <=? size m)%nat.

(** The inner loop of [capture]: the map, and whether it changed; an error keeps
    what was admitted before it. *)
Fixpoint capture_pass (r : processIdentity) (current : identities) (l : list processIdentity) (m : identities) (changed : bool)
    : option go_error * identities * bool :=
  match l with
  | [] => (None, m, changed)
  | child :: rest =>
      let previous := m !! pid child in
      if skipped r previous child || negb (admits current m child) then capture_pass r current rest m changed
      else if full m previous then (Some errDescendantTracking, m, changed)
      else capture_pass r current rest (<[pid child := child]> m) true
  end.
(** The outer loop. *)
Fixpoint capture_loop (fuel : nat) (r : processIdentity) (current : identities) (l : list processIdentity) (m : identities)
    : option (option go_error * identities) :=
  match fuel with
  | O => None
  | S fuel' =>
      match capture_pass r current l m false with
      | (Some e, m1, _) => Some (Some e, m1)
      | (None, m1, true) => capture_loop fuel' r current l m1
      | (None, m1, false) => Some (None, m1)
      end
  end.
(** [descendantSet.capture]; [None] is a loop that has not ended after [fuel] passes. *)
Definition capture (fuel : nat) (l : list processIdentity) (d : descendantSet) s
    : option (option go_error * descendantSet) * kstate :=
  let current := index l in
  let '(d1, s1) := prune current d s in
  (match capture_loop fuel (root d) current l (known d1) with
   | Some (e, m) => Some (e, {| root := root d; known := m |})
   | None => None
   end, s1).

(** [descendantSet.killMatching] *)
Definition killMatching (p : processIdentity) s : (bool * option go_error) * kstate :=
  let '(r, s1) := readProcess (pid p) s in
  match r with
  | Err e => if gone e then ((false, None), s1) else ((false, errors_Join [Some errDescendantCleanup; Some e]), s1)
  | Ok current =>
      if zombie current || negb (pid p =? pid current) || negb (bool_decide (start p = start current)) then ((false, None), s1)
      else if negb (uid p =? uid current) then ((false, Some errDescendantCleanup), s1)
      else
        let '(e, s2) := kill (pid p) s1 in
        match e with
        | Some e => if errors_Is e ESRCH then ((true, None), s2) else ((true, Some errDescendantCleanup), s2)
        | None => ((true, None), s2)
        end
  end.

(** One pass of [finish] over the recorded processes. *)
Fixpoint finish_pass (r : processIdentity) (entries : list (Z * processIdentity)) (live : bool) (res : option go_error) s
    : bool * option go_error * kstate :=
  match entries with
  | [] => (live, res, s)
  | (k, p) :: rest =>
      if k =? pid r then finish_pass r rest live res s
      else
        let '((active, e), s1) := killMatching p s in
        match e with
        | Some e => finish_pass r rest live (match res with None => Some e | _ => res end) s1
        | None => finish_pass r rest (live || active) res s1
        end
  end.

Definition second : Z := 10 ^ 9.
Definition pause : Z := 10 * 10 ^ 6.
Definition asleep (d : Z) s : kstate := {| k_host := k_sleep d (k_host s); k_log := k_log s |}.

Fixpoint finish_loop (fuel : nat) (deadline : Z) (d : descendantSet) (res : option go_error) s
    : option (option go_error) * kstate :=
  match fuel with
  | O => (None, s)
  | S fuel' =>
      let '(live, res1, s1) := finish_pass (root d) (go_range (known d)) false res s in
      if negb live then (Some res1, s1)
      else if deadline <? k_now (k_host s1) then (Some (Some errDescendantCleanup), s1)
      else finish_loop fuel' deadline d res1 (asleep pause s1)
  end.
(** [descendantSet.finish] *)
Definition finish (fuel : nat) (d : descendantSet) s : option (option go_error) * kstate :=
  finish_loop fuel (k_now (k_host s) + second) d None s.

(** ** TrackDescendants *)

(** The variables of the goroutine. *)
Record tracker := { tr_set : descendantSet; tr_result : option go_error }.

(** The snapshot of a tick and of the stop; the passes of [capture] are as many as
    a snapshot of distinct processes needs. *)
Definition observe (t : tracker) s : option tracker * kstate :=
  let '(l, s1) := processSnapshot s in
  match l with
  | Err _ => (Some {| tr_set := tr_set t; tr_result := Some errDescendantTracking |}, s1)
  | Ok l =>
      match capture (S (length l)) l (tr_set t) s1 with
      | (None, s2) => (None, s2)
      | (Some (e, d), s2) =>
          (Some {| tr_set := d; tr_result := match e with Some _ => Some errDescendantTracking | None => tr_result t end |}, s2)
      end
  end.

Definition tick_interval : Z := 20 * 10 ^ 6.
(** The goroutine: some ticks, then the stop. *)
Fixpoint ticks (n : nat) (t : tracker) s : option tracker * kstate :=
  match n with
  | O => (Some t, s)
  | S n' =>
      match observe t (asleep tick_interval s) with
      | (Some t1, s1) => ticks n' t1 s1
      | (None, s1) => (None, s1)
      end
  end.
(** The case of the stop: the result of the function that is returned. *)
Definition stopped (fuel : nat) (t : tracker) s : option (option go_error) * kstate :=
  match observe t s with
  | (None, s1) => (None, s1)
  | (Some t1, s1) =>
      let '(r, s2) := finish fuel (tr_set t1) s1 in
      (match r with Some r => Some (errors_Join [tr_result t1; r]) | None => None end, s2)
  end.

Definition valid_root (process : Z) (r : processIdentity) : bool :=
  negb (negb (pid r =? process) || (pid r <=? 1) || negb (uid r =? k_euid) || (Sec (start r) =? 0)).

(** [TrackDescendants] up to the start of the goroutine; [None] is a nil process. *)
Definition TrackDescendants (process : option Z) s : option (result tracker) * kstate :=
  match process with
  | None => (Some (Err errDescendantTracking), s)
  | Some p =>
      let '(r, s1) := readProcess p s in
      match r with
      | Err e => (Some (Err (EJoin [errDescendantTracking; e])), s1)
      | Ok r =>
          if negb (valid_root p r) then (Some (Err errDescendantTracking), s1)
          else
            let d := {| root := r; known := {[pid r := r]} |} in
            let '(l, s2) := processSnapshot s1 in
            match l with
            | Err e => (Some (Err (EJoin [errDescendantTracking; e])), s2)
            | Ok l =>
                match capture (S (length l)) l d s2 with
                | (None, s3) => (None, s3)
                | (Some (Some _, _), s3) => (Some (Err errDescendantTracking), s3)
                | (Some (None, d1), s3) => (Some (Ok {| tr_set := d1; tr_result := None |}), s3)
                end
            end
      end
  end.

(** A whole invocation: the error of the start, or the result of the stop. *)
Definition tracked_run (process : option Z) (n fuel : nat) s : option (result (option go_error)) * kstate :=
  match TrackDescendants process s with
  | (None, s1) => (None, s1)
  | (Some (Err e), s1) => (Some (Err e), s1)
  | (Some (Ok t), s1) =>
      match ticks n t s1 with
      | (None, s2) => (None, s2)
      | (Some t1, s2) => let '(r, s3) := stopped fuel t1 s2 in (match r with Some r => Some (Ok r) | None => None end, s3)
      end
  end.
End tracking.
