(* ===== verification/DescendantsProps.v ===== *)
(** * Correctness of the descendant tracking

    One snapshot admits exactly the identities that descend from a recorded one
    ([capture_exact]); over a whole invocation only matched descendants are signalled
    ([signals_only_descendants]), the number of records is bounded, the invocation
    ends ([tracking_terminates]) and reports success only when every recorded process
    was seen to have ended ([clean_stop]). *)

From S2P Require Import Prelude Descendants.
From stdpp Require Import options.

Open Scope Z_scope.

Lemma filter_length_lt {A} (P Q : A → Prop) `{!∀ x, Decision (P x), !∀ x, Decision (Q x)} (l : list A) :
  (∀ x, x ∈ l → Q x → P x) → (∃ x, x ∈ l ∧ P x ∧ ¬ Q x) → (length (filter Q l) < length (filter P l))%nat.
Proof.
  assert (∀ l', (∀ x, x ∈ l' → Q x → P x) → (length (filter Q l') <= length (filter P l'))%nat) as Hle.
  { induction l' as [|x l' IH]; intros Hin; [done|]. rewrite !filter_cons. specialize (IH (λ y Hy, Hin y (list_elem_of_further _ _ _ Hy))).
    repeat case_decide; cbn [length]; try lia. exfalso. eauto using list_elem_of_here. }
  induction l as [|x l IH]; intros Hqp (y & Hy & HP & HQ); [by apply not_elem_of_nil in Hy|].
  assert (∀ z, z ∈ l → Q z → P z) as Hqp' by (intros z Hz; apply Hqp; by right).
  pose proof (Hle l Hqp') as Hl. rewrite !filter_cons. apply elem_of_cons in Hy as [->|Hy].
  - rewrite decide_False by done. rewrite decide_True by done. cbn [length]. lia.
  - assert (length (filter Q l) < length (filter P l))%nat as Hlt by eauto.
    repeat case_decide; cbn [length]; try lia. exfalso. eauto using list_elem_of_here.
Qed.

Notation identities := (gmap Z processIdentity).

(** ** Identities *)

Lemma sameProcess_iff a b :
  sameProcess a b = true ↔ 1 < pid a ∧ pid a = pid b ∧ uid a = uid b ∧ start a = start b.
Proof.
  unfold sameProcess. rewrite !andb_true_iff, Z.ltb_lt, !Z.eqb_eq, bool_decide_eq_true. tauto.
Qed.
Lemma sameProcess_refl a : 1 < pid a → sameProcess a a = true.
Proof. by rewrite sameProcess_iff. Qed.

(** The index of a snapshot of distinct PIDs. *)
Lemma index_elem l k p : index l !! k = Some p → p ∈ l ∧ pid p = k.
Proof.
  unfold index. rewrite <- (rev_involutive l). generalize (rev l) as rl. induction rl as [|x rl IH]; [done|].
  cbn [rev]. rewrite foldl_app. cbn [foldl]. intros [[<- <-]|[_ H]]%lookup_insert_Some.
  - rewrite elem_of_app, list_elem_of_singleton. tauto.
  - apply IH in H as [? ?]. rewrite elem_of_app. tauto.
Qed.
Lemma index_foldl_other (l : list processIdentity) (m : identities) k : k ∉ (pid <$> l) → foldl (λ m p, <[pid p := p]> m) m l !! k = m !! k.
Proof.
  revert m. induction l as [|x l IH]; intros m; cbn; [done|]. rewrite not_elem_of_cons. intros [? ?].
  rewrite IH by done. by rewrite lookup_insert_ne by congruence.
Qed.
Lemma index_lookup l p : NoDup (pid <$> l) → p ∈ l → index l !! pid p = Some p.
Proof.
  unfold index. generalize (∅ : identities) as m. induction l as [|x l IH]; intros m Hnd Hp; [by apply not_elem_of_nil in Hp|].
  cbn [fmap list_fmap] in Hnd. apply list.NoDup_cons in Hnd as [Hx Hnd]. cbn [foldl]. apply elem_of_cons in Hp as [->|Hp]; [|by apply IH].
  rewrite index_foldl_other by done. by rewrite lookup_insert_eq.
Qed.
Lemma unique_pid l p q : NoDup (pid <$> l) → p ∈ l → q ∈ l → pid p = pid q → p = q.
Proof. intros Hnd Hp%(index_lookup l) Hq%(index_lookup l) E; [|done..]. rewrite E in Hp. congruence. Qed.

(** ** One snapshot *)
Section snapshot.
Context (r : processIdentity) (l : list processIdentity).

(** A process of the owner that may be recorded. *)
Record eligible (c : processIdentity) : Prop := { el_pid : 1 < pid c; el_live : zombie c = false; el_uid : uid c = uid r }.

(** The snapshot shows [c] as a child of [q], which was alive and not younger. *)
Record child_of (q c : processIdentity) : Prop := {
  co_parent : q ∈ l; co_child : c ∈ l; co_live : zombie q = false; co_ppid : parent c = pid q;
  co_eligible : eligible c; co_order : earlier (start c) (start q) = false;
}.
(** The recorded identities and those the snapshot admits below them. *)
Inductive descends (base : identities) : processIdentity → Prop :=
  | d_known k p : base !! k = Some p → descends base p
  | d_child p q c : descends base p → sameProcess p q = true → child_of q c → descends base c.

(** One admission. *)
Inductive step : identities → identities → Prop :=
  | joins m child :
      child ∈ l → skipped r (m !! pid child) child = false → admits (index l) m child = true →
      full m (m !! pid child) = false → step m (<[pid child := child]> m).

Lemma skipped_false previous c :
  skipped r previous c = false → eligible c ∧ ∀ p, previous = Some p → sameProcess p c = false.
Proof.
  unfold skipped. intros H. go_bool. split; [by split|]. intros p ->. done.
Qed.
Lemma skipped_eligible previous c :
  skipped r previous c = true → eligible c → ∃ p, previous = Some p ∧ sameProcess p c = true.
Proof.
  intros H [H1 H2 H3]. unfold skipped in H. rewrite !orb_true_iff in H. destruct H as [[[H|H]|H]|H].
  - destruct previous as [p|]; [eauto|done].
  - go_bool. lia.
  - congruence.
  - go_bool. done.
Qed.

(** The parent that admits is an identity of the snapshot. *)
Lemma admits_parent m c :
  admits (index l) m c = true →
  ∃ p q, m !! parent c = Some p ∧ q ∈ l ∧ sameProcess p q = true ∧ zombie q = false ∧ earlier (start c) (start q) = false.
Proof.
  unfold admits. destruct (m !! parent c) as [p|] eqn:Hp; [|done]. destruct (index l !! pid p) as [q|] eqn:Hq; unfold default, id; intros H; go_bool.
  - apply index_elem in Hq as [Hq _]. exists p, q. split_and!; try done.
    apply sameProcess_iff in H as (_ & _ & _ & E). by rewrite <- E.
  - apply sameProcess_iff in H as (? & E & _). cbn in E. lia.
Qed.

Lemma pass_spec l' m ch e m' ch' :
  (∀ c, c ∈ l' → c ∈ l) → capture_pass r (index l) l' m ch = (e, m', ch') →
  rtc step m m' ∧ (e = None → ch' = true → ch = true ∨ tc step m m') ∧
  (e = None → ch' = false →
     ch = false ∧ m' = m ∧ ∀ c, c ∈ l' → skipped r (m !! pid c) c = true ∨ admits (index l) m c = false).
Proof.
  revert m ch. induction l' as [|c l' IH]; intros m ch Hl; cbn [capture_pass].
  { intros [= <- <- <-]. split_and!; [done|by left|]. intros _ ->. split_and!; [done..|]. intros c Hc. by apply not_elem_of_nil in Hc. }
  destruct (skipped r _ c || negb (admits (index l) m c)) eqn:Hs; [|destruct (full m _) eqn:Hf].
  - intros H%IH; [|intros; apply Hl; by right]. destruct H as (H1 & H2 & H3). split_and!; [done..|].
    intros He Hc. destruct (H3 He Hc) as (? & ? & H). split_and!; [done..|]. intros d [->|Hd]%elem_of_cons; [|by apply H].
    apply orb_true_iff in Hs as [?|?]; go_bool; tauto.
  - intros [= <- <- <-]. by split_and!.
  - intros H%IH; [|intros; apply Hl; by right]. destruct H as (Hrest & _ & Hdone). go_bool.
    assert (step m (<[pid c := c]> m)) as Hstep by (constructor; [apply Hl; by left|done..]).
    split_and!; [by eapply rtc_l|intros; right; by eapply tc_rtc_r; [apply tc_once|]|]. intros He Hc. by destruct (Hdone He Hc).
Qed.

(** *** The loop ends *)
Definition settled (m : identities) (c : processIdentity) : Prop := m !! pid c = Some c.
#[local] Instance settled_dec m c : Decision (settled m c).
Proof. unfold settled. apply _. Defined.
Definition unsettled (m : identities) : nat := length (filter (λ c, ¬ settled m c) l).

Lemma unsettled_le m : (unsettled m <= length l)%nat.
Proof. apply filter_length_le. Qed.
Lemma step_unsettled m m' : NoDup (pid <$> l) → step m m' → (unsettled m' < unsettled m)%nat.
Proof.
  intros Hnd [m0 c Hc Hs _ _]. apply filter_length_lt.
  - intros x Hx Hn Hm. apply Hn. unfold settled in *. destruct (decide (pid c = pid x)) as [E|E]; [|by rewrite lookup_insert_ne].
    rewrite (unique_pid l c x Hnd Hc Hx E). by rewrite lookup_insert_eq.
  - exists c. split_and!; [done| |].
    + intros Hm. apply skipped_false in Hs as [[? _ _] Hs]. specialize (Hs c Hm). by rewrite sameProcess_refl in Hs.
    + intros Hn. apply Hn. unfold settled. by rewrite lookup_insert_eq.
Qed.
Lemma tc_unsettled m m' : NoDup (pid <$> l) → tc step m m' → (unsettled m' < unsettled m)%nat.
Proof. intros Hnd. induction 1 as [m m' H|m m1 m' H _ IH]; [by apply step_unsettled|]. apply step_unsettled in H; [lia|done]. Qed.

Lemma capture_loop_ends fuel m :
  NoDup (pid <$> l) → (unsettled m < fuel)%nat → is_Some (capture_loop fuel r (index l) l m).
Proof.
  intros Hnd. revert m. induction fuel as [|fuel IH]; intros m Hf; [lia|]. cbn [capture_loop].
  destruct (capture_pass _ _ _ _ _) as [[[e|] m1] [|]] eqn:Hp; eauto.
  apply pass_spec in Hp as (_ & H & _); [|done]. destruct H as [?|H%tc_unsettled]; try done. apply IH. lia.
Qed.

Lemma capture_loop_steps fuel m e m' :
  capture_loop fuel r (index l) l m = Some (e, m') →
  rtc step m m' ∧ (e = None → ∀ c, c ∈ l → skipped r (m' !! pid c) c = true ∨ admits (index l) m' c = false).
Proof.
  revert m. induction fuel as [|fuel IH]; intros m; cbn [capture_loop]; [done|].
  destruct (capture_pass _ _ _ _ _) as [[[e1|] m1] [|]] eqn:Hp; apply pass_spec in Hp as (H1 & _ & H3); try done.
  - by intros [= <- <-].
  - by intros [= <- <-].
  - intros [H4 H5]%IH. split; [by etrans|done].
  - intros [= <- <-]. split; [done|]. intros _. by destruct (H3 eq_refl eq_refl) as (_ & -> & H).
Qed.
End snapshot.

Definition keyed (m : identities) : Prop := ∀ k p, m !! k = Some p → pid p = k.

Section admitted.
Context (r : processIdentity) (l : list processIdentity) (base : identities).

(** What admissions keep, from the records [base] on. *)
Record admitted (m : identities) : Prop := {
  am_keyed : keyed m;
  am_sound k p : m !! k = Some p → descends r l base p ∧ (base !! k = Some p ∨ (p ∈ l ∧ eligible r p));
  am_base k : is_Some (base !! k) → is_Some (m !! k);
  am_bound : (size base <= descendantLimit)%nat → (size m <= descendantLimit)%nat;
  am_kept p c : NoDup (pid <$> l) → base !! pid c = Some p → c ∈ l → sameProcess p c = true → m !! pid c = Some p;
}.

Lemma full_bound m k c :
  (size m <= descendantLimit)%nat → full m (m !! k) = false → (size (<[k := c]> m) <= descendantLimit)%nat.
Proof.
  unfold full. rewrite map_size_insert. intros Hm Hf. destruct (m !! k); [done|].
  rewrite bool_decide_false in Hf by (by intros [? ?]). cbn [negb andb] in Hf. go_bool. cbn. lia.
Qed.

Lemma admitted_base : keyed base → admitted base.
Proof. intros K. split; [done| |done..]. intros k p Hp. split; [by econstructor|by left]. Qed.

Lemma step_admitted m m' : admitted m → step r l m m' → admitted m'.
Proof.
  intros Hm Hstep. revert Hm. destruct Hstep as [m c Hc Hs Ha Hf]. intros [K S B N G]. apply skipped_false in Hs as [He Hs]. split.
  - intros k p [[<- <-]|[_ H]]%lookup_insert_Some; [done|by apply K].
  - intros k p [[<- <-]|[_ H]]%lookup_insert_Some; [|by apply S]. split; [|by right].
    apply admits_parent in Ha as (p & q & Hp & Hq & Hpq & Hz & Ho). destruct (S _ _ Hp) as [Hd _].
    apply (d_child _ _ _ p q); [done..|]. split; try done. apply sameProcess_iff in Hpq as (_ & <- & _). symmetry. by apply K.
  - intros k H%B. rewrite lookup_insert_is_Some'. by right.
  - intros H%N. by apply full_bound.
  - intros p x Hnd Hp Hx Hpx. specialize (G p x Hnd Hp Hx Hpx). destruct (decide (pid c = pid x)) as [E|E]; [|by rewrite lookup_insert_ne].
    rewrite (unique_pid l c x Hnd Hc Hx E) in Hs. rewrite (Hs p G) in Hpx. done.
Qed.

Lemma steps_admitted m m' : rtc (step r l) m m' → admitted m → admitted m'.
Proof. induction 1 as [|m m1 m' H _ IH]; [done|]. intros Hm. apply IH. by eapply step_admitted. Qed.

Lemma same_process_trans a b c : sameProcess a b = true → sameProcess b c = true → sameProcess a c = true.
Proof. rewrite !sameProcess_iff. intros (? & -> & -> & ->). naive_solver. Qed.

(** A map that admits no further process has all descendants. *)
Lemma saturated m :
  admitted m → keyed base → NoDup (pid <$> l) →
  (∀ c, c ∈ l → skipped r (m !! pid c) c = true ∨ admits (index l) m c = false) →
  ∀ p, descends r l base p → ∀ c, c ∈ l → sameProcess p c = true → ∃ p', m !! pid c = Some p' ∧ sameProcess p' c = true.
Proof.
  intros [K S B N G] Hk Hnd Hsat p. induction 1 as [k p Hp|p q c _ IH Hpq Hco]; intros x Hx Hs.
  - exists p. split; [|done]. apply G; try done. apply sameProcess_iff in Hs as (_ & <- & _). by rewrite (Hk _ _ Hp).
  - destruct Hco as [Hq Hc Hz Hpp He Ho]. destruct (IH q Hq Hpq) as (p' & Hp' & Hs').
    assert (admits (index l) m c = true) as Ha.
    { unfold admits. rewrite Hpp, Hp'. apply sameProcess_iff in Hs' as Hs''. destruct Hs'' as (? & Hpid & ? & Hst).
      rewrite Hpid, (index_lookup l q Hnd Hq). unfold default, id. rewrite Hs', Hz, Hst, Ho. done. }
    destruct (Hsat c Hc) as [H|H]; [|congruence]. apply skipped_eligible in H as (p'' & Hm & Hp''); [|done].
    assert (pid c = pid x) as <- by (by apply sameProcess_iff in Hs as (_ & ? & _)). exists p''. split; [done|]. by eapply same_process_trans.
Qed.
End admitted.

(** ** Pruning *)
Section tracked.
Context {W : Type} `{HK : !Kernel W, RO : !RangeOrder Z processIdentity}.
Implicit Types s : kstate (W:=W).

(** What a lookup says of a recorded process that has ended. *)
Definition replaced (p : processIdentity) (x : result processIdentity) : Prop :=
  match x with Ok live => start live ≠ start p | Err e => gone e = true end.
Definition is_read (e : event) : Prop := ∃ p x, e = ERead p x.
Definition ended (current : identities) (ev : list event) (k : Z) (p : processIdentity) : Prop :=
  (∃ q, current !! k = Some q ∧ start q ≠ start p) ∨ (current !! k = None ∧ ∃ x, ERead k x ∈ ev ∧ replaced p x).

Lemma ended_app current ev ev' ev'' k p : ended current ev k p → ended current (ev' ++ ev ++ ev'') k p.
Proof.
  intros [H|(H & x & Hx & Hr)]; [by left|]. right. split; [done|]. exists x. rewrite !elem_of_app. tauto.
Qed.

Lemma readProcess_log p s x s1 : readProcess p s = (x, s1) → k_log s1 = k_log s ++ [ERead p x].
Proof. unfold readProcess. destruct (read_kernel _ _). by intros [= <- <-]. Qed.
Lemma processSnapshot_log s x s1 : processSnapshot s = (x, s1) → k_log s1 = k_log s ++ [EList x].
Proof. unfold processSnapshot. destruct (k_list _). by intros [= <- <-]. Qed.

Lemma prune_one_spec r current k p m s m1 s1 :
  prune_one r current k p m s = (m1, s1) →
  ∃ ev, k_log s1 = k_log s ++ ev ∧ Forall is_read ev ∧ (m1 = m ∨ (m1 = delete k m ∧ k ≠ pid r ∧ ended current ev k p)).
Proof.
  unfold prune_one. destruct (k =? pid r) eqn:Hk; go_bool.
  { intros [= <- <-]. exists []. rewrite app_nil_r. split_and!; [done..|by left]. }
  destruct (current !! k) as [q|] eqn:Hq.
  - intros [= <- <-]. exists []. rewrite app_nil_r. split_and!; [done..|]. case_bool_decide; [by left|]. right.
    split_and!; [done..|]. left. by exists q.
  - destruct (readProcess k s) as [x s2] eqn:Hr. intros [= <- <-]. exists [ERead k x]. split_and!; [by eapply readProcess_log| |].
    { apply Forall_singleton. by exists k, x. }
    assert (replaced p x → ended current [ERead k x] k p) as He by (intros; right; split; [done|]; exists x; by rewrite list_elem_of_singleton).
    destruct x as [live|e]; [case_bool_decide as Hd; [by left|]|destruct (gone e) eqn:Hg; [|by left]]; right; split_and!; try done; by apply He.
Qed.

Lemma prune_all_spec r current entries m s m1 s1 :
  prune_all r current entries m s = (m1, s1) →
  ∃ ev, k_log s1 = k_log s ++ ev ∧ Forall is_read ev ∧ m1 ⊆ m ∧
    ∀ k, m1 !! k = None → m !! k = None ∨ (k ≠ pid r ∧ ∃ p, (k, p) ∈ entries ∧ ended current ev k p).
Proof.
  revert m s. induction entries as [|[k p] entries IH]; intros m s; cbn [prune_all].
  { intros [= <- <-]. exists []. rewrite app_nil_r. split_and!; [done..|]. auto. }
  destruct (prune_one _ _ _ _ _ _) as [m2 s2] eqn:Hp. apply prune_one_spec in Hp as (ev & Hl & Hf & Hm).
  intros (ev' & Hl' & Hf' & Hsub & Hn)%IH. exists (ev ++ ev'). split_and!; [by rewrite Hl', Hl, <- app_assoc|by apply list.Forall_app| |].
  - destruct Hm as [->|(-> & _ & _)]; [done|]. etrans; [exact Hsub|apply delete_subseteq].
  - intros k' [H|(H & p' & Hp' & He)]%Hn.
    + destruct Hm as [->|(-> & Hk & He)]; [by left|]. apply lookup_delete_None in H as [<-|H]; [|by left].
      right. split; [done|]. exists p. split; [by left|]. rewrite <- (app_nil_l (ev ++ ev')). by apply ended_app.
    + right. split; [done|]. exists p'. split; [by right|]. rewrite <- (app_nil_r ev'). by apply ended_app.
Qed.

Lemma prune_spec current d s d1 s1 :
  prune current d s = (d1, s1) →
  root d1 = root d ∧ ∃ ev, k_log s1 = k_log s ++ ev ∧ Forall is_read ev ∧ known d1 ⊆ known d ∧
    ∀ k p, known d !! k = Some p → known d1 !! k = None → k ≠ pid (root d) ∧ ended current ev k p.
Proof.
  unfold prune. destruct (prune_all _ _ _ _ _) as [m s2] eqn:Hp. intros [= <- <-]. split; [done|].
  apply prune_all_spec in Hp as (ev & Hl & Hf & Hsub & Hn). exists ev. split_and!; [done..|].
  intros k p Hk H. destruct (Hn k H) as [?|(Hr & p' & Hin & He)]; [congruence|]. split; [done|].
  apply elem_of_go_range in Hin. by simplify_eq.
Qed.

Lemma keyed_subseteq m m' : m ⊆ m' → keyed m' → keyed m.
Proof. intros Hs Hk k p Hp. apply Hk. by eapply lookup_weaken. Qed.

Lemma capture_admitted fuel l d s e d' s' :
  keyed (known d) → capture fuel l d s = (Some (e, d'), s') →
  ∃ base, prune (index l) d s = ({| root := root d; known := base |}, s') ∧ root d' = root d ∧
    admitted (root d) l base (known d') ∧
    (e = None → ∀ c, c ∈ l → skipped (root d) (known d' !! pid c) c = true ∨ admits (index l) (known d') c = false).
Proof.
  intros Hk. unfold capture. destruct (prune _ _ _) as [d1 s1] eqn:Hp. pose proof (prune_spec _ _ _ _ _ Hp) as (Hr & ev & _ & _ & Hsub & _).
  destruct (capture_loop _ _ _ _ _) as [[e1 m]|] eqn:Hc; [|done]. intros [= <- <- <-]. destruct d1 as [r base]. cbn in *. subst r.
  exists base. split_and!; [done..| |]; apply capture_loop_steps in Hc as [Hs Hd]; [|done].
  eapply steps_admitted; [done|]. apply admitted_base. by eapply keyed_subseteq.
Qed.

(** C34: One snapshot of distinct processes leaves recorded exactly the identities that
    are recorded or descend from one through live, identity-matched parents that are
    not younger; nothing else is added, and a record is dropped only when the
    snapshot or a lookup shows that its process ended. *)
Theorem capture_exact fuel l d s d' s' :
  NoDup (pid <$> l) → keyed (known d) → capture fuel l d s = (Some (None, d'), s') →
  ∃ base ev, k_log s' = k_log s ++ ev ∧ base ⊆ known d ∧
    (∀ k p, known d !! k = Some p → base !! k = None → k ≠ pid (root d) ∧ ended (index l) ev k p) ∧
    (∀ k, is_Some (base !! k) → is_Some (known d' !! k)) ∧
    (∀ k p, known d' !! k = Some p → base !! k = Some p ∨ (p ∈ l ∧ pid p = k ∧ eligible (root d) p)) ∧
    (∀ c, c ∈ l → (∃ p, known d' !! pid c = Some p ∧ sameProcess p c = true) ↔
                  (∃ p, descends (root d) l base p ∧ sameProcess p c = true)).
Proof.
  intros Hnd Hk Hc. destruct (capture_admitted _ _ _ _ _ _ _ Hk Hc) as (base & Hp & _ & Ha & Hsat).
  apply prune_spec in Hp as (_ & ev & Hl & _ & Hsub & Hn). exists base, ev. split_and!; [done..|apply Ha| |].
  - intros k p Hm. destruct (am_sound _ _ _ _ Ha _ _ Hm) as [_ [H|[H1 H2]]]; [by left|right]. split_and!; try done. by apply Ha.
  - intros c Hin. split.
    + intros (p & Hm & Hs). exists p. split; [|done]. by apply (am_sound _ _ _ _ Ha _ _ Hm).
    + intros (p & Hd & Hs). eapply saturated; [done| |done|by apply Hsat|done..]. by eapply keyed_subseteq.
Qed.

(** ** A whole invocation

    The descendants of the root: each link was shown by one snapshot, in which the
    parent was matched with the identity known before. *)
Inductive descendant (log : list event) (r : processIdentity) : processIdentity → Prop :=
  | de_root : descendant log r r
  | de_child l p q c :
      EList (Ok l) ∈ log → descendant log r p → sameProcess p q = true → child_of r l q c → descendant log r c.

Lemma descendant_app log ev r p : descendant log r p → descendant (log ++ ev) r p.
Proof. induction 1 as [|l p q c Hl _ IH Hs Hc]; [by left|]. eright; [apply elem_of_app; by left|done..]. Qed.

(** Every signal follows a lookup that matched the identity of a descendant. *)
Record signal_ok (r : processIdentity) (l1 : list event) (p : Z) : Prop := {
  so_read : ∃ l1' current q, l1 = l1' ++ [ERead p (Ok current)] ∧ descendant l1 r q ∧ pid q = p ∧
              sameProcess q current = true ∧ zombie current = false;
  so_other : p ≠ pid r;
}.
Definition signals_ok (r : processIdentity) (log : list event) : Prop :=
  ∀ l1 p e l2, log = l1 ++ EKill p e :: l2 → signal_ok r l1 p.

Lemma app_snoc_inv {A} (l1 l2 log : list A) (x y : A) :
  log ++ [x] = l1 ++ y :: l2 → (l2 = [] ∧ log = l1 ∧ x = y) ∨ ∃ l2', l2 = l2' ++ [x] ∧ log = l1 ++ y :: l2'.
Proof.
  destruct l2 as [|z l2 _] using rev_ind.
  - intros H. apply (app_inj_2 log l1 [x] [y]) in H as [-> [= ->]]; [|done]. by left.
  - rewrite app_comm_cons, app_assoc. intros H. apply (app_inj_2 log (l1 ++ y :: l2) [x] [z]) in H as [-> [= ->]]; [|done].
    right. by exists l2.
Qed.

Lemma signals_ok_snoc r log e : signals_ok r log → (∀ p x, e = EKill p x → signal_ok r log p) → signals_ok r (log ++ [e]).
Proof.
  intros Hs He l1 p x l2 [(-> & <- & ->)|(l2' & -> & ->)]%app_snoc_inv; [by eapply He|by eapply Hs].
Qed.
Lemma signals_ok_app r log ev : signals_ok r log → (∀ p x, EKill p x ∉ ev) → signals_ok r (log ++ ev).
Proof.
  intros Hs. induction ev as [|e ev IH] using rev_ind; [by rewrite app_nil_r|]. intros Hq. rewrite app_assoc. apply signals_ok_snoc.
  - apply IH. intros p x Hin. apply (Hq p x). apply elem_of_app. by left.
  - intros p x ->. exfalso. apply (Hq p x). rewrite elem_of_app, list_elem_of_singleton. by right.
Qed.

Lemma reads_quiet ev p x : Forall is_read ev → EKill p x ∉ ev.
Proof. rewrite list.Forall_forall. intros H Hin%H. by destruct Hin as (? & ? & ?). Qed.

(** The invariant of the goroutine. *)
Record set_ok (log : list event) (r : processIdentity) (d : descendantSet) : Prop := {
  st_root : root d = r;
  st_keyed : keyed (known d);
  st_known k p : known d !! k = Some p → descendant log r p;
  st_bound : (size (known d) <= descendantLimit)%nat;
}.

Lemma set_ok_app log ev r d : set_ok log r d → set_ok (log ++ ev) r d.
Proof. intros [R K D B]. split; [done..| |done]. intros k p Hp. apply descendant_app. by eapply D. Qed.

Lemma descends_descendant log r l base p :
  EList (Ok l) ∈ log → (∀ k q, base !! k = Some q → descendant log r q) → descends r l base p → descendant log r p.
Proof. intros Hl Hb. induction 1 as [k p Hp|p q c _ IH Hs Hc]; [by eapply Hb|by eright]. Qed.

Lemma capture_set_ok fuel l r d s e d' s' :
  EList (Ok l) ∈ k_log s → set_ok (k_log s) r d → capture fuel l d s = (Some (e, d'), s') →
  (∃ ev, k_log s' = k_log s ++ ev ∧ Forall is_read ev) ∧ set_ok (k_log s') r d'.
Proof.
  intros Hin [R K D B] Hc. destruct (capture_admitted _ _ _ _ _ _ _ K Hc) as (base & Hp & Hr & Ha & _).
  apply prune_spec in Hp as (_ & ev & Hl & Hf & Hsub & _). cbn in Hsub. split; [by exists ev|]. split; [congruence|apply Ha| |].
  - intros k p Hm. rewrite Hl. apply descendant_app. destruct (am_sound _ _ _ _ Ha _ _ Hm) as [Hd _].
    rewrite R in Hd. eapply descends_descendant; [done| |exact Hd]. intros k' q Hq. eapply D. by eapply lookup_weaken.
  - apply (am_bound _ _ _ _ Ha). apply map_subseteq_size in Hsub. lia.
Qed.
Lemma capture_log fuel l d s o s' : capture fuel l d s = (o, s') → ∃ ev, k_log s' = k_log s ++ ev ∧ Forall is_read ev.
Proof.
  unfold capture. destruct (prune _ _ _) as [d1 s1] eqn:Hp. intros [= <- <-]. apply prune_spec in Hp as (_ & ev & Hl & Hf & _).
  by exists ev.
Qed.

Definition quiet (s s' : kstate (W:=W)) : Prop := ∃ ev, k_log s' = k_log s ++ ev ∧ ∀ p x, EKill p x ∉ ev.
Lemma quiet_refl s : quiet s s.
Proof. exists []. rewrite app_nil_r. split; [done|]. intros. apply not_elem_of_nil. Qed.
Lemma quiet_trans s1 s2 s3 : quiet s1 s2 → quiet s2 s3 → quiet s1 s3.
Proof.
  intros (e1 & H1 & Q1) (e2 & H2 & Q2). exists (e1 ++ e2). split; [by rewrite H2, H1, app_assoc|].
  intros p x [H|H]%elem_of_app; [by apply (Q1 p x)|by apply (Q2 p x)].
Qed.
Lemma quiet_snapshot s x s1 : processSnapshot s = (x, s1) → quiet s s1.
Proof. intros H%processSnapshot_log. exists [EList x]. split; [done|]. by intros p y ?%list_elem_of_singleton. Qed.
Lemma quiet_reads s s' ev : k_log s' = k_log s ++ ev → Forall is_read ev → quiet s s'.
Proof. intros Hl Hf. exists ev. split; [done|]. intros. by apply reads_quiet. Qed.
Lemma quiet_asleep d s : quiet s (asleep d s).
Proof. exists []. rewrite app_nil_r. split; [done|]. intros. apply not_elem_of_nil. Qed.
Lemma quiet_signals r s s' : quiet s s' → signals_ok r (k_log s) → signals_ok r (k_log s').
Proof. intros (ev & -> & Hq) Hs. by apply signals_ok_app. Qed.
Lemma quiet_set_ok r d s s' : quiet s s' → set_ok (k_log s) r d → set_ok (k_log s') r d.
Proof. intros (ev & -> & _). apply set_ok_app. Qed.

Lemma observe_ok r t s o s' :
  set_ok (k_log s) r (tr_set t) → observe t s = (o, s') →
  quiet s s' ∧ ∀ t', o = Some t' → set_ok (k_log s') r (tr_set t').
Proof.
  intros Ht. unfold observe. destruct (processSnapshot s) as [[l|e] s1] eqn:Hs; pose proof (quiet_snapshot _ _ _ Hs) as Hq.
  2:{ intros [= <- <-]. split; [done|]. intros t' [= <-]. by eapply quiet_set_ok. }
  destruct (capture _ _ _ _) as [[[e d]|] s2] eqn:Hc; intros [= <- <-]; destruct (capture_log _ _ _ _ _ _ Hc) as (ev & Hl & Hf).
  - split; [by eapply quiet_trans, quiet_reads|]. intros t' [= <-]. cbn [tr_set]. eapply capture_set_ok; [|by eapply quiet_set_ok|done].
    apply processSnapshot_log in Hs as ->. rewrite elem_of_app, list_elem_of_singleton. by right.
  - split; [by eapply quiet_trans, quiet_reads|done].
Qed.

Lemma ticks_ok r n t s o s' :
  set_ok (k_log s) r (tr_set t) → ticks n t s = (o, s') → quiet s s' ∧ ∀ t', o = Some t' → set_ok (k_log s') r (tr_set t').
Proof.
  revert t s. induction n as [|n IH]; intros t s Ht; cbn [ticks].
  { intros [= <- <-]. split; [apply quiet_refl|]. by intros t' [= <-]. }
  destruct (observe _ _) as [[t1|] s1] eqn:Ho; (apply (observe_ok r) in Ho as [Hq Ho]; [|done]).
  - intros H%IH; [|by apply Ho]. destruct H as [Hq' Ht']. split; [|done]. eapply quiet_trans; [exact Hq|done].
  - by intros [= <- <-].
Qed.

(** *** Termination of the recorded processes *)
Definition ended_now (p : processIdentity) (x : result processIdentity) : Prop :=
  match x with
  | Err e => gone e = true
  | Ok c => zombie c = true ∨ pid p ≠ pid c ∨ start p ≠ start c
  end.

Lemma killMatching_spec r p s res s' :
  killMatching p s = (res, s') → descendant (k_log s) r p → 1 < pid p → pid p ≠ pid r →
  signals_ok r (k_log s) →
  signals_ok r (k_log s') ∧ (∃ ev, k_log s' = k_log s ++ ev) ∧
  (res = (false, None) → ∃ x, k_log s' = k_log s ++ [ERead (pid p) x] ∧ ended_now p x).
Proof.
  unfold killMatching. intros H Hdesc Hpid Hr Hs. destruct (readProcess (pid p) s) as [x s1] eqn:Hread. apply readProcess_log in Hread.
  assert (signals_ok r (k_log s1)) as Hs1 by (rewrite Hread; by apply signals_ok_snoc).
  destruct x as [current|e].
  2:{ destruct (gone e) eqn:Hg; injection H as <- <-; (split; [done|]; split; [by eexists|]); [|done]. intros _. by eexists. }
  destruct (zombie current || negb (pid p =? pid current) || negb (bool_decide (start p = start current))) eqn:Hz.
  { injection H as <- <-. split; [done|]. split; [by eexists|]. intros _. eexists. split; [done|]. cbn.
    rewrite !orb_true_iff in Hz. destruct Hz as [[?|?]|?]; go_bool; tauto. }
  destruct (negb (uid p =? uid current)) eqn:Hu.
  { injection H as <- <-. split; [done|]. split; [by eexists|]. done. }
  destruct (kill (pid p) s1) as [k s2] eqn:Hk. unfold kill in Hk. destruct (k_kill _ _) as [k0 h]. injection Hk as <- <-. go_bool.
  assert (signals_ok r (k_log s1 ++ [EKill (pid p) k0])) as Hs2.
  { apply signals_ok_snoc; [done|]. intros p' x [= <- <-]. split; [|done]. exists (k_log s), current, p.
    split_and!; [done| |done| |done]; [|by apply sameProcess_iff].
    rewrite Hread. by apply descendant_app. }
  assert (∃ ev, (k_log s1 ++ [EKill (pid p) k0]) = k_log s ++ ev) as He by (rewrite Hread, <- app_assoc; by eexists).
  destruct k0 as [e|]; [destruct (errors_Is e ESRCH)|]; injection H as <- <-; (split; [exact Hs2|]; split; [exact He|done]).
Qed.

(** A record that may be signalled. *)
Definition target (log : list event) (r : processIdentity) (kp : Z * processIdentity) : Prop :=
  pid kp.2 = kp.1 ∧ descendant log r kp.2.

Lemma descendant_pid log r p : 1 < pid r → descendant log r p → 1 < pid p.
Proof. intros Hr. destruct 1 as [|l p q c _ _ _ Hc]; [done|]. apply Hc. Qed.

Lemma finish_pass_spec r entries live res s live' res' s' :
  finish_pass r entries live res s = (live', res', s') → 1 < pid r → Forall (target (k_log s) r) entries → signals_ok r (k_log s) →
  signals_ok r (k_log s') ∧ ∃ ev, k_log s' = k_log s ++ ev ∧
    (live' = false → res' = None → live = false ∧ res = None ∧ Forall is_read ev ∧
       ∀ k p, (k, p) ∈ entries → k ≠ pid r → ∃ x, ERead k x ∈ ev ∧ ended_now p x).
Proof.
  intros Hf Hr. revert live res s Hf. induction entries as [|[k p] entries IH]; intros live res s; cbn [finish_pass].
  { intros [= <- <- <-] _ Hs. split; [done|]. exists []. rewrite app_nil_r. split; [done|]. intros -> ->. split_and!; [done..|].
    intros k p Hin. by apply not_elem_of_nil in Hin. }
  destruct (k =? pid r) eqn:Hk; go_bool.
  { intros Hp [_ Ht]%list.Forall_cons Hs. destruct (IH _ _ _ Hp Ht Hs) as (Hs' & ev & Hl & Hev). split; [done|]. exists ev. split; [done|].
    intros H1 H2. destruct (Hev H1 H2) as (? & ? & ? & Hin). split_and!; [done..|]. intros k' p' [[= <- <-]|Hi]%elem_of_cons Hne; [done|by apply Hin]. }
  destruct (killMatching p s) as [[active e] s1] eqn:Hkm. intros Hp [[Hpk Hd] Ht]%list.Forall_cons Hs. cbn [fst snd] in *.
  destruct (killMatching_spec r _ _ _ _ Hkm Hd) as (Hs1 & (ev1 & Hl1) & Hend); [by eapply descendant_pid|congruence|done|].
  assert (Forall (target (k_log s1) r) entries) as Ht1.
  { rewrite Hl1. eapply list.Forall_impl; [exact Ht|]. intros [k' p'] [? ?]. split; [done|by apply descendant_app]. }
  destruct e as [e|].
  - destruct (IH _ _ _ Hp Ht1 Hs1) as (Hs' & ev & Hl & Hev). split; [done|]. exists (ev1 ++ ev). split; [by rewrite Hl, Hl1, app_assoc|].
    intros H1 H2. destruct (Hev H1 H2) as (_ & H & _). by destruct res.
  - destruct (IH _ _ _ Hp Ht1 Hs1) as (Hs' & ev & Hl & Hev). split; [done|]. exists (ev1 ++ ev). split; [by rewrite Hl, Hl1, app_assoc|].
    intros H1 H2. destruct (Hev H1 H2) as (H & ? & Hr' & Hin). apply orb_false_iff in H as [-> ->]. split_and!; [done..| |].
    + destruct (Hend eq_refl) as (x & Hx & _). rewrite Hl1 in Hx. apply app_inj_1 in Hx as [_ ->]; [|done].
      apply list.Forall_cons. split; [by eexists _, _|done].
    + intros k' p' [[= -> ->]|Hi]%elem_of_cons Hne.
      * destruct (Hend eq_refl) as (x & Hx & He). exists x. split; [|done]. rewrite Hl1 in Hx. apply app_inj_1 in Hx as [_ ->]; [|done].
        rewrite Hpk. by left.
      * destruct (Hin k' p' Hi Hne) as (x & Hx & He). exists x. split; [|done]. apply elem_of_app. by right.
Qed.

Lemma set_targets log r d : set_ok log r d → Forall (target log r) (go_range (known d)).
Proof.
  intros [_ K D _]. apply list.Forall_forall. intros [k p] H%elem_of_go_range. split; [by apply K|by eapply D].
Qed.

(** A last pass that found every recorded process ended. *)
Definition all_ended (d : descendantSet) (ev : list event) : Prop :=
  Forall is_read ev ∧ ∀ k p, known d !! k = Some p → k ≠ pid (root d) → ∃ x, ERead k x ∈ ev ∧ ended_now p x.

Lemma finish_loop_spec fuel deadline r d res s o s' :
  finish_loop fuel deadline d res s = (o, s') → 1 < pid r → set_ok (k_log s) r d → signals_ok r (k_log s) →
  signals_ok r (k_log s') ∧ (∃ ev, k_log s' = k_log s ++ ev) ∧
  (o = Some None → ∃ l0 ev, k_log s' = l0 ++ ev ∧ all_ended d ev).
Proof.
  intros Hf Hr. revert res s Hf. induction fuel as [|fuel IH]; intros res s; cbn [finish_loop].
  { intros [= <- <-] _ Hs. split; [done|]. split; [exists []; by rewrite app_nil_r|done]. }
  destruct (finish_pass _ _ _ _ _) as [[live res1] s1] eqn:Hp. intros Hl Hset Hs. pose proof (st_root _ _ _ Hset) as Hroot. rewrite Hroot in Hp.
  pose proof (finish_pass_spec _ _ _ _ _ _ _ _ Hp Hr (set_targets _ _ _ Hset) Hs) as (Hs1 & ev & Hlog & Hev).
  destruct live; cbn [negb] in Hl.
  - destruct (deadline <? _); [injection Hl as <- <-; split; [done|]; split; [by exists ev|done]|].
    apply IH in Hl as (H1 & (ev' & H2) & H3); [| |by eapply quiet_signals; [apply quiet_asleep|]].
    + split; [done|]. split; [|done]. exists (ev ++ ev'). by rewrite H2; cbn [k_log asleep]; rewrite Hlog, app_assoc.
    + eapply quiet_set_ok; [apply quiet_asleep|]. rewrite Hlog. by apply set_ok_app.
  - injection Hl as <- <-. split; [done|]. split; [by exists ev|]. intros [= ->]. destruct (Hev eq_refl eq_refl) as (_ & _ & Hq & Hall).
    exists (k_log s), ev. split; [done|]. split; [done|]. intros k p Hk Hne. apply Hall; [by apply elem_of_go_range|congruence].
Qed.

Lemma stopped_spec fuel r t s o s' :
  stopped fuel t s = (o, s') → 1 < pid r → set_ok (k_log s) r (tr_set t) → signals_ok r (k_log s) →
  signals_ok r (k_log s') ∧ ∃ ev, k_log s' = k_log s ++ ev.
Proof.
  unfold stopped. intros H Hr Ht Hs. destruct (observe t s) as [[t1|] s1] eqn:Ho; destruct (observe_ok r _ _ _ _ Ht Ho) as [Hq Hset].
  - destruct (finish _ _ _) as [o1 s2] eqn:Hf. injection H as <- <-.
    destruct (finish_loop_spec _ _ r _ _ _ _ _ Hf Hr) as (H1 & (ev & H2) & _); [by apply Hset|by eapply quiet_signals|].
    split; [done|]. destruct Hq as (ev0 & H3 & _). exists (ev0 ++ ev). by rewrite H2, H3, app_assoc.
  - injection H as <- <-. split; [by eapply quiet_signals|]. destruct Hq as (ev & H & _). by exists ev.
Qed.

(** The start: nothing is signalled, and the set holds descendants of the root. *)
Lemma TrackDescendants_spec process h o s' :
  TrackDescendants process {| k_host := h; k_log := [] |} = (o, s') →
  (∀ p e, EKill p e ∉ k_log s') ∧
  ∀ t, o = Some (Ok t) → ∃ p r log, process = Some p ∧ k_log s' = ERead p (Ok r) :: log ∧ valid_root p r = true ∧ set_ok (k_log s') r (tr_set t).
Proof.
  assert (∀ s, k_log s = [] ++ k_log s) as Hnil by done.
  unfold TrackDescendants. destruct process as [p|]; [|intros [= <- <-]; split; [intros; apply not_elem_of_nil|done]].
  destruct (readProcess p _) as [[r|e] s1] eqn:Hread; apply readProcess_log in Hread; cbn [k_log app] in Hread.
  2:{ intros [= <- <-]. rewrite Hread. split; [by intros ? ? ?%list_elem_of_singleton|done]. }
  assert (∀ q e, EKill q e ∉ k_log s1) as Hq1 by (rewrite Hread; by intros ? ? ?%list_elem_of_singleton).
  destruct (valid_root p r) eqn:Hv; cbn [negb]; [|by intros [= <- <-]].
  assert (set_ok (k_log s1) r {| root := r; known := {[pid r := r]} |}) as Hset.
  { split; cbn [root known]; [done| | |rewrite map_size_singleton; unfold descendantLimit; lia].
    - by intros k q [<- <-]%lookup_singleton_Some.
    - intros k q [<- <-]%lookup_singleton_Some. apply de_root. }
  destruct (processSnapshot s1) as [[l|e] s2] eqn:Hsn; pose proof (quiet_snapshot _ _ _ Hsn) as (ev & Hl & Hq).
  2:{ intros [= <- <-]. rewrite Hl. split; [|done]. intros q e' [H|H]%elem_of_app; [by apply (Hq1 q e')|by apply (Hq q e')]. }
  destruct (capture _ _ _ _) as [c s3] eqn:Hc. destruct (capture_log _ _ _ _ _ _ Hc) as (ev' & Hl' & Hf').
  assert (∀ q e, EKill q e ∉ k_log s3) as Hq3.
  { rewrite Hl', Hl. intros q e [[H|H]%elem_of_app|H]%elem_of_app; [by apply (Hq1 q e)|by apply (Hq q e)|by eapply reads_quiet]. }
  destruct c as [[[e|] d]|]; intros [= <- <-]; (split; [done|]); [done| |done]. intros t [= <-]. cbn [tr_set].
  exists p, r, (ev ++ ev'). split_and!; [done|by rewrite Hl', Hl, Hread|done|].
  eapply capture_set_ok; [|by eapply quiet_set_ok; [exists ev|]|done].
  apply processSnapshot_log in Hsn as ->. rewrite elem_of_app, list_elem_of_singleton. by right.
Qed.

Lemma valid_root_iff p r : valid_root p r = true ↔ pid r = p ∧ 1 < pid r ∧ uid r = k_euid ∧ Sec (start r) ≠ 0.
Proof.
  unfold valid_root. rewrite negb_true_iff, !orb_false_iff, !negb_false_iff, !Z.eqb_eq, Z.leb_gt, Z.eqb_neq. tauto.
Qed.

(** C33: Every signal of an invocation goes to a descendant of the verified root other
    than the root, right after a lookup that found the PID alive with the recorded
    birth time and user; every link of the descent was shown by one snapshot in
    which the parent had the identity recorded for it. *)
Theorem signals_only_descendants process n fuel h o s' :
  tracked_run process n fuel {| k_host := h; k_log := [] |} = (o, s') →
  ∀ l1 p e l2, k_log s' = l1 ++ EKill p e :: l2 →
  ∃ pr r log, process = Some pr ∧ k_log s' = ERead pr (Ok r) :: log ∧ pid r = pr ∧ uid r = k_euid ∧ signal_ok r l1 p.
Proof.
  unfold tracked_run. destruct (TrackDescendants _ _) as [[[t|e]|] s1] eqn:Ht; apply TrackDescendants_spec in Ht as [Hq Ht].
  2-3: intros [= <- <-] l1 p e' l2 Hl; exfalso; apply (Hq p e'); rewrite Hl, elem_of_app; right; by left.
  destruct (Ht t eq_refl) as (pr & r & log & -> & Hlog & (Hpr & Hr & Hu & _)%valid_root_iff & Hset). intros Hrun.
  assert (signals_ok r (k_log s1)) as Hs1 by (intros l1 p e l2 Hl; exfalso; apply (Hq p e); rewrite Hl, elem_of_app; right; by left).
  destruct (ticks n t s1) as [o1 s2] eqn:Hn. destruct (ticks_ok r _ _ _ _ _ Hset Hn) as [Hq2 Ht2].
  pose proof (quiet_signals r _ _ Hq2 Hs1) as Hs2. destruct Hq2 as (ev2 & Hl2 & _).
  assert (∃ ev, k_log s' = k_log s2 ++ ev ∧ signals_ok r (k_log s')) as (ev & Hl' & Hs').
  { destruct o1 as [t1|]; [|injection Hrun as <- <-; exists []; by rewrite app_nil_r].
    destruct (stopped fuel t1 s2) as [o2 s3] eqn:Hst. injection Hrun as <- <-.
    destruct (stopped_spec _ r _ _ _ _ Hst Hr (Ht2 _ eq_refl) Hs2) as [Hs3 [ev Hl3]]. by exists ev. }
  intros l1 p e l2 Hl. exists pr, r, (log ++ ev2 ++ ev). split_and!; [done| |done..|by eapply Hs'].
  by rewrite Hl', Hl2, Hlog, <- app_assoc.
Qed.

(** A stop that reports success had no failed snapshot, and after its last
    snapshot every recorded process and every descendant that snapshot showed was
    looked up and found ended, in a last pass without a signal. *)
Theorem clean_stop fuel r t s s' :
  1 < pid r → set_ok (k_log s) r (tr_set t) → signals_ok r (k_log s) → stopped fuel t s = (Some None, s') →
  tr_result t = None ∧
  ∃ l d base l0 ev, EList (Ok l) ∈ k_log s' ∧ k_log s' = l0 ++ ev ∧ Forall is_read ev ∧ set_ok (k_log s') r d ∧ base ⊆ known (tr_set t) ∧
    (∀ k p, known d !! k = Some p → k ≠ pid r → ∃ x, ERead k x ∈ ev ∧ ended_now p x) ∧
    (NoDup (pid <$> l) → ∀ p c, descends r l base p → c ∈ l → sameProcess p c = true → pid c ≠ pid r →
       ∃ x, ERead (pid c) x ∈ ev ∧ ended_now c x).
Proof.
  unfold stopped. intros Hr Hset Hs. destruct (observe t s) as [[t1|] s1] eqn:Ho; [|done]. pose proof (observe_ok r _ _ _ _ Hset Ho) as [Hq Hset1].
  specialize (Hset1 _ eq_refl). destruct (finish fuel (tr_set t1) s1) as [[res|] s2] eqn:Hf; [|done]. intros [= Hres <-].
  apply errors_Join_None in Hres. apply list.Forall_cons in Hres as [Ht1 Hres]. apply list.Forall_cons in Hres as [-> _].
  destruct (finish_loop_spec _ _ r _ _ _ _ _ Hf Hr Hset1) as (_ & (ev2 & Hl2) & Hend); [by eapply quiet_signals|].
  destruct (Hend eq_refl) as (l0 & ev & Hl & Hreads & Hall). rewrite (st_root _ _ _ Hset1) in Hall. revert Ho Ht1.
  unfold observe. destruct (processSnapshot s) as [[l|e] s0] eqn:Hsn; [|by intros [= <- <-]].
  destruct (capture _ _ _ _) as [[[e d]|] s3] eqn:Hc; [|done]. intros [= <- <-]. cbn [tr_result tr_set] in *. destruct e as [e|]; [done|]. intros Ht.
  split; [done|]. destruct (capture_admitted _ _ _ _ _ _ _ (st_keyed _ _ _ Hset) Hc) as (base & Hp & _ & Ha & Hsat). specialize (Hsat eq_refl).
  apply prune_spec in Hp as (_ & ev1 & Hl1 & _ & Hsub & _). cbn [known] in Hsub. rewrite (st_root _ _ _ Hset) in *.
  exists l, d, base, l0, ev. split_and!; try done.
  - rewrite Hl2, Hl1. apply processSnapshot_log in Hsn as ->. rewrite !elem_of_app, list_elem_of_singleton. tauto.
  - rewrite Hl2. by apply set_ok_app.
  - intros Hnd p c Hd Hin Hpc Hne.
    destruct (saturated r l base (known d) Ha (keyed_subseteq _ _ Hsub (st_keyed _ _ _ Hset)) Hnd Hsat p Hd c Hin Hpc) as (q & Hq' & Hqc).
    destruct (Hall _ _ Hq' Hne) as (x & Hx & He). exists x. split; [done|]. apply sameProcess_iff in Hqc as (_ & E1 & _ & E2).
    destruct x as [y|y]; [|done]. cbn in He |- *. by rewrite <- E1, <- E2.
Qed.

(** *** The invocation ends *)

(** The kernel lists no PID twice, and its clock does not go back and advances by
    the sleeps. *)
Class KernelLaws := {
  kl_distinct h l h1 : k_list h = (Ok l, h1) → NoDup (P_pid <$> l);
  kl_proc p h : k_now h <= k_now (k_proc p h).2;
  kl_raw p h : k_now h <= k_now (k_raw p h).2;
  kl_kill p h : k_now h <= k_now (k_kill p h).2;
  kl_sleep d h : 0 <= d → k_now h + d <= k_now (k_sleep d h);
}.

Section ends.
Context `{laws : !KernelLaws}.
#[local] Set Default Proof Using "Type*".

Lemma snapshot_distinct s l s1 : processSnapshot s = (Ok l, s1) → NoDup (pid <$> l).
Proof.
  unfold processSnapshot. destruct (k_list (k_host s)) as [[l0|e] h] eqn:Hk; [|done]. intros [= <- _].
  rewrite <- list_fmap_compose. by eapply kl_distinct in Hk.
Qed.
Lemma capture_ends l d s : NoDup (pid <$> l) → ∃ x s', capture (S (length l)) l d s = (Some x, s').
Proof.
  intros Hnd. unfold capture. destruct (prune _ _ _) as [d1 s1]. destruct (capture_loop_ends (root d) l (S (length l)) (known d1) Hnd) as [[e m] ->].
  - pose proof (unsettled_le l (known d1)). lia.
  - eauto.
Qed.
Lemma observe_ends t s : ∃ t' s', observe t s = (Some t', s').
Proof.
  unfold observe. destruct (processSnapshot s) as [[l|e] s1] eqn:Hs; [|eauto].
  destruct (capture_ends l (tr_set t) s1) as ([e d] & s2 & ->); [by eapply snapshot_distinct|eauto].
Qed.
Lemma ticks_end n t s : ∃ t' s', ticks n t s = (Some t', s').
Proof.
  revert t s. induction n as [|n IH]; intros t s; cbn [ticks]; [eauto|]. destruct (observe_ends t (asleep tick_interval s)) as (t1 & s1 & ->). apply IH.
Qed.

Lemma readProcess_now p s : k_now (k_host s) <= k_now (k_host (readProcess p s).2).
Proof.
  unfold readProcess, read_kernel. pose proof (kl_proc p (k_host s)) as H. destruct (k_proc p (k_host s)) as [[x|e] h]; [done|].
  destruct (errors_Is e EIO); [|done]. pose proof (kl_raw p h) as H'. destruct (k_raw p h) as [[raw|e'] h']; cbn in *; [|lia].
  case_bool_decide; cbn; lia.
Qed.
Lemma killMatching_now p s : k_now (k_host s) <= k_now (k_host (killMatching p s).2).
Proof.
  unfold killMatching. pose proof (readProcess_now (pid p) s) as H. destruct (readProcess (pid p) s) as [[x|e] s1]; cbn [snd] in *.
  - destruct (_ || _ || _); [done|]. destruct (negb _); [done|]. unfold kill. pose proof (kl_kill (pid p) (k_host s1)) as H'.
    destruct (k_kill _ _) as [[e|] h]; cbn in *; [destruct (errors_Is e ESRCH)|]; cbn; lia.
  - by destruct (gone e).
Qed.
Lemma finish_pass_now r entries live res s : k_now (k_host s) <= k_now (k_host (finish_pass r entries live res s).2).
Proof.
  revert live res s. induction entries as [|[k p] entries IH]; intros live res s; cbn [finish_pass]; [done|].
  destruct (k =? pid r); [done|]. pose proof (killMatching_now p s) as H. destruct (killMatching p s) as [[active e] s1]. cbn [snd] in H.
  destruct e; (etrans; [exact H|apply IH]).
Qed.

Lemma finish_loop_ends fuel deadline d res s :
  deadline < k_now (k_host s) + Z.of_nat fuel * pause → ∃ x s', finish_loop (S fuel) deadline d res s = (Some x, s').
Proof.
  revert res s. induction fuel as [|fuel IH]; intros res s Hd; cbn [finish_loop];
    pose proof (finish_pass_now (root d) (go_range (known d)) false res s) as Hn;
    destruct (finish_pass _ _ _ _ _) as [[live res1] s1]; cbn [snd] in Hn; (destruct (negb live); [eauto|]);
    destruct (deadline <? k_now (k_host s1)) eqn:Ht; [eauto| |eauto|]; go_bool; [lia|].
  apply IH. cbn [asleep k_host]. pose proof (kl_sleep pause (k_host s1)). unfold pause in *. lia.
Qed.

(** C35: An invocation ends: the passes of a capture are at most one more than the
    processes of the snapshot, and those of the final termination at most 102. *)
Theorem tracking_terminates process n fuel s :
  (102 <= fuel)%nat → ∃ x s', tracked_run process n fuel s = (Some x, s').
Proof.
  intros Hfuel. unfold tracked_run.
  assert (∃ x s', TrackDescendants process s = (Some x, s')) as (x & s1 & ->).
  { unfold TrackDescendants. destruct process as [p|]; [|eauto]. destruct (readProcess p s) as [[r|e] s1]; [|eauto].
    destruct (negb _); [eauto|]. destruct (processSnapshot s1) as [[l|e] s2] eqn:Hs; [|eauto].
    destruct (capture_ends l {| root := r; known := {[pid r := r]} |} s2) as ([[e|] d] & s3 & ->); [by eapply snapshot_distinct|eauto..]. }
  destruct x as [t|e]; [|eauto]. destruct (ticks_end n t s1) as (t1 & s2 & ->). unfold stopped.
  destruct (observe_ends t1 s2) as (t2 & s3 & ->). unfold finish. destruct fuel as [|fuel]; [lia|].
  destruct (finish_loop_ends fuel (k_now (k_host s3) + second) (tr_set t2) None s3) as (y & s4 & ->); [unfold second, pause; lia|eauto].
Qed.
End ends.
End tracked.

(** ** A concrete machine *)
Module DescendantExample.
Definition proc (p pp u s : Z) : KinfoProc :=
  {| P_pid := p; P_stat := 2; P_starttime := {| Sec := s; Usec := 0 |}; Ppid := pp; Uid := u |}.
(** The provider 100 with a child and a grandchild, and a process of the same user
    that does not descend from it. *)
Definition table : list KinfoProc := [proc 100 50 501 10; proc 300 200 501 12; proc 200 100 501 11; proc 400 1 501 5].
Record machine := { dead : list Z; clock : Z }.
Definition alive (h : machine) : list KinfoProc := filter (λ k, P_pid k ∉ dead h) table.
#[export] Instance machine_kernel : Kernel machine := {|
  k_euid := 501;
  k_proc := λ p h, (match List.find (λ k, P_pid k =? p) (alive h) with Some k => Ok k | None => Err EIO end, h);
  k_raw := λ _ h, (Ok "", h);
  k_list := λ h, (Ok (alive h), h);
  k_kill := λ p h, (None, {| dead := p :: dead h; clock := clock h |});
  k_now := clock;
  k_sleep := λ d h, {| dead := dead h; clock := clock h + d |};
|}.

#[export] Instance machine_laws : KernelLaws (W:=machine).
Proof.
  split; [|intros; simpl; lia..]. intros h l h1 [= <- _].
  eapply sublist_NoDup; [|apply (fmap_sublist P_pid), sublist_filter].
  apply (bool_decide_unpack _). vm_compute. exact I.
Qed.

Definition h0 : machine := {| dead := []; clock := 0 |}.
Definition begin : kstate (W:=machine) := {| k_host := h0; k_log := [] |}.
Definition final : kstate := Eval vm_compute in (tracked_run (Some 100) 3 102 begin).2.
Definition kills (log : list event) : list Z := omap (λ e, match e with EKill p _ => Some p | _ => None end) log.

(** Both descendants are killed, and nothing else. *)
Example run_kills : (tracked_run (Some 100) 3 102 begin).1 = Some (Ok None) ∧ kills (k_log final) ≡ₚ [200; 300].
Proof. split; [vm_compute; reflexivity|]. vm_compute. solve_Permutation. Qed.

Lemma signals_only_descendants_witness :
  tracked_run (Some 100) 3 102 begin = (Some (Ok None), final) ∧
  ∀ l1 p e l2, k_log final = l1 ++ EKill p e :: l2 →
  ∃ pr r log, Some 100 = Some pr ∧ k_log final = ERead pr (Ok r) :: log ∧ pid r = pr ∧ uid r = 501 ∧ signal_ok r l1 p.
Proof.
  assert (tracked_run (Some 100) 3 102 begin = (Some (Ok None), final)) as E by (vm_compute; reflexivity).
  split; [exact E|]. exact (signals_only_descendants (Some 100) 3 102 h0 _ _ E).
Defined.

Lemma tracking_terminates_witness : (102 <= 102)%nat ∧ ∃ x s', tracked_run (Some 100) 5 102 begin = (Some x, s').
Proof. split; [lia|]. apply (tracking_terminates (Some 100) 5 102 begin). lia. Defined.

Definition r0 : processIdentity := processRecord (proc 100 50 501 10).
Definition d0 : descendantSet := {| root := r0; known := {[100 := r0]} |}.
Definition snapshot : list processIdentity := map processRecord table.
Definition captured : identities :=
  {[100 := r0; 200 := processRecord (proc 200 100 501 11); 300 := processRecord (proc 300 200 501 12)]}.

Lemma d0_keyed : keyed (known d0).
Proof. unfold d0. cbn [known]. by intros k p [<- <-]%lookup_singleton_Some. Qed.

Lemma capture_exact_witness :
  capture 4 snapshot d0 begin = (Some (None, {| root := r0; known := captured |}), begin) ∧
  ∃ base ev, k_log begin = k_log begin ++ ev ∧ base ⊆ known d0 ∧
    (∀ k p, known d0 !! k = Some p → base !! k = None → k ≠ pid (root d0) ∧ ended (index snapshot) ev k p) ∧
    (∀ k, is_Some (base !! k) → is_Some (captured !! k)) ∧
    (∀ k p, captured !! k = Some p → base !! k = Some p ∨ (p ∈ snapshot ∧ pid p = k ∧ eligible (root d0) p)) ∧
    (∀ c, c ∈ snapshot → (∃ p, captured !! pid c = Some p ∧ sameProcess p c = true) ↔
                         (∃ p, descends (root d0) snapshot base p ∧ sameProcess p c = true)).
Proof.
  assert (capture 4 snapshot d0 begin = (Some (None, {| root := r0; known := captured |}), begin)) as E by (vm_compute; reflexivity).
  split; [exact E|]. refine (capture_exact 4 snapshot d0 begin _ _ _ d0_keyed E).
  apply (bool_decide_unpack _). vm_compute. exact I.
Defined.

Definition t0 : tracker := {| tr_set := d0; tr_result := None |}.
Definition after : kstate := Eval vm_compute in (stopped 102 t0 begin).2.
Lemma t0_ok : set_ok (k_log begin) r0 (tr_set t0).
Proof.
  split; [done|exact d0_keyed| |vm_compute; lia]. unfold t0, d0. cbn [tr_set known]. intros k p [_ <-]%lookup_singleton_Some. apply de_root.
Qed.

Lemma clean_stop_witness :
  stopped 102 t0 begin = (Some None, after) ∧ tr_result t0 = None ∧
  ∃ l d base l0 ev, EList (Ok l) ∈ k_log after ∧ k_log after = l0 ++ ev ∧ Forall is_read ev ∧ set_ok (k_log after) r0 d ∧
    base ⊆ known (tr_set t0) ∧
    (∀ k p, known d !! k = Some p → k ≠ pid r0 → ∃ x, ERead k x ∈ ev ∧ ended_now p x) ∧
    (NoDup (pid <$> l) → ∀ p c, descends r0 l base p → c ∈ l → sameProcess p c = true → pid c ≠ pid r0 →
       ∃ x, ERead (pid c) x ∈ ev ∧ ended_now c x).
Proof.
  assert (stopped 102 t0 begin = (Some None, after)) as E by (vm_compute; reflexivity).
  split; [exact E|]. refine (clean_stop 102 r0 t0 begin after _ t0_ok _ E); [done|].
  intros l1 p e l2 Hl. by apply app_cons_not_nil in Hl.
Defined.
End DescendantExample.
