(* ===== verification/AgentHost.v ===== *)
(** * The embedding host's contract

    pkg/adapters/agenthost/contract.go: the handshake with the executable that runs
    the delegation proxy, and the resolver that keeps a verified one. *)

From S2P Require Import Prelude GoStrings Json Environment.
From stdpp Require Import options.

Open Scope Z_scope.

(** The fields of contract.json that the handshake reads. *)
Definition contract_Protocol : string := "openlinker.agent-host.v1".

Record Capabilities := { c_Protocol : string; c_BrowserProxy : bool; c_DelegationProxy : bool }.
Definition no_capabilities : Capabilities := {| c_Protocol := ""; c_BrowserProxy := false; c_DelegationProxy := false |}.
(** [SupportedCapabilities] *)
Definition SupportedCapabilities : Capabilities :=
  {| c_Protocol := contract_Protocol; c_BrowserProxy := true; c_DelegationProxy := true |}.
Definition capability_fields : list (field Capabilities) :=
  [f_string "protocol" (λ v c, {| c_Protocol := v; c_BrowserProxy := c_BrowserProxy c; c_DelegationProxy := c_DelegationProxy c |});
   f_bool "browser_proxy" (λ v c, {| c_Protocol := c_Protocol c; c_BrowserProxy := v; c_DelegationProxy := c_DelegationProxy c |});
   f_bool "delegation_proxy" (λ v c, {| c_Protocol := c_Protocol c; c_BrowserProxy := c_BrowserProxy c; c_DelegationProxy := v |})].

(** ** The probe's output *)
Definition probe_limit : Z := 8192.
(** [probeOutput.Write]: the buffer, or the refusal that ends the copy. *)
Definition probe_write (buffer value : string) : option string :=
  if probe_limit <? slen buffer + slen value then None else Some (buffer +:+ value).
Fixpoint probe_copy (buffer : string) (writes : list string) : string * bool :=
  match writes with
  | [] => (buffer, true)
  | value :: rest => match probe_write buffer value with Some b => probe_copy b rest | None => (buffer, false) end
  end.

(** ** The handshake *)

(** The operating system: [os.Executable], [exec.LookPath], the environment, and the
    output and error of a process started with the given arguments and variables. *)
Class HostOS (W : Type) := {
  ho_Executable : result string;
  ho_LookPath : string → result string;
  ho_Environ : list string;
  ho_Run : string → list string → list string → W → (list string * option go_error) * W;
}.

Definition errLacksCapabilities : go_error :=
  ENew "Agent transport host lacks plugin capabilities; select the embedding product's host binary implementing openlinker.agent-host.v1 (Agent Node uses openlinker-agent-node)".
Definition errUnsupported : go_error := ENew "Agent transport host does not support the required protocol/capability".

Definition probe_arguments : list string := ["plugin"; "capabilities"].
Definition probe_environment (environ : list string) : list string :=
  List.filter (λ item, bool_decide (env_name item = "PATH") || bool_decide (env_name item = "SystemRoot")) environ.

(** [capability] is one the contract names and the host has. *)
Definition has_capability (c : Capabilities) (capability : string) : bool :=
  if bool_decide (capability = "browser_proxy") then c_BrowserProxy c
  else if bool_decide (capability = "delegation_proxy") then c_DelegationProxy c
  else false.
(** The decoding of what the probe printed. *)
Definition supports (output capability : string) : bool :=
  match (j ← parse output; decode_struct false capability_fields no_capabilities j) with
  | Some c => bool_decide (c_Protocol c = contract_Protocol) && has_capability c capability
  | None => false
  end.

(** ** What a host has to print

    Stated on the members of the object it prints, not with [supports]. *)

(** The last member of a name, in any letter case, that is not null. *)
Fixpoint said (kvs : list (string * json)) (name : string) : option json :=
  match kvs with
  | [] => None
  | (k, v) :: rest =>
      match said rest name with
      | Some x => Some x
      | None => if EqualFold k name then match v with JNull => None | _ => Some v end else None
      end
  end.
(** The members of the contract have its types. *)
Definition contract_member (kv : string * json) : Prop :=
  (EqualFold kv.1 "protocol" = true → kv.2 = JNull ∨ ∃ s, kv.2 = JStr s) ∧
  (EqualFold kv.1 "browser_proxy" = true → kv.2 = JNull ∨ ∃ b, kv.2 = JBool b) ∧
  (EqualFold kv.1 "delegation_proxy" = true → kv.2 = JNull ∨ ∃ b, kv.2 = JBool b).
Definition announces (output capability : string) : Prop :=
  ∃ kvs, parse output = Some (JObj kvs) ∧ Forall contract_member kvs ∧
    said kvs "protocol" = Some (JStr "openlinker.agent-host.v1") ∧
    capability ∈ ["browser_proxy"; "delegation_proxy"] ∧ said kvs capability = Some (JBool true).

Definition string_or (d : string) (j : option json) : string := match j with Some (JStr s) => s | _ => d end.
Definition bool_or (d : bool) (j : option json) : bool := match j with Some (JBool b) => b | _ => d end.

Lemma capability_field k :
  find_field capability_fields k =
  if EqualFold k "protocol" then capability_fields !! 0%nat
  else if EqualFold k "browser_proxy" then capability_fields !! 1%nat
  else if EqualFold k "delegation_proxy" then capability_fields !! 2%nat else None.
Proof.
  unfold find_field, capability_fields. cbn [find f_string f_bool fst].
  repeat (case_bool_decide as H; [by rewrite <-H|clear H]).
  by destruct (EqualFold k "protocol"), (EqualFold k "browser_proxy"), (EqualFold k "delegation_proxy").
Qed.
(** A name matches at most one member of the contract. *)
Lemma capability_names k :
  (EqualFold k "protocol" = true → EqualFold k "browser_proxy" = false ∧ EqualFold k "delegation_proxy" = false) ∧
  (EqualFold k "browser_proxy" = true → EqualFold k "delegation_proxy" = false).
Proof.
  rewrite <- !not_true_iff_false, !EqualFold_true.
  assert (fold_key "protocol" ≠ fold_key "browser_proxy" ∧ fold_key "protocol" ≠ fold_key "delegation_proxy" ∧
          fold_key "browser_proxy" ≠ fold_key "delegation_proxy") as (H1 & H2 & H3) by (by vm_compute).
  split_and!; intros H; try split; congruence.
Qed.

Lemma said_typed kvs :
  Forall contract_member kvs →
  (said kvs "protocol" = None ∨ ∃ x, said kvs "protocol" = Some (JStr x)) ∧
  (said kvs "browser_proxy" = None ∨ ∃ b, said kvs "browser_proxy" = Some (JBool b)) ∧
  (said kvs "delegation_proxy" = None ∨ ∃ b, said kvs "delegation_proxy" = Some (JBool b)).
Proof.
  assert (∀ name (P : json → Prop), P JNull → Forall (λ kv, EqualFold kv.1 name = true → P kv.2) kvs →
            said kvs name = None ∨ ∃ x, said kvs name = Some x ∧ P x ∧ x ≠ JNull) as H.
  { intros name P _ HP. induction HP as [|[k v] kvs Hv _ IH]; cbn [said]; [by left|].
    destruct IH as [->|(x & -> & Hx)]; [|right; eauto]. destruct (EqualFold k name) eqn:He; [|by left].
    specialize (Hv He). cbn in Hv. destruct v; eauto 6. }
  intros Hw. unfold contract_member in Hw. rewrite !list.Forall_and in Hw. destruct Hw as (Hp & Hb & Hd).
  apply (H "protocol" (λ x, x = JNull ∨ ∃ s, x = JStr s)) in Hp; [|by left].
  apply (H "browser_proxy" (λ x, x = JNull ∨ ∃ b, x = JBool b)) in Hb; [|by left].
  apply (H "delegation_proxy" (λ x, x = JNull ∨ ∃ b, x = JBool b)) in Hd; [|by left]. split_and!.
  - destruct Hp as [?|(x & Hx & [?|[y ->]] & ?)]; [by left|done|eauto].
  - destruct Hb as [?|(x & Hx & [?|[y ->]] & ?)]; [by left|done|eauto].
  - destruct Hd as [?|(x & Hx & [?|[y ->]] & ?)]; [by left|done|eauto].
Qed.

(** One member: whether it decodes, and what it leaves. *)
Definition keep_member (k : string) (v : json) (c : Capabilities) : Capabilities :=
  {| c_Protocol := string_or (c_Protocol c) (said [(k, v)] "protocol");
     c_BrowserProxy := bool_or (c_BrowserProxy c) (said [(k, v)] "browser_proxy");
     c_DelegationProxy := bool_or (c_DelegationProxy c) (said [(k, v)] "delegation_proxy") |}.
Lemma decode_contract_member k v kvs c :
  (contract_member (k, v) ∧
   decode_members false capability_fields ((k, v) :: kvs) c = decode_members false capability_fields kvs (keep_member k v c)) ∨
  (¬ contract_member (k, v) ∧ decode_members false capability_fields ((k, v) :: kvs) c = None).
Proof.
  cbn [decode_members]. rewrite capability_field. unfold keep_member, contract_member. cbn [said fst snd].
  destruct c as [cp cb cd], (capability_names k) as [H1 H2].
  destruct (EqualFold k "protocol") eqn:Ep; [destruct (H1 eq_refl) as [-> ->]|destruct (EqualFold k "browser_proxy") eqn:Eb;
    [rewrite (H2 eq_refl)|destruct (EqualFold k "delegation_proxy") eqn:Ed]].
  4: by left.
  all: destruct v as [|b|n|str|l|o]; cbn [capability_fields f_string f_bool snd lookup list_lookup mbind option_bind].
  all: (left; split; [|done]; split_and!; intros; solve [done|left; done|right; eauto]) ||
       (right; split; [|done]; intros (Ha & Hb & Hd);
        (destruct (Ha eq_refl) as [|[]] || destruct (Hb eq_refl) as [|[]] || destruct (Hd eq_refl) as [|[]]); done).
Qed.

Lemma decode_capabilities kvs c c' :
  decode_members false capability_fields kvs c = Some c' ↔
  Forall contract_member kvs ∧
  c' = {| c_Protocol := string_or (c_Protocol c) (said kvs "protocol");
          c_BrowserProxy := bool_or (c_BrowserProxy c) (said kvs "browser_proxy");
          c_DelegationProxy := bool_or (c_DelegationProxy c) (said kvs "delegation_proxy") |}.
Proof.
  revert c. induction kvs as [|[k v] kvs IH]; intros c.
  { destruct c. split; [by intros [= <-]|by intros [_ ->]]. }
  rewrite list.Forall_cons. destruct (decode_contract_member k v kvs c) as [[Hm ->]|[Hm ->]]; [|split; [done|by intros [[? _] _]]].
  rewrite IH.
  assert (Forall contract_member kvs →
    {| c_Protocol := string_or (c_Protocol (keep_member k v c)) (said kvs "protocol");
       c_BrowserProxy := bool_or (c_BrowserProxy (keep_member k v c)) (said kvs "browser_proxy");
       c_DelegationProxy := bool_or (c_DelegationProxy (keep_member k v c)) (said kvs "delegation_proxy") |} =
    {| c_Protocol := string_or (c_Protocol c) (said ((k, v) :: kvs) "protocol");
       c_BrowserProxy := bool_or (c_BrowserProxy c) (said ((k, v) :: kvs) "browser_proxy");
       c_DelegationProxy := bool_or (c_DelegationProxy c) (said ((k, v) :: kvs) "delegation_proxy") |}) as He.
  { intros (Hp & Hb & Hd)%said_typed. unfold keep_member. cbn [c_Protocol c_BrowserProxy c_DelegationProxy said].
    f_equal; [destruct Hp as [->|[? ->]]|destruct Hb as [->|[? ->]]|destruct Hd as [->|[? ->]]]; done. }
  split; [intros [Hw ->]; rewrite He by done; done|intros [[_ Hw] ->]; rewrite He by done; done].
Qed.

Lemma supports_announces output capability : supports output capability = true ↔ announces output capability.
Proof.
  unfold supports, announces. destruct (parse output) as [j|]; cbn [mbind option_bind]; [|split; [done|by intros (? & ? & _)]].
  destruct j as [|b|n|str|l|kvs]; cbn [decode_struct]; try (split; [done|by intros (? & ? & _)]).
  assert (∀ c, decode_members false capability_fields kvs no_capabilities = Some c ↔ _) as Hd by (intros c; apply decode_capabilities).
  cbn [no_capabilities c_Protocol c_BrowserProxy c_DelegationProxy] in Hd.
  set (c0 := {| c_Protocol := _ |}) in Hd. split.
  - destruct (decode_members _ _ _ _) as [c|]; [|done]. destruct (proj1 (Hd c) eq_refl) as [Hw ->]. intros [Hp Hc]%andb_true_iff.
    exists kvs. split; [done|]. split; [done|]. apply bool_decide_eq_true in Hp. unfold c0 in *. cbn [c_Protocol c_BrowserProxy c_DelegationProxy] in *.
    unfold has_capability in Hc. cbn [c_BrowserProxy c_DelegationProxy] in Hc.
    split; [destruct (said kvs "protocol") as [[]|]; cbn in Hp; try done; by rewrite Hp|].
    case_bool_decide; [subst|case_bool_decide; [subst|done]]; (split; [set_solver|]).
    + by destruct (said kvs "browser_proxy") as [[| [] | | | |]|].
    + by destruct (said kvs "delegation_proxy") as [[| [] | | | |]|].
  - intros (kvs' & [= <-] & Hw & Hp & Hin & Hc). rewrite (proj2 (Hd c0)) by done. unfold c0. cbn [c_Protocol]. rewrite Hp.
    cbn [string_or]. rewrite bool_decide_true by done. unfold has_capability. cbn [c_BrowserProxy c_DelegationProxy].
    set_unfold in Hin. destruct Hin as [->|[->|[]]]; by rewrite Hc.
Qed.

Section resolve.
Context {W : Type} `{!HostOS W}.

(** One probe: the executable, its variables and what it wrote. *)
Record probe := { pb_bin : string; pb_env : list string; pb_output : string; pb_ok : bool }.
(** The host and the probes so far. *)
Record hstate := { hs_host : W; hs_probes : list probe }.

(** The executable, before it is probed. *)
Definition executable (configured : string) : result string :=
  let named := TrimSpace configured in
  bin ← (if bool_decide (named = "") then ho_Executable else Ok named);
  match ho_LookPath bin with
  | Ok path => Ok path
  | Err e => Err (EWrap "Agent transport host is unavailable: " e "")
  end.

Definition run_probe (bin : string) (s : hstate) : string * bool * hstate :=
  let env := probe_environment ho_Environ in
  let '((writes, e), h) := ho_Run bin probe_arguments env (hs_host s) in
  let '(output, copied) := probe_copy "" writes in
  let ok := copied && bool_decide (e = None) in
  (output, ok, {| hs_host := h; hs_probes := hs_probes s ++ [{| pb_bin := bin; pb_env := env; pb_output := output; pb_ok := ok |}] |}).

(** [Resolve] *)
Definition Resolve (configured capability : string) (s : hstate) : result string * hstate :=
  match executable configured with
  | Err e => (Err e, s)
  | Ok bin =>
      let '(output, ok, s1) := run_probe bin s in
      if negb ok then (Err errLacksCapabilities, s1)
      else if supports output capability then (Ok bin, s1) else (Err errUnsupported, s1)
  end.

(** [Resolver]; its mutex makes a call of [Resolve] one step. *)
Record Resolver := { r_configured : string; r_capability : string; r_binary : string }.
Definition NewResolver (configured capability : string) : Resolver :=
  {| r_configured := configured; r_capability := capability; r_binary := "" |}.
Definition Resolver_Resolve (r : Resolver) (s : hstate) : result string * Resolver * hstate :=
  if negb (bool_decide (r_binary r = "")) then (Ok (r_binary r), r, s)
  else
    match Resolve (r_configured r) (r_capability r) s with
    | (Ok binary, s1) => (Ok binary, {| r_configured := r_configured r; r_capability := r_capability r; r_binary := binary |}, s1)
    | (Err e, s1) => (Err e, r, s1)
    end.

(** ** A resolver over its lifetime *)

(** Calls one after the other; others may use the host between them. *)
Inductive rstep : Resolver * hstate → Resolver * hstate → Prop :=
  | call_resolve r s x r' s' : Resolver_Resolve r s = (x, r', s') → rstep (r, s) (r', s')
  | host_moves r s h : rstep (r, s) (r, {| hs_host := h; hs_probes := hs_probes s |}).

(** A probe that a binary passed: it ended well within the limit, and what it printed
    announces the protocol and the capability. *)
Definition passed (capability : string) (p : probe) : Prop :=
  pb_ok p = true ∧ slen (pb_output p) <= 8192 ∧ announces (pb_output p) capability.
Definition clean_environment (p : probe) : Prop :=
  ∀ item, item ∈ pb_env p → item ∈ ho_Environ ∧ env_name item ∈ ["PATH"; "SystemRoot"].

Record resolver_ok (configured capability : string) (rs : Resolver * hstate) : Prop := {
  ro_configured : r_configured rs.1 = configured;
  ro_capability : r_capability rs.1 = capability;
  ro_env : Forall clean_environment (hs_probes rs.2);
  ro_binary : r_binary rs.1 ≠ "" →
    ∃ before p, hs_probes rs.2 = before ++ [p] ∧ pb_bin p = r_binary rs.1 ∧ passed capability p ∧
      executable configured = Ok (r_binary rs.1) ∧ Forall (λ q, ¬ passed capability q) before;
  ro_fresh : r_binary rs.1 = "" → Forall (λ q, ¬ passed capability q) (hs_probes rs.2);
}.

Lemma probe_copy_limit buffer writes : slen buffer <= probe_limit → slen (probe_copy buffer writes).1 <= probe_limit.
Proof.
  revert buffer. induction writes as [|v writes IH]; intros buffer Hb; cbn [probe_copy]; [done|]. unfold probe_write.
  destruct (probe_limit <? slen buffer + slen v) eqn:Hl; [done|]. go_bool. apply IH. unfold slen in *. rewrite str_length_app. lia.
Qed.
Lemma run_probe_spec bin s output ok s1 :
  run_probe bin s = (output, ok, s1) →
  ∃ p, hs_probes s1 = hs_probes s ++ [p] ∧ pb_bin p = bin ∧ pb_output p = output ∧ pb_ok p = ok ∧ slen output <= 8192 ∧
    clean_environment p.
Proof.
  unfold run_probe. destruct (ho_Run _ _ _ _) as [[writes e] h]. pose proof (probe_copy_limit "" writes) as Hlim.
  destruct (probe_copy "" writes) as [o c]. intros [= <- <- <-].
  eexists. split; [done|]. split_and!; try done; [by apply Hlim|]. intros item. cbn [pb_env]. unfold probe_environment. rewrite elem_of_filter_bool.
  rewrite orb_true_iff, !bool_decide_eq_true. rewrite !elem_of_cons. tauto.
Qed.

Lemma Resolve_spec configured capability s x s1 :
  Resolve configured capability s = (x, s1) →
  (s1 = s ∧ ∃ e, x = Err e) ∨
  ∃ bin p, executable configured = Ok bin ∧ hs_probes s1 = hs_probes s ++ [p] ∧ pb_bin p = bin ∧ clean_environment p ∧
    ((x = Ok bin ∧ passed capability p) ∨ ((∃ e, x = Err e) ∧ ¬ passed capability p)).
Proof.
  unfold Resolve. destruct (executable configured) as [bin|e]; [|intros [= <- <-]; left; eauto].
  destruct (run_probe bin s) as [[output ok] s2] eqn:Hp. apply run_probe_spec in Hp as (p & Hl & Hb & Ho & Hok & Hlen & Hc). intros H. right.
  exists bin, p. split; [done|]. unfold passed. rewrite Ho, Hok, <-supports_announces. destruct ok; cbn [negb] in H.
  - destruct (supports output capability) eqn:Hs; injection H as <- <-; split_and!; try done.
    + by left.
    + right. split; [eauto|]. by intros (_ & _ & H).
  - injection H as <- <-. split_and!; try done. right. split; [eauto|]. by intros [H _].
Qed.

(** The path [exec.LookPath] returns names a file. *)
Definition paths_named : Prop := ∀ b p, ho_LookPath b = Ok p → p ≠ "".
Lemma executable_named configured bin : paths_named → executable configured = Ok bin → bin ≠ "".
Proof.
  intros Hn. unfold executable. intros (b & _ & H)%bind_Ok. destruct (ho_LookPath b) as [p|e] eqn:Hl; [|done].
  injection H as <-. by eapply Hn.
Qed.

Lemma new_resolver_ok configured capability h :
  resolver_ok configured capability (NewResolver configured capability, {| hs_host := h; hs_probes := [] |}).
Proof. by split. Qed.

Lemma resolver_step_ok configured capability rs rs' :
  paths_named → resolver_ok configured capability rs → rstep rs rs' → resolver_ok configured capability rs'.
Proof.
  intros Hn Hok Hstep. revert Hok. destruct Hstep as [r s x r' s' H|r s h]; intros [Hc Hk He Hb Hf]; cbn [fst snd] in *; [|by split].
  unfold Resolver_Resolve in H. case_bool_decide as Hr; cbn [negb] in H; [|by injection H as <- <- <-].
  destruct (Resolve _ _ s) as [[binary|e] s1] eqn:Hres; injection H as <- <- <-;
    (apply Resolve_spec in Hres as [(-> & e' & He')|(bin & p & Hx & Hl & Hp & Hce & Hres)]; [|rewrite Hc, Hk in *]); [done| |by split|].
  - destruct Hres as [[[= ->] Hpass]|[[? ?] _]]; [|done]. split; cbn [fst snd r_binary r_configured r_capability]; [done..| | |].
    + rewrite Hl. apply list.Forall_app. by split; [|apply Forall_singleton].
    + intros _. exists (hs_probes s), p. split_and!; try done. by apply Hf.
    + intros ->. by apply executable_named in Hx.
  - destruct Hres as [[? _]|[_ Hpass]]; [done|]. split; cbn [fst snd]; [done..| |done|].
    + rewrite Hl. apply list.Forall_app. by split; [|apply Forall_singleton].
    + intros Hb'. rewrite Hl. apply list.Forall_app. split; [by apply Hf|by apply Forall_singleton].
Qed.

(** C38: Through any calls of a resolver the executable it answers with passed the
    handshake of the contract: its probe ended well and printed, in at most 8192
    bytes, a JSON object that names the protocol and has the capability.  It is the
    first that did and is kept without another probe, failures are never kept, and
    no probe gets a variable other than PATH and SystemRoot. *)
Theorem resolver_verified configured capability h r s :
  paths_named →
  rtc rstep (NewResolver configured capability, {| hs_host := h; hs_probes := [] |}) (r, s) →
  resolver_ok configured capability (r, s) ∧
  ∀ bin r' s', Resolver_Resolve r s = (Ok bin, r', s') →
    r_binary r' = bin ∧ resolver_ok configured capability (r', s') ∧ (r_binary r ≠ "" → bin = r_binary r ∧ s' = s).
Proof.
  intros Hn Hsteps. assert (resolver_ok configured capability (r, s)) as Hok.
  { revert Hsteps. generalize (new_resolver_ok configured capability h). intros H0 H. revert H0.
    induction H as [|a b c Hab _ IH]; intros H0; [done|]. apply IH. by eapply resolver_step_ok. }
  split; [done|]. intros bin r' s' H. split_and!; [|eapply resolver_step_ok; [done..|by econstructor]|].
  - unfold Resolver_Resolve in H. case_bool_decide; cbn [negb] in H; [|by injection H as <- <- <-].
    destruct (Resolve _ _ s) as [[b|e] s1]; [by injection H as <- <- <-|done].
  - intros Hb. unfold Resolver_Resolve in H. rewrite bool_decide_false in H by done. by injection H as <- <- <-.
Qed.
End resolve.
Global Arguments hstate : clear implicits.

(** ** A concrete host *)
Module HostExample.
#[export] Instance f64 : Float64 := λ s, Some s.
Definition answer : string :=
  marshal (go_obj [("protocol", JStr contract_Protocol); ("browser_proxy", JBool true); ("delegation_proxy", JBool true)]).
(** The first probe fails, later ones succeed. *)
#[export] Instance host : HostOS nat := {|
  ho_Executable := Ok "/opt/node"; ho_LookPath := λ b, if bool_decide (b = "") then Err (ENew "not found") else Ok b;
  ho_Environ := ["PATH=/bin"; "OPENLINKER_AGENT_TOKEN=secret"];
  ho_Run := λ _ _ _ n, match n with O => (([], Some (ENew "exit status 1")), 1%nat) | S m => (([answer], None), S n) end;
|}.
Definition capability : string := "delegation_proxy".
Definition resolver : Resolver := NewResolver " " capability.
Definition start : hstate nat := {| hs_host := 0%nat; hs_probes := [] |}.
Definition first : result string * Resolver * hstate nat := Eval vm_compute in Resolver_Resolve resolver start.
Definition second : result string * Resolver * hstate nat := Eval vm_compute in Resolver_Resolve first.1.2 first.2.

Example failure_then_success : first.1.1 = Err errLacksCapabilities ∧ second.1.1 = Ok "/opt/node".
Proof. by split. Qed.
(** An answer over the limit is refused. *)
Example limit : (probe_copy "" [answer; String.concat "" (replicate 8192 " ")]).2 = false.
Proof. vm_compute. reflexivity. Qed.

Lemma resolver_verified_witness :
  rtc rstep (resolver, start) (first.1.2, first.2) ∧ resolver_ok " " capability (first.1.2, first.2) ∧
  ∀ bin r' s', Resolver_Resolve first.1.2 first.2 = (Ok bin, r', s') →
    r_binary r' = bin ∧ resolver_ok " " capability (r', s') ∧ (r_binary first.1.2 ≠ "" → bin = r_binary first.1.2 ∧ s' = first.2).
Proof.
  assert (rtc rstep (resolver, start) (first.1.2, first.2)) as E.
  { apply rtc_once. apply (call_resolve resolver start (Err errLacksCapabilities)). vm_compute. reflexivity. }
  split; [exact E|]. refine (resolver_verified " " capability 0%nat first.1.2 first.2 _ E).
  intros b p. unfold ho_LookPath, host. case_bool_decide; [done|]. intros [= <-]. done.
Defined.
End HostExample.
