(* ===== verification/Delegation.v ===== *)
(** * Delegation around a provider

    pkg/adapters/delegation.go ([delegationProvider.Run]): the resolver, the broker and
    the provider of one run, and the outcome that results.  The provider inside is any
    implementation of the [Provider] interface; the broker is [Broker], the proxy
    executable [AgentHost].  ProviderHandler has [withDelegation] and its callers. *)

From S2P Require Import Prelude GoStrings Json ProviderOutput BoundTools Broker BrokerProps NodeHandler Isolation AgentHost ProviderConfig.
From stdpp Require Import options.

Open Scope Z_scope.

(** [failedResult] *)
Definition failedResult (code message : string) : RuntimeResult := failed {| ae_Code := code; ae_Message := message |}.
(** The results of [Provider.Run]. *)
Definition run_result : Type := RuntimeResult * option go_error.
Definition no_result : RuntimeResult := {| rr_Status := ""; rr_Output := JNull; rr_Events := []; rr_Error := None |}.
Definition run_failed (e : go_error) : run_result := (no_result, Some e).
(** [err == nil && result.Error == nil && (result.Status == "" || result.Status == "success")] *)
Definition succeeded (r : run_result) : bool :=
  bool_decide (r.2 = None) && bool_decide (rr_Error r.1 = None) &&
  (bool_decide (rr_Status r.1 = "") || bool_decide (rr_Status r.1 = "success")).

Definition ErrRuntimeDelegationUnsupported : go_error :=
  ESentinel "openlinker.ErrRuntimeDelegationUnsupported" "runtime delegation is unsupported".
Definition tools_unavailable : RuntimeResult :=
  failedResult "MCP_TOOLS_UNAVAILABLE" "Selected MCP tools could not be loaded. Review the Host and tool configuration.".
Definition unfinished : RuntimeResult :=
  failedResult "DELEGATION_UNFINISHED" "A delegated Run is unfinished or its result could not be verified.".

Definition failed_event : string := "run.mcp_bindings.failed".
Definition used_event : string := "run.mcp_bindings.used".
Definition ready_event : string := "run.mcp_bindings.ready".
(** [receipt\["stage"\] = ...] *)
Definition staged_receipt (tools : list BoundTool) : json :=
  match BoundReceipt tools with
  | JObj kvs => go_obj (kvs ++ [("stage", JStr "provider_ended_before_discovery")])
  | r => r
  end.

(** The functions of a run's context: the platform's calls, and [Emit] when it is set. *)
Class Attempt `{!SDK} (W : Type) := {
  at_CallAgent : Z → string → list (string * json) → CallOptions → W → result (option json) * W;
  at_ReadDelegatedRun : Z → string → W → result (option DelegatedRun) * W;
  at_Emit : option (string → json → W → option go_error * W);
  at_now : W → Z;
  at_parent_err : W → option go_error;
  at_wait : Z → W → option go_error * W;
}.

Section delegation.
Context `{!Float64, !SDK, RO : !RangeOrder string delegationRequest} {W : Type} `{!Attempt W}.

(** The attempt, and the receipts the wrapper emitted with what became of them. *)
Record attempt := { at_host : W; at_events : list (string * json * option go_error) }.

Definition on_host {A} (f : W → A * W) (a : attempt) : A * attempt :=
  let '(x, h) := f (at_host a) in (x, {| at_host := h; at_events := at_events a |}).
Definition emit (event : string) (payload : json) (a : attempt) : option go_error * attempt :=
  match at_Emit with
  | None => (None, a)
  | Some f => let '(e, h) := f event payload (at_host a) in
              (e, {| at_host := h; at_events := at_events a ++ [(event, payload, e)] |})
  end.

(** The moments between the end of the provider and the end of the broker: after the
    provider returned, after its stage was recorded, after [EnsureComplete] unlocked,
    before [broker.Close], and while that waits for the connections. *)
Inductive moment := Returned | Recorded | Ensured | Deferred | Cancelled.
#[global] Instance moment_eq_dec : EqDecision moment.
Proof. solve_decision. Defined.

Section tools.
Context (tools : list BoundTool).

(** The callbacks the broker of a run gets. *)
#[local] Instance run_callbacks : Callbacks attempt := {|
  cb_CallAgent := λ d target input o, on_host (at_CallAgent d target input o);
  cb_ReadRun := λ d id, on_host (at_ReadDelegatedRun d id);
  cb_BoundToolUsed := Some (λ tool, emit used_event (BoundReceipt [tool]));
  cb_onTools := Some (λ a, if bool_decide (tools = []) then (None, a) else emit ready_event (BoundReceipt tools) a);
  cb_now := λ a, at_now (at_host a);
  cb_parent_err := λ a, at_parent_err (at_host a);
  cb_wait := λ d, on_host (at_wait d);
|}.

(** The closure [unavailable] *)
Definition unavailable (e : go_error) (a : attempt) : run_result * attempt :=
  if bool_decide (tools = []) then (run_failed e, a)
  else
    match emit failed_event (BoundReceipt tools) a with
    | (Some emitErr, a1) => (run_failed emitErr, a1)
    | (None, a1) => ((tools_unavailable, None), a1)
    end.

Definition on_attempt {A} (f : attempt → A * attempt) (b : bstate attempt) : A * bstate attempt :=
  let '(x, a) := f (world b) in (x, {| broker := broker b; world := a; log := log b |}).

(** A provider that ended badly before it discovered the tools is recorded. *)
Definition record_stage (r : run_result) (b : bstate attempt) : option go_error * bstate attempt :=
  if negb (bool_decide (tools = [])) && negb (ToolsDiscovered b) && negb (succeeded r)
  then on_attempt (emit failed_event (staged_receipt tools)) b else (None, b).

(** What follows the inner run.  The goroutines of the broker's connections go on:
    [serve] is what they do at each of the moments where the wrapper does not hold
    the lock of the calls. *)
Definition conclude (serve : moment → bstate attempt → bstate attempt) (r : run_result) (b : bstate attempt)
    : run_result * bstate attempt :=
  let '(emitErr, b1) := record_stage r (serve Returned b) in
  match emitErr, r.2 with
  | Some e, None => ((r.1, Some e), b1)
  | _, _ =>
      if succeeded r then
        let '(completion, b2) := EnsureComplete (serve Recorded b1) in
        let b3 := serve Ensured b2 in
        match completion with
        | Err e =>
            if errors_Is e ErrBoundToolsUnavailable then on_attempt (unavailable e) b3 else ((unfinished, None), b3)
        | Ok _ => (r, b3)
        end
      else (r, b1)
  end.
End tools.

(** *** The whole run *)

(** [Provider.Run], alone and beside the broker that serves meanwhile, and what the
    connections to the broker still do at the moments after it returned. *)
Class Provider := {
  pv_alone : attempt → run_result * attempt;
  pv_beside : delegation_run → bstate attempt → run_result * bstate attempt;
  pv_after : delegation_run → moment → bstate attempt → bstate attempt;
}.

Record DelegationRun := {
  di_MCPSnapshot : json; di_Authority : bool; di_RunID : string; di_CallAgent : bool; di_ReadDelegatedRun : bool;
}.

Context {HW : Type} `{HO : !HostOS HW, SO : !StartOS, PV : !Provider}.

(** The attempt, the host of the proxy with the resolver, the private directories,
    and the broker of the run as its deferred [Close] left it. *)
Record dstate := {
  ds_attempt : attempt; ds_resolver : Resolver; ds_host : hstate HW; ds_files : resources; ds_broker : option (bstate attempt);
}.
Implicit Types s : dstate.
Definition with_attempt (a : attempt) s : dstate :=
  {| ds_attempt := a; ds_resolver := ds_resolver s; ds_host := ds_host s; ds_files := ds_files s; ds_broker := ds_broker s |}.

(** [broker.Close]: the broker's context ends, the connections are waited for and
    its directory goes. *)
Definition close_broker (tools : list BoundTool) (serve : moment → bstate attempt → bstate attempt) (socket : string)
    (b : bstate attempt) (files : resources) : bstate attempt * resources :=
  (serve Cancelled (Broker.Close (Callbacks0 := run_callbacks tools) (serve Deferred b)).2,
   (release (TrimSuffix socket "/mcp.sock") files).2).

(** [delegationProvider.Run] *)
Definition delegationProvider_Run (targets : list string) (brokerRoot : string) (run : DelegationRun) s : run_result * dstate :=
  match DecodeBound (di_MCPSnapshot run) (di_Authority run) with
  | Err e => (run_failed e, s)
  | Ok (tools, digest) =>
      if bool_decide (tools = []) && bool_decide (targets = []) then
        let '(r, a) := pv_alone (ds_attempt s) in (r, with_attempt a s)
      else
        let '(binary, resolver, host) := Resolver_Resolve (ds_resolver s) (ds_host s) in
        let s1 := {| ds_attempt := ds_attempt s; ds_resolver := resolver; ds_host := host; ds_files := ds_files s; ds_broker := None |} in
        let refuse e := let '(r, a) := unavailable tools e (ds_attempt s1) in (r, with_attempt a s1) in
        match binary with
        | Err e => refuse e
        | Ok binary =>
            if negb (di_ReadDelegatedRun run) then refuse ErrRuntimeDelegationUnsupported
            else
              match StartBound brokerRoot (di_RunID run) targets tools (di_CallAgent run) (di_ReadDelegatedRun run) (ds_files s1) with
              | (Err e, files) =>
                  let '(r, a) := unavailable tools e (ds_attempt s1) in
                  (r, {| ds_attempt := a; ds_resolver := resolver; ds_host := host; ds_files := files; ds_broker := None |})
              | (Ok (socket, b), files) =>
                  let d := {| dr_Socket := socket; dr_ProxyBin := binary; dr_BoundMCPTools := tools; dr_BoundMCPDigest := digest |} in
                  let '(r, b1) := pv_beside d {| broker := b; world := ds_attempt s1; log := [] |} in
                  let '(r', b2) := conclude tools (pv_after d) r b1 in
                  let '(b3, files') := close_broker tools (pv_after d) socket b2 files in
                  (r', {| ds_attempt := world b3; ds_resolver := resolver; ds_host := host; ds_files := files'; ds_broker := Some b3 |})
              end
        end
  end.
End delegation.
Global Arguments attempt : clear implicits.

(** ** What a delegated run returns *)
Section returns.
Context `{F64 : !Float64, SD : !SDK, RO : !RangeOrder string delegationRequest} {W : Type} `{AT : !Attempt W}.

Lemma run_failed_fails e : succeeded (run_failed e) = false.
Proof. done. Qed.

(** The receipts of a run as the wrapper emits them. *)
Definition receipt (event : string) (payload : json) (a a' : attempt W) (e : option go_error) : Prop :=
  match at_Emit with
  | None => a' = a ∧ e = None
  | Some _ => at_events a' = at_events a ++ [(event, payload, e)]
  end.
Lemma emit_receipt event payload a e a' : emit event payload a = (e, a') → receipt event payload a a' e.
Proof.
  unfold emit, receipt. destruct at_Emit as [f|]; [|by intros [= <- <-]]. destruct (f _ _ _) as [x h]. by intros [= <- <-].
Qed.

Lemma unavailable_spec tools e a r a' :
  unavailable tools e a = (r, a') →
  succeeded r = false ∧
  ((tools = [] ∧ r = run_failed e ∧ a' = a) ∨
   (tools ≠ [] ∧ ∃ ee, receipt failed_event (BoundReceipt tools) a a' ee ∧
      r = match ee with Some e' => run_failed e' | None => (tools_unavailable, None) end)).
Proof.
  unfold unavailable. case_bool_decide; [intros [= <- <-]; split; [done|by left]|].
  destruct (emit _ _ _) as [[ee|] a1] eqn:He; apply emit_receipt in He; intros [= <- <-]; (split; [done|]; right; split; [done|]); eauto.
Qed.

Section with_tools.
Context (tools : list BoundTool).
#[local] Existing Instance run_callbacks.

(** Reading children neither emits receipts nor discovers tools. *)
Lemma settle_frame un ac d l (b : bstate (attempt W)) :
  let b' := (settle (Callbacks0 := run_callbacks tools) un ac d l b).2 in
  at_events (world b') = at_events (world b) ∧ b_toolsReady (broker b') = b_toolsReady (broker b).
Proof.
  revert b. induction l as [|[k r] l IH]; intros b; cbn [settle]; [done|]. destruct (rq_Terminal r); [apply IH|].
  case_bool_decide; [done|]. unfold mbind, stM_bind, ReadRun. cbn [cb_ReadRun run_callbacks]. unfold on_host.
  destruct (at_ReadDelegatedRun _ _ _) as [[x|e] h]; [|done]. destruct (negb (terminalRun x)); [done|].
  exact (IH (with_broker {| broker := broker b; world := {| at_host := h; at_events := at_events (world b) |};
    log := log b ++ [InvRead (rq_RunID r) x] |} (set_requests (<[k := terminal_of r]> (b_requests (broker b))) (broker b)))).
Qed.
Lemma EnsureComplete_events (b : bstate (attempt W)) :
  at_events (world (EnsureComplete (Callbacks0 := run_callbacks tools) b).2) = at_events (world b).
Proof.
  unfold EnsureComplete. unfold mbind at 1, stM_bind at 1, get_broker. destruct (negb _ && negb _); [done|].
  unfold mbind, stM_bind, now. apply settle_frame.
Qed.

Lemma EnsureComplete_broker (b b' : bstate (attempt W)) x :
  binv b → EnsureComplete (Callbacks0 := run_callbacks tools) b = (x, b') →
  good b b' ∧
  (x = Ok tt →
     (b_boundTools (broker b) ≠ [] → ToolsDiscovered b = true) ∧ b_toolsReady (broker b') = b_toolsReady (broker b) ∧
     ∀ k r, b_requests (broker b') !! k = Some r → resolved r ∧ rq_Terminal r = true ∧ seen_final (log b') r).
Proof.
  intros Hi. unfold EnsureComplete. unfold mbind at 1, stM_bind at 1, get_broker. destruct (negb _ && negb _) eqn:Hc.
  { intros [= <- <-]. split; [by apply good_refl|done]. }
  unfold mbind, stM_bind, now. intros Hset. assert (b_toolsReady (broker b') = b_toolsReady (broker b)) as Hready.
  { change b' with (x, b').2. rewrite <- Hset. apply settle_frame. }
  apply settle_requests in Hset as (Hg & Hd & Ha); [|done]. split; [done|]. intros ->. split_and!; [|done|].
  - intros Hne. unfold ToolsDiscovered. apply andb_false_iff in Hc as [Hc|Hc]; go_bool; [by destruct Hne|done].
  - intros k r Hk. destruct Hg as [Hi' _]. specialize (Ha eq_refl k r Hk). simpl in Ha. split_and!; [|done|].
    + by apply (inv_request _ Hi' k r Hk).
    + by eapply (inv_seen _ Hi').
Qed.

(** The receipt that a provider ended before it discovered the tools. *)
Definition stage_recorded (r : run_result) (b b1 : bstate (attempt W)) (e : option go_error) : Prop :=
  (b1 = b ∧ e = None) ∨
  (tools ≠ [] ∧ ToolsDiscovered b = false ∧ succeeded r = false ∧ broker b1 = broker b ∧ log b1 = log b ∧
   receipt failed_event (staged_receipt tools) (world b) (world b1) e).
Lemma record_stage_spec r b e b1 : record_stage tools r b = (e, b1) → stage_recorded r b b1 e.
Proof.
  unfold record_stage. destruct (negb (bool_decide (tools = [])) && negb (ToolsDiscovered b) && negb (succeeded r)) eqn:Hc; [|intros [= <- <-]; by left].
  unfold on_attempt. destruct (emit _ _ _) as [x a] eqn:He. apply emit_receipt in He. intros [= <- <-]. go_bool. right. by split_and!.
Qed.

(** All requests are final and the tools were discovered. *)
Record complete (b : bstate (attempt W)) : Prop := {
  cp_tools : b_boundTools (broker b) ≠ [] → ToolsDiscovered b = true;
  cp_requests k r : b_requests (broker b) !! k = Some r → resolved r ∧ rq_Terminal r = true ∧ seen_final (log b) r;
}.

(** What the connections do: a sequence of the broker's atomic steps. *)
Definition served : bstate (attempt W) → bstate (attempt W) → Prop := rtc (bstep (Callbacks0 := run_callbacks tools)).

(** [EnsureComplete] in the state [b], with the error [e] if any. *)
Definition ensured (b : bstate (attempt W)) (e : option go_error) (b' : bstate (attempt W)) : Prop :=
  EnsureComplete (Callbacks0 := run_callbacks tools) b = (match e with Some e => Err e | None => Ok tt end, b') ∧
  at_events (world b') = at_events (world b) ∧ (e = None → complete b').

(** How the outcome of the provider is turned into the outcome of the run. *)
Inductive concluded (r : run_result) (b : bstate (attempt W)) : run_result → bstate (attempt W) → Prop :=
  (** a provider that failed keeps its outcome; only a run without an error can get one *)
  | cd_failed b1 e b2 : succeeded r = false → served b b1 → stage_recorded r b1 b2 e →
      concluded r b (r.1, match r.2 with Some x => Some x | None => e end) b2
  | cd_complete b1 b2 b3 : succeeded r = true → served b b1 → ensured b1 None b2 → served b2 b3 → concluded r b r b3
  | cd_unavailable b1 e b2 b3 b4 r' : succeeded r = true → served b b1 → ensured b1 (Some e) b2 → served b2 b3 →
      errors_Is e ErrBoundToolsUnavailable = true → unavailable tools e (world b3) = (r', world b4) →
      broker b4 = broker b3 → log b4 = log b3 → concluded r b r' b4
  | cd_unfinished b1 e b2 b3 : succeeded r = true → served b b1 → ensured b1 (Some e) b2 → served b2 b3 →
      errors_Is e ErrBoundToolsUnavailable = false → concluded r b (unfinished, None) b3.

Lemma served_good b b' : binv b → served b b' → good b b'.
Proof. intros Hi Hs. by eapply bsteps_good. Qed.

Lemma ensured_spec b x b' : binv b → EnsureComplete (Callbacks0 := run_callbacks tools) b = (x, b') → ensured b (match x with Ok _ => None | Err e => Some e end) b'.
Proof.
  intros Hi He. pose proof (EnsureComplete_events b) as Hev. rewrite He in Hev. split; [by destruct x as [[]|]|]. split; [done|].
  apply EnsureComplete_broker in He as [Hg Hc]; [|done]. destruct x as [[]|e]; [|done]. intros _. destruct (Hc eq_refl) as (H1 & H2 & H3).
  split; [|done]. unfold ToolsDiscovered. rewrite H2, (ev_tools _ _ (proj2 Hg)). exact H1.
Qed.
Lemma ensured_good b e b' : binv b → ensured b e b' → good b b'.
Proof. intros Hi [He _]. eapply EnsureComplete_broker in He; [|done]. apply He. Qed.

Lemma conclude_spec serve r b r' b' :
  (∀ m b, served b (serve m b)) → binv b → conclude tools serve r b = (r', b') → concluded r b r' b'.
Proof.
  intros Hserve Hi. unfold conclude. pose proof (Hserve Returned b) as H1. destruct (served_good _ _ Hi H1) as [Hi1 _].
  destruct (record_stage tools r (serve Returned b)) as [e b1] eqn:Hrec. apply record_stage_spec in Hrec.
  destruct (succeeded r) eqn:Hs.
  - destruct Hrec as [[-> ->]|(_ & _ & H & _)]; [|congruence].
    assert (served b (serve Recorded (serve Returned b))) as H2 by (etrans; [exact H1|apply Hserve]). destruct (served_good _ _ Hi H2) as [Hi2 _].
    destruct (EnsureComplete (serve Recorded (serve Returned b))) as [x b2] eqn:He. apply ensured_spec in He; [|done].
    pose proof (Hserve Ensured b2) as H3. destruct x as [[]|e].
    + destruct (r.2); intros [= <- <-]; by eapply cd_complete.
    + destruct (errors_Is e ErrBoundToolsUnavailable) eqn:Hu.
      * unfold on_attempt. destruct (unavailable tools e (world (serve Ensured b2))) as [x a] eqn:Hun. intros Heq.
        assert (x = r' ∧ b' = {| broker := broker (serve Ensured b2); world := a; log := log (serve Ensured b2) |}) as [-> ->] by (destruct (r.2); by injection Heq as <- <-).
        by eapply cd_unavailable.
      * intros Heq. assert ((unfinished, None) = r' ∧ serve Ensured b2 = b') as [<- <-] by (destruct (r.2); by injection Heq as <- <-).
        by eapply cd_unfinished.
  - intros Heq. assert (r' = (r.1, match r.2 with Some x => Some x | None => e end) ∧ b' = b1) as [-> ->]; [|by eapply cd_failed].
    destruct r as [v [x|]]; destruct e; injection Heq as <- <-; done.
Qed.

Lemma concluded_success r b r' b' :
  concluded r b r' b' → succeeded r' = true → r' = r ∧ ∃ b1 bc, served b b1 ∧ ensured b1 None bc ∧ served bc b'.
Proof.
  destruct 1 as [b1 e b2 Hs Hsv Hst|b1 b2 b3 Hs H1 He H3|b1 e b2 b3 b4 r' Hs H1 He H3 Hu Hun Hb Hl|b1 e b2 b3 Hs H1 He H3 Hu]; intros Hok; [| | |done].
  - exfalso. revert Hok. unfold succeeded in *. cbn [fst snd]. destruct r as [v [x|]]; cbn [fst snd] in *; [done|].
    destruct e; [done|]. congruence.
  - split; [done|]. by exists b1, b2.
  - apply unavailable_spec in Hun as [H _]. congruence.
Qed.

(** Everything after the provider keeps the broker's invariant. *)
Lemma rest_good b b1 e b2 b3 : binv b → served b b1 → ensured b1 e b2 → served b2 b3 → good b b3.
Proof.
  intros Hi H1 H2 H3. apply served_good in H1 as G1; [|done]. apply ensured_good in H2 as G2; [|apply G1].
  apply served_good in H3 as G3; [|apply G2]. eapply good_trans; [exact G1|]. by eapply good_trans.
Qed.
Lemma concluded_good r b r' b' : binv b → concluded r b r' b' → good b b'.
Proof.
  intros Hi. destruct 1 as [b1 e b2 Hs Hsv Hst|b1 b2 b3 Hs H1 He H3|b1 e b2 b3 b4 r' Hs H1 He H3 Hu Hun Hb Hl|b1 e b2 b3 Hs H1 He H3 Hu];
    [|by eapply rest_good| |by eapply rest_good].
  - pose proof (served_good _ _ Hi Hsv) as Hg. destruct Hst as [[-> ->]|(_ & _ & _ & Hb & Hl & _)]; [done|].
    eapply good_trans; [exact Hg|]. destruct b2 as [bb ww ll]. cbn in Hb, Hl. subst. apply good_frame; try done. apply Hg.
  - assert (good b b3) as Hg by (by eapply rest_good).
    eapply good_trans; [exact Hg|]. destruct b4 as [bb ww ll]. cbn in Hb, Hl. subst. apply good_frame; try done. apply Hg.
Qed.

(** After [Close] no call is admitted: what the connections still do adds no request. *)
Lemma settle_cancelled un ac d l (b : bstate (attempt W)) :
  b_cancelled (broker (settle (Callbacks0 := run_callbacks tools) un ac d l b).2) = b_cancelled (broker b).
Proof.
  revert b. induction l as [|[k r] l IH]; intros b; cbn [settle]; [done|]. destruct (rq_Terminal r); [apply IH|].
  case_bool_decide; [done|]. unfold mbind, stM_bind, ReadRun. destruct (cb_ReadRun _ _ _) as [[x|e] h]; [|done].
  destruct (negb (terminalRun x)); [done|]. cbn [insert_request put_requests]. by rewrite IH.
Qed.
Lemma closed_step (b b' : bstate (attempt W)) :
  binv b → is_Some (b_cancelled (broker b)) → bstep (Callbacks0 := run_callbacks tools) b b' →
  is_Some (b_cancelled (broker b')) ∧ dom (b_requests (broker b')) = dom (b_requests (broker b)).
Proof.
  intros Hi [e Hc] [name raw bound Hb| | | |w]; try by split; [first [by exists e|by eexists]|].
  - assert ((callWithBinding (Callbacks0 := run_callbacks tools) name raw bound b).2 = b) as ->; [|by split; [exists e|]].
    unfold callWithBinding. unfold mbind at 1, stM_bind at 1, st_get, ctx_err. by rewrite Hc.
  - destruct (EnsureComplete (Callbacks0 := run_callbacks tools) b) as [x b2] eqn:He. cbn [snd]. revert He.
    unfold EnsureComplete. unfold mbind at 1, stM_bind at 1, get_broker. destruct (negb _ && negb _); [by intros [= _ <-]|].
    unfold mbind, stM_bind, now. intros He.
    match type of He with settle ?un ?ac ?d ?l _ = _ => pose proof (settle_cancelled un ac d l b) as Hs end. rewrite He in Hs. cbn [snd] in Hs.
    apply settle_requests in He as (_ & Hd & _); [|done]. rewrite Hs. split; [by exists e|exact Hd].
Qed.
Lemma closed_served (b b' : bstate (attempt W)) :
  binv b → is_Some (b_cancelled (broker b)) → served b b' →
  is_Some (b_cancelled (broker b')) ∧ dom (b_requests (broker b')) = dom (b_requests (broker b)).
Proof.
  intros Hi Hc Hs. revert Hi Hc. induction Hs as [b|b b1 b2 H1 _ IH]; intros Hi Hc; [done|].
  destruct (closed_step _ _ Hi Hc H1) as [Hc1 Hd1]. destruct (IH (proj1 (bstep_good _ _ Hi H1)) Hc1) as [Hc2 Hd2]. split; [done|congruence].
Qed.
End with_tools.
End returns.

(** ** The whole run *)
Section whole.
Context `{F64 : !Float64, SD : !SDK, RO : !RangeOrder string delegationRequest} {W : Type} `{AT : !Attempt W}.
Context {HW : Type} `{HO : !HostOS HW, SO : !StartOS, PV : !Provider (W:=W)}.

Lemma socket_directory s suffix : TrimSuffix (s +:+ suffix) suffix = s.
Proof.
  unfold TrimSuffix, HasSuffix. rewrite str_length_app.
  replace (String.length s + String.length suffix - String.length suffix)%nat with (String.length s) by lia.
  by rewrite str_drop_app, bool_decide_true, str_take_app.
Qed.

(** While the provider runs and until [Close] has waited for the connections, the
    broker serves: sequences of its atomic steps. *)
Definition serves : Prop :=
  ∀ d b, served (dr_BoundMCPTools d) b (pv_beside d b).2 ∧ ∀ m, served (dr_BoundMCPTools d) b (pv_after d m b).

(** [os.MkdirTemp] makes a new name. *)
Definition new_directory (root : string) (files : resources) : Prop :=
  ∀ d, os_MkdirTemp root "ol-d-" = Ok d → d ∉ rs_dirs files ∧ (d +:+ "/mcp.sock") ∉ rs_listeners files.

Lemma closed_resources root runID targets tools serve files files1 socket b b2 :
  new_directory root files → started_ok root runID targets tools files files1 socket b →
  same_resources files (close_broker (W:=W) tools serve socket b2 files1).2.
Proof.
  intros Hnew (d & -> & Hd & Hdirs & Hlis & _). destruct (Hnew d Hd) as [Hnd Hnl]. unfold close_broker. rewrite socket_directory.
  cbn [snd]. unfold release, CloseListener, RemoveAll, mbind, stM_bind, st_modify. split; cbn [rs_dirs rs_listeners snd].
  - rewrite Hdirs. set_solver.
  - rewrite Hlis. set_solver.
Qed.

(** A run that had a broker, in the state [b] once [Close] returned. *)
Record brokered (targets : list string) (runID : string) (tools : list BoundTool) (r : run_result) (b : bstate (attempt W)) : Prop := {
  br_config : b_targets (broker b) = targets ∧ b_boundTools (broker b) = tools ∧ b_runID (broker b) = runID;
  br_invariant : binv b;
  (** the provider's outcome [r0] is turned into the run's while the broker serves *)
  br_outcome : ∃ d b0 r0 b1 b2, initial b0 ∧ dr_BoundMCPTools d = tools ∧ pv_beside d b0 = (r0, b1) ∧ served tools b0 b1 ∧
    concluded tools r0 b1 r b2 ∧ served tools b2 b;
  (** it ends closed, with no request that came after the context ended *)
  br_closed : is_Some (b_cancelled (broker b)) ∧
    ∃ b3, served tools b3 (Broker.Close (Callbacks0 := run_callbacks tools) b3).2 ∧
      served tools (Broker.Close (Callbacks0 := run_callbacks tools) b3).2 b ∧ dom (b_requests (broker b)) = dom (b_requests (broker b3));
  (** a success is the provider's, and when [EnsureComplete] unlocked every request of
      that moment had been read in a final state, which it keeps *)
  br_success : succeeded r = true →
    (∃ d b0 b1, initial b0 ∧ pv_beside d b0 = (r, b1)) ∧
    ∃ b1 bc, EnsureComplete (Callbacks0 := run_callbacks tools) b1 = (Ok tt, bc) ∧ complete bc ∧ served tools bc b ∧
      ∀ k q, b_requests (broker bc) !! k = Some q → ∃ q', b_requests (broker b) !! k = Some q' ∧ same_creation q q';
}.

Lemma brokered_intro targets runID tools serve r0 r d b0 b1 b2 :
  (∀ m b, served tools b (serve m b)) → initial b0 → dr_BoundMCPTools d = tools → pv_beside d b0 = (r0, b1) → served tools b0 b1 →
  b_targets (broker b0) = targets → b_boundTools (broker b0) = tools → b_runID (broker b0) = runID →
  conclude tools serve r0 b1 = (r, b2) →
  brokered targets runID tools r (serve Cancelled (Broker.Close (Callbacks0 := run_callbacks tools) (serve Deferred b2)).2).
Proof.
  intros Hserve Hinit Hd Hrun Hb1 Ht Hb Hr Hc. set (b3 := serve Deferred b2). set (b4 := (Broker.Close b3).2). set (b := serve Cancelled b4).
  assert (served tools b3 b4) as H34 by (apply rtc_once, step_close).
  pose proof (Hserve Deferred b2) as H23. pose proof (Hserve Cancelled b4) as H4.
  assert (served tools b2 b) as H2 by (etrans; [exact H23|by etrans]).
  pose proof (initial_inv _ Hinit) as Hi0. destruct (served_good _ _ _ Hi0 Hb1) as [Hi1 He1].
  apply conclude_spec in Hc; [|done..]. destruct (concluded_good _ _ _ _ _ Hi1 Hc) as [Hi2 He2].
  destruct (served_good _ _ _ Hi2 H2) as [Hi He]. destruct (served_good _ _ _ Hi2 H23) as [Hi3 _].
  destruct (served_good _ _ _ Hi3 H34) as [Hi4 _].
  destruct (closed_served _ _ _ Hi4 (ex_intro _ _ eq_refl) H4) as [Hcl Hdom].
  split; [|done| | |].
  - assert (evolves b0 b) as Hev by (eapply evolves_trans; [exact He1|by eapply evolves_trans]).
    split_and!; [by rewrite (ev_targets _ _ Hev)|by rewrite (ev_tools _ _ Hev)|by rewrite (ev_runID _ _ Hev)].
  - exists d, b0, r0, b1, b2. by split_and!.
  - split; [done|]. exists b3. by split_and!.
  - intros Hs. apply concluded_success in Hc as (-> & bx & bc & H1x & He' & Hcb); [|done]. split; [by exists d, b0, b1|].
    pose proof (ensured_good _ _ _ _ (proj1 (served_good _ _ _ Hi1 H1x)) He') as [Hic _].
    destruct He' as (He' & _ & Hcomp). specialize (Hcomp eq_refl). exists bx, bc.
    assert (served tools bc b) as Hbc by by etrans. split_and!; [done..|].
    intros k q Hk. eapply (ev_requests _ _ (proj2 (served_good _ _ _ Hic Hbc))); [done|]. by apply (cp_requests _ Hcomp k q).
Qed.

(** C36: A run with delegation targets or selected tools succeeds only through its
    broker and with the outcome of the provider, and only if at the moment
    [EnsureComplete] unlocks the tools were discovered and every delegated request
    was read in a final state; a failure of the provider is kept as it is.  However
    the run ends its broker is closed, admits no request from then on, and nothing of
    it is left.  The broker serves throughout: a call between that moment and
    [Close] is not covered ([late_child]). *)
Theorem delegated_run_outcome targets root run s r s' :
  serves → new_directory root (ds_files s) →
  delegationProvider_Run targets root run s = (r, s') →
  same_resources (ds_files s) (ds_files s') ∧
  match DecodeBound (di_MCPSnapshot run) (di_Authority run) with
  | Err e => r = run_failed e
  | Ok (tools, _) =>
      (tools = [] ∧ targets = [] ∧ r = (pv_alone (ds_attempt s)).1) ∨
      (ds_broker s' = None ∧ succeeded r = false) ∨
      ∃ b, ds_broker s' = Some b ∧ brokered targets (di_RunID run) tools r b
  end.
Proof.
  intros Hserve Hnew. unfold delegationProvider_Run. destruct (DecodeBound _ _) as [[tools digest]|e] eqn:Hdec; [|by intros [= <- <-]].
  destruct (bool_decide (tools = []) && bool_decide (targets = [])) eqn:Hplain.
  { destruct (pv_alone _) as [x a] eqn:Ha. intros [= <- <-]. split; [done|]. go_bool. by left. }
  destruct (Resolver_Resolve _ _) as [[[binary|e] resolver] host].
  2:{ cbn [ds_attempt]. destruct (unavailable _ _ _) as [x a] eqn:Hu. intros [= <- <-]. split; [done|]. right. left. split; [done|].
      by apply unavailable_spec in Hu as [? _]. }
  destruct (negb (di_ReadDelegatedRun run)) eqn:Hread.
  { cbn [ds_attempt]. destruct (unavailable _ _ _) as [x a] eqn:Hu. intros [= <- <-]. split; [done|]. right. left. split; [done|].
    by apply unavailable_spec in Hu as [? _]. }
  cbn [ds_attempt ds_files]. destruct (StartBound _ _ _ _ _ _ _) as [x files] eqn:Hstart.
  assert (di_CallAgent run = false ∨ di_CallAgent run = true) as [Hcall|Hcall] by (destruct (di_CallAgent run); auto); go_bool; rewrite Hcall, Hread in Hstart.
  { unfold StartBound in Hstart. unfold mbind at 1, stM_bind at 1, st_lift at 1, start_checks in Hstart.
    assert (∃ e, x = Err e ∧ files = ds_files s) as (e & -> & ->).
    { destruct (ValidateBoundTools tools); [injection Hstart as <- <-; eauto|]. rewrite orb_true_r in Hstart. cbn [orb] in Hstart.
      injection Hstart as <- <-. eauto. }
    destruct (unavailable _ _ _) as [y a] eqn:Hu. intros [= <- <-]. split; [done|]. right. left. split; [done|]. by apply unavailable_spec in Hu as [? _]. }
  apply start_leaves_nothing in Hstart; [|exact Hnew]. destruct x as [[socket b]|e].
  2:{ destruct (unavailable _ _ _) as [y a] eqn:Hu. intros [= <- <-]. split; [done|]. right. left. split; [done|]. by apply unavailable_spec in Hu as [? _]. }
  set (d := {| dr_Socket := socket; dr_ProxyBin := binary; dr_BoundMCPTools := tools; dr_BoundMCPDigest := digest |}).
  set (b0 := {| broker := b; world := ds_attempt s; log := [] |}). destruct (pv_beside d b0) as [r0 b1] eqn:Hrun.
  destruct (conclude tools (pv_after d) r0 b1) as [r' b2] eqn:Hc.
  destruct (close_broker tools (pv_after d) socket b2 files) as [b3 files'] eqn:Hclose. intros [= <- <-].
  pose proof (closed_resources _ _ _ _ (pv_after d) _ _ _ _ b2 Hnew Hstart) as Hres. rewrite Hclose in Hres. cbn [snd] in Hres.
  split; [exact Hres|]. right. right. exists b3. split; [done|]. unfold close_broker in Hclose. injection Hclose as <- _.
  destruct (Hserve d b0) as [Hsteps Hafter]. rewrite Hrun in Hsteps.
  destruct Hstart as (dir & _ & _ & _ & _ & _ & _ & Ht & Hb & Hr & Hq & _).
  eapply (brokered_intro _ _ _ _ r0 r' d b0 b1 b2); try done. intros m b'. exact (proj2 (Hserve d b') m).
Qed.
End whole.

(** ** A concrete run *)
Module DelegationExample.
Import BrokerWitness.
#[local] Existing Instances BrokerWitness.f64 sdk HostExample.host.
(** The state is a clock and the status every child has. *)
#[export] Instance platform : Attempt (Z * RunStatus) := {|
  at_CallAgent := λ _ _ _ _ w, (Ok (Some (JStr child)), w);
  at_ReadDelegatedRun := λ _ _ w, (Ok (Some w.2), w);
  at_Emit := Some (λ _ _ w, (None, w));
  at_now := fst; at_parent_err := λ _, None; at_wait := λ d w, (None, (w.1 + d, w.2));
|}.
#[export] Instance files : StartOS := {|
  os_IsAbs := λ _, true; os_MkdirTemp := λ _ _, Ok "/tmp/ol-d-1";
  os_Lstat := λ _, Ok {| st_dir := true; st_setgid := false; st_perm := 7 * 64; st_uid := 0; st_gid := 0; st_sys := true |};
  os_Geteuid := 0; os_Listen := λ _, None; os_Chmod := λ _ _, None;
|}.
Definition done_result : run_result :=
  ({| rr_Status := "success"; rr_Output := JStr "done"; rr_Events := []; rr_Error := None |}, None).
(** A provider that delegates once and reports success. *)
#[export] Instance provider : Provider (W:=Z * RunStatus) := {|
  pv_alone := λ a, (done_result, a);
  pv_beside := λ d b, (done_result, (callWithBinding (Callbacks0 := run_callbacks (dr_BoundMCPTools d)) "delegate_agent" raw None b).2);
  pv_after := λ _ _ b, b;
|}.
(** One that reports success while a call waits for the lock [EnsureComplete] holds. *)
Definition late_provider : Provider (W:=Z * RunStatus) := {|
  pv_alone := λ a, (done_result, a);
  pv_beside := λ _ b, (done_result, b);
  pv_after := λ d m b, if bool_decide (m = Ensured)
    then (callWithBinding (Callbacks0 := run_callbacks (dr_BoundMCPTools d)) "delegate_agent" raw None b).2 else b;
|}.
Definition run : DelegationRun :=
  {| di_MCPSnapshot := JNull; di_Authority := true; di_RunID := probe_id; di_CallAgent := true; di_ReadDelegatedRun := true |}.
Definition start (status : RunStatus) : dstate (HW:=nat) :=
  {| ds_attempt := {| at_host := (0, status); at_events := [] |}; ds_resolver := HostExample.resolver;
     ds_host := {| hs_host := 1%nat; hs_probes := [] |}; ds_files := none; ds_broker := None |}.
Definition outcome (status : RunStatus) : run_result := (delegationProvider_Run [agent] "" run (start status)).1.

(** A child that still runs makes a success unfinished. *)
Example child_matters : outcome RuntimeRunSuccess = done_result ∧ outcome RuntimeRunRunning = (unfinished, None).
Proof. vm_compute. done. Qed.

Lemma provider_serves : serves.
Proof. intros d b. split; [apply rtc_once, step_call; done|done]. Qed.
(** A success can have a child that was created after the check and never read. *)
Lemma late_serves : serves (PV := late_provider).
Proof. intros d b. split; [done|]. intros m. cbn [pv_after late_provider]. case_bool_decide; [apply rtc_once, step_call; done|done]. Qed.
Lemma late_child :
  let x := delegationProvider_Run (PV := late_provider) [agent] "" run (start RuntimeRunRunning) in
  x.1 = done_result ∧
  ∃ b, ds_broker x.2 = Some b ∧ map (λ q, (rq_RunID q.2, rq_Terminal q.2)) (map_to_list (b_requests (broker b))) = [(child, false)].
Proof. split; [vm_compute; reflexivity|]. eexists. split; [vm_compute; reflexivity|vm_compute; reflexivity]. Qed.
Lemma no_directory : new_directory "" (ds_files (start RuntimeRunSuccess)).
Proof. intros d _. cbn. split; apply not_elem_of_empty. Qed.

Lemma delegated_run_outcome_witness :
  outcome RuntimeRunSuccess = done_result ∧
  ∃ b, ds_broker (delegationProvider_Run [agent] "" run (start RuntimeRunSuccess)).2 = Some b ∧
    brokered [agent] probe_id [] done_result b.
Proof.
  assert (outcome RuntimeRunSuccess = done_result) as E by (vm_compute; reflexivity). split; [exact E|].
  destruct (delegationProvider_Run [agent] "" run (start RuntimeRunSuccess)) as [r s'] eqn:Hrun.
  assert (r = done_result) as Hr by (change r with (r, s').1; rewrite <- Hrun; exact E).
  destruct (delegated_run_outcome [agent] "" run (start RuntimeRunSuccess) r s' provider_serves no_directory Hrun) as [_ H].
  change (DecodeBound _ _) with (@Ok (list BoundTool * string) ([], "")) in H. cbn iota beta in H.
  destruct H as [(_ & H & _)|[[_ H]|(b & Hb & Hbr)]]; [discriminate H|rewrite Hr in H; discriminate H|].
  exists b. split; [exact Hb|]. rewrite <- Hr. exact Hbr.
Defined.
End DelegationExample.
