(* ===== verification/Preflight.v ===== *)
(** * Checks before the node takes work

    pkg/adapters/providerpreflight/preflight.go (the version and the capabilities of a
    provider CLI), preflight.go (the probe of the native sandbox) and
    [CheckSessionIsolation] of isolation.go.  The processes that are probed, and
    what [exec.LookPath] finds, are parameters. *)

From S2P Require Import Prelude GoStrings Json ProviderOutput Paths PrivateFiles SessionStore Environment Sandbox ProviderConfig Resolve Url ToolPolicy Isolation CodexHome CodexLaunch.
From stdpp Require Import options.

Open Scope Z_scope.

(** ** Versions *)

Definition MinimumCodexVersion : string := "0.153.0".
Definition MinimumClaudeVersion : string := "2.1.259".

(** A prefix of digits, as long as possible. *)
Fixpoint digits (s : string) : string * string :=
  match s with
  | String c s' => if is_digit c then let '(d, rest) := digits s' in (String c d, rest) else (EmptyString, s)
  | EmptyString => (EmptyString, EmptyString)
  end.
(** [(\d+)] *)
Definition number (s : string) : option (string * string) :=
  let '(d, rest) := digits s in if bool_decide (d = "") then None else Some (d, rest).
(** A literal byte. *)
Definition literal (c : ascii) (s : string) : option string :=
  match s with String c' s' => if bool_decide (c = c') then Some s' else None | EmptyString => None end.
(** Up to the first space. *)
Fixpoint word (s : string) : string * string :=
  match s with
  | String c s' => if bool_decide (c = " "%char) then (EmptyString, s) else let '(w, rest) := word s' in (String c w, rest)
  | EmptyString => (EmptyString, EmptyString)
  end.
Definition build_start (c : ascii) : bool := bool_decide (c = "-"%char) || bool_decide (c = "+"%char).
(** [(\[-+\]\[^ \]+)?]: the match is as long as possible, up to a space. *)
Definition suffix (s : string) : string * string :=
  match s with
  | String c s' => if build_start c && negb (bool_decide ((word s').1 = "")) then (String c (word s').1, (word s').2) else (EmptyString, s)
  | EmptyString => (EmptyString, EmptyString)
  end.

Record version := { v_major : string; v_minor : string; v_patch : string; v_suffix : string }.
Definition version_text (v : version) : string :=
  v_major v +:+ "." +:+ v_minor v +:+ "." +:+ v_patch v +:+ v_suffix v.

(** [providerVersionPattern.FindStringSubmatch]; every group of the pattern ends where
    the next cannot start, so the match is unique. *)
Definition providerVersion (raw : string) : option version :=
  let s := TrimPrefix raw "codex-cli " in
  '(major, s) ← number s; s ← literal "." s;
  '(minor, s) ← number s; s ← literal "." s;
  '(patch, s) ← number s;
  let '(build, rest) := suffix s in
  if bool_decide (rest = "") || bool_decide (rest = " (Claude Code)")
  then Some {| v_major := major; v_minor := minor; v_patch := patch; v_suffix := build |} else None.

(** The loop of [versionAtLeast] over the three numbers. *)
Fixpoint at_least (actual required : list string) : bool :=
  match actual, required with
  | x :: actual, y :: required =>
      match Atoi x with
      | None => false
      | Some a =>
          let b := default 0 (Atoi y) in
          if negb (a =? b) then b <? a else at_least actual required
      end
  | _, _ => true
  end.
(** [versionAtLeast] *)
Definition versionAtLeast (v minimum : string) : bool :=
  let v := (Cut v "+").1.1 in
  if Contains v "-" then false
  else
    let actual := Split v "." in
    let required := Split minimum "." in
    if negb (length actual =? 3)%nat || negb (length required =? 3)%nat then false else at_least actual required.

(** ** Probes *)

Record process := { p_stdout : list ProviderOutput.bytes; p_stderr : list ProviderOutput.bytes; p_err : option go_error }.
Class ProbeOS (H : Type) := {
  po_LookPath : string → result string;
  po_Supported : bool;
  po_run : Command → H → process * H;
}.

Record PreflightConfig := {
  pf_Prepare : option (string → list string → result (option Command));
  pf_Provider : string; pf_Bin : string; pf_Env : option (list string);
}.

Section probes.
Context {UL : UnicodeLower} {UP : UnicodePrint} {H : Type} `{PO : !ProbeOS H}.
Context (username : string) (environ : list string).
Notation M := (stM H).

Definition limited (ws : list ProviderOutput.bytes) : Limited.buffer :=
  Limited.write_all Limited.MaxBytes Limited.ErrTooLarge ws (Limited.NewLimitedBuffer true).
Definition text (b : Limited.buffer) : string := String.string_of_list_ascii (Limited.buf b).

(** A process with both streams bounded. *)
Definition run_limited (c : Command) : M (Limited.buffer * Limited.buffer * option go_error) := λ h,
  let '(p, h1) := po_run c h in (Ok (limited (p_stdout p), limited (p_stderr p), p_err p), h1).

(** The command of a probe. *)
Definition probe_command (config : PreflightConfig) (provider path : string) (args : list string) : result Command :=
  match pf_Prepare config with
  | Some prepare =>
      c ← prepare path args;
      match c with Some c => Ok c | None => Err (ENew (provider +:+ " CLI probe factory returned no command")) end
  | None =>
      Ok {| cmd_Path := path; cmd_Args := args; cmd_Dir := "";
            cmd_Env := Environment username (default environ (pf_Env config)) [] ++ ["LC_ALL=C"; "LANG=C"] |}
  end.

(** The closure [probe] *)
Definition probe (config : PreflightConfig) (provider path : string) (args : list string) : M string :=
  c ← st_lift (probe_command config provider path args);
  '(stdout, stderr, e) ← run_limited c;
  match e with
  | Some e => st_fail (EWrap (provider +:+ " CLI compatibility probe [" +:+ Join args " " +:+ "] failed: ") e "")
  | None =>
      match Limited.LimitError provider [Some stdout; Some stderr] with
      | Some e => st_fail e
      | None => mret (TrimSpace (text stdout))
      end
  end.

Definition minimum_of (provider : string) : string :=
  if bool_decide (provider = "claude") then MinimumClaudeVersion else MinimumCodexVersion.
(** The test of the first probe's output. *)
Definition version_ok (provider raw : string) : option string :=
  v ← providerVersion raw;
  if (bool_decide (provider = "codex") && negb (HasPrefix raw "codex-cli ")) ||
     (bool_decide (provider = "claude") && negb (HasSuffix raw " (Claude Code)")) ||
     negb (versionAtLeast (version_text v) (minimum_of provider))
  then None else Some (version_text v).

Definition codex_words : list string := ["app-server"; "generate-json-schema"; "--listen"; "--config"; "--disable"].
Definition claude_flags : list string :=
  ["--restricted"; "--settings"; "--permission-prompts"; "--tools"; "--safe-mode"; "--bare"; "--no-chrome";
   "--disable-slash-commands"; "--permission-mode"; "--resume"; "stream-json"; "--verbose"; "--include-partial-messages";
   "--strict-mcp-config"].
(** The first flag the help does not mention. *)
Definition missing_flag (help : string) (flags : list string) : option string := find (λ f, negb (Contains help f)) flags.

(** [providerpreflight.Check]: the version. *)
Definition Check_provider (config : PreflightConfig) : M string :=
  let provider := ToLower (TrimSpace (pf_Provider config)) in
  if negb (bool_decide (provider = "claude")) && negb (bool_decide (provider = "codex"))
  then st_fail (ENew ("unknown provider " +:+ Quote provider))
  else if bool_decide (provider = "codex") && negb po_Supported
  then st_fail (ENew "isolated Codex app-server requires a POSIX host; Windows DACL isolation is not implemented")
  else
    match po_LookPath (let bin := TrimSpace (pf_Bin config) in if bool_decide (bin = "") then provider else bin) with
    | Err e => st_fail (EWrap (provider +:+ " provider CLI was not found: ") e "")
    | Ok path =>
        raw ← probe config provider path ["--version"];
        match version_ok provider raw with
        | None =>
            st_fail (ENew (provider +:+ " CLI requires a stable version >= " +:+ minimum_of provider +:+
                           "; installed version is unsupported or unrecognized"))
        | Some v =>
            if bool_decide (provider = "codex") then
              help ← probe config provider path ["app-server"; "--help"];
              if forallb (Contains help) codex_words then mret v
              else st_fail (ENew "codex CLI app-server help is missing required generate-json-schema/stdio/config capabilities")
            else
              help ← probe config provider path ["--help"];
              match missing_flag help claude_flags with
              | Some flag => st_fail (ENew (provider +:+ " CLI is missing required capability " +:+ flag))
              | None => mret v
              end
        end
    end.

(** [CheckProviderCLI] *)
Definition CheckProviderCLI (c : ProviderConfig) : M string :=
  Check_provider {| pf_Prepare := None; pf_Provider := Provider c; pf_Bin := Bin c; pf_Env := Env c |}.
End probes.

(** ** The native sandbox *)
Section sandbox_probe.
Context {UL : UnicodeLower} {UP : UnicodePrint} {RO : RangeOrder string inode} {H : Type} `{PO : !ProbeOS H}.
Context (t : tool_env) (env : os_env) (close : option go_error * option go_error * option go_error).
Notation M := (stM (world * H)).

Definition on_probe {A} (m : stM H A) : M A := λ s, let '(r, h) := m s.2 in (r, (s.1, h)).
Definition on_files {A} (m : stM world A) : M A := λ s, let '(r, w) := m s.1 in (r, (w, s.2)).

Definition set_Env (values : list string) (c : ProviderConfig) : ProviderConfig :=
  {| boundMCPTools := boundMCPTools c; boundMCPDigest := boundMCPDigest c; SessionIsolation := SessionIsolation c;
     HostAuthConcurrency := HostAuthConcurrency c; sandbox := sandbox c; toolPolicy := toolPolicy c;
     DelegationTargets := DelegationTargets c; DelegationProxyBin := DelegationProxyBin c;
     DelegationBrokerRoot := DelegationBrokerRoot c; DelegationSocket := DelegationSocket c; Version := Version c;
     Provider := Provider c; Bin := Bin c; Workspace := Workspace c; Model := Model c; ProviderConfig.Sandbox := ProviderConfig.Sandbox c;
     Permission := Permission c; AllowedTools := AllowedTools c; Timeout := Timeout c;
     SessionReuse := SessionReuse c; SessionStorePath := SessionStorePath c; WebSearch := WebSearch c;
     CodexApproval := CodexApproval c; CodexBaseURL := CodexBaseURL c; ClaudeBaseURL := ClaudeBaseURL c;
     Env := Some values; EnvAllowlist := EnvAllowlist c; ExecutionProfile := ExecutionProfile c |}.
(** [c.sandbox, c.Workspace = s, s.Workspace()] *)
Definition set_session (s : Session) (c : ProviderConfig) : ProviderConfig :=
  {| boundMCPTools := boundMCPTools c; boundMCPDigest := boundMCPDigest c; SessionIsolation := SessionIsolation c;
     HostAuthConcurrency := HostAuthConcurrency c; sandbox := Some s; toolPolicy := toolPolicy c;
     DelegationTargets := DelegationTargets c; DelegationProxyBin := DelegationProxyBin c;
     DelegationBrokerRoot := DelegationBrokerRoot c; DelegationSocket := DelegationSocket c; Version := Version c;
     Provider := Provider c; Bin := Bin c; Workspace := Session_Workspace s; Model := Model c; ProviderConfig.Sandbox := ProviderConfig.Sandbox c;
     Permission := Permission c; AllowedTools := AllowedTools c; Timeout := Timeout c;
     SessionReuse := SessionReuse c; SessionStorePath := SessionStorePath c; WebSearch := WebSearch c;
     CodexApproval := CodexApproval c; CodexBaseURL := CodexBaseURL c; ClaudeBaseURL := ClaudeBaseURL c;
     Env := Env c; EnvAllowlist := EnvAllowlist c; ExecutionProfile := ExecutionProfile c |}.

(** [nativeHostCommand] *)
Definition nativeHostCommand (c : ProviderConfig) (s : Session) (bin : string) (args : list string) : Command :=
  {| cmd_Path := bin; cmd_Args := args; cmd_Dir := Workspace c; cmd_Env := host_command_environment t c s |}.

Definition probe_script : string :=
  "if cat " +:+ quoted "$1" +:+ " >/dev/null 2>&1; then exit 91; fi; printf verified > " +:+ quoted "$2" +:+
  "; test " +:+ quoted ("$(cat " +:+ quoted "$2" +:+ ")") +:+ " = verified".
Definition codex_probe (p : nativeToolPolicy) (s : Session) : list string :=
  tp_codex p ++ ["sandbox"; "-P"; "openlinker_session"; "-C"; Session_Workspace s; "--"; "/bin/sh"; "-c"; probe_script;
                 "probe"; s_policy s; JoinPath [Session_Workspace s; "probe"]].
Definition bwrap_arguments : list string :=
  ["--unshare-user"; "--unshare-net"; "--unshare-pid"; "--ro-bind"; "/"; "/"; "--proc"; "/proc"; "--dev"; "/dev"; "--"; "/bin/true"].

(** A command that must succeed. *)
Definition must_run (c : Command) (e : go_error) : M unit := λ s,
  let '(p, h) := po_run c s.2 in (match p_err p with Some _ => Err e | None => Ok tt end, (s.1, h)).
Definition must_find (names : list string) (e : go_error) : M unit :=
  if forallb (λ n, match po_LookPath n with Ok _ => true | Err _ => false end) names then mret tt else st_fail e.

Definition linux_dependencies (c : ProviderConfig) : list string :=
  ["bwrap"] ++ (if bool_decide (Provider c = "claude") then ["socat"; "rg"] else []).
(** [exec.CommandContext] with a name: the environment and the directory of the node. *)
Definition bwrap : Command := {| cmd_Path := "bwrap"; cmd_Args := bwrap_arguments; cmd_Dir := ""; cmd_Env := te_environ t |}.

Definition client_flags : list string := ["--restricted"; "--safe-mode"; "--settings"; "--permission-prompts"; "--tools"].
(** The help of the client and the sandbox of macOS. *)
Definition probe_help (c : ProviderConfig) (s : Session) (bin : string) : M unit :=
  '(stdout, stderr, e) ← on_probe (run_limited (nativeHostCommand c s bin ["--help"]));
  if bool_decide (is_Some e) then st_fail (ENew "Claude native sandbox capability probe failed")
  else
    match Limited.LimitError "Claude" [Some stdout; Some stderr] with
    | Some e => st_fail e
    | None =>
        match missing_flag (text stdout) client_flags with
        | Some _ => st_fail (ENew "Claude lacks required host-auth sandbox capabilities")
        | None =>
            if bool_decide (te_GOOS t = "darwin") then must_find ["sandbox-exec"] (ENew "Claude native sandbox requires macOS sandbox-exec")
            else mret tt
        end
    end.

(** What is probed in an open session. *)
Definition probe_session (c0 : ProviderConfig) (s : Session) : M unit :=
  let c := set_session s c0 in
  p ← st_lift (newNativeToolPolicy t c s);
  let bin := if bool_decide (Bin c = "") then Provider c else Bin c in
  if bool_decide (Provider c = "codex") && bool_decide (te_GOOS t = "darwin") then
    must_run (nativeHostCommand c s bin (codex_probe p s))
      (ENew "Codex tool sandbox enforcement probe failed; no unsandboxed fallback")
  else if bool_decide (te_GOOS t = "linux") then
    must_find (linux_dependencies c) (ENew "native sandbox OS dependencies are missing");;
    must_run bwrap (ENew "native sandbox requires working unprivileged user/network/PID namespaces");;
    if bool_decide (Provider c = "codex") then mret tt else probe_help c s bin
  else probe_help c s bin.

(** [checkNativeToolSandbox]; the session is closed when the probe returns. *)
Definition checkNativeToolSandbox (c0 : ProviderConfig) : M unit :=
  values ← st_lift (nativeClientEnvironment t c0);
  let c := set_Env values c0 in
  _ ← on_probe (CheckProviderCLI (te_username t) (te_environ t) c);
  s ← on_files (OpenClient env (SessionIsolation c) (Scope ["host-client-preflight"; Provider c]));
  r ← st_try (probe_session c s);
  _ ← on_files (λ w, (Ok tt, (Sandbox.Close close.1.1 close.1.2 close.2 s w).2));
  st_lift r.

(** [CheckSessionIsolation] *)
Definition CheckSessionIsolation (c : ProviderConfig) : M unit :=
  match validateSessionIsolation (os_platform env) c with
  | Some e => st_fail e
  | None => if negb (Enabled (SessionIsolation c)) then mret tt else checkNativeToolSandbox c
  end.
End sandbox_probe.
