(* ===== verification/PreflightProps.v ===== *)
(** * Correctness of the checks before the node takes work

    The version test of a provider CLI accepts exactly the stable releases from the
    tested one on ([version_accepted_exact]). *)

From S2P Require Import Prelude GoStrings Json ProviderOutput Paths PrivateFiles SessionStore Environment Sandbox ProviderConfig Resolve Url ToolPolicy Isolation CodexHome CodexLaunch SkillDecode Preflight.
From stdpp Require Import options.

Open Scope Z_scope.

(** ** The pattern *)

Definition numeral (s : string) : Prop := s ≠ "" ∧ str_forallb is_digit s = true.
(** Not at the start of what follows. *)
Definition starts (p : ascii → bool) (s : string) : bool := match s with String c _ => p c | EmptyString => false end.
(** A pre-release or build suffix. *)
Definition build_suffix (b : string) : Prop :=
  b = "" ∨ ∃ c w, b = String c w ∧ build_start c = true ∧ w ≠ "" ∧ absent " " w = true.
Record well_formed (v : version) : Prop := {
  wf_major : numeral (v_major v); wf_minor : numeral (v_minor v); wf_patch : numeral (v_patch v); wf_suffix : build_suffix (v_suffix v);
}.

Lemma digits_spec s d rest :
  digits s = (d, rest) ↔ s = d +:+ rest ∧ str_forallb is_digit d = true ∧ starts is_digit rest = false.
Proof.
  revert d. induction s as [|c s IH]; intros d; cbn [digits].
  - split; [by intros [= <- <-]|]. intros (H & _ & _). destruct d; [by rewrite H|done].
  - destruct (is_digit c) eqn:Hc.
    + destruct (digits s) as [d0 rest0]. split.
      * intros [= <- <-]. destruct (proj1 (IH d0) eq_refl) as (-> & H & ?). split_and!; [done| |done]. cbn. by rewrite Hc.
      * intros (H & Hd & Hr). destruct d as [|c' d]; [destruct rest; [done|]; cbn in H; injection H as <- <-; cbn in Hr; congruence|].
        rewrite str_app_cons in H. injection H as <- ->. cbn in Hd. apply andb_true_iff in Hd as [_ Hd].
        assert ((d0, rest0) = (d, rest)) as [= -> ->]; [|done]. by apply IH.
    + split; [intros [= <- <-]; by split_and!|]. intros (H & Hd & Hr). destruct d as [|c' d]; [by rewrite H|].
      rewrite str_app_cons in H. injection H as <- ->. cbn in Hd. apply andb_true_iff in Hd as [? _]. congruence.
Qed.

Lemma number_spec s d rest :
  number s = Some (d, rest) ↔ s = d +:+ rest ∧ numeral d ∧ starts is_digit rest = false.
Proof.
  unfold number, numeral. destruct (digits s) as [d0 rest0] eqn:Hd. pose proof (digits_spec s d rest) as H. rewrite Hd in H.
  case_bool_decide as He; split.
  - done.
  - intros (H1 & [H2 H3] & H4). assert ((d0, rest0) = (d, rest)) as [= -> ->]; [|done]. by apply H.
  - intros [= <- <-]. destruct H as [H _]. destruct (H eq_refl) as (? & ? & ?). by split_and!.
  - intros (H1 & [H2 H3] & H4). assert ((d0, rest0) = (d, rest)) as [= -> ->]; [|done]. by apply H.
Qed.

Lemma literal_spec c s rest : literal c s = Some rest ↔ s = String c rest.
Proof.
  destruct s as [|c' s]; cbn; [done|]. case_bool_decide as H; [subst; naive_solver|]. split; [done|]. by intros [= <- <-].
Qed.

Lemma word_spec s w rest :
  word s = (w, rest) ↔ s = w +:+ rest ∧ absent " " w = true ∧ (rest = "" ∨ starts (λ c, bool_decide (c = " "%char)) rest = true).
Proof.
  revert w. induction s as [|c s IH]; intros w; cbn [word].
  - split; [intros [= <- <-]; split_and!; [done|done|by left]|]. intros (H & _ & _). destruct w; [by rewrite H|done].
  - case_bool_decide as Hc.
    + subst c. split; [intros [= <- <-]; split_and!; [done|done|by right]|]. intros (H & Hw & _). destruct w as [|c' w]; [by rewrite H|].
      rewrite str_app_cons in H. injection H as <- ->. done.
    + destruct (word s) as [w0 rest0]. split.
      * intros [= <- <-]. destruct (proj1 (IH w0) eq_refl) as (-> & H & ?). split_and!; [done| |done]. unfold absent in *. cbn. by rewrite H, bool_decide_false.
      * intros (H & Hw & Hr). destruct w as [|c' w].
        { destruct rest as [|c' rest]; [done|]. cbn in H. injection H as <- <-. destruct Hr as [?|Hr]; [done|]. cbn in Hr. go_bool. done. }
        rewrite str_app_cons in H. injection H as <- ->. unfold absent in Hw. cbn in Hw. apply andb_true_iff in Hw as [_ Hw].
        assert ((w0, rest0) = (w, rest)) as [= -> ->]; [|done]. by apply IH.
Qed.

(** What may follow the suffix. *)
Definition tail_ok (tail : string) : Prop := tail = "" ∨ tail = " (Claude Code)".

Lemma suffix_spec s build tail :
  tail_ok tail → suffix s = (build, tail) ↔ s = build +:+ tail ∧ build_suffix build.
Proof.
  intros Ht. assert (tail = "" ∨ starts (λ c, bool_decide (c = " "%char)) tail = true) as Ht' by (destruct Ht as [->| ->]; [by left|by right]).
  assert (starts build_start tail = false) as Hb by (by destruct Ht as [->| ->]).
  unfold suffix. destruct s as [|c s].
  { split; [intros [= <- Htail]; split; [by rewrite <- Htail|by left]|]. intros [H _]. destruct build; [by rewrite H|done]. }
  destruct (build_start c && negb (bool_decide ((word s).1 = ""))) eqn:Hc.
  - destruct (word s) as [w rest] eqn:Hw. cbn [fst snd] in *. go_bool. split.
    + intros [= <- <-]. apply word_spec in Hw as (-> & Hw & _). split; [done|]. right. eauto 6.
    + intros [Hs [->|(c' & w' & -> & Hc' & Hne & Hw')]].
      { change ("" +:+ tail) with tail in Hs. rewrite <- Hs in Hb. cbn in Hb. congruence. }
      rewrite str_app_cons in Hs. injection Hs as <- ->. assert (word (w' +:+ tail) = (w', tail)) as E by (apply word_spec; by split_and!).
      rewrite E in Hw. by injection Hw as <- <-.
  - split; [intros [= <- Htail]; split; [by rewrite <- Htail|by left]|]. intros [Hs [->|(c' & w' & -> & Hc' & Hne & Hw')]]; [by cbn in Hs; rewrite Hs|].
    rewrite str_app_cons in Hs. injection Hs as <- ->. assert (word (w' +:+ tail) = (w', tail)) as E by (apply word_spec; by split_and!).
    rewrite E, Hc' in Hc. cbn [fst andb] in Hc. go_bool. done.
Qed.

Definition release_prefix : string := "codex-cli ".
Lemma starts_numeral d rest : numeral d → starts is_digit (d +:+ rest) = true.
Proof. intros [Hne Hd]. destruct d as [|c d]; [done|]. cbn in *. by apply andb_true_iff in Hd as [? _]. Qed.
Lemma starts_build build tail : tail_ok tail → build_suffix build → starts is_digit (build +:+ tail) = false.
Proof.
  intros Ht [->|(c & w & -> & Hc & _)]; [by destruct Ht as [->| ->]|]. cbn. unfold build_start in Hc.
  rewrite orb_true_iff, !bool_decide_eq_true in Hc. by destruct Hc as [->| ->].
Qed.

(** The regular expression: an optional prefix, three numbers, an optional suffix
    and an optional product name. *)
Lemma providerVersion_exact raw v :
  providerVersion raw = Some v ↔
  ∃ pre tail, raw = pre +:+ version_text v +:+ tail ∧ (pre = "" ∨ pre = release_prefix) ∧ tail_ok tail ∧ well_formed v.
Proof.
  unfold providerVersion. set (s0 := TrimPrefix raw _). split.
  - destruct (number s0) as [[a s1]|] eqn:Ha; [|done]. cbn [mbind option_bind]. destruct (literal "." s1) as [s2|] eqn:H1; [|done]. cbn [mbind option_bind].
    destruct (number s2) as [[b s3]|] eqn:Hb; [|done]. cbn [mbind option_bind]. destruct (literal "." s3) as [s4|] eqn:H2; [|done]. cbn [mbind option_bind].
    destruct (number s4) as [[c s5]|] eqn:Hc; [|done]. cbn [mbind option_bind]. destruct (suffix s5) as [build tail] eqn:Hs.
    destruct (bool_decide (tail = "") || _) eqn:Ht; [|done]. intros [= <-].
    apply orb_true_iff in Ht. rewrite !bool_decide_eq_true in Ht. apply suffix_spec in Hs as [-> Hbuild]; [|exact Ht].
    apply number_spec in Ha as (Ha & Hna & _), Hb as (-> & Hnb & _), Hc as (-> & Hnc & _). apply literal_spec in H1 as ->, H2 as ->.
    assert (∃ pre, raw = pre +:+ s0 ∧ (pre = "" ∨ pre = release_prefix)) as (pre & Hraw & Hpre).
    { subst s0. unfold TrimPrefix, CutPrefix, HasPrefix. destruct (String.prefix _ raw) eqn:Hp; cbn [fst]; [|by exists ""; split; [|left]].
      exists release_prefix. split; [by apply prefix_inv|by right]. }
    exists pre, tail. split_and!; [|done|done|by split]. rewrite Hraw, Ha. unfold version_text. cbn [v_major v_minor v_patch v_suffix].
    change (String "." (b +:+ ?x)) with ("." +:+ (b +:+ x)). by rewrite <- !str_app_assoc.
  - intros (pre & tail & -> & Hpre & Ht & [Ha Hb Hc Hs]).
    assert (s0 = version_text v +:+ tail) as ->.
    { subst s0. unfold TrimPrefix, CutPrefix, HasPrefix. destruct Hpre as [->| ->].
      - change ("" +:+ ?x) with x. destruct (String.prefix _ _) eqn:Hp; [|done]. apply prefix_inv in Hp. exfalso.
        unfold version_text in Hp. rewrite <- !str_app_assoc in Hp. pose proof (starts_numeral _ ("." +:+ v_minor v +:+ "." +:+ v_patch v +:+ v_suffix v +:+ tail) Ha) as Hst.
        rewrite Hp in Hst. done.
      - unfold release_prefix. rewrite prefix_app. cbn [fst]. apply str_drop_app. }
    unfold version_text. rewrite <- !str_app_assoc.
    rewrite (proj2 (number_spec _ (v_major v) ("." +:+ v_minor v +:+ "." +:+ v_patch v +:+ v_suffix v +:+ tail))) by (by split_and!). cbn [mbind option_bind].
    rewrite (proj2 (literal_spec _ _ (v_minor v +:+ "." +:+ v_patch v +:+ v_suffix v +:+ tail))) by done. cbn [mbind option_bind].
    rewrite (proj2 (number_spec _ (v_minor v) ("." +:+ v_patch v +:+ v_suffix v +:+ tail))) by (by split_and!). cbn [mbind option_bind].
    rewrite (proj2 (literal_spec _ _ (v_patch v +:+ v_suffix v +:+ tail))) by done. cbn [mbind option_bind].
    rewrite (proj2 (number_spec _ (v_patch v) (v_suffix v +:+ tail))) by (split_and!; [done|done|by apply starts_build]). cbn [mbind option_bind].
    rewrite (proj2 (suffix_spec (v_suffix v +:+ tail) (v_suffix v) tail Ht)) by done.
    assert (bool_decide (tail = "") || bool_decide (tail = " (Claude Code)") = true) as -> by (destruct Ht as [->| ->]; done). by destruct v.
Qed.

(** ** The order *)

(** No pre-release. *)
Definition stable (build : string) : Prop := starts (λ c, bool_decide (c = "-"%char)) build = false.
(** At least the given release: the numbers are compared from the left, and one that
    does not fit in an int is refused unless an earlier one decided. *)
Definition newer (v : version) (m : Z * Z * Z) : Prop :=
  let '(m1, m2, m3) := m in
  ∃ x, Atoi (v_major v) = Some x ∧ (m1 < x ∨ (x = m1 ∧
  ∃ y, Atoi (v_minor v) = Some y ∧ (m2 < y ∨ (y = m2 ∧
  ∃ z, Atoi (v_patch v) = Some z ∧ m3 <= z)))).
Definition minimum_numbers (provider : string) : Z * Z * Z :=
  if bool_decide (provider = "claude") then (2, 1, 259) else (0, 153, 0).

Lemma Contains_absent c s : absent c s = true → Contains s (String c "") = false.
Proof.
  unfold absent. induction s as [|d s IH]; [done|]. cbn. intros [Hd Hs]%andb_true_iff. go_bool. rewrite IH by done.
  destruct (Ascii.ascii_dec c d); [by subst|]. done.
Qed.

Lemma numeral_absent s c : numeral s → is_digit c = false → absent c s = true.
Proof. intros [_ H] Hc. by apply digits_absent. Qed.

Definition numbers_text (v : version) : string := v_major v +:+ "." +:+ v_minor v +:+ "." +:+ v_patch v.
Lemma version_text_numbers v : version_text v = numbers_text v +:+ v_suffix v.
Proof. unfold version_text, numbers_text. by rewrite <- !str_app_assoc. Qed.
Lemma numbers_absent v c : well_formed v → is_digit c = false → c ≠ "."%char → absent c (numbers_text v) = true.
Proof.
  intros [Ha Hb Hc _] Hd Hdot. unfold numbers_text. rewrite !absent_app, (numeral_absent (v_major v)), (numeral_absent (v_minor v)), (numeral_absent (v_patch v)) by done.
  unfold absent. cbn. by rewrite bool_decide_false by congruence.
Qed.
Lemma Split_numbers v : well_formed v → Split (numbers_text v) "." = [v_major v; v_minor v; v_patch v].
Proof.
  intros [Ha Hb Hc _]. change (numbers_text v) with (v_major v +:+ String "." (v_minor v +:+ String "." (v_patch v))).
  rewrite (Split_app_sep (v_major v)) by exact (numeral_absent _ "." Ha eq_refl).
  rewrite (Split_app_sep (v_minor v)) by exact (numeral_absent _ "." Hb eq_refl).
  by rewrite Split_no_sep by exact (numeral_absent _ "." Hc eq_refl).
Qed.

Lemma at_least_newer v m1 m2 m3 b1 b2 b3 :
  Atoi b1 = Some m1 → Atoi b2 = Some m2 → Atoi b3 = Some m3 →
  at_least [v_major v; v_minor v; v_patch v] [b1; b2; b3] = true ↔ newer v (m1, m2, m3).
Proof.
  intros H1 H2 H3. unfold newer. cbn [at_least]. rewrite H1, H2, H3. unfold default, id.
  destruct (Atoi (v_major v)) as [x|]; [|split; [done|by intros (? & ? & _)]].
  destruct (x =? m1) eqn:E1; cbn [negb]; go_bool.
  2:{ split; [intros H; go_bool; exists x; split; [done|by left]|]. intros (? & [= <-] & [?|[-> _]]); [by apply Z.ltb_lt|done]. }
  subst x. destruct (Atoi (v_minor v)) as [y|].
  2:{ split; [done|]. intros (? & [= <-] & [?|(_ & ? & ? & _)]); [lia|done]. }
  destruct (y =? m2) eqn:E2; cbn [negb]; go_bool.
  2:{ split; [intros H; go_bool; exists m1; split; [done|]; right; split; [done|]; exists y; split; [done|by left]|].
      intros (? & [= <-] & [?|(_ & ? & [= <-] & [?|[-> _]])]); [lia|by apply Z.ltb_lt|done]. }
  subst y. destruct (Atoi (v_patch v)) as [z|].
  2:{ split; [done|]. intros (? & [= <-] & [?|(_ & ? & [= <-] & [?|(_ & ? & ? & _)])]); [lia..|done]. }
  destruct (z =? m3) eqn:E3; cbn [negb]; go_bool.
  - subst z. split; [|done]. intros _. eauto 12 using Z.le_refl.
  - split; [intros H; go_bool; exists m1; split; [done|]; right; split; [done|]; exists m2; split; [done|]; right; split; [done|]; exists z; split; [done|lia]|].
    intros (? & [= <-] & [?|(_ & ? & [= <-] & [?|(_ & ? & [= <-] & ?)])]); [lia..|]. apply Z.ltb_lt. lia.
Qed.

Lemma versionAtLeast_exact v provider :
  well_formed v → versionAtLeast (version_text v) (minimum_of provider) = true ↔ stable (v_suffix v) ∧ newer v (minimum_numbers provider).
Proof.
  intros Hv. rewrite version_text_numbers. unfold versionAtLeast.
  assert (absent "+" (numbers_text v) = true) as Hplus by by apply numbers_absent.
  assert (absent "-" (numbers_text v) = true) as Hminus by by apply numbers_absent.
  assert (at_least [v_major v; v_minor v; v_patch v] (Split (minimum_of provider) ".") = true ↔ newer v (minimum_numbers provider)) as Hlex.
  { unfold minimum_of, minimum_numbers. case_bool_decide;
      [change (Split MinimumClaudeVersion ".") with ["2"; "1"; "259"]|change (Split MinimumCodexVersion ".") with ["0"; "153"; "0"]];
      apply at_least_newer; vm_compute; reflexivity. }
  assert ((length (Split (minimum_of provider) ".") =? 3)%nat = true) as Hlen by (unfold minimum_of; case_bool_decide; vm_compute; reflexivity).
  assert (∀ t, (if Contains (numbers_text v) "-" then t else
            if negb (length (Split (numbers_text v) ".") =? 3)%nat || negb (length (Split (minimum_of provider) ".") =? 3)%nat then false
            else at_least (Split (numbers_text v) ".") (Split (minimum_of provider) ".")) =
            at_least [v_major v; v_minor v; v_patch v] (Split (minimum_of provider) ".")) as Hsame.
  { intros x. by rewrite Contains_absent, Split_numbers, Hlen by done. }
  destruct (wf_suffix v Hv) as [->|(c & w & -> & Hc & Hne & Hw)].
  - rewrite str_app_nil_r, Cut_absent by done. cbn [fst]. rewrite Hsame, Hlex. unfold stable. cbn. tauto.
  - unfold build_start in Hc. rewrite orb_true_iff, !bool_decide_eq_true in Hc. destruct Hc as [->| ->].
    + assert (∃ x, (Cut (numbers_text v +:+ String "-" w) "+").1.1 = numbers_text v +:+ String "-" x) as [x ->].
      { destruct (absent "+" w) eqn:Hw'.
        - exists w. rewrite Cut_absent; [done|]. rewrite absent_app, Hplus. unfold absent in *. by cbn.
        - destruct (Cut w "+") as [[b a] f] eqn:Hcut. pose proof (Cut_spec _ _ _ _ _ Hcut) as [Hb ->]. destruct f.
          + exists b. change (String "-" (b +:+ String "+" a)) with (String "-" b +:+ String "+" a). rewrite str_app_assoc, Cut_app; [done|].
            rewrite absent_app, Hplus. unfold absent in *. by cbn.
          + exfalso. rewrite str_app_nil_r in Hw'. congruence. }
      rewrite Contains_app by (vm_compute; by destruct x). split; [done|]. intros [Hst _]. unfold stable, starts in Hst.
      by rewrite bool_decide_true in Hst.
    + rewrite Cut_app by done. cbn [fst]. rewrite Hsame, Hlex. unfold stable. cbn. tauto.
Qed.

(** A provider CLI passes the version test exactly when what it printed is the
    line of its product naming a release that is stable, with or without build
    metadata, and not older than the tested one. *)
Theorem version_accepted_exact provider raw found :
  version_ok provider raw = Some found ↔
  ∃ pre v tail, raw = pre +:+ version_text v +:+ tail ∧ found = version_text v ∧
    (pre = "" ∨ pre = release_prefix) ∧ tail_ok tail ∧ well_formed v ∧
    (provider = "codex" → HasPrefix raw release_prefix = true) ∧ (provider = "claude" → HasSuffix raw " (Claude Code)" = true) ∧
    stable (v_suffix v) ∧ newer v (minimum_numbers provider).
Proof.
  unfold version_ok. split.
  - destruct (providerVersion raw) as [v|] eqn:Hv; [|done]. cbn [mbind option_bind].
    apply providerVersion_exact in Hv as (pre & tail & Hraw & Hpre & Ht & Hwf).
    destruct (_ || _) eqn:Hbad; [done|]. intros [= <-]. apply orb_false_iff in Hbad as [[H1 H2]%orb_false_iff H3]. go_bool.
    apply versionAtLeast_exact in H3 as [Hs Hn]; [|done]. exists pre, v, tail. split_and!; try done.
    + intros ->. rewrite bool_decide_true in H1 by done. by destruct (HasPrefix raw _).
    + intros ->. rewrite bool_decide_true in H2 by done. by destruct (HasSuffix raw _).
  - intros (pre & v & tail & Hraw & -> & Hpre & Ht & Hwf & H1 & H2 & Hs & Hn).
    rewrite (proj2 (providerVersion_exact raw v)) by (exists pre, tail; by split_and!). cbn [mbind option_bind].
    rewrite (proj2 (versionAtLeast_exact v provider Hwf)) by done. cbn [negb]. rewrite orb_false_r.
    assert (bool_decide (provider = "codex") && negb (HasPrefix raw "codex-cli ") = false) as ->.
    { case_bool_decide as E; [|done]. specialize (H1 E). unfold release_prefix in H1. by rewrite H1. }
    assert (bool_decide (provider = "claude") && negb (HasSuffix raw " (Claude Code)") = false) as ->; [|done].
    case_bool_decide as E; [|done]. by rewrite (H2 E).
Qed.

Example versions :
  version_ok "codex" "codex-cli 0.153.0" = Some "0.153.0" ∧ version_ok "codex" "codex-cli 0.152.9" = None ∧
  version_ok "codex" "codex-cli 1.0.0-rc.1" = None ∧ version_ok "codex" "codex-cli 1.0.0+build.7" = Some "1.0.0+build.7" ∧
  version_ok "claude" "2.1.259 (Claude Code)" = Some "2.1.259" ∧ version_ok "claude" "2.1.300" = None.
Proof. vm_compute. done. Qed.
