(* ===== verification/ProviderHandler.v ===== *)
(** * Providers and the published handler

    pkg/adapters/types.go ([NewProvider]), delegation.go ([withDelegation]) and
    handler_compat.go ([Handler.Handle]): how a provider is built from its
    configuration, and what an assignment of the SDK becomes for it. *)

From S2P Require Import Prelude GoStrings Json JsonRoundtrip ProviderOutput BoundTools NodeHandler Sandbox Isolation AgentHost Broker Delegation ProviderConfig.
From stdpp Require Import options.

Open Scope Z_scope.

(** ** Providers *)

(** [CodexProvider] and [ClaudeProvider] with their [Config]. *)
Inductive client := CodexClient (c : ProviderConfig) | ClaudeClient (c : ProviderConfig).
Definition client_config (p : client) : ProviderConfig := match p with CodexClient c | ClaudeClient c => c end.
Definition client_name (p : client) : string := match p with CodexClient _ => "codex" | ClaudeClient _ => "claude" end.

Record delegationProvider := { dp_provider : client; dp_config : ProviderConfig; dp_host : Resolver }.

Section new.
Context {UL : UnicodeLower} {HW : Type} `{HO : !HostOS HW} (pf : platform).
Implicit Types s : hstate HW.

Definition proxy_capability : string := "delegation_proxy".

(** [withDelegation]: with targets the host is verified when the provider is built. *)
Definition withDelegation (p : client) (c : ProviderConfig) s : result delegationProvider * hstate HW :=
  let host := NewResolver (DelegationProxyBin c) proxy_capability in
  if bool_decide (DelegationTargets c = []) then (Ok {| dp_provider := p; dp_config := c; dp_host := host |}, s)
  else
    match ValidateTargets (DelegationTargets c) with
    | Some e => (Err e, s)
    | None =>
        match Resolver_Resolve host s with
        | (Err e, _, s1) => (Err e, s1)
        | (Ok binary, host, s1) => (Ok {| dp_provider := p; dp_config := set_DelegationProxyBin binary c; dp_host := host |}, s1)
        end
    end.

Definition client_of (c : ProviderConfig) : option client :=
  let name := ToLower (TrimSpace (Provider c)) in
  if bool_decide (name = "codex") then Some (CodexClient c)
  else if bool_decide (name = "claude") then Some (ClaudeClient c) else None.

Definition errProfile : go_error := ENew "bridge execution profile must be standard; deep execution requires Plugin".

(** [NewProvider] *)
Definition NewProvider (c0 : ProviderConfig) s : result delegationProvider * hstate HW :=
  let c := set_Provider (ToLower (TrimSpace (Provider c0))) c0 in
  match validateSessionIsolation pf c with
  | Some e => (Err e, s)
  | None =>
      match client_of c with
      | None => (Err (ENew "provider must be codex or claude"), s)
      | Some p =>
          if bool_decide (ToLower (TrimSpace (ExecutionProfile c)) ∈ [""; "standard"]) then withDelegation p c s
          else (Err errProfile, s)
      end
  end.
End new.

(** ** The published handler *)

Section handler.
Context `{F64 : !Float64}.

(** The SDK's [RuntimeContext], its metadata in marshalling order. *)
Record RuntimeContext := {
  hx_RunID : string; hx_AgentID : string; hx_AttemptDeadlineAt : Z; hx_RunDeadlineAt : Z;
  (** [Authority.PrincipalScopeID]; [None] is a nil authority *)
  hx_Authority : option string;
  hx_Input : json; hx_Metadata : list (string * json); hx_CanReadDelegatedRuns : bool;
}.

(** The adapters' [RunContext] that the handlers fill; the functions it holds are
    those of the assignment, [hr_ReadDelegatedRun] says whether that one is set. *)
Record HandlerRun := {
  hr_MCPSnapshot : json; hr_PackageSnapshot : json; hr_RunID : string; hr_AgentID : string;
  hr_AttemptDeadlineAt : Z; hr_RunDeadlineAt : Z; hr_Authority : option string; hr_Input : json;
  hr_Metadata : list (string * json); hr_A2A : json; hr_Conversation : option ConversationContext;
  hr_ReadDelegatedRun : bool; hr_CallAgent : bool;
}.

(** [conversationValue] *)
Definition conversationValue (value : json) : option ConversationContext :=
  c ← (j ← parse (marshal value); decode_struct false conversation_fields conversation_zero j);
  if bool_decide (TrimSpace (cv_SessionKey c) = "") || bool_decide (TrimSpace (cv_CurrentRunID c) = "") then None else Some c.

(** [mapValue] *)
Definition mapValue (value : json) : json := match value with JObj _ => value | _ => JObj [] end.

Definition hidden_keys : list string := ["a2a"; "conversation"; "_openlinker_mcp_bindings"; "_openlinker_mcp_binding"].

Definition core_only (c : option ConversationContext) : option ConversationContext :=
  c ← c; if bool_decide (cv_Source c = "core") then Some c else None.

(** The context [Handle] builds. *)
Definition handler_run (a : RuntimeContext) : HandlerRun :=
  let metadata := JObj (hx_Metadata a) in
  {| hr_MCPSnapshot := obj_get metadata "_openlinker_mcp_bindings"; hr_PackageSnapshot := JNull;
     hr_RunID := hx_RunID a; hr_AgentID := hx_AgentID a;
     hr_AttemptDeadlineAt := hx_AttemptDeadlineAt a; hr_RunDeadlineAt := hx_RunDeadlineAt a;
     hr_Authority := hx_Authority a; hr_Input := hx_Input a;
     hr_Metadata := List.filter (λ kv, negb (bool_decide (kv.1 ∈ hidden_keys))) (hx_Metadata a);
     hr_A2A := mapValue (obj_get metadata "a2a");
     hr_Conversation := core_only (conversationValue (obj_get metadata "conversation"));
     hr_ReadDelegatedRun := hx_CanReadDelegatedRuns a; hr_CallAgent := true |}.

(** [normalizeResult] *)
Definition normalizeResult (r : RuntimeResult) : RuntimeResult :=
  let with_status st := {| rr_Status := st; rr_Output := rr_Output r; rr_Events := rr_Events r; rr_Error := rr_Error r |} in
  match rr_Error r with
  | Some _ => with_status "failed"
  | None =>
      let st := if bool_decide (rr_Status r = "") then "success" else rr_Status r in
      if bool_decide (st = "success") then with_status st
      else failedResult "PROVIDER_INVALID_RESULT" "provider returned an invalid result"
  end.

(** A provider of the embedding program; [None] is a panic. *)
Inductive provider_outcome := Returned (r : run_result) | Panicked.

(** The end of [Handle], the deferred recovery included. *)
Definition handled (o : provider_outcome) : RuntimeResult :=
  match o with
  | Panicked => failedResult "PROVIDER_PANIC" "provider execution panicked"
  | Returned (r, None) => normalizeResult r
  | Returned (_, Some e) =>
      if errors_Is e context_Canceled || errors_Is e context_DeadlineExceeded
      then failedResult "PROVIDER_CANCELED" "provider execution was canceled"
      else failedResult "PROVIDER_ERROR" (Text.BoundedText (error_text e) 500 "provider failed")
  end.

(** [Handler.Handle]; its error is always nil. *)
Definition Handler_Handle {W} (provider : option (HandlerRun → W → provider_outcome * W)) (a : RuntimeContext) (w : W)
    : RuntimeResult * W :=
  match provider with
  | None => (failedResult "PROVIDER_NOT_CONFIGURED" "provider is not configured", w)
  | Some run => let '(o, w1) := run (handler_run a) w in (handled o, w1)
  end.
End handler.

(** ** What a provider sees and what the runtime gets *)
Section handler_facts.
Context `{F64 : !Float64}.

(** The published handler and the node take the same conversation from the metadata. *)
Lemma core_conversation_same value : core_only (conversationValue value) = trustedConversationContext value.
Proof.
  unfold core_only, conversationValue, trustedConversationContext. destruct (j ← parse _; decode_struct _ _ _ j) as [c|]; [|done]. cbn [mbind option_bind].
  destruct (bool_decide (TrimSpace (cv_SessionKey c) = "")), (bool_decide (TrimSpace (cv_CurrentRunID c) = "")),
    (bool_decide (cv_Source c = "core")) eqn:Hs; cbn; by rewrite ?Hs.
Qed.

Lemma BoundedText_length value maximum fallback : (length (runes (Text.BoundedText value maximum fallback)) <= maximum)%nat.
Proof. apply Text.truncate_runes. Qed.

(** A result the runtime accepts: one of two states, and an error exactly in the
    failed one. *)
Definition final (r : RuntimeResult) : Prop :=
  (rr_Status r = "success" ∧ rr_Error r = None) ∨ (rr_Status r = "failed" ∧ is_Some (rr_Error r)).

Lemma normalizeResult_final r : final (normalizeResult r).
Proof.
  unfold normalizeResult, final. destruct (rr_Error r) eqn:He; [by right|].
  case_bool_decide; [left; by cbn|right; by cbn].
Qed.
Lemma normalizeResult_success r :
  rr_Status (normalizeResult r) = "success" ↔ rr_Error r = None ∧ rr_Status r ∈ [""; "success"].
Proof.
  unfold normalizeResult. destruct (rr_Error r) eqn:He; [by split; [|intros []]|]. rewrite !elem_of_cons, elem_of_nil.
  case_bool_decide as Hs; case_bool_decide as Hst; cbn; try done; naive_solver.
Qed.

Definition cancelled (e : go_error) : bool := errors_Is e context_Canceled || errors_Is e context_DeadlineExceeded.

(** The handler never fails and never leaves a panic: whatever its provider does, the
    runtime gets a final result.  It is a success exactly when the provider
    returned one without an error, with its own output; a cancellation and an
    expired deadline have one text; any other error is cut to 500 characters.
    The provider sees the metadata less the reserved entries and only the
    conversation that the node itself would trust. *)
Theorem handler_outcome {W} (run : HandlerRun → W → provider_outcome * W) a w o w' :
  run (handler_run a) w = (o, w') →
  ∃ r, Handler_Handle (Some run) a w = (r, w') ∧ final r ∧
    (rr_Status r = "success" ↔ ∃ x, o = Returned (x, None) ∧ rr_Error x = None ∧ rr_Status x ∈ [""; "success"]) ∧
    (∀ x, o = Returned (x, None) → rr_Error x = None → rr_Status x ∈ [""; "success"] →
       rr_Output r = rr_Output x ∧ rr_Events r = rr_Events x) ∧
    (∀ x e err, o = Returned (x, Some e) → rr_Error r = Some err →
       if cancelled e then ae_Code err = "PROVIDER_CANCELED"
       else ae_Code err = "PROVIDER_ERROR" ∧ (length (runes (ae_Message err)) <= 500)%nat) ∧
    (∀ k v, (k, v) ∈ hr_Metadata (handler_run a) ↔ (k, v) ∈ hx_Metadata a ∧ k ∉ hidden_keys) ∧
    hr_Conversation (handler_run a) = trustedConversationContext (obj_get (JObj (hx_Metadata a)) "conversation").
Proof.
  intros Hrun. exists (handled o). unfold Handler_Handle. rewrite Hrun. split; [done|].
  assert (final (handled o)) as Hfinal.
  { destruct o as [[x [e|]]|]; cbn [handled]; [|apply normalizeResult_final|by right]. destruct (_ || _); by right. }
  split; [exact Hfinal|]. split; [|split; [|split; [|split]]].
  - destruct o as [[x [e|]]|]; cbn [handled].
    + destruct (_ || _); split; [done|naive_solver|done|naive_solver].
    + rewrite normalizeResult_success. naive_solver.
    + split; [done|naive_solver].
  - intros x -> He Hs. cbn [handled]. unfold normalizeResult. rewrite He. rewrite !elem_of_cons, elem_of_nil in Hs.
    destruct Hs as [Hs|[Hs|[]]]; rewrite Hs; by cbn.
  - intros x e err -> He. cbn [handled] in He. unfold cancelled. destruct (_ || _); injection He as <-; [done|]. split; [done|].
    apply BoundedText_length.
  - intros k v. cbn [hr_Metadata handler_run]. rewrite elem_of_filter_bool, negb_true_iff, bool_decide_eq_false. cbn. tauto.
  - apply core_conversation_same.
Qed.
End handler_facts.

Section new_facts.
Context {UL : UnicodeLower} {HW : Type} `{HO : !HostOS HW} (pf : platform).

(** What a provider that was built holds. *)
Record configured (c0 : ProviderConfig) (p : delegationProvider) : Prop := {
  cp_client : client_name (dp_provider p) = ToLower (TrimSpace (ToLower (TrimSpace (Provider c0))));
  cp_config : client_config (dp_provider p) = set_Provider (ToLower (TrimSpace (Provider c0))) c0;
  cp_isolation : validateSessionIsolation pf (client_config (dp_provider p)) = None;
  cp_profile : ToLower (TrimSpace (ExecutionProfile c0)) ∈ [""; "standard"];
  cp_targets : DelegationTargets (dp_config p) = DelegationTargets c0 ∧ ValidateTargets (DelegationTargets c0) = None;
}.

Lemma NewProvider_ok c0 s p s' :
  NewProvider pf c0 s = (Ok p, s') →
  configured c0 p ∧ ∃ host, host = NewResolver (DelegationProxyBin c0) proxy_capability ∧
    ((DelegationTargets c0 = [] ∧ s' = s ∧ dp_host p = host ∧ dp_config p = client_config (dp_provider p)) ∨
     ∃ binary, DelegationTargets c0 ≠ [] ∧ Resolver_Resolve host s = (Ok binary, dp_host p, s') ∧
       dp_config p = set_DelegationProxyBin binary (client_config (dp_provider p))).
Proof.
  unfold NewProvider. set (c := set_Provider _ c0). destruct (validateSessionIsolation pf c) eqn:Hv; [done|].
  destruct (client_of c) as [q|] eqn:Hq; [|done]. case_bool_decide as Hprofile; [|done].
  assert (client_config q = c ∧ client_name q = ToLower (TrimSpace (Provider c))) as [Hc Hn].
  { revert Hq. unfold client_of. do 2 (case_bool_decide; [intros [= <-]; auto|]). done. }
  unfold withDelegation. change (DelegationTargets c) with (DelegationTargets c0). change (DelegationProxyBin c) with (DelegationProxyBin c0).
  case_bool_decide as Ht.
  - intros [= <- <-]. split.
    + split; cbn [dp_provider dp_config]; rewrite ?Hc; try done. change (DelegationTargets c) with (DelegationTargets c0). by rewrite Ht.
    + eexists. split; [done|]. left. cbn. by rewrite Hc.
  - destruct (ValidateTargets _) eqn:Htargets; [done|]. destruct (Resolver_Resolve _ s) as [[[binary|e] host] s1] eqn:Hr; [|done].
    intros [= <- <-]. split.
    + split; cbn [dp_provider dp_config]; rewrite ?Hc; try done.
    + eexists. split; [done|]. right. exists binary. cbn [dp_provider dp_config dp_host]. by rewrite Hc.
Qed.
End new_facts.

(** ** A concrete handler *)
Module HandlerExample.
Definition f64 : Float64 := Some.
#[local] Existing Instance f64.
Definition assignment : RuntimeContext :=
  {| hx_RunID := "r"; hx_AgentID := "a"; hx_AttemptDeadlineAt := 0; hx_RunDeadlineAt := 0; hx_Authority := None; hx_Input := JStr "hi";
     hx_Metadata := [("a2a", JStr "x"); ("caller", JStr "y")]; hx_CanReadDelegatedRuns := false |}.
(** The run's deadline passes. *)
Definition late (r : HandlerRun) (n : nat) : provider_outcome * nat :=
  (Returned (failedResult "X" "x", Some (EWrap "codex: " context_DeadlineExceeded "")), S n).

Lemma handler_outcome_witness :
  Handler_Handle (Some late) assignment 0%nat = (failedResult "PROVIDER_CANCELED" "provider execution was canceled", 1%nat) ∧
  hr_Metadata (handler_run assignment) = [("caller", JStr "y")].
Proof.
  destruct (handler_outcome late assignment 0%nat (late (handler_run assignment) 0%nat).1 1%nat eq_refl) as (r & Hr & _ & _ & _ & He & _).
  split; [|vm_compute; reflexivity]. rewrite Hr. cbn in Hr. injection Hr as <-. reflexivity.
Defined.
End HandlerExample.
