(* ===== verification/NativeAdapter.v ===== *)
(** * The native adapter

    internal/agentnode/adapter_native.go: the configuration and the provider an
    adapter fixes for its lifetime, its preflight, and a run from the node's context
    to the node's result; with the mock of adapter_codex.go. *)

From S2P Require Import Prelude GoStrings Json JsonRoundtrip ProviderOutput Config SkillDecode CodexLaunch BoundTools PrivateFiles Environment HelperServer NodeHandler Sandbox ToolPolicy Isolation AgentHost Broker Delegation ProviderConfig Preflight ProviderHandler.
From stdpp Require Import options.

Open Scope Z_scope.

(** ** The context of a run *)

(** The node's functions of a run: the checked emitter, the plain one, the call of
    another agent and the read of a delegated run, with the clock and the deadline. *)
Class NodeAttempt `{SD : !SDK} (W : Type) := {
  nd_emitChecked : option (string → json → W → option go_error * W);
  nd_Emit : option (string → json → W → W);
  nd_CallAgent : Z → string → list (string * json) → HelperServer.CallAgentOptions → W → result (option json) * W;
  nd_ReadDelegatedRun : Z → string → W → result (option DelegatedRun) * W;
  nd_now : W → Z;
  nd_parent_err : W → option go_error;
  nd_wait : Z → W → option go_error * W;
}.

Section context.
Context `{F64 : !Float64, SD : !SDK} {W : Type} `{NA : !NodeAttempt W}.

(** The closure [Emit] *)
Definition native_emit (eventType : string) (payload : json) (w : W) : option go_error * W :=
  match nd_emitChecked with
  | Some f => f eventType payload w
  | None => (None, match nd_Emit with Some f => f eventType payload w | None => w end)
  end.

(** The options the closure [CallAgent] passes on. *)
Definition call_agent_options (o : CallOptions) : HelperServer.CallAgentOptions :=
  {| HelperServer.IdempotencyKey := IdempotencyKey o; HelperServer.Reason := Reason o; HelperServer.o_Metadata := default JNull (Metadata o) |}.

#[export] Instance native_attempt : Attempt W := {|
  at_CallAgent := λ d target input o, nd_CallAgent d target input (call_agent_options o);
  at_ReadDelegatedRun := nd_ReadDelegatedRun;
  at_Emit := Some native_emit;
  at_now := nd_now;
  at_parent_err := nd_parent_err;
  at_wait := nd_wait;
|}.

(** The values of a node's [RunContext]. *)
Record NodeRun := {
  nr_context : AdapterContext; nr_AttemptDeadlineAt : Z; nr_RunDeadlineAt : Z; nr_Authority : option string; nr_CallAgent : bool;
}.

(** The provider's context *)
Definition native_run (input : json) (run : NodeRun) : HandlerRun :=
  let x := nr_context run in
  {| hr_MCPSnapshot := ac_MCPSnapshot x; hr_PackageSnapshot := ac_PackageSnapshot x; hr_RunID := ac_RunID x; hr_AgentID := ac_AgentID x;
     hr_AttemptDeadlineAt := nr_AttemptDeadlineAt run; hr_RunDeadlineAt := nr_RunDeadlineAt run; hr_Authority := nr_Authority run;
     hr_Input := input; hr_Metadata := ac_Metadata x; hr_A2A := match ac_A2A x with Some kvs => JObj kvs | None => JNull end;
     hr_Conversation := core_only (ac_Conversation x);
     hr_ReadDelegatedRun := ac_CanReadDelegated x; hr_CallAgent := nr_CallAgent run |}.

(** What the delegation wrapper reads of it. *)
Definition delegation_of (r : HandlerRun) : DelegationRun :=
  {| di_MCPSnapshot := hr_MCPSnapshot r; di_Authority := bool_decide (is_Some (hr_Authority r)); di_RunID := hr_RunID r;
     di_CallAgent := hr_CallAgent r; di_ReadDelegatedRun := hr_ReadDelegatedRun r |}.

(** The node's result of a provider's. *)
Definition adapter_result (r : RuntimeResult) : AdapterResult :=
  {| ar_Status := rr_Status r; ar_Output := rr_Output r; ar_Events := rr_Events r; ar_Error := rr_Error r |}.
Definition adapter_outcome_of (r : run_result) : result AdapterResult :=
  match r.2 with Some e => Err e | None => Ok (adapter_result r.1) end.
End context.

(** ** The adapter *)

Section native.
Context `{F64 : !Float64, SD : !SDK, UL : !UnicodeLower, UP : !UnicodePrint, RO : !RangeOrder string delegationRequest, RI : !RangeOrder string inode}.
Context {W HW H : Type} `{NA : !NodeAttempt W, HO : !HostOS HW, SO : !StartOS, PO : !ProbeOS H}.
Context (t : tool_env) (env : os_env) (close : option go_error * option go_error * option go_error).
(** The run of Codex or Claude with its configuration and the run's context. *)
Context (inner : client → HandlerRun → Delegation.Provider (W:=W)).
(** [adapter.Config] *)
Context (config : ProviderConfig).

(** What the two [sync.Once] have left, and the machine: the files secrets are read
    from, the transport host, the session files with the probes, the brokers'
    directories. *)
Record native_state := {
  ns_prepared : option (result ProviderConfig);
  ns_provider : option (result delegationProvider);
  ns_secrets : string → read_env;
  ns_host : hstate HW;
  ns_probe : Sandbox.world * H;
  ns_files : resources;
}.
Implicit Types s : native_state.

Definition set_prepared (r : result ProviderConfig) s : native_state :=
  {| ns_prepared := Some r; ns_provider := ns_provider s; ns_secrets := ns_secrets s; ns_host := ns_host s; ns_probe := ns_probe s; ns_files := ns_files s |}.
Definition set_provider (r : result delegationProvider) (h : hstate HW) (files : resources) s : native_state :=
  {| ns_prepared := ns_prepared s; ns_provider := Some r; ns_secrets := ns_secrets s; ns_host := h; ns_probe := ns_probe s; ns_files := files |}.

(** [prepareNativeCredentials] on the configuration. *)
Definition prepared_config (secrets : string → read_env) : result ProviderConfig :=
  values ← prepareNativeCredentials (Provider config) (DelegationTargets config) (Env config) (te_environ t) secrets;
  match values with Some values => Ok (set_Env values config) | None => Ok config end.

(** [configuration] *)
Definition configuration : stM native_state ProviderConfig := λ s,
  match ns_prepared s with
  | Some r => (r, s)
  | None => let r := prepared_config (ns_secrets s) in (r, set_prepared r s)
  end.

(** [backend] *)
Definition backend : stM native_state delegationProvider := λ s,
  match ns_provider s with
  | Some r => (r, s)
  | None =>
      match configuration s with
      | (Err e, s1) => (Err e, set_provider (Err e) (ns_host s1) (ns_files s1) s1)
      | (Ok c, s1) => let '(r, h) := NewProvider (os_platform env) c (ns_host s1) in (r, set_provider r h (ns_files s1) s1)
      end
  end.

Definition probing {A} (m : stM (Sandbox.world * H) A) : stM native_state A := λ s,
  let '(r, p) := m (ns_probe s) in
  (r, {| ns_prepared := ns_prepared s; ns_provider := ns_provider s; ns_secrets := ns_secrets s; ns_host := ns_host s; ns_probe := p; ns_files := ns_files s |}).
Definition hosting {A} (m : stM (hstate HW) A) : stM native_state A := λ s,
  let '(r, h) := m (ns_host s) in
  (r, {| ns_prepared := ns_prepared s; ns_provider := ns_provider s; ns_secrets := ns_secrets s; ns_host := h; ns_probe := ns_probe s; ns_files := ns_files s |}).
Definition brokering {A} (m : stM resources A) : stM native_state A := λ s,
  let '(r, files) := m (ns_files s) in
  (r, {| ns_prepared := ns_prepared s; ns_provider := ns_provider s; ns_secrets := ns_secrets s; ns_host := ns_host s; ns_probe := ns_probe s; ns_files := files |}).
(** [fmt.Errorf("...: %w", err)] *)
Definition explained {S A} (prefix : string) (m : stM S A) : stM S A := λ x,
  match m x with (Err e, x1) => (Err (EWrap prefix e ""), x1) | r => r end.

Definition check_proxy (c : ProviderConfig) : stM native_state unit :=
  if bool_decide (DelegationTargets c = [])
  then (_ ← explained "MCP delivery preflight: delegation proxy unavailable: " (hosting (AgentHost.Resolve (DelegationProxyBin c) proxy_capability));
        mret tt)
  else mret tt.

(** [NativeAdapter.Preflight] *)
Definition NativeAdapter_Preflight : stM native_state unit :=
  c ← configuration;
  probing (CheckSessionIsolation t env close c);;
  _ ← probing (on_probe (CheckProviderCLI (te_username t) (te_environ t) c));
  check_proxy c;;
  explained "MCP delivery preflight: private broker unavailable: " (brokering (CheckBrokerRoot (DelegationBrokerRoot c)));;
  _ ← backend;
  mret tt.

(** [NativeAdapter.RuntimeFeatures]; the last name is a constant of the SDK. *)
Definition NativeAdapter_RuntimeFeatures (delegatedRunRead : string) : list string :=
  SkillDecode.Features (Provider config) ++ [BoundTools.Feature; delegatedRunRead].

(** [NativeAdapter.Run]; the resolver of the provider is shared by its runs. *)
Definition NativeAdapter_Run (input : json) (run : NodeRun) (w : attempt W) s : (result AdapterResult * attempt W) * native_state :=
  match backend s with
  | (Err e, s1) => ((Err e, w), s1)
  | (Ok p, s1) =>
      let r := native_run input run in
      let '(x, d) := delegationProvider_Run (PV := inner (dp_provider p) r) (DelegationTargets (dp_config p)) (DelegationBrokerRoot (dp_config p))
        (delegation_of r)
        {| ds_attempt := w; ds_resolver := dp_host p; ds_host := ns_host s1; ds_files := ns_files s1; ds_broker := None |} in
      ((adapter_outcome_of x, ds_attempt d),
       set_provider (Ok {| dp_provider := dp_provider p; dp_config := dp_config p; dp_host := ds_resolver d |}) (ds_host d) (ds_files d) s1)
  end.

(** ** An adapter over its lifetime *)

(** Calls one after the other; between them secrets, programs and files change. *)
Inductive nstep : native_state → native_state → Prop :=
  | native_preflight s r s' : NativeAdapter_Preflight s = (r, s') → nstep s s'
  | native_runs input run w s r s' : NativeAdapter_Run input run w s = (r, s') → nstep s s'
  | machine_moves s secrets host probe files :
      nstep s {| ns_prepared := ns_prepared s; ns_provider := ns_provider s; ns_secrets := secrets; ns_host := host; ns_probe := probe; ns_files := files |}.

Definition fresh s : Prop := ns_prepared s = None ∧ ns_provider s = None.
End native.
Arguments native_state : clear implicits.

(** ** What a preflight says about later runs *)

Lemma Resolver_Resolve_settings {HW} `{HO : !HostOS HW} r (s : hstate HW) x r' s' :
  Resolver_Resolve r s = (x, r', s') → r_configured r' = r_configured r ∧ r_capability r' = r_capability r.
Proof.
  unfold Resolver_Resolve. destruct (negb _); [by intros [= _ <- _]|]. destruct (AgentHost.Resolve _ _ s) as [[b|e] s1]; by intros [= _ <- _].
Qed.

Lemma delegation_resolver `{F64 : !Float64, SD : !SDK, RO : !RangeOrder string delegationRequest} {W HW} `{AT : !Attempt W, HO : !HostOS HW, SO : !StartOS}
    (PV : Delegation.Provider) targets root run (d : dstate) x d' :
  delegationProvider_Run (PV:=PV) targets root run d = (x, d') →
  r_configured (ds_resolver d') = r_configured (ds_resolver d) ∧ r_capability (ds_resolver d') = r_capability (ds_resolver d).
Proof.
  unfold delegationProvider_Run. destruct (DecodeBound _ _) as [[tools digest]|e]; [|by intros [= _ <-]].
  destruct (_ && _); [destruct (pv_alone _); by intros [= _ <-]|].
  destruct (Resolver_Resolve _ _) as [[[binary|e] resolver] host] eqn:Hr; apply Resolver_Resolve_settings in Hr.
  2: { destruct (unavailable _ _ _). by intros [= _ <-]. }
  destruct (negb _); [destruct (unavailable _ _ _); by intros [= _ <-]|].
  destruct (StartBound _ _ _ _ _ _ _) as [[[socket b]|e] files]; [|destruct (unavailable _ _ _); by intros [= _ <-]].
  destruct (pv_beside _ _) as [r0 b1]. destruct (conclude tools _ r0 b1) as [r' b2]. destruct (close_broker tools _ socket b2 files). by intros [= _ <-].
Qed.

Section lifetime.
Context `{F64 : !Float64, SD : !SDK, UL : !UnicodeLower, UP : !UnicodePrint, RO : !RangeOrder string delegationRequest, RI : !RangeOrder string inode}.
Context {W HW H : Type} `{NA : !NodeAttempt W, HO : !HostOS HW, SO : !StartOS, PO : !ProbeOS H}.
Context (t : tool_env) (env : os_env) (close : option go_error * option go_error * option go_error).
Context (inner : client → HandlerRun → Delegation.Provider (W:=W)).
Context (config : ProviderConfig).
Notation state := (native_state HW H).
Notation step := (nstep t env close inner config).
Implicit Types s : state.

(** What [sync.Once] fixes: the configuration, and the provider up to what its
    resolver remembers. *)
Record kept s s' : Prop := {
  kp_prepared : ∀ r, ns_prepared s = Some r → ns_prepared s' = Some r;
  kp_failed : ∀ e, ns_provider s = Some (Err e) → ns_provider s' = Some (Err e);
  kp_provider : ∀ p, ns_provider s = Some (Ok p) →
    ∃ p', ns_provider s' = Some (Ok p') ∧ dp_provider p' = dp_provider p ∧ dp_config p' = dp_config p;
}.
#[local] Instance kept_preorder : PreOrder kept.
Proof.
  split; [intros s; split; eauto|]. intros s1 s2 s3 [P1 F1 Q1] [P2 F2 Q2]. split; [auto|auto|].
  intros p (p1 & Hp & <- & <-)%Q1. by apply Q2.
Qed.

(** The provider is the one [NewProvider] makes of the prepared configuration. *)
Record built (c : ProviderConfig) (p : delegationProvider) : Prop := {
  bl_configured : configured (os_platform env) c p;
  bl_host : r_configured (dp_host p) = DelegationProxyBin c ∧ r_capability (dp_host p) = proxy_capability;
  bl_root : DelegationBrokerRoot (dp_config p) = DelegationBrokerRoot c;
}.
Definition coherent s : Prop := ∀ p, ns_provider s = Some (Ok p) → ∃ c, ns_prepared s = Some (Ok c) ∧ built c p.

Lemma configuration_spec s r s' :
  configuration t config s = (r, s') → kept s s' ∧ ns_prepared s' = Some r ∧ ns_provider s' = ns_provider s.
Proof.
  unfold configuration. destruct (ns_prepared s) as [r0|] eqn:Hp; intros [= <- <-]; [done|].
  split_and!; [|done|done]. split; [congruence|done|]. intros p ?. by exists p.
Qed.

Lemma NewProvider_built c h p h' : NewProvider (os_platform env) c h = (Ok p, h') → built c p.
Proof.
  intros (Hc & host & -> & Hcases)%NewProvider_ok. pose proof (cp_config _ _ _ Hc) as Hconfig. split; [done| |].
  - destruct Hcases as [(_ & _ & -> & _)|(binary & _ & Hr & _)]; [done|]. by apply Resolver_Resolve_settings in Hr.
  - destruct Hcases as [(_ & _ & _ & ->)|(binary & _ & _ & ->)]; by rewrite Hconfig.
Qed.

Lemma backend_spec s r s' :
  backend t env config s = (r, s') → coherent s → kept s s' ∧ coherent s' ∧ ns_provider s' = Some r.
Proof.
  unfold backend. destruct (ns_provider s) as [r0|] eqn:Hp; [by intros [= <- <-]|].
  destruct (configuration t config s) as [[c|e] s1] eqn:Hc; apply configuration_spec in Hc as (Hk & Hprep & Hprov).
  - destruct (NewProvider _ c (ns_host s1)) as [r1 h] eqn:Hn. intros [= <- <-] Hco. split_and!; [|intros p|done].
    + split; [apply Hk|congruence|congruence].
    + intros [= ->]. exists c. split; [done|]. by eapply NewProvider_built.
  - intros [= <- <-] Hco. split_and!; [|done|done]. split; [apply Hk|congruence|congruence].
Qed.

(** *** The preflight *)

(** An operation that leaves what is fixed alone. *)
Definition frame {A} (m : stM state A) : Prop :=
  ∀ s r s', m s = (r, s') → ns_prepared s' = ns_prepared s ∧ ns_provider s' = ns_provider s.
Lemma probing_frame {A} (m : stM (Sandbox.world * H) A) : frame (probing m).
Proof. intros s r s'. unfold probing. destruct (m _). by intros [= _ <-]. Qed.
Lemma hosting_frame {A} (m : stM (hstate HW) A) : frame (hosting m).
Proof. intros s r s'. unfold hosting. destruct (m _). by intros [= _ <-]. Qed.
Lemma brokering_frame {A} (m : stM resources A) : frame (brokering m).
Proof. intros s r s'. unfold brokering. destruct (m _). by intros [= _ <-]. Qed.
Lemma explained_frame {A} prefix (m : stM state A) : frame m → frame (explained prefix m).
Proof. intros Hm s r s'. unfold explained. destruct (m s) as [[a|e] s1] eqn:E; intros [= _ <-]; by eapply Hm. Qed.
Lemma check_proxy_frame c : frame (check_proxy c).
Proof.
  intros s r s'. unfold check_proxy. case_bool_decide; [|by intros [= _ <-]]. unfold mbind, stM_bind.
  destruct (explained _ _ s) as [[b|e] s1] eqn:E; intros [= _ <-]; by eapply explained_frame, E; apply hosting_frame.
Qed.
Lemma frame_kept s s' : ns_prepared s' = ns_prepared s → ns_provider s' = ns_provider s → kept s s' ∧ (coherent s → coherent s').
Proof.
  intros Hp Hq. split; [split; rewrite ?Hp, ?Hq; eauto|]. intros Hc p. rewrite Hp, Hq. apply Hc.
Qed.

(** The checks of a preflight that passed. *)
Record checked (c : ProviderConfig) : Prop := {
  ck_isolation : ∃ x, (CheckSessionIsolation t env close c x).1 = Ok tt;
  ck_cli : ∃ h v, (CheckProviderCLI (te_username t) (te_environ t) c h).1 = Ok v;
  ck_proxy : DelegationTargets c = [] → ∃ h b, (AgentHost.Resolve (DelegationProxyBin c) proxy_capability h).1 = Ok b;
  ck_broker : ∃ files, (CheckBrokerRoot (DelegationBrokerRoot c) files).1 = Ok tt;
}.

Lemma explained_ok {S A} prefix (m : stM S A) x a x' : explained prefix m x = (Ok a, x') → m x = (Ok a, x').
Proof. unfold explained. by destruct (m x) as [[b|e] x1]. Qed.

Lemma check_proxy_ok c s s' :
  check_proxy c s = (Ok tt, s') → DelegationTargets c = [] → ∃ h b, (AgentHost.Resolve (DelegationProxyBin c) proxy_capability h).1 = Ok b.
Proof.
  unfold check_proxy. intros Hcheck Ht. rewrite bool_decide_true in Hcheck by done. unfold mbind, stM_bind in Hcheck.
  destruct (explained _ _ s) as [[b|e] s1] eqn:E; [|done]. apply explained_ok in E. unfold hosting in E.
  destruct (AgentHost.Resolve _ _ (ns_host s)) as [r h] eqn:Hr. injection E as -> _. exists (ns_host s), b. by rewrite Hr.
Qed.

(** Running an operation before the rest of the preflight. *)
Lemma frame_bind {A B} (m : stM state A) (k : A → stM state B) s r s' :
  frame m → (m ≫= k) s = (r, s') → coherent s →
  ∃ s1, kept s s1 ∧ coherent s1 ∧
    ((∃ e, m s = (Err e, s1) ∧ r = Err e ∧ s' = s1) ∨ ∃ a, m s = (Ok a, s1) ∧ k a s1 = (r, s')).
Proof.
  unfold mbind, stM_bind. intros Hm Hrun Hc. destruct (m s) as [[a|e] s1] eqn:E; destruct (Hm _ _ _ E) as [Hp Hq];
    destruct (frame_kept s s1 Hp Hq) as [Hk Hc1]; exists s1; (split; [done|split; [auto|]]).
  - right. eauto.
  - injection Hrun as <- <-. left. eauto.
Qed.

Lemma preflight_spec s r s' :
  NativeAdapter_Preflight t env close config s = (r, s') → coherent s →
  kept s s' ∧ coherent s' ∧
  (r = Ok tt → ∃ c p, ns_prepared s' = Some (Ok c) ∧ ns_provider s' = Some (Ok p) ∧ checked c).
Proof.
  unfold NativeAdapter_Preflight. unfold mbind at 1, stM_bind at 1. intros Hrun Hco.
  destruct (configuration t config s) as [[c|e] s1] eqn:Hc; apply configuration_spec in Hc as (Hk1 & Hp1 & Hq1).
  2: { injection Hrun as <- <-. split; [done|]. split; [|done]. intros p. rewrite Hq1. intros (c & Hc & Hb)%Hco. exists c.
       split; [by apply Hk1|done]. }
  assert (coherent s1) as Hco1.
  { intros p. rewrite Hq1. intros (c' & Hc & Hb)%Hco. exists c'. split; [by apply Hk1|done]. }
  apply frame_bind in Hrun as (s2 & Hk2 & Hco2 & [(e & _ & -> & ->)|([] & Hiso & Hrun)]); [split_and!; [by trans s1|done|done]| |apply probing_frame|done].
  apply frame_bind in Hrun as (s3 & Hk3 & Hco3 & [(e & _ & -> & ->)|(v & Hcli & Hrun)]); [split_and!; [by do 2 etrans|done|done]| |apply probing_frame|done].
  apply frame_bind in Hrun as (s4 & Hk4 & Hco4 & [(e & _ & -> & ->)|([] & Hproxy & Hrun)]); [split_and!; [by do 3 etrans|done|done]| |apply check_proxy_frame|done].
  apply frame_bind in Hrun as (s5 & Hk5 & Hco5 & [(e & _ & -> & ->)|([] & Hbroker & Hrun)]);
    [split_and!; [by do 4 etrans|done|done]| |apply explained_frame, brokering_frame|done].
  assert (kept s1 s5) as Hk by (by do 3 etrans).
  unfold mbind, stM_bind in Hrun. destruct (backend t env config s5) as [r6 s6] eqn:Hb. apply backend_spec in Hb as (Hk6 & Hco6 & Hq6); [|done].
  assert (s' = s6) as -> by (destruct r6; by injection Hrun). split; [by do 2 etrans|]. split; [done|]. intros ->.
  destruct r6 as [p|e]; [|done]. exists c, p. split; [by apply Hk6, Hk|]. split; [done|]. split.
  - unfold probing in Hiso. destruct (CheckSessionIsolation _ _ _ _ _) as [x h] eqn:E. injection Hiso as -> _. eexists. by rewrite E.
  - unfold probing, on_probe in Hcli. destruct (CheckProviderCLI _ _ _ _) as [x h] eqn:E. injection Hcli as -> _. eexists _, v. by rewrite E.
  - by eapply check_proxy_ok.
  - apply explained_ok in Hbroker. unfold brokering in Hbroker. destruct (CheckBrokerRoot _ _) as [x h] eqn:E. injection Hbroker as -> _.
    eexists. by rewrite E.
Qed.

(** *** Runs *)

(** A run went through the delegation wrapper of the provider. *)
Definition ran (c : ProviderConfig) (p : delegationProvider) (input : json) (run : NodeRun) (w : attempt W)
    (x : result AdapterResult * attempt W) : Prop :=
  ∃ resolver host files, r_configured resolver = DelegationProxyBin c ∧ r_capability resolver = proxy_capability ∧
    let r := native_run input run in
    let o := delegationProvider_Run (PV := inner (dp_provider p) r) (DelegationTargets c) (DelegationBrokerRoot c) (delegation_of r)
      {| ds_attempt := w; ds_resolver := resolver; ds_host := host; ds_files := files; ds_broker := None |} in
    x = (adapter_outcome_of o.1, ds_attempt o.2).

Lemma run_spec input run w s x s' :
  NativeAdapter_Run t env inner config input run w s = (x, s') → coherent s →
  kept s s' ∧ coherent s' ∧
  (∀ c p, ns_prepared s = Some (Ok c) → ns_provider s = Some (Ok p) → ran c p input run w x).
Proof.
  unfold NativeAdapter_Run. intros Hrun Hco. destruct (backend t env config s) as [r s1] eqn:Hb.
  assert (Hsame := Hb). apply backend_spec in Hb as (Hk & Hco1 & Hq); [|done]. destruct r as [p|e].
  2: { injection Hrun as <- <-. split_and!; [done|done|]. intros c p _ Hp. unfold backend in Hsame. rewrite Hp in Hsame. done. }
  destruct (Hco1 p Hq) as (c & Hc & Hbuilt).
  destruct (delegationProvider_Run _ _ _ _) as [o d] eqn:Hd. injection Hrun as <- <-.
  pose proof (delegation_resolver _ _ _ _ _ _ _ Hd) as [Hr1 Hr2]. cbn [ds_resolver] in Hr1, Hr2. destruct Hbuilt as [Hconf [Hh1 Hh2] Hroot].
  split_and!.
  - trans s1; [done|]. split; [done|congruence|]. intros p'. rewrite Hq. intros [= ->]. eexists. split; [done|]. done.
  - intros p' [= <-]. exists c. split; [done|]. split; [|cbn; split; congruence|done]. by destruct Hconf; split.
  - intros c' p' Hc' Hp'. unfold backend in Hsame. rewrite Hp' in Hsame. injection Hsame as -> <-.
    assert (c' = c) as -> by congruence. exists (dp_host p), (ns_host s), (ns_files s). split; [done|]. split; [done|].
    cbn zeta. destruct (cp_targets _ _ _ Hconf) as [Ht _]. by rewrite <- Ht, <- Hroot, Hd.
Qed.

Lemma step_kept s s' : step s s' → coherent s → kept s s' ∧ coherent s'.
Proof.
  intros Hs Hco. destruct Hs as [s r s' Hr|input run w s r s' Hr|s secrets host probe files].
  - apply preflight_spec in Hr as (? & ? & _); auto.
  - apply run_spec in Hr as (? & ? & _); auto.
  - edestruct (frame_kept s) as [? Hc]; [..|split; [done|by apply Hc]]; done.
Qed.
Lemma steps_kept s s' : rtc step s s' → coherent s → kept s s' ∧ coherent s'.
Proof.
  induction 1 as [s|s s1 s2 Hs _ IH]; [by intros|]. intros Hco. destruct (step_kept _ _ Hs Hco) as [Hk Hc]. destruct (IH Hc) as [Hk2 Hc2].
  split; [by trans s1|done].
Qed.

(** C37: After one preflight that passed every run of the adapter, whatever happened
    between, is a run of the client that was checked: with the configuration the
    preflight read, whose isolation, command line, proxy host and broker directory it
    had verified, through one provider built from it. *)
Theorem preflight_covers_runs s0 s1 s2 s3 input run w x s4 :
  fresh s0 → rtc step s0 s1 → NativeAdapter_Preflight t env close config s1 = (Ok tt, s2) → rtc step s2 s3 →
  NativeAdapter_Run t env inner config input run w s3 = (x, s4) →
  ∃ c p, ns_prepared s2 = Some (Ok c) ∧ ns_provider s2 = Some (Ok p) ∧ checked c ∧ configured (os_platform env) c p ∧
    ran c p input run w x.
Proof.
  intros [_ Hf] H01 Hp H23 Hr. assert (coherent s0) as Hco0 by (intros p; congruence).
  apply steps_kept in H01 as [_ Hco1]; [|done]. apply preflight_spec in Hp as (_ & Hco2 & Hok); [|done].
  destruct (Hok eq_refl) as (c & p & Hc & Hq & Hck). apply steps_kept in H23 as [Hk Hco3]; [|done].
  apply run_spec in Hr as (_ & _ & Hran); [|done]. exists c, p. split; [done|]. split; [done|]. split; [done|].
  destruct (Hco2 p Hq) as (c' & Hc' & Hb). assert (c' = c) as -> by congruence. split; [apply Hb|].
  destruct (kp_provider _ _ Hk p Hq) as (p' & Hp' & Heq & _). specialize (Hran c p' (kp_prepared _ _ Hk _ Hc) Hp').
  unfold ran in *. by rewrite Heq in Hran.
Qed.
End lifetime.

(** ** The mock of the Codex adapter (adapter_codex.go) *)
Section codex.
Context `{F64 : !Float64, SD : !SDK, UL : !UnicodeLower, UP : !UnicodePrint, RO : !RangeOrder string delegationRequest, RI : !RangeOrder string inode}.
Context {W HW H : Type} `{NA : !NodeAttempt W, HO : !HostOS HW, SO : !StartOS, PO : !ProbeOS H}.
Context (t : tool_env) (env : os_env) (close : option go_error * option go_error * option go_error).
Context (inner : client → HandlerRun → Delegation.Provider (W:=W)) (a : Config.CodexAdapter).
Notation state := (native_state HW H).

Definition mocked : bool := negb (bool_decide (Config.xa_MockResponse a = "")).
Definition text_payload (text : string) : json := go_obj [("text", JStr text)].

(** [CodexAdapter.Preflight] *)
Definition CodexAdapter_Preflight : stM state unit :=
  if mocked then mret tt else NativeAdapter_Preflight t env close (Config.native a).

(** [CodexAdapter.RuntimeFeatures] *)
Definition CodexAdapter_RuntimeFeatures (delegatedRunRead : string) : list string :=
  if mocked then [] else NativeAdapter_RuntimeFeatures (Config.native a) delegatedRunRead.

Definition mock_result : AdapterResult :=
  {| ar_Status := "success";
     ar_Output := go_obj [("handled_by", JStr "codex"); ("mocked", JBool true); ("summary", JStr (Config.xa_MockResponse a))];
     ar_Events := [{| re_EventType := "run.message.delta"; re_Payload := text_payload (Config.xa_MockResponse a) |}];
     ar_Error := None |}.
(** [run.Emit] when it is set. *)
Definition plain_emit (eventType : string) (payload : json) (w : attempt W) : attempt W :=
  match nd_Emit with
  | Some f => {| at_host := f eventType payload (at_host w); at_events := at_events w |}
  | None => w
  end.

(** [CodexAdapter.Run] *)
Definition CodexAdapter_Run (input : json) (run : NodeRun) (w : attempt W) (s : state) : (result AdapterResult * attempt W) * state :=
  if mocked then ((Ok mock_result, plain_emit "run.message.delta" (text_payload "Codex is processing the task.") w), s)
  else NativeAdapter_Run t env inner (Config.native a) input run w s.
End codex.

(** ** A concrete adapter *)
Module NativeExample.
Import BrokerProps.BrokerWitness.
#[local] Existing Instances f64 sdk HostExample.host IsolationExamples.lower.
#[local] Instance printable : UnicodePrint := λ _, true.
(** Every call succeeds; the machine has a tested Codex. *)
#[export] Instance node : NodeAttempt (Z * RunStatus) := {|
  nd_emitChecked := Some (λ _ _ w, (None, w)); nd_Emit := None;
  nd_CallAgent := λ _ _ _ _ w, (Ok (Some (JStr child)), w);
  nd_ReadDelegatedRun := λ _ _ w, (Ok (Some w.2), w);
  nd_now := fst; nd_parent_err := λ _, None; nd_wait := λ d w, (None, (w.1 + d, w.2));
|}.
Definition line (l : string) : ProviderOutput.bytes := String.list_ascii_of_string l.
#[export] Instance machine : ProbeOS nat := {|
  po_LookPath := Ok; po_Supported := true;
  po_run := λ c n, ({| p_stdout := [line (if bool_decide (CodexLaunch.cmd_Args c = ["--version"]) then "codex-cli 0.160.1"
                                          else Join codex_words " ")]; p_stderr := []; p_err := None |}, S n);
|}.
Definition off : Sandbox.Config :=
  {| Mode := ""; Root := ""; Namespace := ""; RuntimeBin := ""; TempRoot := ""; ReadPaths := []; AllowedDomains := [] |}.
Definition config : ProviderConfig :=
  {| boundMCPTools := []; boundMCPDigest := ""; SessionIsolation := off; HostAuthConcurrency := "";
     sandbox := None; toolPolicy := None; DelegationTargets := []; DelegationProxyBin := ""; DelegationBrokerRoot := "";
     DelegationSocket := ""; ProviderConfig.Version := ""; Provider := "codex"; Bin := ""; Workspace := "/srv/agent"; Model := "";
     ProviderConfig.Sandbox := ""; Permission := ""; AllowedTools := []; Timeout := 0; SessionReuse := true;
     SessionStorePath := "/c/codex.json"; WebSearch := false; CodexApproval := ""; CodexBaseURL := ""; ClaudeBaseURL := "";
     Env := None; EnvAllowlist := []; ExecutionProfile := "" |}.
Definition done_provider (p : client) (r : HandlerRun) : Delegation.Provider (W:=Z * RunStatus) := DelegationExample.provider.
Definition start : native_state nat nat :=
  {| ns_prepared := None; ns_provider := None; ns_secrets := EnvWitness.secret_file; ns_host := {| hs_host := 1%nat; hs_probes := [] |};
     ns_probe := (IsolationExamples.start, 0%nat); ns_files := none |}.
Definition close : option go_error * option go_error * option go_error := (None, None, None).
#[local] Existing Instance DelegationExample.files.
Definition ready : result unit * native_state nat nat :=
  NativeAdapter_Preflight IsolationExamples.tools IsolationExamples.os close config start.
Definition idle : attempt (Z * RunStatus) := {| at_host := (0, RuntimeRunSuccess); at_events := [] |}.
Definition run : NodeRun :=
  {| nr_context := {| ac_MCPSnapshot := JNull; ac_PackageSnapshot := JNull; ac_RunID := probe_id; ac_AgentID := agent; ac_Input := JNull;
       ac_Metadata := []; ac_Source := "agent_runtime"; ac_A2A := None; ac_Conversation := None; ac_CanReadDelegated := true;
       ac_Helper := None |}; nr_AttemptDeadlineAt := 0; nr_RunDeadlineAt := 0; nr_Authority := None; nr_CallAgent := true |}.
Definition ran_once : (result AdapterResult * attempt (Z * RunStatus)) * native_state nat nat :=
  NativeAdapter_Run IsolationExamples.tools IsolationExamples.os done_provider config (JStr "hi") run idle ready.2.

Example ready_and_done : ready.1 = Ok tt ∧ ran_once.1.1 = Ok (adapter_result DelegationExample.done_result.1).
Proof. vm_compute. done. Qed.

Lemma preflight_covers_runs_witness :
  ready.1 = Ok tt ∧ ∃ c p, ns_prepared ready.2 = Some (Ok c) ∧ ns_provider ready.2 = Some (Ok p) ∧ CodexApproval c = "" ∧
    ran done_provider c p (JStr "hi") run idle ran_once.1.
Proof.
  destruct ready as [r s2] eqn:Hready. assert (r = Ok tt) as -> by (change r with (r, s2).1; rewrite <- Hready; vm_compute; reflexivity).
  split; [reflexivity|].
  destruct (preflight_covers_runs IsolationExamples.tools IsolationExamples.os close done_provider config start start s2 s2 (JStr "hi") run idle
    ran_once.1 ran_once.2 (conj eq_refl eq_refl) (rtc_refl _ _) Hready (rtc_refl _ _)) as (c & p & Hc & Hp & _ & _ & Hran).
  - unfold ran_once. rewrite Hready. destruct (NativeAdapter_Run _ _ _ _ _ _ _ _) as [x s4]. reflexivity.
  - exists c, p. split; [exact Hc|]. split; [exact Hp|]. split; [|exact Hran].
    assert (ns_prepared s2 = Some (Ok config)) as H by (change s2 with (@Ok unit tt, s2).2; rewrite <- Hready; vm_compute; reflexivity).
    rewrite Hc in H. injection H as ->. reflexivity.
Defined.
End NativeExample.
