(* ===== verification/RemoteAdapters.v ===== *)
(** * The HTTP and A2A adapters

    internal/agentnode/envelope.go, adapter_http.go, adapter_a2a.go and
    [readJSONResponse] of util.go: the envelope an external program gets, the request
    and the answer of an HTTP endpoint, and the call of an A2A agent through the SDK. *)

From S2P Require Import Prelude GoStrings Json JsonRoundtrip GoNet SessionStore HelperServer Config NodeHandler.
From stdpp Require Import sorting options.

Open Scope Z_scope.

(** ** The envelope *)

Definition member_of (name : string) (v : option json) : list (string * json) := match v with Some v => [(name, v)] | None => [] end.
(** The struct tags of [ConversationMessage]. *)
Definition payload_json (p : option (list (string * json))) : option json :=
  match p with Some (kv :: kvs) => Some (go_obj (kv :: kvs)) | _ => None end.
Definition message_json (m : ConversationMessage) : json :=
  JObj ([("run_id", JStr (cm_RunID m))] ++ member_of "event_sequence" ((λ n, JNum (Itoa n)) <$> cm_EventSequence m) ++
        [("role", JStr (cm_Role m)); ("content", JStr (cm_Content m))] ++ member_of "payload" (payload_json (cm_Payload m)) ++
        omit_string "created_at" (cm_CreatedAt m)).
(** The struct tags of [ConversationContext]. *)
Definition conversation_json (c : ConversationContext) : json :=
  JObj ([("id", JStr (cv_ID c)); ("session_key", JStr (cv_SessionKey c))] ++
        omit_string "protocol_context_id" (cv_ProtocolContextID c) ++ omit_string "root_context_id" (cv_RootContextID c) ++
        [("current_run_id", JStr (cv_CurrentRunID c))] ++ omit_string "current_protocol_task_id" (cv_CurrentProtocolTask c) ++
        (match cv_History c with [] => [] | l => [("history_before_current", JArr (map message_json l))] end) ++
        [("truncated", JBool (cv_Truncated c)); ("source", JStr (cv_Source c))]).
(** The struct tags of [HelperInfo]. *)
Definition helper_json (h : HelperInfo) : json :=
  JObj [("base_url", JStr (BaseURL h)); ("token", JStr (Token h));
        ("headers", go_obj (map (λ kv, (kv.1, JStr kv.2)) (map_to_list (Headers h))));
        ("endpoints", JObj [("call_agent", JStr (e_CallAgent h)); ("events", JStr (e_Events h))])].

(** A [JSONMap]; nil is [null]. *)
Definition map_json (m : option (list (string * json))) : json := match m with Some kvs => JObj kvs | None => JNull end.

(** [buildAdapterEnvelope] and its struct tags *)
Definition envelope_json (input : json) (x : AdapterContext) : json :=
  JObj ([("input", input); ("run_id", JStr (ac_RunID x)); ("metadata", JObj (ac_Metadata x)); ("a2a", map_json (ac_A2A x))] ++
        member_of "conversation" (conversation_json <$> ac_Conversation x) ++
        member_of "agent_node" ((λ h, JObj [("helper", helper_json h)]) <$> ac_Helper x)).
Definition envelope_body (input : json) (x : AdapterContext) : string := marshal (envelope_json input x).

Definition default_timeout : Z := 15 * 60 * 10 ^ 9.
Definition timeout_or_default (timeout : Z) : Z := if timeout <=? 0 then default_timeout else timeout.

(** ** HTTP *)

Record http_request := { hq_Method : string; hq_URL : string; hq_Header : Header; hq_Body : string; hq_Timeout : Z }.
(** A response: its status, what was read of the body and whether that is all of it. *)
Record http_response := { hp_Status : Z; hp_Body : string; hp_EOF : bool }.

(** The HTTP client: the refusal of a request, and the exchange. *)
Class HTTPClient (W : Type) := {
  hc_NewRequest : string → string → option go_error;
  hc_Do : http_request → W → result http_response * W;
}.

Section http.
Context `{F64 : !Float64} (sprint_value : json → string).

(** [Decoder.Decode]: the first value, whatever follows it; one that is neither an
    object nor an array is complete only at what follows or at the end. *)
Definition self_delimited (j : json) : bool := match j with JObj _ | JArr _ => true | _ => false end.
Definition decode_first (body : string) (eof : bool) : option json :=
  let l := runes body in
  '(v, rest) ← parse_value (S (S (length l))) 0 l;
  if self_delimited v || eof || negb (bool_decide (rest = [])) then unmarshal_any v else None.

(** [readJSONResponse]: nothing to read, an unreadable body and [null] are an empty
    [JSONMap], which is not a [map\[string\]any]. *)
Definition readJSONResponse (r : http_response) : raw_result :=
  match decode_first (hp_Body r) (hp_EOF r) with
  | None | Some JNull => RawOther (JObj [])
  | Some (JObj kvs) => RawMap kvs
  | Some v => RawOther v
  end.
Definition raw_json (r : raw_result) : json := match r with RawMap kvs => JObj kvs | RawOther v => v | _ => JNull end.
Definition raw_of (v : json) : raw_result := match v with JObj kvs => RawMap kvs | _ => RawOther v end.

(** The end of [HTTPAdapter.Run] *)
Definition http_result (r : http_response) : result raw_result :=
  let jsonBody := readJSONResponse r in
  if (hp_Status r <? 200) || (300 <=? hp_Status r)
  then Err (ENew ("HTTP adapter returned " +:+ Itoa (hp_Status r) +:+ ": " +:+ Sprint sprint_value (raw_json jsonBody)))
  else
    match jsonBody with
    | RawMap kvs => match assoc_get kvs "output" with Some output => Ok (raw_of output) | None => Ok jsonBody end
    | _ => Ok jsonBody
    end.

(** The headers: those of the adapter in the order Go's map yields them. *)
Definition http_headers (order : list (string * string)) : Header :=
  foldl (λ h kv, Header_Set kv.1 kv.2 h) (Header_Set "content-type" "application/json" ∅) order.

(** [HTTPAdapter.Run] *)
Definition HTTPAdapter_Run {W} `{HC : !HTTPClient W} (a : HTTPAdapter) (order : list (string * string)) (input : json) (x : AdapterContext) (w : W)
    : result raw_result * W :=
  if bool_decide (ha_URL a = "") then (Err (ENew "OPENLINKER_AGENT_NODE_HTTP_URL is required"), w)
  else
    match hc_NewRequest "POST" (ha_URL a) with
    | Some e => (Err e, w)
    | None =>
        match hc_Do {| hq_Method := "POST"; hq_URL := ha_URL a; hq_Header := http_headers order; hq_Body := envelope_body input x;
                       hq_Timeout := timeout_or_default (ha_Timeout a) |} w with
        | (Err e, w1) => (Err e, w1)
        | (Ok r, w1) => (http_result r, w1)
        end
    end.
End http.

(** ** A2A *)

(** What the node uses of the SDK's A2A client.  A result is decoded JSON or a task. *)
Class A2ASDK (W : Type) := {
  A2AMessage : Type; A2ATask : Type; A2ARest : Type;
  a2_decodeMessage : string → option A2AMessage;
  a2_TaskState : A2ATask → string;
  a2_TaskJSON : A2ATask → json;
  a2_DialectCurrent : string; a2_MethodMessageSend : string;
  a2_NewClient : Config.A2AAdapter → string → string → string → option go_error;
  a2_NormalizeMethod : string → string → string;
  (** [NewA2ATextMessageParamsForDialect]: the message and the other fields. *)
  a2_NewTextParams : string → string → list string → string → A2AMessage * A2ARest;
  a2_ExtractText : json + option A2ATask → string;
  a2_TaskStateRunStatus : string → string;
  a2_Call : string → json + (A2AMessage * list (string * json) * A2ARest) → Z → W → result (json + option A2ATask) * W;
}.

Section a2a.
Context `{F64 : !Float64} (sprint_value : json → string) {W : Type} `{SA : !A2ASDK W}.
Notation value := (sum json (option A2ATask)).

(** [explicitA2AAdapterParams] *)
Definition explicitA2AAdapterParams (input : json) : option json :=
  kvs ← jsonMapFromAny input;
  head (omap (λ key, JObj <$> jsonMapFromAny (obj_get (JObj kvs) key)) ["a2a_params"; "params"]).

(** [a2aMessageFromAny] on decoded JSON *)
Definition a2aMessageFromAny (v : json) : option A2AMessage :=
  match v with JObj _ => a2_decodeMessage (marshal v) | _ => None end.

(** [a2aInputText] *)
Definition input_text (kvs : list (string * json)) : option string :=
  head (omap (λ key, let v := TrimSpace (Sprint sprint_value (obj_get (JObj kvs) key)) in
                     if bool_decide (v = "") || bool_decide (v = "<nil>") then None else Some v) ["text"; "query"; "task"; "prompt"]).
Definition a2aInputText (input : json) : string :=
  match (kvs ← jsonMapFromAny input; input_text kvs) with
  | Some text => text
  | None => match input with JStr s => s | _ => marshal input end
  end.

(** [a2aMessageID] *)
Definition a2aMessageID (x : AdapterContext) : string :=
  if bool_decide (TrimSpace (ac_RunID x) = "") then "msg-openlinker-agent-node" else "msg-" +:+ ac_RunID x.

(** [a2aAdapterParams] *)
Definition a2aAdapterParams (input : json) (x : AdapterContext) (modes : list string) (dialect : string)
    : json + (A2AMessage * list (string * json) * A2ARest) :=
  match explicitA2AAdapterParams input with
  | Some params => inl params
  | None =>
      let '(message, rest) := a2_NewTextParams (a2aMessageID x) (a2aInputText input) modes dialect in
      let given := kvs ← jsonMapFromAny input; v ← assoc_get kvs "message"; a2aMessageFromAny v in
      inr (default message given, go_map [("openlinker_run_id", JStr (ac_RunID x)); ("openlinker_source", JStr (ac_Source x))], rest)
  end.

(** [a2aAdapterTaskState] on decoded JSON.  The value of the first member of the
    given name goes through [f]. *)
Section member.
Context {A : Type} (f : json → A) (key : string).
Fixpoint member_with (kvs : list (string * json)) : option A :=
  match kvs with
  | [] => None
  | (k, v) :: r => if bool_decide (k = key) then Some (f v) else member_with r
  end.
End member.
Fixpoint json_task_state (j : json) : string :=
  match j with
  | JObj kvs =>
      let nested key := default "" (member_with json_task_state key kvs) in
      if negb (bool_decide (nested "task" = "")) then nested "task"
      else if negb (bool_decide (nested "statusUpdate" = "")) then nested "statusUpdate"
      else if negb (bool_decide (nested "artifactUpdate" = "")) then nested "artifactUpdate"
      else
        match member_with json_task_state "status" kvs with
        | Some state => state
        | None => default "" (member_with (Sprint sprint_value) "state" kvs)
        end
  | _ => ""
  end.
Definition a2aAdapterTaskState (v : value) : string :=
  match v with inl j => json_task_state j | inr (Some task) => a2_TaskState task | inr None => "" end.

(** [a2aAdapterRunStatus] *)
Definition a2aAdapterRunStatus (v : value) : string * option AgentError :=
  let status := a2_TaskStateRunStatus (a2aAdapterTaskState v) in
  (status,
   if bool_decide (status = "failed")
   then Some {| ae_Code := "A2A_TASK_FAILED"; ae_Message := defaultString (a2_ExtractText v) "A2A task failed" |} else None).

Definition value_json (v : value) : json := match v with inl j => j | inr (Some task) => a2_TaskJSON task | inr None => JNull end.

(** [a2aAdapterRunEvents] *)
Definition a2aAdapterRunEvents (v : value) : list RunEvent :=
  let text := TrimSpace (a2_ExtractText v) in
  if bool_decide (text = "") then [] else [{| re_EventType := "run.message.delta"; re_Payload := go_obj [("text", JStr text)] |}].

(** The result of a call. *)
Definition a2a_result (v : value) : AdapterResult :=
  let text := TrimSpace (a2_ExtractText v) in
  let '(status, agentErr) := a2aAdapterRunStatus v in
  {| ar_Status := status;
     ar_Output := go_obj (("a2a", value_json v) :: if bool_decide (text = "") then [] else [("text", JStr text)]);
     ar_Events := a2aAdapterRunEvents v; ar_Error := agentErr |}.

(** [A2AAdapter.Run] *)
Definition A2AAdapter_Run (a : A2AAdapter) (input : json) (x : AdapterContext) (w : W) : result raw_result * W :=
  if bool_decide (TrimSpace (aa_BaseURL a) = "") then (Err (ENew "OPENLINKER_AGENT_NODE_A2A_BASE_URL is required"), w)
  else
    match a2_NewClient a (defaultString (aa_ProtocolVersion a) "1.0") (defaultString (aa_Dialect a) a2_DialectCurrent) "openlinker-agent-node/0.1.0" with
    | Some e => (Err e, w)
    | None =>
        let method := a2_NormalizeMethod (defaultString (aa_Method a) a2_MethodMessageSend) (aa_Dialect a) in
        match a2_Call method (a2aAdapterParams input x (aa_AcceptedOutputModes a) (aa_Dialect a)) (timeout_or_default (aa_Timeout a)) w with
        | (Err e, w1) => (Err e, w1)
        | (Ok v, w1) => (Ok (RawResult (a2a_result v)), w1)
        end
    end.
End a2a.

(** ** What the program on the other side reads *)
Section roundtrip.
Context `{F64 : !Float64}.















End roundtrip.

(** ** Answers *)
Section answers.
Context `{F64 : !Float64} (sprint_value : json → string).

(** An HTTP answer is a result exactly when its status is one of success; the result
    is then the member [output] of the body, or else the whole body. *)
Lemma http_result_exact r :
  ((∃ raw, http_result sprint_value r = Ok raw) ↔ 200 <= hp_Status r < 300) ∧
  (∀ raw, http_result sprint_value r = Ok raw →
     raw_json raw = match readJSONResponse r with
                    | RawMap kvs => default (JObj kvs) (assoc_get kvs "output")
                    | v => raw_json v
                    end).
Proof.
  unfold http_result. destruct (_ || _) eqn:Hs.
  - split; [split; [by intros []|]|done]. rewrite orb_true_iff, Z.ltb_lt, Z.leb_le in Hs. lia.
  - rewrite orb_false_iff, Z.ltb_ge, Z.leb_gt in Hs. split.
    + split; [done|]. intros _. destruct (readJSONResponse r) as [| |kvs|]; eauto. destruct (assoc_get kvs "output"); eauto.
    + intros raw. destruct (readJSONResponse r) as [| |kvs|]; try by intros [= <-].
      destruct (assoc_get kvs "output") as [v|]; intros [= <-]; [by destruct v|done].
Qed.

Lemma http_headers_kept order h key :
  Forall (λ kv : string * string, CanonicalKey kv.1 ≠ CanonicalKey key) order →
  Header_Get (foldl (λ h kv, Header_Set kv.1 kv.2 h) h order) key = Header_Get h key.
Proof.
  intros Ho. revert h. induction Ho as [|kv order Hkv _ IH]; intros h; [done|]. cbn [foldl]. rewrite IH.
  unfold Header_Get, Header_Values, Header_Set. by rewrite lookup_insert_ne.
Qed.
(** The body is announced as JSON unless the operator set that header. *)
Lemma http_content_type order :
  Forall (λ kv : string * string, CanonicalKey kv.1 ≠ CanonicalKey "content-type") order →
  Header_Get (http_headers order) "content-type" = "application/json".
Proof. intros Ho. unfold http_headers. rewrite http_headers_kept by done. unfold Header_Get, Header_Values, Header_Set. by rewrite lookup_insert_eq. Qed.

(** An A2A result carries an error exactly in the failed state. *)
Lemma a2a_result_error {W} `{SA : !A2ASDK W} v :
  is_Some (ar_Error (a2a_result sprint_value v)) ↔ ar_Status (a2a_result sprint_value v) = "failed".
Proof.
  unfold a2a_result, a2aAdapterRunStatus. cbn. case_bool_decide as Hs; split; [done|eauto|by intros []|done].
Qed.

(** Where [a2aAdapterTaskState] looks: a task inside one of the event members, the
    status, or the state itself. *)
Lemma json_task_state_examples :
  json_task_state sprint_value (JObj [("task", JObj [("status", JObj [("state", JStr "completed")])])]) = "completed" ∧
  json_task_state sprint_value (JObj [("status", JStr "completed"); ("state", JStr "failed")]) = "".
Proof. done. Qed.
End answers.

(** ** A concrete run *)
Module RemoteExample.
Definition f64 : Float64 := Some.
#[local] Existing Instance f64.

End RemoteExample.
