(* ===== verification/SandboxCommand.v ===== *)
(** * The whole-client sandbox

    pkg/adapters/sessionsandbox/command.go and [WritePrivateJSON] of appfiles: the
    pinned runtime, the policy that confines a client, the command that runs it, and
    the probe of both. *)

From S2P Require Import Prelude GoStrings Json JsonRoundtrip Paths PrivateFiles SessionStore Environment Sandbox ProviderConfig ToolPolicy CodexLaunch.
From stdpp Require Import sorting options.

Open Scope Z_scope.

(** [WritePrivateJSON]; every value the sources pass can be encoded. *)
Definition WritePrivateJSON (env : write_env) (path : string) (value : json) (fs : filesystem) : option go_error * filesystem :=
  WritePrivateFile env path (MarshalIndent value +:+ String "010" "") fs.

(** ** The runtime and the policy *)

Definition RuntimeVersion : string := "0.0.76".
Definition runtime_package : string := "@anthropic-ai/sandbox-runtime".

(** What the machine answers. *)
Record command_env := {
  ce_platform : platform;
  ce_look : string → result string;
  ce_eval : string → option string;
  ce_read : string → option string;
  ce_stat : string → option inode;
  ce_home : string;
  ce_ctx : option go_error;
  (** the write of the policy, and the order of the environment's map *)
  ce_write : write_env;
  ce_order : string → string → list (string * string);
}.

Section command.
Context (env : command_env).

Record manifest := { mf_Name : string; mf_Version : string }.
Definition manifest_fields : list (field manifest) :=
  [f_string "Name" (λ v m, {| mf_Name := v; mf_Version := mf_Version m |});
   f_string "Version" (λ v m, {| mf_Name := mf_Name m; mf_Version := v |})].
Definition pinned (raw : string) : bool :=
  match (j ← parse raw; decode_struct false manifest_fields {| mf_Name := ""; mf_Version := "" |} j) with
  | Some m => bool_decide (mf_Name m = runtime_package) && bool_decide (mf_Version m = RuntimeVersion)
  | None => false
  end.

(** [resolveRuntime] *)
Definition resolveRuntime (bin : string) : result string :=
  match ce_look env (if bool_decide (bin = "") then "srt" else bin) with
  | Err _ => Err (ENew ("native isolation requires installed @anthropic-ai/sandbox-runtime@" +:+ RuntimeVersion +:+ " (srt)"))
  | Ok p =>
      match ce_eval env p with
      | None => Err (ENew "cannot resolve sandbox runtime")
      | Some p =>
          match ce_read env (JoinPath [Dir p; ".."; "package.json"]) with
          | Some raw =>
              if pinned raw && bool_decide (Base p = "cli.js") then Ok p
              else Err (ENew ("native isolation requires the pinned sandbox-runtime package version " +:+ RuntimeVersion))
          | None => Err (ENew ("native isolation requires the pinned sandbox-runtime package version " +:+ RuntimeVersion))
          end
      end
  end.

(** The filter of the Linux sandbox. *)
Definition seccomp_helper (s : Session) : string :=
  let arch := if bool_decide (GOARCH (ce_platform env) = "amd64") then "x64" else GOARCH (ce_platform env) in
  Clean (JoinPath [Dir (s_runtimeBin s); ".."; "vendor"; "seccomp"; arch; "apply-seccomp"]).
Definition is_executable (i : inode) : bool := is_regular i && negb (Z.land (i_perm i) (octal 1 1 1) =? 0).
Definition helper_read (s : Session) : result (list string) :=
  if bool_decide (GOOS (ce_platform env) = "linux") then
    match ce_stat env (seccomp_helper s) with
    | Some i => if is_executable i then Ok [seccomp_helper s]
                else Err (ENew "pinned Linux seccomp helper is missing or not executable")
    | None => Err (ENew "pinned Linux seccomp helper is missing or not executable")
    end
  else Ok [].

(** Code and libraries of the operating system. *)
Definition system_paths : list string :=
  ["/bin"; "/sbin"; "/usr/bin"; "/usr/sbin"; "/usr/lib"; "/usr/libexec"; "/lib"; "/lib64"; "/etc/ssl/certs"; "/etc/ssl/openssl.cnf";
   "/etc/hosts"; "/etc/resolv.conf"; "/etc/nsswitch.conf"; "/etc/ld.so.cache"; "/etc/localtime"; "/dev/null"; "/dev/urandom"; "/dev/random"] ++
  (if bool_decide (GOOS (ce_platform env) = "darwin")
   then ["/System/Library"; "/usr/share/icu"; "/private/var/select/sh"; "/private/etc/ssl/cert.pem"]
   else ["/usr/share/nodejs"; "/usr/share/icu"]).
Definition with_resolved (p : string) : list string := p :: match ce_eval env p with Some r => [r] | None => [] end.
Definition system_read : list string := concat (map with_resolved system_paths).

Definition home : string := default (ce_home env) (ce_eval env (ce_home env)).
(** A path of the operator that exposes nothing of the sessions or of the home. *)
Definition read_ok (c : Config) (resolved : string) : bool :=
  safePath resolved && negb (contains resolved (Root c)) && negb (contains (Root c) resolved) && negb (contains resolved home) &&
  negb (negb (bool_decide (TempRoot c = "")) && (contains resolved (TempRoot c) || contains (TempRoot c) resolved)).
Fixpoint operator_read (c : Config) (paths : list string) : result (list string) :=
  match paths with
  | [] => Ok []
  | p :: rest =>
      match ce_eval env p with
      | Some resolved =>
          if read_ok c resolved then (more ← operator_read c rest; Ok (resolved :: more))
          else Err (ENew "SESSION_READ_PATHS must exist and cannot expose HOME, session/control state or their ancestors")
      | None => Err (ENew "SESSION_READ_PATHS must exist and cannot expose HOME, session/control state or their ancestors")
      end
  end.

Definition strings_json (l : list string) : json := JArr (map JStr l).
Definition domain_entry (d : string) : string := TrimSuffix d ":443" +:+ ":443".
Definition denied_addresses : list string :=
  ["0.0.0.0/8"; "127.0.0.0/8"; "169.254.0.0/16"; "::/128"; "::1/128"; "fe80::/10"; "10.0.0.0/8"; "172.16.0.0/12"; "192.168.0.0/16";
   "100.64.0.0/10"; "fc00::/7"; "224.0.0.0/4"; "255.255.255.255/32"; "ff00::/8"; "168.63.129.16/32"; "192.0.0.192/32"].
Definition policy_json (c : Config) (s : Session) (read : list string) : json :=
  go_obj
    [("filesystem", go_obj
        [("denyRead", strings_json ["/"]); ("allowRead", strings_json read); ("allowWrite", strings_json [s_data s; s_temp s]);
         ("denyWrite", strings_json ["/tmp/claude"; "/private/tmp/claude"; "/dev/tty"; "/dev/dtracehelper"; "/dev/autofs_nowait"])]);
     ("network", go_obj
        [("allowedDomains", strings_json (map domain_entry (AllowedDomains c))); ("deniedDomains", strings_json []);
         ("strictAllowlist", JBool true); ("allowLocalBinding", JBool false); ("allowAllUnixSockets", JBool false);
         ("allowUnixSockets", strings_json []); ("deniedResolvedAddresses", strings_json denied_addresses)]);
     ("enableWeakerNestedSandbox", JBool false); ("enableWeakerNetworkIsolation", JBool false); ("allowAppleEvents", JBool false)].

(** [Session.settings]; [c] is the session's configuration with its resolved roots. *)
Definition allowed_reads (c : Config) (s : Session) (bin : string) : result (list string) :=
  helper ← helper_read s;
  operator ← operator_read c (ReadPaths c);
  Ok ([s_data s; s_temp s; bin] ++ helper ++ system_read ++ operator).
Definition settings (c : Config) (s : Session) (bin : string) : result json :=
  read ← allowed_reads c s bin; Ok (policy_json c s read).

(** ** The command *)

(** [exec.LookPath] and [filepath.EvalSymlinks] of the client *)
Definition client_path (bin : string) : result string :=
  match ce_look env bin with
  | Err _ => Err (ENew "native provider executable is unavailable")
  | Ok p =>
      match ce_eval env p with
      | Some r => if safePath r then Ok r else Err (ENew "cannot resolve native provider executable")
      | None => Err (ENew "cannot resolve native provider executable")
      end
  end.
Definition command_checks (s : Session) : option go_error :=
  match ce_ctx env with
  | Some e => Some e
  | None =>
      if bool_decide (s_runtimeBin s = "")
      then Some (ENew "host-client storage requires an explicit client tool sandbox, not the legacy SRT command")
      else match s_lock s with None => Some (ENew "native session sandbox is closed") | Some _ => None end
  end.

(** [Session.Command] *)
Definition Session_Command (c : Config) (s : Session) (bin : string) (args environment : list string) : stM world Command := λ w,
  match command_checks s with
  | Some e => (Err e, w)
  | None =>
      match (p ← client_path bin; policy ← settings c s p; Ok (p, policy)) with
      | Err e => (Err e, w)
      | Ok (p, policy) =>
          match WritePrivateJSON (ce_write env) (s_policy s) policy (w_fs w) with
          | (Some _, fs) => (Err (ENew "cannot write native sandbox policy"), set_fs (λ _, fs) w)
          | (None, fs) =>
              (match ce_look env "node" with
               | Err _ => Err (ENew "native sandbox runtime requires Node.js 20.11 or newer")
               | Ok node =>
                   Ok {| cmd_Path := node;
                         cmd_Args := [JoinPath [s_control s; "runner.mjs"]; s_runtimeBin s; s_policy s; p] ++ args;
                         cmd_Dir := Session_Workspace s; cmd_Env := Session_Environment (ce_order env (s_data s) (s_temp s)) environment |}
               end, set_fs (λ _, fs) w)
          end
      end
  end.

(** ** The probe *)

(** The configuration a session keeps: its roots are the resolved ones. *)
Definition session_config (os : os_env) (c : Config) : Config :=
  let resolved p := default p (os_eval os (Clean p)) in
  {| Mode := Mode c; Root := resolved (Root c); Namespace := Namespace c; RuntimeBin := RuntimeBin c;
     TempRoot := if bool_decide (TempRoot c = "") then "" else resolved (TempRoot c);
     ReadPaths := ReadPaths c; AllowedDomains := AllowedDomains c |}.

Definition probe_script : string :=
  "if cat " +:+ quoted "$1" +:+ " >/dev/null 2>&1; then exit 91; fi; echo verified > " +:+ quoted "$2" +:+
  "; test " +:+ quoted ("$(cat " +:+ quoted "$2" +:+ ")") +:+ " = verified".
Definition probe_arguments (s : Session) : list string :=
  ["-c"; probe_script; "probe"; s_policy s; JoinPath [Session_Workspace s; "probe"]].

(** [Probe]; [run] is the outcome of the command, [path] the node's PATH. *)
Definition Probe `{!UnicodeLower, !RangeOrder string inode} (os : os_env) (close : option go_error * option go_error * option go_error) (path : string)
    (run : Command → world → option go_error * world) (c : Config) : stM world unit := λ w,
  match Open os c (Scope ["startup-probe"]) w with
  | (Err e, w1) => (Err e, w1)
  | (Ok s, w1) =>
      let '(r, w2) := Session_Command (session_config os c) s "/bin/sh" (probe_arguments s) ["PATH=" +:+ path] w1 in
      let '(r', w3) := match r with
                       | Err e => (Err e, w2)
                       | Ok command =>
                           match run command w2 with
                           | (Some _, w3) => (Err (ENew "native sandbox enforcement probe failed; check runtime/OS dependencies and kernel sandbox support (no fallback)"), w3)
                           | (None, w3) => (Ok tt, w3)
                           end
                       end in
      (r', (Sandbox.Close close.1.1 close.1.2 close.2 s w3).2)
  end.
End command.

(** ** What a confined client can reach *)

Section confined.
Context (env : command_env).

Lemma operator_read_ok c paths l :
  operator_read env c paths = Ok l → ∀ r, r ∈ l → ∃ q, q ∈ paths ∧ ce_eval env q = Some r ∧ read_ok env c r = true.
Proof.
  revert l. induction paths as [|q paths IH]; intros l; cbn [operator_read]; [intros [= <-] r Hr; by apply not_elem_of_nil in Hr|].
  destruct (ce_eval env q) as [resolved|] eqn:He; [|done]. destruct (read_ok env c resolved) eqn:Hok; [|done].
  destruct (operator_read env c paths) as [more|e] eqn:Hm; [|done]. cbn. intros [= <-] r [->|Hr]%elem_of_cons.
  - exists q. split; [by left|done].
  - destruct (IH more eq_refl r Hr) as (q' & Hin & H). exists q'. split; [by right|done].
Qed.

(** What no path of the operating system may be or contain. *)
Definition wholesale : list string :=
  ["/"; "/etc"; "/home"; "/root"; "/Users"; "/opt"; "/usr/local"; "/Library"; "/var"; "/srv"; "/tmp"; "/proc"; "/mnt"; "/run"].
Definition code_only (p : string) : Prop := ∀ q, q ∈ wholesale → contains p q = false.
Lemma system_code_only p : p ∈ system_paths env → code_only p.
Proof.
  intros Hp q Hq. assert (Forall (λ p, Forall (λ q, contains p q = false) wholesale) (system_paths env)) as H.
  { unfold system_paths. case_bool_decide; refine (bool_decide_unpack _ _); by vm_compute. }
  rewrite list.Forall_forall in H. specialize (H p Hp). rewrite list.Forall_forall in H. by apply H.
Qed.

(** The paths a client may read. *)
Inductive readable (c : Config) (s : Session) (bin : string) (r : string) : Prop :=
  | read_session : r = s_data s ∨ r = s_temp s → readable c s bin r
  | read_client : r = bin → readable c s bin r
  | read_helper i : GOOS (ce_platform env) = "linux" → r = seccomp_helper env s → ce_stat env r = Some i → is_executable i = true → readable c s bin r
  | read_system p : p ∈ system_paths env → code_only p → r = p ∨ ce_eval env p = Some r → readable c s bin r
  | read_operator q : q ∈ ReadPaths c → ce_eval env q = Some r → safePath r = true → contains r (home env) = false →
      contains r (Root c) = false → contains (Root c) r = false →
      (TempRoot c ≠ "" → contains r (TempRoot c) = false ∧ contains (TempRoot c) r = false) → readable c s bin r.

Lemma allowed_reads_ok c s bin l : allowed_reads env c s bin = Ok l → ∀ r, r ∈ l → readable c s bin r.
Proof.
  unfold allowed_reads. destruct (helper_read env s) as [helper|e] eqn:Hh; [|done]. cbn [mbind result_bind].
  destruct (operator_read env c (ReadPaths c)) as [operator|e] eqn:Ho; [|done]. cbn [mbind result_bind]. intros <-%Ok_inj r.
  rewrite !elem_of_app. intros [H|[H|[H|H]]].
  - rewrite !elem_of_cons, elem_of_nil in H. destruct H as [H|[H|[H|[]]]]; [apply read_session; by left|apply read_session; by right|by apply read_client].
  - unfold helper_read in Hh. case_bool_decide as Hl; [|injection Hh as <-; by apply not_elem_of_nil in H].
    destruct (ce_stat env _) as [i|] eqn:Hs; [|done]. destruct (is_executable i) eqn:Hx; [|done]. injection Hh as <-.
    apply list_elem_of_singleton in H as ->. by eapply read_helper.
  - unfold system_read in H. apply list_elem_of_In, in_concat in H as (l & Hl & Hr). apply in_map_iff in Hl as (p & <- & Hp).
    apply list_elem_of_In in Hp, Hr. apply (read_system _ _ _ _ p); [done|by apply system_code_only|]. unfold with_resolved in Hr. apply elem_of_cons in Hr as [->|Hr]; [by left|].
    right. destruct (ce_eval env p); [by apply list_elem_of_singleton in Hr as ->|by apply not_elem_of_nil in Hr].
  - destruct (operator_read_ok _ _ _ Ho r H) as (q & Hq & He & Hok). unfold read_ok in Hok.
    rewrite !andb_true_iff, !negb_true_iff, andb_false_iff, negb_false_iff, bool_decide_eq_true, orb_false_iff in Hok.
    destruct Hok as [[[[? ?] ?] ?] Htemp]. eapply read_operator; try done. intros Hne. by destruct Htemp.
Qed.
End confined.

(** *** The policy file *)

Lemma private_json_parse j : encodable j → nesting j <= max_nesting → parse (MarshalIndent j +:+ String "010" "") = Some j.
Proof.
  intros He Hn. destruct (marshal_indent_lays_out j He 0) as (l & Hr & Ht). unfold parse, MarshalIndent. rewrite Ht.
  change (runes (String "010" "")) with [10]. destruct layout_parse as [Hp _].
  specialize (Hp j l Hr (S (S (length (l ++ [10])))) 0 [] [10]). cbn [app] in Hp. rewrite Hp; [done|apply blank_nil| |done|done].
  rewrite length_app. lia.
Qed.

Lemma strings_fit l : Forall (λ x, ValidString x = true) l → encodable (strings_json l) ∧ nesting (strings_json l) <= 1.
Proof.
  intros Hl. split.
  - constructor. apply list.Forall_fmap. apply (list.Forall_impl _ _ _ Hl). intros x Hx. by constructor.
  - cbn [strings_json nesting]. assert (foldr Z.max 0 (map nesting (map JStr l)) <= 0); [|lia].
    clear Hl. induction l as [|x l IH]; cbn [map foldr nesting]; lia.
Qed.
Lemma valid_literals l : forallb ValidString l = true → Forall (λ x, ValidString x = true) l.
Proof. intros Hl. apply list.Forall_forall. intros x Hx. rewrite forallb_forall in Hl. apply Hl. by apply list_elem_of_In. Qed.

Lemma policy_fits c s read :
  Forall (λ x, ValidString x = true) read → ValidString (s_data s) = true → ValidString (s_temp s) = true →
  Forall (λ d, ValidString (domain_entry d) = true) (AllowedDomains c) →
  encodable (policy_json c s read) ∧ nesting (policy_json c s read) <= 3.
Proof.
  intros Hread Hdata Htemp Hdomains.
  destruct (strings_fit read Hread) as [E1 N1].
  destruct (strings_fit [s_data s; s_temp s]) as [E2 N2]; [by repeat constructor|].
  destruct (strings_fit (map domain_entry (AllowedDomains c))) as [E3 N3]; [by apply list.Forall_fmap|].
  destruct (strings_fit denied_addresses) as [E4 N4]; [by apply valid_literals|].
  destruct (strings_fit ["/"]) as [E5 N5]; [by apply valid_literals|].
  destruct (strings_fit ["/tmp/claude"; "/private/tmp/claude"; "/dev/tty"; "/dev/dtracehelper"; "/dev/autofs_nowait"]) as [E6 N6]; [by apply valid_literals|].
  destruct (strings_fit []) as [E7 N7]; [constructor|].
  assert (policy_json c s read = JObj
    [("allowAppleEvents", JBool false); ("enableWeakerNestedSandbox", JBool false); ("enableWeakerNetworkIsolation", JBool false);
     ("filesystem", JObj [("allowRead", strings_json read); ("allowWrite", strings_json [s_data s; s_temp s]); ("denyRead", strings_json ["/"]);
        ("denyWrite", strings_json ["/tmp/claude"; "/private/tmp/claude"; "/dev/tty"; "/dev/dtracehelper"; "/dev/autofs_nowait"])]);
     ("network", JObj [("allowAllUnixSockets", JBool false); ("allowLocalBinding", JBool false); ("allowUnixSockets", strings_json []);
        ("allowedDomains", strings_json (map domain_entry (AllowedDomains c))); ("deniedDomains", strings_json []);
        ("deniedResolvedAddresses", strings_json denied_addresses); ("strictAllowlist", JBool true)])]) as -> by reflexivity.
  split.
  - repeat first [apply En_obj|apply Forall_cons|apply Forall_nil|split|apply En_bool|assumption|reflexivity].
  - cbn [nesting map foldr snd]. lia.
Qed.

(** *** What the policy says *)

Definition policy_at (policy : json) (part name : string) : json := obj_get (obj_get policy part) name.
Definition strings_of (j : json) (l : list string) : Prop := j = JArr (map JStr l).
(** The networks of the machine itself and around it. *)
Definition local_networks : list string :=
  ["127.0.0.0/8"; "::1/128"; "10.0.0.0/8"; "172.16.0.0/12"; "192.168.0.0/16"; "169.254.0.0/16"; "fe80::/10"; "fc00::/7"; "100.64.0.0/10"].

Record confines (c : Config) (s : Session) (read : list string) (policy : json) : Prop := {
  (** every read is denied but the given ones, every write but into the session *)
  cf_denyRead : strings_of (policy_at policy "filesystem" "denyRead") ["/"];
  cf_allowRead : strings_of (policy_at policy "filesystem" "allowRead") read;
  cf_allowWrite : strings_of (policy_at policy "filesystem" "allowWrite") [s_data s; s_temp s];
  (** only the operator's domains, on port 443, and no local or private address *)
  cf_domains : ∃ l, strings_of (policy_at policy "network" "allowedDomains") l ∧
    ∀ d, d ∈ l → ∃ host, d = host +:+ ":443" ∧ (host ∈ AllowedDomains c ∨ d ∈ AllowedDomains c);
  cf_strict : policy_at policy "network" "strictAllowlist" = JBool true;
  cf_local : policy_at policy "network" "allowLocalBinding" = JBool false;
  cf_sockets : policy_at policy "network" "allowAllUnixSockets" = JBool false ∧ strings_of (policy_at policy "network" "allowUnixSockets") [];
  cf_addresses : ∃ l, strings_of (policy_at policy "network" "deniedResolvedAddresses") l ∧ ∀ a, a ∈ local_networks → a ∈ l;
  (** nothing weakens the sandbox *)
  cf_weaker : ∀ name, name ∈ ["enableWeakerNestedSandbox"; "enableWeakerNetworkIsolation"; "allowAppleEvents"] → obj_get policy name = JBool false;
}.

Lemma TrimSuffix_spec d t : TrimSuffix d t = d ∨ d = TrimSuffix d t +:+ t.
Proof.
  unfold TrimSuffix. destruct (HasSuffix d t) eqn:H; [right|by left]. unfold HasSuffix in H. go_bool. rewrite <-H at 2. by rewrite str_take_drop.
Qed.
Lemma policy_confines c s read : confines c s read (policy_json c s read).
Proof.
  split; try reflexivity; try by split.
  - eexists. split; [reflexivity|]. intros d Hd. apply list_elem_of_In, in_map_iff in Hd as (e & <- & He). apply list_elem_of_In in He.
    exists (TrimSuffix e ":443"). split; [done|]. unfold domain_entry.
    destruct (TrimSuffix_spec e ":443") as [H|H]; [left; by rewrite H|right; by rewrite <-H].
  - eexists. split; [reflexivity|]. intros a Ha. assert (Forall (λ a, a ∈ denied_addresses) local_networks) as H.
    { refine (bool_decide_unpack _ _). by vm_compute. }
    rewrite list.Forall_forall in H. by apply H.
  - intros name Hn. set_unfold in Hn. destruct Hn as [->|[->|[->|[]]]]; reflexivity.
Qed.

Section whole.
Context (env : command_env).

(** C39: A client that is started under the whole-client sandbox runs in Node through
    the session's runner with a policy of its own: the policy file, and nothing else,
    is written; when the paths and domains are valid UTF-8 it parses to a policy that
    denies every read but those of the session, the client, the seccomp filter, the
    system's code and the operator's paths, which neither contain the home nor
    contain or lie in a root of the sessions, every write but those into the session,
    and every network address but the operator's domains on port 443; and of the
    environment given only the forwarded names reach the client, which the session's
    own variables override. *)
Theorem sandboxed_command_confined c s bin args environment w command w' :
  (∀ tmp, we_temp (ce_write env) = Ok tmp → w_fs w !! tmp = None ∧ tmp ≠ s_policy s) →
  ce_order env (s_data s) (s_temp s) ≡ₚ session_values (s_data s) (s_temp s) →
  Session_Command env c s bin args environment w = (Ok command, w') →
  ∃ p read, client_path env bin = Ok p ∧ is_Some (s_lock s) ∧ ce_look env "node" = Ok (cmd_Path command) ∧
    cmd_Args command = [JoinPath [s_control s; "runner.mjs"]; s_runtimeBin s; s_policy s; p] ++ args ∧
    cmd_Dir command = Session_Workspace s ∧
    (∀ r, r ∈ read → readable env c s p r) ∧
    (∃ text, w' = set_fs (insert (s_policy s) (private_file text)) w ∧
       (Forall (λ x, ValidString x = true) (s_data s :: s_temp s :: read) →
        Forall (λ d, ValidString (domain_entry d) = true) (AllowedDomains c) →
        ∃ policy, parse text = Some policy ∧ confines c s read policy)) ∧
    ∀ e, e ∈ cmd_Env command →
      (e ∈ environment ∧ env_name e ∈ inherited_names) ∨ ∃ kv, kv ∈ session_values (s_data s) (s_temp s) ∧ e = entry kv.
Proof.
  intros Htemp Horder. unfold Session_Command. destruct (command_checks env s) eqn:Hck; [done|].
  destruct (client_path env bin) as [p|e] eqn:Hp; [|done]. cbn [mbind result_bind]. unfold settings.
  destruct (allowed_reads env c s p) as [read|e] eqn:Hread; [|done]. cbn [mbind result_bind].
  destruct (WritePrivateJSON _ _ _ _) as [[e|] fs] eqn:Hw; [done|]. destruct (ce_look env "node") as [node|e]; [|done]. intros [= <- <-].
  apply private_write_atomic in Hw as [[_ ->]|[? _]]; [|done|done]. exists p, read.
  split; [done|]. split.
  { unfold command_checks in Hck. destruct (ce_ctx env); [done|]. case_bool_decide; [done|]. by destruct (s_lock s). }
  split; [done|]. split; [done|]. split; [done|]. split; [by apply allowed_reads_ok|]. split.
  - eexists. split; [done|]. intros Hvalid Hdomains. apply list.Forall_cons in Hvalid as [Hd Hvalid].
    apply list.Forall_cons in Hvalid as [Ht Hvalid]. destruct (policy_fits c s read Hvalid Hd Ht Hdomains).
    exists (policy_json c s read). split; [|apply policy_confines]. apply private_json_parse; [done|unfold max_nesting; lia].
  - intros e. cbn [cmd_Env]. rewrite (session_environment_private (s_data s) (s_temp s)) by done. rewrite elem_of_app, elem_of_filter_bool, andb_true_iff, bool_decide_eq_true.
    intros [He|He]; [left; tauto|]. apply list_elem_of_In, in_map_iff in He as (kv & <- & Hkv). right. exists kv. split; [|done].
    rewrite <- Horder. by apply list_elem_of_In.
Qed.
End whole.

(** ** A concrete client *)
Module CommandExample.
Definition absolute (p : string) : option string := if IsAbs p then Some (Clean p) else None.
Definition helper : inode := {| i_kind := KRegular; i_perm := octal 7 5 5; i_owned := false; i_content := "" |}.
Definition manifest_text : string := marshal (go_obj [("name", JStr runtime_package); ("version", JStr RuntimeVersion)]).
Definition machine : command_env :=
  {| ce_platform := {| GOOS := "linux"; GOARCH := "amd64"; Geteuid := 1000 |}; ce_look := λ b, Ok (JoinPath ["/usr/lib/node_modules/srt/dist"; b]);
     ce_eval := absolute; ce_read := λ _, Some manifest_text; ce_stat := λ _, Some helper; ce_home := "/home/agent"; ce_ctx := None;
     ce_write := FilesWitness.calm; ce_order := session_values |}.
Definition session : Session :=
  {| s_control := "/srv/s"; s_data := "/srv/s/data"; s_policy := "/srv/s/policy-1.json"; s_runtimeBin := "/usr/lib/srt/dist/cli.js"; s_temp := "/tmp/olns-1";
     s_lock := Some "/srv/s/session.lock" |}.
Definition config : Config :=
  {| Mode := "native"; Root := "/srv"; Namespace := "n"; RuntimeBin := ""; TempRoot := ""; ReadPaths := ["/opt/data"]; AllowedDomains := ["core.example:443"; "x.example"] |}.
Definition start : world := {| w_fs := ∅; w_locked := ∅ |}.
Definition values : list string := ["PATH=/bin"; "HOME=/home/agent"; "AWS_SECRET=x"].
Definition started : result Command * world := Session_Command machine config session "/bin/sh" ["-c"; "true"] values start.

(** The pinned runtime is accepted, an ancestor of the home is not readable. *)
Example runtime_and_home :
  resolveRuntime machine "cli.js" = Ok "/usr/lib/node_modules/srt/dist/cli.js" ∧ read_ok machine config "/home" = false ∧ read_ok machine config "/opt/data" = true.
Proof. vm_compute. done. Qed.
Example only_forwarded :
  match started.1 with Ok c => List.filter (λ e, bool_decide (e ∈ values)) (cmd_Env c) = ["PATH=/bin"] | Err _ => False end.
Proof. vm_compute. done. Qed.

Lemma sandboxed_command_confined_witness :
  ∃ command p, started.1 = Ok command ∧ cmd_Dir command = "/srv/s/data/workspace" ∧ client_path machine "/bin/sh" = Ok p.
Proof.
  destruct started as [[command|e] w'] eqn:Hs.
  - assert (∀ tmp, we_temp FilesWitness.calm = Ok tmp → w_fs start !! tmp = None ∧ tmp ≠ s_policy session) as Ht by (intros tmp [= <-]; split; [reflexivity|discriminate]).
    destruct (sandboxed_command_confined machine config session "/bin/sh" ["-c"; "true"] values start command w' Ht (Permutation_refl _) Hs)
      as (p & read & Hp & _ & _ & _ & Hdir & _). exists command, p. split; [reflexivity|]. split; [|exact Hp]. rewrite Hdir. vm_compute. reflexivity.
  - exfalso. assert (match started.1 with Ok _ => True | Err _ => False end) as H by (vm_compute; exact I). rewrite Hs in H. exact H.
Defined.
End CommandExample.
