(* ===== verification/CodexTypes.v ===== *)
(** * The Codex protocol types

    pkg/adapters/codexrpc/protocol.gen.go: the struct types of the app-server protocol
    as descriptions, [json.Unmarshal] and [json.Marshal] over them, and the decoders
    of the notifications and responses that a turn reads ([CodexProtocol]).
    [typed_message_roundtrip] is the round trip over every type, [requests_typed]
    what a server reads from the text of each request of codexturn/turn.go. *)

From S2P Require Import Prelude GoStrings Json JsonRoundtrip SessionStore CodexRpc CodexTurn.
From stdpp Require Import sorting options.

Open Scope Z_scope.

(** ** Types and values *)

(** The Go types the generator emits.  A field of a struct has a name, [omitempty]
    and a type; a defined string type is a string. *)
Inductive shape :=
  | TString | TBool | TInt64 | TRaw
  | TPtr (t : shape)
  | TSlice (t : shape)
  | TMap (t : shape)
  | TStruct (fs : list (string * bool * shape)).
Notation member := (string * bool * shape)%type.

(** Their values; [VNil] is a nil pointer, slice or map, [VRaw None] an empty
    [json.RawMessage], a struct lists its fields in order. *)
Inductive value :=
  | VString (s : string) | VBool (b : bool) | VInt64 (n : Z) | VRaw (r : option json)
  | VNil | VPtr (v : value) | VSlice (l : list value) | VMap (kvs : list (string * value))
  | VStruct (vs : list value).

Fixpoint zero (t : shape) : value :=
  match t with
  | TString => VString "" | TBool => VBool false | TInt64 => VInt64 0 | TRaw => VRaw None
  | TPtr _ | TSlice _ | TMap _ => VNil
  | TStruct fs => VStruct ((fix zeros (fs : list member) := match fs with [] => [] | f :: r => zero f.2 :: zeros r end) fs)
  end.

(** ** [json.Unmarshal] *)

Definition member_name (f : member) : string := f.1.1.
Definition omitempty (f : member) : bool := f.1.2.
Definition member_type (f : member) : shape := f.2.
(** The field of a member name: an exact match first, then one that folds. *)
Definition member_index (fs : list member) (key : string) : option nat :=
  match list_find (λ f, member_name f = key) fs with
  | Some (i, _) => Some i
  | None => fst <$> list_find (λ f, EqualFold key (member_name f) = true) fs
  end.
Definition elements_of (v : value) : list value := match v with VSlice l => l | _ => [] end.
Definition entries_of (v : value) : list (string * value) := match v with VMap kvs => kvs | _ => [] end.
Definition fields_of (v : value) : list value := match v with VStruct vs => vs | _ => [] end.
(** An entry of a map replaces the one of the same key; maps are kept sorted. *)
Fixpoint map_insert (k : string) (v : value) (kvs : list (string * value)) : list (string * value) :=
  match kvs with
  | [] => [(k, v)]
  | (k', v') :: r =>
      if bool_decide (k = k') then (k, v) :: r
      else if bool_decide (String.le k k') then (k, v) :: kvs else (k', v') :: map_insert k v r
  end.

(** Into a value that may hold something already: a repeated member is decoded into
    what the first one left. *)
Fixpoint decode (j : json) {struct j} : shape → value → option value :=
  fix on (t : shape) (old : value) {struct t} : option value :=
    match t with
    | TString => match j with JStr s => Some (VString s) | JNull => Some old | _ => None end
    | TBool => match j with JBool b => Some (VBool b) | JNull => Some old | _ => None end
    | TInt64 => match j with JNum lit => VInt64 <$> Atoi lit | JNull => Some old | _ => None end
    | TRaw => Some (VRaw (Some j))
    | TPtr t => match j with JNull => Some VNil | _ => VPtr <$> on t (match old with VPtr v => v | _ => zero t end) end
    | TSlice t =>
        match j with
        | JNull => Some VNil
        | JArr l =>
            VSlice <$> (fix go (l : list json) (olds : list value) : option (list value) :=
              match l with
              | [] => Some []
              | x :: l' => y ← decode x t (default (zero t) (head olds)); ys ← go l' (tail olds); Some (y :: ys)
              end) l (elements_of old)
        | _ => None
        end
    | TMap t =>
        match j with
        | JNull => Some VNil
        | JObj kvs =>
            VMap <$> (fix go (kvs : list (string * json)) (m : list (string * value)) : option (list (string * value)) :=
              match kvs with
              | [] => Some m
              | (k, x) :: r => y ← decode x t (zero t); go r (map_insert k y m)
              end) kvs (entries_of old)
        | _ => None
        end
    | TStruct fs =>
        match j with
        | JNull => Some old
        | JObj kvs =>
            VStruct <$> (fix go (kvs : list (string * json)) (vs : list value) : option (list value) :=
              match kvs with
              | [] => Some vs
              | (k, x) :: r =>
                  match member_index fs k with
                  | None => go r vs
                  | Some i =>
                      match fs !! i, vs !! i with
                      | Some f, Some v => y ← decode x (member_type f) v; go r (<[i := y]> vs)
                      | _, _ => None
                      end
                  end
              end) kvs (fields_of old)
        | _ => None
        end
    end.
Definition Unmarshal (t : shape) (j : json) : option value := decode j t (zero t).

(** ** [json.Marshal] *)

(** [omitempty] drops the zero value of a scalar and whatever is nil or empty. *)
Definition is_empty (v : value) : bool :=
  match v with
  | VString s => bool_decide (s = "") | VBool b => negb b | VInt64 n => n =? 0 | VRaw r => bool_decide (r = None)
  | VNil => true | VPtr _ => false | VSlice l => bool_decide (length l = 0%nat) | VMap kvs => bool_decide (length kvs = 0%nat)
  | VStruct _ => false
  end.

Fixpoint encode (v : value) {struct v} : shape → json :=
  fix on (t : shape) {struct t} : json :=
    match v, t with
    | VString s, _ => JStr s
    | VBool b, _ => JBool b
    | VInt64 n, _ => JNum (Itoa n)
    | VRaw r, _ => default JNull r
    | VNil, _ => JNull
    | VPtr v, TPtr t => encode v t
    | VSlice l, TSlice t => JArr (map (λ x, encode x t) l)
    | VMap kvs, TMap t => JObj (map (λ kv, (kv.1, encode kv.2 t)) kvs)
    | VStruct vs, TStruct fs =>
        JObj ((fix go (vs : list value) (fs : list member) : list (string * json) :=
          match vs, fs with
          | v :: vs, f :: fs => (if omitempty f && is_empty v then [] else [(member_name f, encode v (member_type f))]) ++ go vs fs
          | _, _ => []
          end) vs fs)
    | _, _ => JNull
    end.

(** ** The types of the protocol *)
Module Types.
Definition req (name : string) (t : shape) : member := (name, false, t).
Definition opt (name : string) (t : shape) : member := (name, true, t).

Definition AbsolutePathBuf : shape := TString.
Definition AgentMessageDelivery : shape := TString.
Definition AgentPath : shape := TString.
Definition AppSummary : shape := TStruct
  [opt "category" (TPtr TString); opt "description" (TPtr TString); req "id" TString;
   opt "installUrl" (TPtr TString); req "name" TString].
Definition ApprovalsReviewer : shape := TString.
Definition AskForApproval : shape := TRaw.
Definition AsyncUserInputQuestion : shape := TStruct
  [opt "options" (TSlice TString); req "title" TString].
Definition ByteRange : shape := TStruct
  [req "end" TInt64; req "start" TInt64].
Definition ClientInfo : shape := TStruct
  [req "name" TString; opt "title" (TPtr TString); req "version" TString].
Definition CodexErrorInfo : shape := TRaw.
Definition CollabAgentStatus : shape := TString.
Definition CollabAgentState : shape := TStruct
  [opt "message" (TPtr TString); req "status" CollabAgentStatus].
Definition CollabAgentTool : shape := TString.
Definition CollabAgentToolCallStatus : shape := TString.
Definition CommandAction : shape := TRaw.
Definition CommandExecutionSource : shape := TString.
Definition CommandExecutionStatus : shape := TString.
Definition DynamicToolCallOutputContentItem : shape := TRaw.
Definition DynamicToolCallStatus : shape := TString.
Definition MisalignmentSteer : shape := TStruct
  [req "message" TString].
Definition MisalignmentErrorDetails : shape := TStruct
  [opt "detailedExplanation" (TPtr TString); opt "errorType" (TPtr TString); opt "steer" (TPtr MisalignmentSteer)].
Definition TurnError : shape := TStruct
  [opt "additionalDetails" (TPtr TString); opt "codexErrorInfo" (TPtr CodexErrorInfo); req "message" TString;
   opt "misalignment" (TPtr MisalignmentErrorDetails)].
Definition ErrorNotification : shape := TStruct
  [req "error" TurnError; req "threadId" TString; req "turnId" TString; req "willRetry" TBool].
Definition PatchChangeKind : shape := TRaw.
Definition FileUpdateChange : shape := TStruct
  [req "diff" TString; req "kind" PatchChangeKind; req "path" TString].
Definition FunctionCallOutputBody : shape := TRaw.
Definition FunctionCallOutputContentItem : shape := TRaw.
Definition GitInfo : shape := TStruct
  [opt "branch" (TPtr TString); opt "originUrl" (TPtr TString); opt "sha" (TPtr TString)].
Definition HookPromptFragment : shape := TStruct
  [req "hookRunId" TString; req "text" TString].
Definition ImageDetail : shape := TString.
Definition ImageGenerationFailure : shape := TRaw.
Definition InitializeCapabilities : shape := TStruct
  [opt "experimentalApi" (TPtr TBool); opt "extensions" (TMap TRaw);
   opt "mcpServerOpenaiFormElicitation" (TPtr TBool); opt "optOutNotificationMethods" (TSlice TString);
   opt "requestAttestation" (TPtr TBool)].
Definition InitializeParams : shape := TStruct
  [opt "capabilities" (TPtr InitializeCapabilities); req "clientInfo" ClientInfo].
Definition InitializeResponse : shape := TStruct
  [req "codexHome" TRaw; req "platformFamily" TString; req "platformOs" TString; req "userAgent" TString].
Definition WebSearchAction : shape := TRaw.
Definition McpToolCallAppContext : shape := TStruct
  [opt "actionName" (TPtr TString); opt "appName" (TPtr TString); req "connectorId" TString;
   opt "linkId" (TPtr TString); opt "resourceUri" (TPtr TString)].
Definition McpToolCallError : shape := TStruct
  [req "message" TString].
Definition SubAgentActivityKind : shape := TString.
Definition MemoryCitationEntry : shape := TStruct
  [req "lineEnd" TInt64; req "lineStart" TInt64; req "note" TString; req "path" TString].
Definition MemoryCitation : shape := TStruct
  [req "entries" (TSlice MemoryCitationEntry); req "threadIds" (TSlice TString)].
Definition LegacyAppPathString : shape := TString.
Definition MessagePhase : shape := TString.
Definition ReasoningEffort : shape := TString.
Definition ThreadItem : shape := TStruct
  [opt "action" (TPtr WebSearchAction); opt "agentPath" (TPtr TString); opt "agentThreadId" (TPtr TString);
   opt "agentsStates" (TMap CollabAgentState); opt "aggregatedOutput" (TPtr TString);
   opt "appContext" (TPtr McpToolCallAppContext); opt "arguments" TRaw; opt "changes" (TSlice FileUpdateChange);
   opt "clientId" (TPtr TString); opt "command" (TPtr TString); opt "commandActions" (TSlice CommandAction);
   opt "content" TRaw; opt "contentItems" (TSlice DynamicToolCallOutputContentItem); opt "cwd" TRaw;
   opt "delivery" (TPtr AgentMessageDelivery); opt "durationMs" (TPtr TInt64);
   opt "error" (TPtr McpToolCallError); opt "exitCode" (TPtr TInt64); opt "failure" (TPtr ImageGenerationFailure);
   opt "fragments" (TSlice HookPromptFragment); opt "id" (TPtr TString); opt "kind" (TPtr SubAgentActivityKind);
   opt "mcpAppResourceUri" (TPtr TString); opt "memoryCitation" (TPtr MemoryCitation); opt "model" (TPtr TString);
   opt "name" (TPtr TString); opt "namespace" (TPtr TString); opt "output" (TPtr FunctionCallOutputBody);
   opt "path" (TPtr LegacyAppPathString); opt "phase" (TPtr MessagePhase); opt "pluginId" (TPtr TString);
   opt "processId" (TPtr TString); opt "prompt" (TPtr TString); opt "query" (TPtr TString);
   opt "questions" (TSlice AsyncUserInputQuestion); opt "readOnlyHint" (TPtr TBool);
   opt "reasoningEffort" (TPtr ReasoningEffort); opt "receiverThreadIds" (TSlice TString); opt "result" TRaw;
   opt "results" (TSlice TRaw); opt "review" (TPtr TString); opt "revisedPrompt" (TPtr TString);
   opt "savedPath" (TPtr AbsolutePathBuf); opt "scriptPath" (TPtr TString); opt "senderThreadId" (TPtr TString);
   opt "server" (TPtr TString); opt "source" TRaw; opt "status" TRaw; opt "success" (TPtr TBool);
   opt "summary" (TSlice TString); opt "text" (TPtr TString); opt "tool" TRaw;
   opt "transparentBackground" (TPtr TBool); req "type" TString].
Definition ItemCompletedNotification : shape := TStruct
  [req "completedAtMs" TInt64; req "item" ThreadItem; req "threadId" TString; req "turnId" TString].
Definition ItemStartedNotification : shape := TStruct
  [req "item" ThreadItem; req "startedAtMs" TInt64; req "threadId" TString; req "turnId" TString].
Definition McpToolCallResult : shape := TStruct
  [opt "_meta" TRaw; req "content" (TSlice TRaw); opt "structuredContent" TRaw].
Definition McpToolCallStatus : shape := TString.
Definition NetworkAccess : shape := TString.
Definition NonSteerableTurnKind : shape := TString.
Definition PatchApplyStatus : shape := TString.
Definition Personality : shape := TString.
Definition PluginAuthPolicy : shape := TString.
Definition PluginInstallParams : shape := TStruct
  [opt "installAttemptId" (TPtr TString); opt "marketplacePath" (TPtr AbsolutePathBuf); req "pluginName" TString;
   opt "remoteMarketplaceName" (TPtr TString)].
Definition PluginInstallResponse : shape := TStruct
  [req "appsNeedingAuth" (TSlice AppSummary); req "authPolicy" PluginAuthPolicy].
Definition ReasoningSummary : shape := TString.
Definition SandboxMode : shape := TString.
Definition SandboxPolicy : shape := TRaw.
Definition SessionSource : shape := TRaw.
Definition SubAgentSource : shape := TRaw.
Definition TextElement : shape := TStruct
  [req "byteRange" TRaw; opt "placeholder" (TPtr TString)].
Definition ThreadSectionAppearance : shape := TStruct
  [opt "color" (TPtr TString); opt "icon" (TPtr TString)].
Definition ThreadSection : shape := TStruct
  [opt "appearance" (TPtr ThreadSectionAppearance); req "id" TString; req "name" TString].
Definition ThreadSource : shape := TString.
Definition TurnStatus : shape := TString.
Definition Turn : shape := TStruct
  [opt "completedAt" (TPtr TInt64); opt "durationMs" (TPtr TInt64); opt "error" (TPtr TurnError);
   req "id" TString; req "items" (TSlice ThreadItem); opt "itemsView" TRaw; opt "startedAt" (TPtr TInt64);
   req "status" TurnStatus].
Definition Thread : shape := TStruct
  [opt "agentNickname" (TPtr TString); opt "agentRole" (TPtr TString); req "cliVersion" TString;
   req "createdAt" TInt64; req "cwd" TRaw; req "ephemeral" TBool; opt "forkedFromId" (TPtr TString);
   opt "gitInfo" (TPtr GitInfo); opt "historyMode" TRaw; req "id" TString; opt "model" (TPtr TString);
   req "modelProvider" TString; opt "name" (TPtr TString); opt "parentThreadId" (TPtr TString);
   opt "path" (TPtr TString); req "preview" TString; opt "projectId" (TPtr TString);
   opt "reasoningEffort" (TPtr ReasoningEffort); opt "recencyAt" (TPtr TInt64);
   opt "section" (TPtr ThreadSection); opt "sectionEnteredAt" (TPtr TInt64); req "sessionId" TString;
   req "source" TRaw; req "status" TRaw; opt "threadSource" (TPtr ThreadSource); req "turns" (TSlice Turn);
   req "updatedAt" TInt64].
Definition ThreadActiveFlag : shape := TString.
Definition ThreadHistoryMode : shape := TString.
Definition ThreadId : shape := TString.
Definition ThreadResumeParams : shape := TStruct
  [opt "approvalPolicy" (TPtr AskForApproval); opt "approvalsReviewer" (TPtr ApprovalsReviewer);
   opt "baseInstructions" (TPtr TString); opt "config" (TMap TRaw); opt "cwd" (TPtr TString);
   opt "developerInstructions" (TPtr TString); opt "excludeTurns" (TPtr TBool); opt "model" (TPtr TString);
   opt "modelProvider" (TPtr TString); opt "personality" (TPtr Personality); opt "sandbox" (TPtr SandboxMode);
   opt "serviceTier" (TPtr TString); req "threadId" TString].
Definition ThreadResumeResponse : shape := TStruct
  [req "approvalPolicy" AskForApproval; req "approvalsReviewer" TRaw; req "cwd" AbsolutePathBuf;
   opt "instructionSources" (TSlice LegacyAppPathString); opt "itemsBackwardsCursor" (TPtr TString);
   req "model" TString; req "modelProvider" TString; opt "reasoningEffort" (TPtr ReasoningEffort);
   req "sandbox" TRaw; opt "serviceTier" (TPtr TString); req "thread" Thread;
   opt "turnsBackwardsCursor" (TPtr TString)].
Definition ThreadStartSource : shape := TString.
Definition ThreadStartParams : shape := TStruct
  [opt "approvalPolicy" (TPtr AskForApproval); opt "approvalsReviewer" (TPtr ApprovalsReviewer);
   opt "baseInstructions" (TPtr TString); opt "config" (TMap TRaw); opt "cwd" (TPtr TString);
   opt "developerInstructions" (TPtr TString); opt "ephemeral" (TPtr TBool); opt "model" (TPtr TString);
   opt "modelProvider" (TPtr TString); opt "personality" (TPtr Personality); opt "sandbox" (TPtr SandboxMode);
   opt "serviceName" (TPtr TString); opt "serviceTier" (TPtr TString);
   opt "sessionStartSource" (TPtr ThreadStartSource); opt "threadSource" (TPtr ThreadSource)].
Definition ThreadStartResponse : shape := TStruct
  [req "approvalPolicy" AskForApproval; req "approvalsReviewer" TRaw; req "cwd" AbsolutePathBuf;
   opt "instructionSources" (TSlice LegacyAppPathString); req "model" TString; req "modelProvider" TString;
   opt "reasoningEffort" (TPtr ReasoningEffort); req "sandbox" TRaw; opt "serviceTier" (TPtr TString);
   req "thread" Thread].
Definition ThreadStatus : shape := TRaw.
Definition TurnCompletedNotification : shape := TStruct
  [req "threadId" TString; req "turn" Turn].
Definition TurnInterruptParams : shape := TStruct
  [req "threadId" TString; req "turnId" TString].
Definition TurnInterruptResponse : shape := TMap TRaw.
Definition TurnItemsView : shape := TString.
Definition UserInput : shape := TStruct
  [opt "detail" (TPtr ImageDetail); opt "name" (TPtr TString); opt "path" (TPtr TString);
   opt "text" (TPtr TString); opt "text_elements" (TSlice TextElement); req "type" TString;
   opt "url" (TPtr TString)].
Definition TurnToolOutput : shape := TStruct
  [req "name" TString; opt "namespace" (TPtr TString); req "output" FunctionCallOutputBody].
Definition TurnStartParams : shape := TStruct
  [opt "approvalPolicy" (TPtr AskForApproval); opt "approvalsReviewer" (TPtr ApprovalsReviewer);
   opt "clientUserMessageId" (TPtr TString); opt "cwd" (TPtr TString); opt "effort" (TPtr ReasoningEffort);
   req "input" (TSlice UserInput); opt "model" (TPtr TString); opt "outputSchema" TRaw;
   opt "personality" (TPtr Personality); opt "sandboxPolicy" (TPtr SandboxPolicy);
   opt "serviceTier" (TPtr TString); opt "serviceTierForTurn" (TPtr TString);
   opt "summary" (TPtr ReasoningSummary); req "threadId" TString; opt "toolOutput" (TPtr TurnToolOutput);
   opt "turnTrigger" (TPtr TString)].
Definition TurnStartResponse : shape := TStruct
  [req "turn" Turn].
Definition TurnStartedNotification : shape := TStruct
  [req "threadId" TString; req "turn" Turn].
End Types.

(** ** What a turn reads *)

Definition members_of (t : shape) : list member := match t with TStruct fs => fs | _ => [] end.
(** A field of a struct. *)
Definition get (t : shape) (name : string) (v : value) : value :=
  default VNil (i ← member_index (members_of t) name; fields_of v !! i).
Definition as_string (v : value) : string := match v with VString s => s | _ => "" end.
Definition as_bool (v : value) : bool := match v with VBool b => b | _ => false end.
Definition as_optional (v : value) : option string := match v with VPtr (VString s) => Some s | _ => None end.

Definition item_of (v : value) : ThreadItem :=
  {| ti_Type := as_string (get Types.ThreadItem "type" v); ti_Text := as_optional (get Types.ThreadItem "text" v);
     ti_Phase := as_optional (get Types.ThreadItem "phase" v); ti_json := encode v Types.ThreadItem |}.
Definition turn_of (v : value) : Turn :=
  {| tu_ID := as_string (get Types.Turn "id" v); tu_Status := as_string (get Types.Turn "status" v);
     tu_Items := map item_of (elements_of (get Types.Turn "items" v)) |}.
Definition thread_id (t : shape) (v : value) : string := as_string (get Types.Thread "id" (get t "thread" v)).

Definition item_notification (v : value) : ItemNotification :=
  let t := Types.ItemCompletedNotification in
  {| in_ThreadID := as_string (get t "threadId" v); in_TurnID := as_string (get t "turnId" v); in_Item := item_of (get t "item" v) |}.
Definition error_notification (v : value) : ErrorNotification :=
  let t := Types.ErrorNotification in let e := get t "error" v in
  {| en_ThreadID := as_string (get t "threadId" v); en_TurnID := as_string (get t "turnId" v);
     en_Message := as_string (get Types.TurnError "message" e); en_Details := as_optional (get Types.TurnError "additionalDetails" e);
     en_WillRetry := as_bool (get t "willRetry" v) |}.
(** [TurnStartedNotification] and [TurnCompletedNotification] have the same fields. *)
Definition turn_notification (v : value) : TurnNotification :=
  let t := Types.TurnCompletedNotification in
  {| tn_ThreadID := as_string (get t "threadId" v); tn_Turn := turn_of (get t "turn" v) |}.

#[export] Instance codex_protocol : CodexProtocol := {|
  dec_item := λ j, item_notification <$> Unmarshal Types.ItemCompletedNotification j;
  dec_error := λ j, error_notification <$> Unmarshal Types.ErrorNotification j;
  dec_turn_event := λ j, turn_notification <$> Unmarshal Types.TurnCompletedNotification j;
  dec_initialize := λ j, (λ _, tt) <$> Unmarshal Types.InitializeResponse j;
  dec_thread := λ j, thread_id Types.ThreadStartResponse <$> Unmarshal Types.ThreadStartResponse j;
  dec_resumed := λ j, thread_id Types.ThreadResumeResponse <$> Unmarshal Types.ThreadResumeResponse j;
  dec_turn := λ j, (λ v, turn_of (get Types.TurnStartResponse "turn" v)) <$> Unmarshal Types.TurnStartResponse j;
  dec_interrupt := λ j, (λ _, tt) <$> Unmarshal Types.TurnInterruptResponse j;
|}.

(** ** Typed messages survive the wire *)

Section value_induction.
Context (P : value → Prop).
Context (Hstr : ∀ s, P (VString s)) (Hbool : ∀ b, P (VBool b)) (Hint : ∀ n, P (VInt64 n)) (Hraw : ∀ r, P (VRaw r)) (Hnil : P VNil).
Context (Hptr : ∀ v, P v → P (VPtr v)) (Hslice : ∀ l, Forall P l → P (VSlice l)).
Context (Hmap : ∀ kvs, Forall (λ kv, P kv.2) kvs → P (VMap kvs)) (Hstruct : ∀ vs, Forall P vs → P (VStruct vs)).
Fixpoint value_ind' (v : value) : P v :=
  match v with
  | VString s => Hstr s
  | VBool b => Hbool b
  | VInt64 n => Hint n
  | VRaw r => Hraw r
  | VNil => Hnil
  | VPtr v => Hptr v (value_ind' v)
  | VSlice l => Hslice l ((fix go l := match l return Forall P l with [] => Forall_nil_2 _ | v :: l => Forall_cons_2 _ _ _ (value_ind' v) (go l) end) l)
  | VMap kvs => Hmap kvs ((fix go l := match l return Forall (λ kv : string * value, P kv.2) l with
                                         [] => Forall_nil_2 _ | kv :: l => Forall_cons_2 _ _ _ (value_ind' kv.2) (go l) end) kvs)
  | VStruct vs => Hstruct vs ((fix go l := match l return Forall P l with [] => Forall_nil_2 _ | v :: l => Forall_cons_2 _ _ _ (value_ind' v) (go l) end) vs)
  end.
End value_induction.

(** The entries of a map, in the order the encoder writes them. *)
Definition sorted_entries {A} (insert : string → A → list (string * A) → list (string * A)) (kvs : list (string * A)) : Prop :=
  foldl (λ m kv, insert kv.1 kv.2 m) [] kvs = kvs.

(** A value of a type that has one encoding: its integers are of 64 bits, its maps
    are in order, a pointer is to something that is not null, and a field that is
    left out holds its zero value. *)
Fixpoint canonical (v : value) {struct v} : shape → Prop :=
  λ t, match v, t with
       | VString _, TString | VBool _, TBool => True
       | VInt64 n, TInt64 => int64_min <= n <= int64_max
       | VRaw (Some _), TRaw => True
       | VNil, (TPtr _ | TSlice _ | TMap _) => True
       | VPtr v, TPtr t => canonical v t ∧ encode v t ≠ JNull
       | VSlice l, TSlice t => (fix go (l : list value) : Prop := match l with [] => True | x :: r => canonical x t ∧ go r end) l
       | VMap kvs, TMap t =>
           sorted_entries map_insert kvs ∧
           (fix go (l : list (string * value)) : Prop := match l with [] => True | kv :: r => canonical kv.2 t ∧ go r end) kvs
       | VStruct vs, TStruct fs =>
           NoDup (map member_name fs) ∧
           (fix go (vs : list value) (fs : list member) : Prop :=
              match vs, fs with
              | [], [] => True
              | v :: vs, f :: fs =>
                  (if omitempty f && is_empty v then v = zero (member_type f) else canonical v (member_type f)) ∧ go vs fs
              | _, _ => False
              end) vs fs
       | _, _ => False
       end.

Definition zeros (fs : list member) : list value := map (λ f, zero (member_type f)) fs.
Lemma zero_struct fs : zero (TStruct fs) = VStruct (zeros fs).
Proof. reflexivity. Qed.

Lemma Atoi_Itoa64 n : int64_min <= n <= int64_max → Atoi (Itoa n) = Some n.
Proof.
  intros Hn. assert (int64_min <=? n = true ∧ n <=? int64_max = true) as [Hlo Hhi] by lia. unfold Atoi. destruct (Z.le_gt_cases 0 n) as [Hp|Hp].
  - destruct (Itoa_literal n Hp) as [_ Hd].
    assert (match Itoa n with String "-" s' => Z.opp <$> parse_digits s' | String "+" s' => parse_digits s' | _ => parse_digits (Itoa n) end = Some n) as ->.
    { destruct (Itoa n) as [|c s']; [done|]. destruct c as [[] [] [] [] [] [] [] []]; try exact Hd; by cbn in Hd. }
    by rewrite Hlo, Hhi.
  - assert (Itoa n = String "-" (Itoa (- n))) as -> by (by destruct n).
    rewrite (proj2 (Itoa_literal (- n) ltac:(lia))). cbn. by rewrite Z.opp_involutive, Hlo, Hhi.
Qed.

Lemma decode_ptr j t : j ≠ JNull → decode j (TPtr t) VNil = VPtr <$> decode j t (zero t).
Proof. by destruct j. Qed.

(** The members of a struct and their decoding. *)
Fixpoint struct_members (vs : list value) (fs : list member) : list (string * json) :=
  match vs, fs with
  | v :: vs, f :: fs => (if omitempty f && is_empty v then [] else [(member_name f, encode v (member_type f))]) ++ struct_members vs fs
  | _, _ => []
  end.
Fixpoint decode_fields (fs : list member) (kvs : list (string * json)) (vs : list value) : option (list value) :=
  match kvs with
  | [] => Some vs
  | (k, x) :: r =>
      match member_index fs k with
      | None => decode_fields fs r vs
      | Some i =>
          match fs !! i, vs !! i with
          | Some f, Some v => y ← decode x (member_type f) v; decode_fields fs r (<[i := y]> vs)
          | _, _ => None
          end
      end
  end.
Lemma encode_struct vs fs : encode (VStruct vs) (TStruct fs) = JObj (struct_members vs fs).
Proof. reflexivity. Qed.
Lemma decode_struct_fields fs kvs old : decode (JObj kvs) (TStruct fs) old = VStruct <$> decode_fields fs kvs (fields_of old).
Proof.
  cbn. f_equal. generalize (fields_of old). induction kvs as [|[k x] r IH]; intros vs; [done|]. cbn [decode_fields].
  destruct (member_index fs k) as [i|]; [|apply IH]. destruct (fs !! i), (vs !! i); try done. destruct (decode x _ _); [|done]. cbn. apply IH.
Qed.

Lemma member_index_at before f after :
  NoDup (map member_name (before ++ f :: after)) → member_index (before ++ f :: after) (member_name f) = Some (length before).
Proof.
  intros Hnd. unfold member_index. assert (list_find (λ g, member_name g = member_name f) (before ++ f :: after) = Some (length before, f)) as ->; [|done].
  apply list_find_Some. split; [by rewrite list_lookup_middle|]. split; [done|]. intros i g Hg Hi Heq.
  rewrite map_app in Hnd. apply list.NoDup_app in Hnd as (_ & Hd & _). rewrite lookup_app_l in Hg by done.
  apply (Hd (member_name g)); [|rewrite Heq; by left]. apply list_elem_of_In, in_map, list_elem_of_In. by eapply list_elem_of_lookup_2.
Qed.

Lemma decode_fields_app fs l1 l2 vs : decode_fields fs (l1 ++ l2) vs = (vs' ← decode_fields fs l1 vs; decode_fields fs l2 vs').
Proof.
  revert vs. induction l1 as [|[k x] l1 IH]; intros vs; [done|]. cbn [app decode_fields]. destruct (member_index fs k) as [i|]; [|apply IH].
  destruct (fs !! i), (vs !! i); try done. destruct (decode x _ _); [|done]. cbn. apply IH.
Qed.

Lemma canonical_slice l t : canonical (VSlice l) (TSlice t) → Forall (λ v, canonical v t) l.
Proof. cbn. induction l as [|x l IH]; intros H; [constructor|]. destruct H as [Hx Hl]. constructor; [done|by apply IH]. Qed.
Lemma decode_slice l t :
  Forall (λ v, decode (encode v t) t (zero t) = Some v) l → decode (JArr (map (λ v, encode v t) l)) (TSlice t) VNil = Some (VSlice l).
Proof.
  intros Hl. cbn. set (go := fix go (l : list json) (olds : list value) := _).
  assert (go (map (λ v, encode v t) l) [] = Some l) as ->; [|done].
  induction Hl as [|x l Hx _ IH]; [done|]. cbn. unfold default, id. rewrite Hx. cbn. by rewrite IH.
Qed.

Lemma canonical_map kvs t : canonical (VMap kvs) (TMap t) → sorted_entries map_insert kvs ∧ Forall (λ kv, canonical kv.2 t) kvs.
Proof.
  intros [Hs Hc]. split; [done|]. clear Hs. induction kvs as [|kv kvs IH]; [constructor|]. destruct Hc as [Hx Hl]. constructor; [done|by apply IH].
Qed.
Lemma decode_map kvs t :
  sorted_entries map_insert kvs → Forall (λ kv : string * value, decode (encode kv.2 t) t (zero t) = Some kv.2) kvs →
  decode (JObj (map (λ kv, (kv.1, encode kv.2 t)) kvs)) (TMap t) VNil = Some (VMap kvs).
Proof.
  intros Hs Hl. cbn. set (go := fix go (kvs : list (string * json)) (m : list (string * value)) := _).
  assert (∀ m, go (map (λ kv, (kv.1, encode kv.2 t)) kvs) m = Some (foldl (λ m kv, map_insert kv.1 kv.2 m) m kvs)) as Hgo.
  { clear Hs. induction Hl as [|kv l Hx _ IH]; intros m; [done|]. cbn. rewrite Hx. cbn. by rewrite IH. }
  rewrite Hgo. by rewrite Hs.
Qed.

(** The fields of a canonical struct. *)
Definition field_ok (v : value) (f : member) : Prop :=
  if omitempty f && is_empty v then v = zero (member_type f) else canonical v (member_type f).
Lemma canonical_struct vs fs : canonical (VStruct vs) (TStruct fs) → NoDup (map member_name fs) ∧ Forall2 field_ok vs fs.
Proof.
  intros [Hn Hc]. split; [done|]. clear Hn. revert fs Hc. induction vs as [|v vs IH]; intros [|f fs] Hc; try done. destruct Hc as [Hf Hc].
  constructor; [done|by apply IH].
Qed.
Lemma decode_struct_members before rest vs0 vs :
  length vs0 = length before → NoDup (map member_name (before ++ rest)) →
  Forall2 field_ok vs rest → Forall (λ v, ∀ t, canonical v t → decode (encode v t) t (zero t) = Some v) vs →
  decode_fields (before ++ rest) (struct_members vs rest) (vs0 ++ zeros rest) = Some (vs0 ++ vs).
Proof.
  intros Hlen Hnd H2. revert before vs0 Hlen Hnd. induction H2 as [|v f vs rest Hf H2 IH]; intros before vs0 Hlen Hnd Hdec.
  { cbn. done. }
  apply list.Forall_cons in Hdec as [Hv Hdec]. cbn [struct_members]. change (zeros (f :: rest)) with (zero (member_type f) :: zeros rest). rewrite decode_fields_app.
  assert (decode_fields (before ++ f :: rest) (if omitempty f && is_empty v then [] else [(member_name f, encode v (member_type f))])
            (vs0 ++ zero (member_type f) :: zeros rest) = Some (vs0 ++ v :: zeros rest)) as Hone.
  { unfold field_ok in Hf. destruct (omitempty f && is_empty v); [by rewrite Hf|]. cbn [decode_fields]. rewrite member_index_at by done.
    rewrite list_lookup_middle by done. rewrite list_lookup_middle by done. rewrite Hv by done. cbn. rewrite <- Hlen, insert_app_r_alt by lia.
    by rewrite Nat.sub_diag. }
  rewrite Hone. cbn [mbind option_bind]. rewrite (cons_middle v vs0 (zeros rest)), (cons_middle v vs0 vs), !(assoc_L (++)).
  rewrite (cons_middle f before rest), (assoc_L (++)) in Hnd |- *. apply IH; [rewrite !length_app; cbn; lia|done|done].
Qed.

(** Decoding an encoded value gives it back. *)
Lemma decode_encode v : ∀ t, canonical v t → decode (encode v t) t (zero t) = Some v.
Proof.
  induction v as [s|b|n|r| |v IH|l IH|kvs IH|vs IH] using value_ind'; intros t; destruct t as [| | | |t|t|t|fs]; try done; intros Hc; try (destruct r; done).
  - cbn. by rewrite Atoi_Itoa64.
  - destruct r as [j|]; [by destruct j|by cbn in Hc].
  - destruct Hc as [Hc Hn]. change (encode (VPtr v) (TPtr t)) with (encode v t). change (zero (TPtr t)) with VNil. rewrite decode_ptr by done. by rewrite IH.
  - apply decode_slice. apply canonical_slice in Hc. rewrite list.Forall_forall in *. auto.
  - apply canonical_map in Hc as [Hs Hc]. apply decode_map; [done|]. rewrite list.Forall_forall in *. auto.
  - apply canonical_struct in Hc as [Hn Hc]. rewrite encode_struct, decode_struct_fields, zero_struct. cbn [fields_of].
    pose proof (decode_struct_members [] fs [] vs eq_refl Hn Hc IH) as Hd. cbn [app] in Hd. by rewrite Hd.
Qed.

(** A message of a protocol type that is encoded, sent as text and decoded again is
    the same value, for every type of the protocol. *)
Theorem typed_message_roundtrip t v :
  canonical v t → encodable (encode v t) → nesting (encode v t) <= max_nesting →
  (j ← parse (marshal (encode v t)); Unmarshal t j) = Some v.
Proof. intros Hc He Hn. rewrite marshal_parse by done. cbn [mbind option_bind]. by apply decode_encode. Qed.

(** Members the protocol does not know change nothing. *)
Lemma unknown_member_ignored fs l1 k x l2 :
  member_index fs k = None → Unmarshal (TStruct fs) (JObj (l1 ++ (k, x) :: l2)) = Unmarshal (TStruct fs) (JObj (l1 ++ l2)).
Proof.
  intros Hk. unfold Unmarshal. rewrite !decode_struct_fields, !decode_fields_app. destruct (decode_fields fs l1 _) as [vs|]; [|done].
  cbn [mbind option_bind decode_fields]. by rewrite Hk.
Qed.

(** ** The requests of a turn *)

Definition entry_le {A} (a b : string * A) : Prop := String.le a.1 b.1.
Lemma map_insert_end k v kvs :
  Forall (λ kv : string * value, String.le kv.1 k ∧ kv.1 ≠ k) kvs → map_insert k v kvs = kvs ++ [(k, v)].
Proof.
  induction 1 as [|[k' v'] kvs [Hle Hne] _ IH]; [done|]. cbn in *. rewrite bool_decide_false by congruence.
  rewrite bool_decide_false, IH; [done|]. intros Hle'. apply Hne. by apply (anti_symm String.le).
Qed.
Lemma sorted_entries_sorted kvs :
  StronglySorted entry_le kvs → NoDup kvs.*1 → sorted_entries map_insert kvs.
Proof.
  intros Hs Hn. unfold sorted_entries. change kvs with ([] ++ kvs) at 2. change kvs with ([] ++ kvs) in Hs, Hn. revert Hs Hn. generalize (@nil (string * value)) as acc.
  induction kvs as [|[k v] kvs IH]; intros acc Hs Hn; cbn [foldl]; [by rewrite app_nil_r|]. rewrite map_insert_end.
  - rewrite (cons_middle (k, v) acc kvs) in *. rewrite (assoc_L (++)) in *. by apply IH.
  - rewrite fmap_app in Hn. apply list.NoDup_app in Hn as (_ & Hd & _). cbn in *. clear IH.
    induction acc as [|[k' v'] acc IH]; [constructor|]. inversion Hs as [|? ? Hs' Ha]; subst. constructor.
    + split; [|intros Heq; apply (Hd k); [rewrite <- Heq; by left|by left]]. rewrite list.Forall_app in Ha. destruct Ha as [_ Ha]. by inversion Ha.
    + apply IH; [done|]. intros x Hx. apply Hd. by right.
Qed.

Definition raw_entry (kv : string * json) : string * value := (kv.1, VRaw (Some kv.2)).
Lemma dedup_last_keys kvs : NoDup (dedup_last kvs).*1 ∧ (dedup_last kvs).*1 ⊆ kvs.*1.
Proof.
  induction kvs as [|[k v] kvs [Hn Hsub]]; [split; [constructor|done]|]. cbn [dedup_last]. case_bool_decide as Hk; cbn; [set_solver|].
  split; [|set_solver]. constructor; set_solver.
Qed.
Lemma raw_map_canonical kvs : canonical (VMap (map raw_entry (go_map kvs))) (TMap TRaw).
Proof.
  split; [apply sorted_entries_sorted|].
  - assert (Hs : StronglySorted key_le (go_map kvs)).
    { apply StronglySorted_merge_sort; [intros a b c; unfold key_le; apply transitivity|intros a b; apply (total String.le)]. }
    induction Hs as [|kv l _ IH Hall]; [constructor|]. cbn. constructor; [done|]. by apply list.Forall_fmap.
  - assert ((raw_entry <$> go_map kvs).*1 = (go_map kvs).*1) as Hk by (rewrite <- list_fmap_compose; done).
    change (map raw_entry ?l) with (raw_entry <$> l). rewrite Hk. unfold go_map. rewrite (merge_sort_Permutation key_le). apply dedup_last_keys.
  - induction (go_map kvs); done.
Qed.
Lemma encode_raw_map kvs : encode (VMap (map raw_entry kvs)) (TMap TRaw) = JObj kvs.
Proof. cbn. f_equal. induction kvs as [|[k j] kvs IH]; [done|]. cbn. by rewrite IH. Qed.

(** [initialize], [thread/start], [thread/resume], [turn/start] and [turn/interrupt]. *)
Definition text (s : string) : value := VPtr (VString s).
Definition initialize_value : value :=
  VStruct [VPtr (VStruct [VNil; VNil; VNil;
             VSlice (map VString ["item/agentMessage/delta"; "item/reasoning/summaryTextDelta";
                                  "item/reasoning/summaryPartAdded"; "item/reasoning/textDelta"]); VNil]);
           VStruct [VString "openlinker_worker"; VNil; VString "1"]].
Definition approval_value (c : Config) : value :=
  VPtr (VRaw (Some (JStr (if bool_decide (c_Approval c = "") then "never" else c_Approval c)))).
Definition config_value (cfg : list (string * json)) : value :=
  match cfg with [] => VNil | _ => VMap (map raw_entry (go_map cfg)) end.
Definition model_value (c : Config) : value :=
  if bool_decide (TrimSpace (c_Model c) = "") then VNil else text (TrimSpace (c_Model c)).
Definition sandbox_value (c : Config) : value := if c_UseConfiguredPermissions c then VNil else text (c_Sandbox c).
Definition start_value (c : Config) (workspace : string) (cfg : list (string * json)) : value :=
  VStruct [approval_value c; VNil; VNil; config_value cfg; text workspace; VNil; VPtr (VBool (negb (c_Persistent c)));
           model_value c; VNil; VNil; sandbox_value c; VNil; VNil; VNil; VNil].
Definition resume_value (c : Config) (workspace : string) (cfg : list (string * json)) : value :=
  VStruct [approval_value c; VNil; VNil; config_value cfg; text workspace; VNil; VPtr (VBool true);
           model_value c; VNil; VNil; sandbox_value c; VNil; VString (c_SessionID c)].
Definition turn_value (threadID prompt : string) : value :=
  VStruct [VNil; VNil; VNil; VNil; VNil;
           VSlice [VStruct [VNil; VNil; VNil; text prompt; VNil; VString "text"; VNil]];
           VNil; VRaw None; VNil; VNil; VNil; VNil; VNil; VString threadID; VNil; VNil].
Definition interrupt_value (threadID turnID : string) : value := VStruct [VString threadID; VString turnID].

(** [j] is the text of the value [v] of type [t], and decodes to it. *)
Definition typed (t : shape) (v : value) (j : json) : Prop := j = encode v t ∧ Unmarshal t j = Some v.
Lemma typed_intro t v j : canonical v t → j = encode v t → typed t v j.
Proof. intros Hc ->. split; [done|]. by apply decode_encode. Qed.

Lemma dedup_last_nil kvs : dedup_last kvs = [] → kvs = [].
Proof.
  induction kvs as [|[k v] kvs IH]; [done|]. cbn [dedup_last]. case_bool_decide as Hk; [|done]. intros Hd. rewrite (IH Hd) in Hk.
  by apply not_elem_of_nil in Hk.
Qed.
(** A field that can be dropped, and what it adds to the text. *)
Definition optional (v : value) (t : shape) (j : option json) : Prop :=
  canonical v t ∧ (is_empty v = true → v = zero t) ∧ is_empty v = bool_decide (j = None) ∧ ∀ x, j = Some x → encode v t = x.
Lemma config_optional cfg : optional (config_value cfg) (TMap TRaw) (match cfg with [] => None | _ => Some (go_obj cfg) end).
Proof.
  destruct cfg as [|kv cfg]; [done|]. unfold config_value.
  assert (is_empty (VMap (map raw_entry (go_map (kv :: cfg)))) = false) as He.
  { cbn [is_empty]. apply bool_decide_false. rewrite length_map. unfold go_map. rewrite (merge_sort_Permutation key_le).
    intros Hl%length_zero_iff_nil. by apply dedup_last_nil in Hl. }
  split; [apply raw_map_canonical|]. rewrite He. repeat split; [done|]. intros x [= <-]. apply encode_raw_map.
Qed.
Lemma model_optional c : optional (model_value c) (TPtr TString) (if bool_decide (TrimSpace (c_Model c) = "") then None else Some (JStr (TrimSpace (c_Model c)))).
Proof. unfold model_value. case_bool_decide; repeat split; try done. by intros x [= <-]. Qed.
Lemma sandbox_optional c : optional (sandbox_value c) (TPtr Types.SandboxMode) (if c_UseConfiguredPermissions c then None else Some (JStr (c_Sandbox c))).
Proof. unfold sandbox_value. destruct (c_UseConfiguredPermissions c); repeat split; try done. by intros x [= <-]. Qed.

Lemma field_ok_intro v f : canonical v (member_type f) → (is_empty v = true → v = zero (member_type f)) → field_ok v f.
Proof. intros Hc Hz. unfold field_ok. destruct (omitempty f); [|done]. destruct (is_empty v); [by apply Hz|done]. Qed.
Lemma canonical_struct_intro vs fs : NoDup (map member_name fs) → Forall2 field_ok vs fs → canonical (VStruct vs) (TStruct fs).
Proof. intros Hn H2. split; [done|]. clear Hn. induction H2; [done|]. by split. Qed.
(** The text of a dropped or kept field, as [CodexTurn] writes it. *)
Lemma member_text v t j name : optional v t j → (if is_empty v then [] else [(name, encode v t)]) = CodexTurn.opt name j.
Proof. intros (_ & _ & He & Hj). rewrite He. destruct j as [x|]; [|done]. by rewrite (Hj x). Qed.

Lemma canonical_pointer v t : canonical v t → encode v t ≠ JNull → canonical (VPtr v) (TPtr t).
Proof. by split. Qed.
Lemma canonical_slice_intro l t : Forall (λ v, canonical v t) l → canonical (VSlice l) (TSlice t).
Proof. intros H. cbn. induction H; by split. Qed.

(** A value built from constructors is canonical, up to its optional parts. *)
Ltac well_typed :=
  lazymatch goal with
  | |- canonical (VStruct _) _ => apply canonical_struct_intro; [refine (bool_decide_unpack _ _); by vm_compute|]; well_typed
  | |- canonical (VPtr _) _ => apply canonical_pointer; [well_typed|done]
  | |- canonical (VSlice _) _ => apply canonical_slice_intro; cbn [map]; well_typed
  | |- canonical _ _ => first [exact I | assumption | idtac]
  | |- Forall2 _ _ _ => once constructor; well_typed
  | |- Forall _ _ => once constructor; well_typed
  | |- field_ok _ _ => first [reflexivity | apply field_ok_intro; [cbn [member_type Types.opt Types.req snd]; well_typed|first [discriminate|done|tauto|by intros Hx%bool_decide_eq_true]]]
  end.

(** Every request is the encoding of a value of its parameter type. *)
Lemma requests_encoded c workspace cfg prompt threadID turnID :
  typed Types.InitializeParams initialize_value initialize_params ∧
  typed Types.ThreadStartParams (start_value c workspace cfg) (start_params c workspace cfg) ∧
  typed Types.ThreadResumeParams (resume_value c workspace cfg) (resume_params c workspace cfg) ∧
  typed Types.TurnStartParams (turn_value threadID prompt) (turn_params threadID prompt) ∧
  typed Types.TurnInterruptParams (interrupt_value threadID turnID) (interrupt_params threadID turnID).
Proof.
  pose proof (config_optional cfg) as Hcfg. pose proof (model_optional c) as Hm. pose proof (sandbox_optional c) as Hs.
  destruct (Hcfg) as (Hc1 & Hc2 & _), (Hm) as (Hm1 & Hm2 & _), (Hs) as (Hs1 & Hs2 & _).
  split_and!; apply typed_intro; unfold start_value, resume_value, initialize_value, turn_value, interrupt_value, approval_value, text; try well_typed; try reflexivity.
  all: revert Hcfg Hm Hs; clear; generalize (config_value cfg), (model_value c), (sandbox_value c); intros cv mv sv Hc Hm Hs.
  all: unfold start_params, resume_params, thread_params, Types.ThreadStartParams, Types.ThreadResumeParams; rewrite encode_struct.
  all: cbn [struct_members omitempty member_name member_type fst snd Types.opt Types.req andb is_empty app].
  all: rewrite (member_text _ _ _ "config" Hc), (member_text _ _ _ "model" Hm), (member_text _ _ _ "sandbox" Hs); reflexivity.
Qed.

(** *** What a server reads *)

(** The text of a message, parsed and decoded as a parameter type. *)
Definition received (t : shape) (j : json) : option value := j' ← parse (marshal j); Unmarshal t j'.

(** The named fields of a struct are as said, every other field has its zero value. *)
Definition fields (t : shape) (said : list (string * (value → Prop))) (v : value) : Prop :=
  Forall (λ e, e.1 ∈ map member_name (members_of t) ∧ e.2 (get t e.1 v)) said ∧
  Forall (λ f, member_name f ∉ said.*1 → get t (member_name f) v = zero (member_type f)) (members_of t).
Definition exactly (x v : value) : Prop := v = x.

(** What [thread/start] and [thread/resume] say of the thread. *)
Definition thread_fields (c : Config) (workspace : string) (cfg : list (string * json)) : list (string * (value → Prop)) :=
  [("approvalPolicy", exactly (VPtr (VRaw (Some (JStr (if bool_decide (c_Approval c = "") then "never" else c_Approval c))))));
   ("config", λ v, if bool_decide (cfg = []) then v = VNil else ∃ kvs, v = VMap kvs ∧ kvs ≡ₚ map raw_entry cfg);
   ("cwd", exactly (text workspace));
   ("model", exactly (if bool_decide (TrimSpace (c_Model c) = "") then VNil else text (TrimSpace (c_Model c))));
   ("sandbox", exactly (if c_UseConfiguredPermissions c then VNil else text (c_Sandbox c)))].

(** Valid UTF-8, and a thread configuration that is a map JSON can carry. *)
Record sendable (c : Config) (workspace : string) (cfg : list (string * json)) (prompt threadID turnID : string) : Prop := {
  sd_text : Forall (λ s, ValidString s = true)
              [c_Approval c; c_Model c; c_Sandbox c; c_SessionID c; workspace; prompt; threadID; turnID];
  sd_keys : NoDup cfg.*1;
  sd_config : encodable (JObj cfg);
  sd_nesting : nesting (JObj cfg) < max_nesting;
}.

Lemma received_typed t v j : typed t v j → encodable j → nesting j <= max_nesting → received t j = Some v.
Proof. intros [_ Hu] He Hn. unfold received. by rewrite marshal_parse. Qed.

Lemma encodable_members kvs : encodable (JObj kvs) ↔ Forall (λ kv, ValidString kv.1 = true ∧ encodable kv.2) kvs.
Proof. split; [by inversion 1|by constructor]. Qed.
Lemma nesting_members kvs n : 0 <= n → nesting (JObj kvs) <= 1 + n ↔ Forall (λ kv, nesting kv.2 <= n) kvs.
Proof.
  intros Hn. cbn [nesting]. transitivity (foldr Z.max 0 (map (λ kv : string * json, nesting kv.2) kvs) <= n); [lia|].
  induction kvs as [|kv kvs IH]; cbn [map foldr]; [by split|]. rewrite list.Forall_cons, <-IH. lia.
Qed.

(** A request of strings and flags around the thread configuration can be sent. *)
Lemma thread_params_sendable c workspace cfg prompt threadID turnID mid tail :
  sendable c workspace cfg prompt threadID turnID → Forall (λ kv, ValidString kv.1 = true ∧ encodable kv.2 ∧ nesting kv.2 = 0) (mid ++ tail) →
  encodable (thread_params c workspace cfg mid tail) ∧ nesting (thread_params c workspace cfg mid tail) <= max_nesting.
Proof.
  intros [Ht Hk Hc Hn] [Hmid Htail]%list.Forall_app. rewrite !list.Forall_cons in Ht. destruct Ht as (Ha & Hm & Hs & _ & Hw & _).
  pose proof (TrimSpace_ValidString _ Hm) as Hm'.
  assert (encodable (go_obj cfg) ∧ nesting (go_obj cfg) <= max_nesting - 1) as [Hg1 Hg2].
  { unfold go_obj. replace (max_nesting - 1) with (1 + (max_nesting - 2)) in * by lia.
    rewrite encodable_members, nesting_members by (unfold max_nesting; lia). rewrite (go_map_entries cfg Hk), <-encodable_members.
    split; [done|]. apply (nesting_members cfg (max_nesting - 2)); [unfold max_nesting; lia|lia]. }
  assert (∀ (P : string * json → Prop) name j, (∀ x, j = Some x → P (name, x)) → Forall P (CodexTurn.opt name j)) as Hopt.
  { intros P name [x|] Hj; repeat constructor. by apply Hj. }
  assert (Forall (λ kv, (ValidString kv.1 = true ∧ encodable kv.2) ∧ nesting kv.2 <= max_nesting - 1)
            match thread_params c workspace cfg mid tail with JObj kvs => kvs | _ => [] end) as H.
  { unfold thread_params. repeat (apply list.Forall_app; split); try apply Hopt.
    - constructor; [|constructor]. split; [split; [done|constructor; by case_bool_decide]|done].
    - intros x Hx. split; [split; [done|]|]; destruct cfg; by simplify_eq.
    - constructor; [|constructor]. split; [split; [done|by constructor]|done].
    - eapply list.Forall_impl; [exact Hmid|]. intros kv (? & ? & ->). done.
    - intros x Hx. case_bool_decide; simplify_eq. split; [split; [done|by constructor]|done].
    - intros x Hx. destruct (c_UseConfiguredPermissions c); simplify_eq. split; [split; [done|by constructor]|done].
    - eapply list.Forall_impl; [exact Htail|]. intros kv (? & ? & ->). done. }
  unfold thread_params in *. apply list.Forall_and in H as [H1 H2]. split; [by constructor|].
  replace max_nesting with (1 + (max_nesting - 1)) by lia. apply nesting_members; [by vm_compute|done].
Qed.

(** Reads the fields of a value built from constructors. *)
Ltac said :=
  lazymatch goal with
  | |- fields _ _ _ => unfold thread_fields; split; said
  | |- Forall (λ f, _ → _) _ => repeat (constructor; [first [by intros _ | intros Hn; exfalso; apply Hn; set_solver]|]); constructor
  | |- Forall _ _ => once constructor; said
  | |- _ ∧ _ => cbn [fst snd]; split; [refine (bool_decide_unpack _ _); by vm_compute|said]
  | |- ∃ _, _ ∧ fields _ _ _ => eexists; split; [reflexivity|said]
  | |- _ => first [reflexivity | done]
  end.

(** C18: A server that parses the text of a request of a turn and decodes it as the
    generated parameter type of the method reads, by the names of the protocol, what
    the turn means to say and the zero value in every other field: for the
    initialization, a new thread, a resumed one, the prompt and an interrupt. *)
Theorem requests_typed c workspace cfg prompt threadID turnID :
  sendable c workspace cfg prompt threadID turnID →
  (∃ v, received Types.InitializeParams initialize_params = Some v ∧
     fields Types.InitializeParams
       [("clientInfo", fields Types.ClientInfo [("name", exactly (VString "openlinker_worker")); ("version", exactly (VString "1"))]);
        ("capabilities", λ w, ∃ caps, w = VPtr caps ∧ fields Types.InitializeCapabilities
           [("optOutNotificationMethods",
             exactly (VSlice (map VString ["item/agentMessage/delta"; "item/reasoning/summaryTextDelta";
                                      "item/reasoning/summaryPartAdded"; "item/reasoning/textDelta"])))] caps)] v) ∧
  (∃ v, received Types.ThreadStartParams (start_params c workspace cfg) = Some v ∧
     fields Types.ThreadStartParams
       (("ephemeral", exactly (VPtr (VBool (negb (c_Persistent c))))) :: thread_fields c workspace cfg) v) ∧
  (∃ v, received Types.ThreadResumeParams (resume_params c workspace cfg) = Some v ∧
     fields Types.ThreadResumeParams
       (("threadId", exactly (VString (c_SessionID c))) :: ("excludeTurns", exactly (VPtr (VBool true))) :: thread_fields c workspace cfg) v) ∧
  (∃ v, received Types.TurnStartParams (turn_params threadID prompt) = Some v ∧
     fields Types.TurnStartParams
       [("threadId", exactly (VString threadID));
        ("input", λ w, ∃ item, w = VSlice [item] ∧
           fields Types.UserInput [("type", exactly (VString "text")); ("text", exactly (text prompt))] item)] v) ∧
  (∃ v, received Types.TurnInterruptParams (interrupt_params threadID turnID) = Some v ∧
     fields Types.TurnInterruptParams [("threadId", exactly (VString threadID)); ("turnId", exactly (VString turnID))] v).
Proof.
  intros Hs. destruct (requests_encoded c workspace cfg prompt threadID turnID) as (Ti & Ts & Tr & Tt & Tx).
  assert (if bool_decide (cfg = []) then config_value cfg = VNil
          else ∃ kvs, config_value cfg = VMap kvs ∧ kvs ≡ₚ map raw_entry cfg) as Hcfg.
  { destruct cfg as [|kv cfg]; [done|]. rewrite bool_decide_false by done. eexists; split; [reflexivity|].
    apply fmap_Permutation, go_map_entries, Hs. }
  pose proof (sd_text _ _ _ _ _ _ Hs) as Ht. rewrite !list.Forall_cons in Ht. destruct Ht as (_ & _ & _ & Hsid & _ & Hp & Hth & Htu & _).
  split_and!.
  - eexists; split; [eapply received_typed; [exact Ti|repeat (constructor; try done)|by vm_compute]|]. said.
  - eexists; split; [eapply received_typed; [exact Ts|..]|].
    1,2: apply (thread_params_sendable _ _ _ _ _ _ _ _ Hs); by repeat constructor.
    unfold start_value. said.
  - eexists; split; [eapply received_typed; [exact Tr|..]|].
    1,2: apply (thread_params_sendable _ _ _ _ _ _ _ _ Hs); by repeat constructor.
    unfold resume_value. said.
  - eexists; split; [eapply received_typed; [exact Tt|by repeat (constructor; try done)|by vm_compute]|]. said.
  - eexists; split; [eapply received_typed; [exact Tx|by repeat (constructor; try done)|by vm_compute]|]. said.
Qed.

(** ** Decoding what a server sends *)
Module CodexTypesExample.
Definition completed_text : string :=
  "{`threadId`:`t1`,`turn`:{`id`:`u1`,`items`:[{`id`:`i1`,`phase`:`final_answer`,`text`:`done`,`type`:`agentMessage`},{`command`:`ls`,`exitCode`:-1,`type`:`commandExecution`}],`status`:`completed`,`durationMs`:12},`unknown`:[1,{}]}".
Definition with_quotes (s : string) : string := String.string_of_list_ascii (map (λ c, if bool_decide (c = "`"%char) then "034"%char else c) (String.list_ascii_of_string s)).
Example completed_decoded :
  (j ← parse (with_quotes completed_text); t ← dec_turn_event j;
   Some (tn_ThreadID t, tu_ID (tn_Turn t), tu_Status (tn_Turn t), map ti_Text (tu_Items (tn_Turn t))))
  = Some ("t1", "u1", "completed", [Some "done"; None]).
Proof. vm_compute. reflexivity. Qed.
(** A wrong type anywhere in a notification rejects it. *)
Example wrong_type_rejected :
  (j ← parse (with_quotes "{`threadId`:`t1`,`turn`:{`id`:`u1`,`items`:[{`type`:`x`,`exitCode`:1.5}],`status`:`completed`}}"); dec_turn_event j) = None.
Proof. vm_compute. reflexivity. Qed.

Definition failure : value :=
  VStruct [VStruct [text "more"; VNil; VString "stopped"; VNil]; VString "t1"; VString "u1"; VBool false].
Lemma typed_message_roundtrip_witness :
  (canonical failure Types.ErrorNotification ∧ encodable (encode failure Types.ErrorNotification) ∧ nesting (encode failure Types.ErrorNotification) <= max_nesting) ∧
  (j ← parse (marshal (encode failure Types.ErrorNotification)); Unmarshal Types.ErrorNotification j) = Some failure.
Proof.
  assert (canonical failure Types.ErrorNotification) by (unfold failure, text; well_typed).
  assert (encodable (encode failure Types.ErrorNotification)).
  { cbn. repeat (constructor; try done). }
  assert (nesting (encode failure Types.ErrorNotification) <= max_nesting) by (by vm_compute).
  split; [done|]. by apply typed_message_roundtrip.
Defined.

Definition resumed : Config := {|
  c_Prepare := false; c_SessionID := "t0"; c_Prompt := "hello"; c_Sandbox := "read-only"; c_Model := " gpt "; c_Approval := "";
  c_Persistent := true; c_UseConfiguredPermissions := false; c_Observer := false; c_Emit := true |}.
Definition network : list (string * json) := [("web_search", JStr "disabled"); ("features", JObj [("apps", JBool false)])].
(** The two fields that depend on the case, in what a server reads of a resumed thread. *)
Example resumed_read :
  (λ v, (get Types.ThreadResumeParams "model" v, get Types.ThreadResumeParams "approvalPolicy" v,
         get Types.ThreadResumeParams "threadId" v)) <$>
    received Types.ThreadResumeParams (resume_params resumed "/w" network)
  = Some (text "gpt", VPtr (VRaw (Some (JStr "never"))), VString "t0").
Proof. vm_compute. reflexivity. Qed.
Lemma requests_typed_witness :
  sendable resumed "/w" network "hello" "t0" "u1" ∧
  ∃ v, received Types.ThreadStartParams (start_params resumed "/w" network) = Some v ∧
    fields Types.ThreadStartParams
      (("ephemeral", exactly (VPtr (VBool false))) :: thread_fields resumed "/w" network) v.
Proof.
  assert (sendable resumed "/w" network "hello" "t0" "u1") as H.
  { split; [by repeat constructor|refine (bool_decide_unpack _ _); by vm_compute|by repeat (constructor; try done)|by vm_compute]. }
  split; [exact H|]. exact (proj1 (proj2 (requests_typed resumed "/w" network "hello" "t0" "u1" H))).
Defined.
End CodexTypesExample.
