(* ===== verification/CommandLine.v ===== *)
(** * The command line

    cmd/openlinker-agent-node (main.go, credentials.go, transport.go) and
    agentdelegation/proxy.go: the commands as functions on the process, the offline
    credential preparation with package flag's parsing, and the two copying
    goroutines of the delegation proxy as a transition system.  The last sections
    tie the command to the code that starts it: the handshake of AgentHost and the
    arguments of ProviderConfig. *)

From S2P Require Import Prelude GoStrings Json Paths Environment ProviderConfig Config AgentHost.
From stdpp Require Import options.

Open Scope Z_scope.

(** ** The process *)

(** [openlinker.RuntimeCredentialPreparation] *)
Record Preparation := {
  pr_DataDir : string; pr_NodeID : string; pr_AgentID : string; pr_WorkerID : string;
  pr_ConfiguredNodeID : string; pr_AgentToken : string;
}.

(** The environment, what was written and logged, the preparations asked of the
    SDK, and the sockets dialed with the environment at that time. *)
Record process := {
  p_env : gmap string string; p_stdout : list string; p_log : list string;
  p_prepared : list Preparation; p_dialed : list (string * gmap string string);
}.
Definition with_env (env : gmap string string) (p : process) : process :=
  {| p_env := env; p_stdout := p_stdout p; p_log := p_log p; p_prepared := p_prepared p; p_dialed := p_dialed p |}.
Definition printed (text : string) (p : process) : process :=
  {| p_env := p_env p; p_stdout := p_stdout p ++ [text]; p_log := p_log p; p_prepared := p_prepared p; p_dialed := p_dialed p |}.
Definition log_line (line : string) (p : process) : process :=
  {| p_env := p_env p; p_stdout := p_stdout p; p_log := p_log p ++ [line]; p_prepared := p_prepared p; p_dialed := p_dialed p |}.
Definition asked (o : Preparation) (p : process) : process :=
  {| p_env := p_env p; p_stdout := p_stdout p; p_log := p_log p; p_prepared := p_prepared p ++ [o]; p_dialed := p_dialed p |}.
Definition dialed (socket : string) (p : process) : process :=
  {| p_env := p_env p; p_stdout := p_stdout p; p_log := p_log p; p_prepared := p_prepared p;
     p_dialed := p_dialed p ++ [(socket, p_env p)] |}.
(** [os.Getenv] *)
Definition Getenv (name : string) (p : process) : string := default "" (p_env p !! name).

(** What the commands rely on: whether standard output takes a text, whether a
    variable can be removed, the SDK's preparation, whether the socket accepts, and
    how the copying of a session ends. *)
Class CommandOS := {
  co_write : string → bool;
  co_Unsetenv : string → bool;
  co_PrepareRuntimeCredential : Preparation → result json;
  co_Dial : string → bool;
  co_transport : string → option go_error;
}.

Definition newline : string := String (ascii_of_N 10) "".
(** [json.NewEncoder(w).Encode] and [fmt.Fprintln]: whether the text was written. *)
Definition write_line `{!CommandOS} (text : string) (p : process) : bool * process :=
  if co_write (text +:+ newline) then (true, printed (text +:+ newline) p) else (false, p).

(** ** [flag.FlagSet.Parse] for the four string flags *)

Inductive flag_arg := FStop | FTerminator | FBad | FFlag (name : string) (value : option string).
Definition flag_name (name : string) : flag_arg :=
  if bool_decide (name = "") || HasPrefix name "-" || HasPrefix name "=" then FBad
  else let '(n, v, found) := Cut name "=" in FFlag n (if found then Some v else None).
Definition classify (s : string) : flag_arg :=
  match s with
  | String "-" "" => FStop
  | String "-" (String "-" "") => FTerminator
  | String "-" (String "-" name) | String "-" name => flag_name name
  | _ => FStop
  end.
Definition set_flag (name v : string) (o : Preparation) : option Preparation :=
  let upd d n a w :=
    Some {| pr_DataDir := d; pr_NodeID := n; pr_AgentID := a; pr_WorkerID := w;
            pr_ConfiguredNodeID := pr_ConfiguredNodeID o; pr_AgentToken := pr_AgentToken o |} in
  if bool_decide (name = "data-dir") then upd v (pr_NodeID o) (pr_AgentID o) (pr_WorkerID o)
  else if bool_decide (name = "node-id") then upd (pr_DataDir o) v (pr_AgentID o) (pr_WorkerID o)
  else if bool_decide (name = "agent-id") then upd (pr_DataDir o) (pr_NodeID o) v (pr_WorkerID o)
  else if bool_decide (name = "worker-id") then upd (pr_DataDir o) (pr_NodeID o) (pr_AgentID o) v
  else None.
Definition ErrHelp : go_error := ESentinel "flag.ErrHelp" "flag: help requested".
Definition undefined_flag (name : string) : go_error :=
  if bool_decide (name = "help") || bool_decide (name = "h") then ErrHelp else ENew ("flag provided but not defined: -" +:+ name).
(** The options and the arguments left. *)
Fixpoint flags_Parse (args : list string) (o : Preparation) : result (Preparation * list string) :=
  match args with
  | [] => Ok (o, [])
  | s :: rest =>
      match classify s with
      | FStop => Ok (o, args)
      | FTerminator => Ok (o, rest)
      | FBad => Err (ENew ("bad flag syntax: " +:+ s))
      | FFlag name value =>
          match set_flag name (default "" value) o, value, rest with
          | None, _, _ => Err (undefined_flag name)
          | Some o', Some _, _ => flags_Parse rest o'
          | Some _, None, [] => Err (ENew ("flag needs an argument: -" +:+ name))
          | Some o', None, v :: rest' => flags_Parse rest' (default o' (set_flag name v o))
          end
      end
  end.

(** ** credentials.go *)

Section commands.
Context {OS : CommandOS}.

Definition no_preparation : Preparation :=
  {| pr_DataDir := ""; pr_NodeID := ""; pr_AgentID := ""; pr_WorkerID := ""; pr_ConfiguredNodeID := ""; pr_AgentToken := "" |}.
Definition errPrepareUsage : go_error :=
  ENew "usage: runtime-credential prepare --data-dir PATH --node-id ID --agent-id ID --worker-id ID".
Definition errPositional : go_error := ENew "runtime-credential prepare does not accept positional arguments".
Definition errOtherAgent : go_error := ENew "credential preparation Agent ID differs from installation configuration".
Definition errOutput : go_error := ENew "write error".

(** [prepareCredentialCommand] *)
Definition prepareCredentialCommand (args : list string) (p : process) : option go_error * process :=
  match args with
  | [] => (Some errPrepareUsage, p)
  | first :: flags =>
      if negb (bool_decide (first = "prepare")) then (Some errPrepareUsage, p)
      else match flags_Parse flags no_preparation with
      | Err e => (Some e, p)
      | Ok (_, _ :: _) => (Some errPositional, p)
      | Ok (o, []) =>
          let options :=
            {| pr_DataDir := pr_DataDir o; pr_NodeID := pr_NodeID o; pr_AgentID := pr_AgentID o; pr_WorkerID := pr_WorkerID o;
               pr_ConfiguredNodeID := TrimSpace (Getenv "OPENLINKER_NODE_ID" p);
               pr_AgentToken := TrimSpace (Getenv "OPENLINKER_AGENT_TOKEN" p) |} in
          let configuredAgent := TrimSpace (Getenv "OPENLINKER_AGENT_ID" p) in
          if negb (bool_decide (configuredAgent = "")) && negb (bool_decide (configuredAgent = pr_AgentID options))
          then (Some errOtherAgent, p)
          else
            let p1 := asked options p in
            match co_PrepareRuntimeCredential options with
            | Err e => (Some e, p1)
            | Ok j => let '(ok, p2) := write_line (marshal j) p1 in (if ok then None else Some errOutput, p2)
            end
      end
  end.

(** ** proxy.go and transport.go *)

Definition errRelativeSocket : go_error := ENew "delegation proxy requires an absolute private socket path".
Definition errConnect : go_error := ENew "connect to delegation broker".
Definition errTransport : go_error := ENew "delegation proxy transport failed".
(** [Proxy]; the copying after the connection is [transport_step] below. *)
Definition Proxy (socket : string) (p : process) : option go_error * process :=
  if negb (IsAbs socket) then (Some errRelativeSocket, p)
  else
    let p1 := dialed socket p in
    if negb (co_Dial socket) then (Some errConnect, p1) else (co_transport socket, p1).

Definition capabilities_json (c : Capabilities) : json :=
  JObj [("protocol", JStr (c_Protocol c)); ("browser_proxy", JBool (c_BrowserProxy c)); ("delegation_proxy", JBool (c_DelegationProxy c))].
Definition node_capabilities : Capabilities :=
  {| c_Protocol := c_Protocol SupportedCapabilities; c_BrowserProxy := false; c_DelegationProxy := c_DelegationProxy SupportedCapabilities |}.
Definition credential_names : list string :=
  ["CODEX_API_KEY"; "CODEX_API_KEY_FILE"; "ANTHROPIC_API_KEY"; "ANTHROPIC_API_KEY_FILE"; "OPENLINKER_AGENT_TOKEN"; "OPENLINKER_USER_TOKEN"].
Fixpoint unset_all (names : list string) (p : process) : bool * process :=
  match names with
  | [] => (true, p)
  | k :: rest => if co_Unsetenv k then unset_all rest (with_env (delete k (p_env p)) p) else (false, p)
  end.
Definition errCapabilityOutput : go_error := ENew "agent host capability output failed".
Definition errCleanup : go_error := ENew "agent host credential cleanup failed".
Definition errUsage : go_error :=
  ENew "usage: openlinker-agent-node [--version | --check-config | plugin capabilities | plugin delegation-proxy --host codex|claude]; configure serving through environment variables".

(** [runTransportCommand] *)
Definition runTransportCommand (args : list string) (p : process) : option go_error * process :=
  if bool_decide (args = ["plugin"; "capabilities"])
  then let '(ok, p1) := write_line (marshal (capabilities_json node_capabilities)) p in (if ok then None else Some errCapabilityOutput, p1)
  else if bool_decide (args = ["plugin"; "delegation-proxy"; "--host"; "codex"])
       || bool_decide (args = ["plugin"; "delegation-proxy"; "--host"; "claude"])
  then
    let socket := Getenv SocketEnvironment p in
    let '(ok, p1) := unset_all credential_names p in
    if ok then Proxy socket p1 else (Some errCleanup, p1)
  else (Some errUsage, p).
End commands.

(** ** main.go *)

(** What the serving node does: [Start] may return first, or a signal arrives, then
    [Stop] and what becomes of [Start] before the shutdown context ends. *)
Inductive after_stop := Stopped (e : option go_error) | TimedOut (ctx : go_error).
Inductive service := StartReturned (e : option go_error) | Signalled (stop : option go_error) (after : after_stop).
Inductive exit := Return | Fatal (line : string).
Definition exit_status (x : exit) : Z := match x with Return => 0 | Fatal _ => 1 end.

(** [exitOnUnexpectedError] *)
Definition unexpected (e : option go_error) : option go_error :=
  match e with Some e' => if errors_Is e' context_Canceled then None else Some e' | None => None end.
Definition exitOnUnexpectedError (e : option go_error) : exit :=
  match unexpected e with Some e' => Fatal ("openlinker agent node stopped: " +:+ error_text e') | None => Return end.
(** [waitForStop] *)
Definition waitForStop (after : after_stop) : exit :=
  match after with
  | Stopped e => exitOnUnexpectedError e
  | TimedOut e => Fatal ("openlinker agent node shutdown timed out: " +:+ error_text e)
  end.
(** The select of [main] once the node is started. *)
Definition select_exit (s : service) (p : process) : exit * process :=
  match s with
  | StartReturned e => (exitOnUnexpectedError e, p)
  | Signalled stop after =>
      (waitForStop after,
       match unexpected stop with Some e => log_line ("openlinker agent node shutdown: " +:+ error_text e) p | None => p end)
  end.

Section main.
Context {OS : CommandOS} {UL : UnicodeLower} {JE : JsonErrors} (lib : sdk) (version : string).

(** [logger.Fatal] of an error. *)
Definition fatal (r : option go_error * process) : exit * process :=
  (match r.1 with Some e => Fatal (error_text e) | None => Return end, r.2).
(** The configuration reads the environment of the process. *)
Definition process_surroundings (around : surroundings) (p : process) : surroundings :=
  {| get := λ name, Getenv name p; wd := wd around; pf := pf around; host_fs := host_fs around; host_eval := host_eval around |}.
Definition config_fatal (e : go_error) : exit := Fatal ("openlinker agent node config: " +:+ error_text e).

(** [main], with the arguments after the program's name. *)
Definition main (around : surroundings) (s : Node → service) (args : list string) (p : process) : exit * process :=
  let new := NewFromLookup lib (process_surroundings around p) in
  match args with
  | [] => match new with Err e => (config_fatal e, p) | Ok node => select_exit (s node) p end
  | first :: rest =>
      if bool_decide (first = "runtime-credential") then fatal (prepareCredentialCommand rest p)
      else if bool_decide (args = ["--version"])
      then let '(ok, p1) := write_line version p in
           (if ok then Return else Fatal "openlinker agent node version output failed", p1)
      else if bool_decide (args = ["--check-config"])
      then match new with
           | Err e => (config_fatal e, p)
           | Ok node =>
               let '(ok, p1) := write_line (marshal (report_json (Node_ConfigurationReport version node))) p in
               (if ok then Return else Fatal "openlinker agent node configuration output failed", p1)
           end
      else fatal (runTransportCommand args p)
  end.
End main.

(** ** The delegation proxy while it copies (proxy.go) *)

Definition bytes : Type := list ascii.
(** A goroutine in [io.Copy]: before a read, holding what it read, or returned. *)
Inductive copying := Reading | Writing (c : bytes) | Ended (failed : bool).
(** Standard input still to come, the two goroutines, what the connection took and
    whether it is shut for writing, what the peer wrote and what of it was not read
    yet, standard output, the connection, the context and the result of [Proxy]. *)
Record transport := {
  t_in : bytes; t_up : copying; t_sent : bytes; t_shut : bool;
  t_peer : bytes; t_unread : bytes; t_peer_closed : bool; t_down : copying; t_out : bytes;
  t_open : bool; t_canceled : bool; t_result : option (option go_error);
}.
Definition connected (input : bytes) : transport :=
  {| t_in := input; t_up := Reading; t_sent := []; t_shut := false; t_peer := []; t_unread := []; t_peer_closed := false;
     t_down := Reading; t_out := []; t_open := true; t_canceled := false; t_result := None |}.
Definition set_up (i : bytes) (u : copying) (sent : bytes) (shut open : bool) (t : transport) : transport :=
  {| t_in := i; t_up := u; t_sent := sent; t_shut := shut; t_peer := t_peer t; t_unread := t_unread t;
     t_peer_closed := t_peer_closed t; t_down := t_down t; t_out := t_out t; t_open := open; t_canceled := t_canceled t;
     t_result := t_result t |}.
Definition set_peer (w u : bytes) (closed : bool) (t : transport) : transport :=
  {| t_in := t_in t; t_up := t_up t; t_sent := t_sent t; t_shut := t_shut t; t_peer := w; t_unread := u;
     t_peer_closed := closed; t_down := t_down t; t_out := t_out t; t_open := t_open t; t_canceled := t_canceled t;
     t_result := t_result t |}.
Definition set_down (u : bytes) (d : copying) (out : bytes) (t : transport) : transport :=
  {| t_in := t_in t; t_up := t_up t; t_sent := t_sent t; t_shut := t_shut t; t_peer := t_peer t; t_unread := u;
     t_peer_closed := t_peer_closed t; t_down := d; t_out := out; t_open := t_open t; t_canceled := t_canceled t;
     t_result := t_result t |}.
Definition set_end (open canceled : bool) (r : option (option go_error)) (t : transport) : transport :=
  {| t_in := t_in t; t_up := t_up t; t_sent := t_sent t; t_shut := t_shut t; t_peer := t_peer t; t_unread := t_unread t;
     t_peer_closed := t_peer_closed t; t_down := t_down t; t_out := t_out t; t_open := open; t_canceled := canceled;
     t_result := r |}.

Inductive transport_step (t : transport) : transport → Prop :=
  (** [io.Copy(connection, input)] *)
  | up_read c rest :
      t_up t = Reading → t_in t = c ++ rest → c ≠ [] →
      transport_step t (set_up rest (Writing c) (t_sent t) (t_shut t) (t_open t) t)
  | up_write c :
      t_up t = Writing c → t_open t = true →
      transport_step t (set_up (t_in t) Reading (t_sent t ++ c) (t_shut t) true t)
  | up_eof :
      t_up t = Reading → t_in t = [] → transport_step t (set_up [] (Ended false) (t_sent t) true (t_open t) t)
  | up_read_fails :
      t_up t = Reading → transport_step t (set_up (t_in t) (Ended true) (t_sent t) true false t)
  | up_write_fails c1 c2 :
      t_up t = Writing (c1 ++ c2) → (t_open t = false → c1 = []) →
      transport_step t (set_up (t_in t) (Ended true) (t_sent t ++ c1) true false t)
  (** the broker *)
  | peer_writes c :
      t_open t = true → t_peer_closed t = false → transport_step t (set_peer (t_peer t ++ c) (t_unread t ++ c) false t)
  | peer_closes : transport_step t (set_peer (t_peer t) (t_unread t) true t)
  (** [io.Copy(output, connection)] *)
  | down_read c rest :
      t_down t = Reading → t_open t = true → t_unread t = c ++ rest → c ≠ [] →
      transport_step t (set_down rest (Writing c) (t_out t) t)
  | down_write c : t_down t = Writing c → transport_step t (set_down (t_unread t) Reading (t_out t ++ c) t)
  | down_eof :
      t_down t = Reading → t_open t = true → t_unread t = [] → t_peer_closed t = true →
      transport_step t (set_down [] (Ended false) (t_out t) t)
  | down_read_fails : t_down t = Reading → transport_step t (set_down (t_unread t) (Ended true) (t_out t) t)
  | down_write_fails c1 c2 :
      t_down t = Writing (c1 ++ c2) → transport_step t (set_down (t_unread t) (Ended true) (t_out t ++ c1) t)
  (** the context, [context.AfterFunc] and the select with the deferred [Close] *)
  | cancel : transport_step t (set_end (t_open t) true (t_result t) t)
  | after_cancel : t_canceled t = true → transport_step t (set_end false true (t_result t) t)
  | return_canceled : t_result t = None → t_canceled t = true → transport_step t (set_end false true (Some None) t)
  | return_completed failed :
      t_result t = None → t_down t = Ended failed →
      transport_step t (set_end false (t_canceled t) (Some (if failed then Some errTransport else None)) t).

(** ** The proxy transports and nothing else *)

(** Where the bytes of one direction are: delivered, held by the goroutine, to come. *)
Definition delivered (total sent rest : bytes) (c : copying) : Prop :=
  match c with
  | Reading => total = sent ++ rest
  | Writing h => total = sent ++ h ++ rest
  | Ended _ => sent `prefix_of` total
  end.
Record up_ok (input : bytes) (t : transport) : Prop := {
  tk_up : delivered input (t_sent t) (t_in t) (t_up t);
  tk_up_end : t_up t = Ended false → t_sent t = input ∧ t_shut t = true;
  tk_shut : t_shut t = true → ∃ f, t_up t = Ended f;
}.
Record down_ok (t : transport) : Prop := {
  tk_down : delivered (t_peer t) (t_out t) (t_unread t) (t_down t);
  tk_down_end : t_down t = Ended false → t_peer_closed t = true ∧ t_out t = t_peer t;
}.
Record end_ok (t : transport) : Prop := {
  tk_closed : t_result t ≠ None → t_open t = false;
  tk_failed : ∀ e, t_result t = Some (Some e) → e = errTransport ∧ t_down t = Ended true;
  tk_nil : t_result t = Some None → t_canceled t = true ∨ t_down t = Ended false;
}.
Lemma delivered_prefix total sent rest c : delivered total sent rest c → sent `prefix_of` total.
Proof. destruct c; cbn; [intros ->; by eexists..|done]. Qed.

(** Cases of a step, with the goroutine's state put into the invariant. *)
Ltac transport_cases H :=
  destruct H as [c rest Hg Hi Hc|c Hg Ho|Hg Hi|Hg|c1 c2 Hg Ho|c Ho Hpc| |c rest Hg Ho Hi Hc|c Hg|Hg Ho Hi Hpc|Hg|c1 c2 Hg| |Hc|Hr0 Hc|f Hr0 Hg];
  cbn; try rewrite ?Hg, ?Hi in *; cbn in *.

Lemma up_step input t t' : up_ok input t → transport_step t t' → up_ok input t'.
Proof.
  intros [Hup Hue Hsh] Hs. transport_cases Hs; constructor; cbn; try done.
  - intros Hshut. by destruct (Hsh Hshut).
  - by rewrite <- (assoc_L (++)).
  - intros Hshut. by destruct (Hsh Hshut).
  - rewrite Hup, !app_nil_r. done.
  - rewrite app_nil_r in Hup. by intros _.
  - by eexists.
  - by eapply (delivered_prefix _ _ _ Reading).
  - by eexists.
  - exists (c2 ++ t_in t). by rewrite Hup, <- !(assoc_L (++)).
  - by eexists.
Qed.
Lemma down_step t t' : down_ok t → transport_step t t' → down_ok t'.
Proof.
  intros [Hdn Hde] Hs. transport_cases Hs; constructor; cbn; try done.
  - destruct (t_down t) as [|h|[]]; cbn in *; try (by rewrite Hdn, <- ?(assoc_L (++))); by apply prefix_app_r.
  - intros Hd. destruct (Hde Hd). congruence.
  - intros Hd. by destruct (Hde Hd).
  - by rewrite <- (assoc_L (++)).
  - by rewrite Hdn, app_nil_r.
  - by rewrite Hdn, app_nil_r.
  - by eapply (delivered_prefix _ _ _ Reading).
  - exists (c2 ++ t_unread t). by rewrite Hdn, <- !(assoc_L (++)).
  - by rewrite Hg.
  - by rewrite Hg.
Qed.
Lemma end_step t t' : end_ok t → transport_step t t' → end_ok t'.
Proof.
  intros [Hcl Hf Hn] Hs. destruct (t_result t) as [r|] eqn:Hr.
  - specialize (Hcl ltac:(done)). transport_cases Hs; constructor; cbn; rewrite ?Hr; try done; try congruence; auto.
    all: try (by intros e He; destruct (Hf e He)); intros He; destruct (Hn He); auto; done.
  - transport_cases Hs; constructor; cbn; rewrite ?Hr; try done; auto; destruct f; cbn; intros; simplify_eq; auto.
Qed.

(** The proxy adds, drops and reorders nothing in either direction.  It returns only
    with the connection closed, with its one error text or none, and without an error
    it was cancelled or has delivered all that the broker wrote before closing; when
    standard input is used up the broker has all of it. *)
Theorem proxy_transports input t :
  rtc transport_step (connected input) t →
  t_sent t `prefix_of` input ∧ t_out t `prefix_of` t_peer t ∧
  (t_up t = Ended false → t_sent t = input ∧ t_shut t = true) ∧
  (∀ r, t_result t = Some r → t_open t = false ∧ (r = None ∨ r = Some errTransport)) ∧
  (t_result t = Some None → t_canceled t = true ∨ (t_peer_closed t = true ∧ t_out t = t_peer t)).
Proof.
  intros Hs. assert (up_ok input t ∧ down_ok t ∧ end_ok t) as ([Hup Hue _] & [Hdn Hde] & [Hcl Hf Hn]).
  { assert (up_ok input (connected input) ∧ down_ok (connected input) ∧ end_ok (connected input)) as H0 by (by split_and!; constructor).
    revert H0 Hs. generalize (connected input). intros t0 H0 Hs. revert H0. induction Hs as [|a b c Hab _ IH]; [done|]. intros (Hu & Hd & He). apply IH.
    split_and!; [by eapply up_step|by eapply down_step|by eapply end_step]. }
  split_and!; eauto using delivered_prefix.
  - intros r Hr. split; [apply Hcl; by rewrite Hr|]. destruct r as [e|]; [right|by left]. by destruct (Hf e Hr) as [-> _].
  - intros Hr. destruct (Hn Hr) as [Hc|Hd]; [by left|right; auto].
Qed.

(** ** The command line *)
Section command_props.
Context {OS : CommandOS}.

Lemma unset_all_env names p ok p' : unset_all names p = (ok, p') →
  p_dialed p' = p_dialed p ∧ (∀ k, k ∉ names → p_env p' !! k = p_env p !! k) ∧ (∀ k, p_env p !! k = None → p_env p' !! k = None) ∧
  (ok = true → ∀ k, k ∈ names → p_env p' !! k = None).
Proof.
  revert p. induction names as [|n names IH]; intros p; cbn [unset_all]; [intros [= <- <-]; split_and!; try done; by intros _ k ?%not_elem_of_nil|].
  destruct (co_Unsetenv n); [|by intros [= <- <-]]. intros (Hd & Hkeep & Hnone & Hdel)%IH. cbn in *. split_and!; [done|..].
  - intros k Hk. rewrite not_elem_of_cons in Hk. destruct Hk as [Hne Hk]. by rewrite Hkeep, lookup_delete_ne by done.
  - intros k Hk. apply Hnone. destruct (decide (n = k)) as [->|]; [apply lookup_delete_eq|by rewrite lookup_delete_ne].
  - intros Hok k [->|Hk]%elem_of_cons; [apply Hnone, lookup_delete_eq|by apply Hdel].
Qed.

(** A proxy is started only by the arguments that the node gives its native clients,
    with the absolute socket of the environment, and after every credential variable
    is gone from the process; nothing else of the environment changes. *)
Theorem proxy_without_credentials args p r p' :
  runTransportCommand args p = (r, p') → p_dialed p' ≠ p_dialed p →
  (∃ provider, provider ∈ ["codex"; "claude"] ∧ args = DelegationProxyArguments provider) ∧
  p_dialed p' = p_dialed p ++ [(Getenv SocketEnvironment p, p_env p')] ∧ IsAbs (Getenv SocketEnvironment p) = true ∧
  ∀ k, p_env p' !! k = if bool_decide (k ∈ credential_names) then None else p_env p !! k.
Proof.
  unfold runTransportCommand, write_line. case_bool_decide as Hcap; [destruct (co_write _); by intros [= <- <-]|].
  destruct (_ || _) eqn:Hargs; [|by intros [= <- <-]]. destruct (unset_all _ p) as [ok p1] eqn:Hu. apply unset_all_env in Hu as (Hd & Hkeep & _ & Hdel).
  destruct ok; [|intros [= <- <-]; by rewrite Hd]. unfold Proxy. destruct (IsAbs _) eqn:Habs; cbn [negb]; [|intros [= <- <-]; by rewrite Hd].
  intros Hp Hne. assert (p' = dialed (Getenv SocketEnvironment p) p1) as -> by (destruct (negb _); by injection Hp). cbn. rewrite Hd. split_and!; [|done..|].
  - apply orb_true_iff in Hargs as [->%bool_decide_eq_true| ->%bool_decide_eq_true]; [exists "codex"|exists "claude"]; (split; [set_solver|done]).
  - intros k. destruct (bool_decide_reflect (k ∈ credential_names)); [by apply Hdel|by apply Hkeep].
Qed.

(** The key preparation is asked of the SDK at most once, only by the subcommand
    with nothing but its flags, never for another agent than the one the
    installation names, and with the node and token of the installation. *)
Theorem preparation_matches_installation args p r p' :
  prepareCredentialCommand args p = (r, p') → p_prepared p' ≠ p_prepared p →
  ∃ flags o, args = "prepare" :: flags ∧ flags_Parse flags no_preparation = Ok (o, []) ∧
    (∃ options, p_prepared p' = p_prepared p ++ [options] ∧
       pr_DataDir options = pr_DataDir o ∧ pr_NodeID options = pr_NodeID o ∧ pr_AgentID options = pr_AgentID o ∧ pr_WorkerID options = pr_WorkerID o ∧
       pr_ConfiguredNodeID options = TrimSpace (Getenv "OPENLINKER_NODE_ID" p) ∧
       pr_AgentToken options = TrimSpace (Getenv "OPENLINKER_AGENT_TOKEN" p) ∧
       (r = None → is_Ok (co_PrepareRuntimeCredential options))) ∧
    TrimSpace (Getenv "OPENLINKER_AGENT_ID" p) ∈ [""; pr_AgentID o].
Proof.
  intros Hr Hne. destruct args as [|first flags]; cbn in Hr; [by injection Hr as <- <-|].
  destruct (bool_decide_reflect (first = "prepare")) as [->|]; cbn [negb] in Hr; [|by injection Hr as <- <-]. destruct (flags_Parse flags no_preparation) as [[o [|x l]]|e] eqn:Hf; [|by injection Hr as <- <-|by injection Hr as <- <-].
  exists flags, o. do 2 (split; [done|]). set (options := Build_Preparation _ _ _ _ _ _) in Hr.
  destruct (negb _ && negb _) eqn:Hag; [by injection Hr as <- <-|]. split.
  - exists options. assert (p_prepared p' = p_prepared p ++ [options] ∧ (r = None → is_Ok (co_PrepareRuntimeCredential options))) as [Hp Hok].
    { destruct (co_PrepareRuntimeCredential options) as [j|e]; [|by injection Hr as <- <-]. unfold write_line in Hr.
      destruct (co_write _); injection Hr as <- <-; (split; [done|]); intros _; by eexists. }
    by split_and!.
  - rewrite !elem_of_cons. destruct (bool_decide_reflect (TrimSpace (Getenv "OPENLINKER_AGENT_ID" p) = "")); [by left|].
    cbn in Hag. rewrite negb_false_iff, bool_decide_eq_true in Hag. right. by left.
Qed.
End command_props.

(** ** The handshake between two nodes *)

(** What [plugin capabilities] prints is what the resolver of AgentHost asks for: a
    host that runs this command is accepted for the delegation proxy, and refused
    for a browser proxy, which the node does not serve. *)
Theorem host_handshake {OS : CommandOS} {W} `{!HostOS W} configured bin p (s : hstate W) :
  executable configured = Ok bin → p_stdout p = [] → (∀ text, co_write text = true) →
  (∀ w, ∃ w', ho_Run bin probe_arguments (probe_environment ho_Environ) w
              = ((p_stdout (runTransportCommand probe_arguments p).2, None), w')) →
  (Resolve configured "delegation_proxy" s).1 = Ok bin ∧ (Resolve configured "browser_proxy" s).1 = Err errUnsupported.
Proof.
  intros Hbin Hout Hwrite Hrun. destruct (Hrun (hs_host s)) as [w' Hr]. clear Hrun.
  set (answer := marshal (capabilities_json node_capabilities) +:+ newline).
  assert (p_stdout (runTransportCommand probe_arguments p).2 = [answer]) as Ho.
  { unfold runTransportCommand, write_line. rewrite bool_decide_true by done. fold answer. rewrite Hwrite. cbn. by rewrite Hout. }
  rewrite Ho in Hr. unfold Resolve, run_probe. rewrite Hbin, Hr. unfold answer. clear. split; vm_compute; reflexivity.
Qed.

(** ** Concrete runs *)
Module CommandExample.
#[export] Instance os : CommandOS := {|
  co_write := λ _, true; co_Unsetenv := λ _, true;
  co_PrepareRuntimeCredential := λ o, Ok (JObj [("node_id", JStr (pr_NodeID o))]);
  co_Dial := λ s, bool_decide (s = "/run/broker.sock"); co_transport := λ _, None;
|}.
Definition shell : process :=
  {| p_env := list_to_map [("PATH", "/bin"); ("CODEX_API_KEY", "k"); ("OPENLINKER_AGENT_TOKEN", " token "); ("OPENLINKER_AGENT_ID", "a1");
                           (SocketEnvironment, "/run/broker.sock")];
     p_stdout := []; p_log := []; p_prepared := []; p_dialed := [] |}.

Example flags_forms :
  flags_Parse ["-node-id"; "n"; "--agent-id=a=b"; "--"; "x"] no_preparation
  = Ok ({| pr_DataDir := ""; pr_NodeID := "n"; pr_AgentID := "a=b"; pr_WorkerID := ""; pr_ConfiguredNodeID := ""; pr_AgentToken := "" |}, ["x"])
  ∧ flags_Parse ["--help"] no_preparation = Err ErrHelp
  ∧ flags_Parse ["--node-id"] no_preparation = Err (ENew "flag needs an argument: -node-id")
  ∧ flags_Parse ["-=x"] no_preparation = Err (ENew "bad flag syntax: -=x").
Proof. by vm_compute. Qed.

Definition proxied : option go_error * process := Eval vm_compute in runTransportCommand (DelegationProxyArguments "codex") shell.
Lemma proxied_run : runTransportCommand (DelegationProxyArguments "codex") shell = (proxied.1, proxied.2).
Proof. vm_compute. reflexivity. Qed.
Lemma proxied_dials : p_dialed proxied.2 ≠ p_dialed shell.
Proof. intros H. apply (f_equal length) in H. discriminate H. Qed.
Lemma proxy_without_credentials_witness :
  proxied.1 = None ∧ p_dialed proxied.2 ≠ p_dialed shell ∧ p_env proxied.2 !! "CODEX_API_KEY" = None.
Proof.
  destruct (proxy_without_credentials _ shell proxied.1 proxied.2 proxied_run proxied_dials) as (_ & _ & _ & Henv).
  split; [reflexivity|]. split; [exact proxied_dials|]. rewrite (Henv "CODEX_API_KEY"). vm_compute. reflexivity.
Defined.

Definition credential_args : list string := ["prepare"; "--data-dir"; "/var/lib/node"; "--node-id=n1"; "-agent-id"; "a1"; "--worker-id"; "w1"].
Definition prepared_run : option go_error * process := Eval vm_compute in prepareCredentialCommand credential_args shell.
Lemma prepared_run_eq : prepareCredentialCommand credential_args shell = (prepared_run.1, prepared_run.2).
Proof. vm_compute. reflexivity. Qed.
Lemma prepared_once : p_prepared prepared_run.2 ≠ p_prepared shell.
Proof. vm_compute. discriminate. Qed.
Lemma preparation_matches_installation_witness :
  p_prepared prepared_run.2 ≠ p_prepared shell ∧ ∃ o, p_prepared prepared_run.2 = [o] ∧ pr_AgentToken o = "token".
Proof.
  split; [exact prepared_once|].
  destruct (preparation_matches_installation credential_args shell prepared_run.1 prepared_run.2 prepared_run_eq prepared_once)
    as (flags & o & _ & _ & (options & Hp & _ & _ & _ & _ & _ & Ht & _) & _).
  exists options. split; [exact Hp|]. rewrite Ht. vm_compute. reflexivity.
Defined.

#[export] Instance host : HostOS nat := {|
  ho_Executable := Ok "/opt/node"; ho_LookPath := λ b, Ok b; ho_Environ := ["PATH=/bin"];
  ho_Run := λ _ args _ n, ((p_stdout (runTransportCommand args shell).2, None), S n);
|}.
Lemma host_handshake_witness :
  (Resolve "" "delegation_proxy" {| hs_host := 0%nat; hs_probes := [] |}).1 = Ok "/opt/node".
Proof. apply (host_handshake "" "/opt/node" shell {| hs_host := 0%nat; hs_probes := [] |}); [done..|]. intros w. by eexists. Defined.

(** The broker answers after the request and closes. *)
Definition request : bytes := ["q"%char].
Definition answer : bytes := ["o"%char; "k"%char].
Definition t1 : transport := set_up [] (Writing request) [] false true (connected request).
Definition t2 : transport := set_up [] Reading request false true t1.
Definition t3 : transport := set_up [] (Ended false) request true true t2.
Definition t4 : transport := set_peer answer answer false t3.
Definition t5 : transport := set_peer answer answer true t4.
Definition t6 : transport := set_down [] (Writing answer) [] t5.
Definition t7 : transport := set_down [] Reading answer t6.
Definition t8 : transport := set_down [] (Ended false) answer t7.
Definition t9 : transport := set_end false false (Some None) t8.
Lemma session : rtc transport_step (connected request) t9.
Proof.
  etrans; [|apply rtc_once, (return_completed t8 false); done]. etrans; [|apply rtc_once, (down_eof t7); done].
  etrans; [|apply rtc_once, (down_write t6 answer); done]. etrans; [|apply rtc_once, (down_read t5 answer []); done].
  etrans; [|apply rtc_once, (peer_closes t4); done]. etrans; [|apply rtc_once, (peer_writes t3 answer); done].
  etrans; [|apply rtc_once, (up_eof t2); done]. etrans; [|apply rtc_once, (up_write t1 request); done].
  apply rtc_once, (up_read (connected request) request []); done.
Qed.
Lemma proxy_transports_witness : t_result t9 = Some None ∧ t_out t9 = answer ∧ t_sent t9 = request.
Proof.
  destruct (proxy_transports request t9 session) as (_ & _ & Hup & _ & Hnil). split; [done|].
  destruct (Hnil eq_refl) as [Hc|[_ Ho]]; [done|]. destruct (Hup eq_refl) as [Hs _]. split; [exact Ho|exact Hs].
Defined.
End CommandExample.
