(* ===== verification/Serving.v ===== *)
(** * What a serving node hands to the platform's SDK

    internal/agentnode/node.go: the worker configuration that [Start] builds after
    the adapter's preflight, and the one [newPublicA2AProxy] builds for the public
    listener; process_unix.go and process_windows.go: how a cancelled child is
    killed.  The SDK's structs are records of the fields the sources set. *)

From S2P Require Import Prelude GoStrings Json JsonRoundtrip ProviderOutput Config SkillDecode CodexLaunch BoundTools PrivateFiles Environment HelperServer NodeHandler Sandbox ToolPolicy Isolation AgentHost Broker Delegation ProviderConfig Preflight ProviderHandler NativeAdapter.
From stdpp Require Import options.

Open Scope Z_scope.

(** ** The SDK's configurations *)

(** [openlinker.RuntimeMTLSConfig] *)
Record RuntimeMTLSConfig := { mt_CertFile : string; mt_KeyFile : string; mt_CAFile : string; mt_ServerName : string }.
(** [openlinker.RuntimeWorkerConfig] without the handler and the logger *)
Record RuntimeWorkerConfig := {
  wc_OptionalFeatures : list string; wc_PlatformURL : string; wc_RuntimeURL : string; wc_Transport : string;
  wc_NodeID : string; wc_NodeVersion : string; wc_AgentID : string; wc_AgentToken : string; wc_DataDir : string;
  wc_MTLS : RuntimeMTLSConfig; wc_Capacity : Z; wc_ClaimWait : Z; wc_CommandWait : Z; wc_HeartbeatInterval : Z;
  wc_RetryMinimum : Z; wc_RetryMaximum : Z;
}.
(** [openlinker.RuntimeA2AProxyConfig] *)
Record RuntimeA2AProxyConfig := {
  px_PlatformURL : string; px_RuntimeURL : string; px_AgentToken : string; px_AgentSlug : string; px_DataDir : string;
  px_NodeID : string; px_AgentID : string; px_NodeVersion : string; px_Capacity : Z; px_MTLS : RuntimeMTLSConfig;
}.

Definition mtls_config (n : Node) : RuntimeMTLSConfig :=
  {| mt_CertFile := MTLSCertFile n; mt_KeyFile := MTLSKeyFile n; mt_CAFile := MTLSCAFile n; mt_ServerName := MTLSServerName n |}.
(** The argument of [NewRuntimeWorker] in [Start]. *)
Definition worker_config (version : string) (features : list string) (n : Node) : RuntimeWorkerConfig :=
  {| wc_OptionalFeatures := features; wc_PlatformURL := OpenLinkerURL n; wc_RuntimeURL := RuntimeURL n; wc_Transport := Transport n;
     wc_NodeID := NodeID n; wc_NodeVersion := version; wc_AgentID := AgentID n; wc_AgentToken := AgentToken n; wc_DataDir := DataDir n;
     wc_MTLS := mtls_config n; wc_Capacity := Capacity n; wc_ClaimWait := ClaimWait n; wc_CommandWait := CommandWait n;
     wc_HeartbeatInterval := HeartbeatInterval n; wc_RetryMinimum := RetryMinimum n; wc_RetryMaximum := RetryMaximum n |}.
(** [newPublicA2AProxy], up to the SDK's call. *)
Definition newPublicA2AProxy (version : string) (n : Node) : result RuntimeA2AProxyConfig :=
  match node_PublicA2A n with
  | None => Err (ENew "public A2A server is not configured")
  | Some a =>
      Ok {| px_PlatformURL := OpenLinkerURL n; px_RuntimeURL := RuntimeURL n; px_AgentToken := AgentToken n;
            px_AgentSlug := PublicA2A.Lifecycle.Slug a; px_DataDir := DataDir n; px_NodeID := NodeID n; px_AgentID := AgentID n;
            px_NodeVersion := version; px_Capacity := Capacity n; px_MTLS := mtls_config n |}
  end.

(** ** The part of [Start] before the worker *)
Section start.
Context `{F64 : !Float64, SD : !SDK, UL : !UnicodeLower, UP : !UnicodePrint, RO : !RangeOrder string delegationRequest, RI : !RangeOrder string inode}.
Context {W HW H : Type} `{NA : !NodeAttempt W, HO : !HostOS HW, SO : !StartOS, PO : !ProbeOS H}.
Context (t : tool_env) (env : os_env) (close : option go_error * option go_error * option go_error).
Notation state := (native_state HW H).

(** The adapters with a [Preflight] method. *)
Definition startup_preflight (a : Adapter) : stM state unit :=
  match a with
  | ACodex x => CodexAdapter_Preflight t env close x
  | ANative c => NativeAdapter_Preflight t env close c
  | _ => mret tt
  end.
(** The adapters with a [RuntimeFeatures] method. *)
Definition runtime_features (delegatedRunRead : string) (a : Adapter) : list string :=
  match a with
  | ACodex x => CodexAdapter_RuntimeFeatures x delegatedRunRead
  | ANative c => NativeAdapter_RuntimeFeatures c delegatedRunRead
  | _ => []
  end.
Definition prepare_worker (version delegatedRunRead : string) (n : Node) : stM state RuntimeWorkerConfig :=
  startup_preflight (node_Adapter n);;
  mret (worker_config version (runtime_features delegatedRunRead (node_Adapter n)) n).

(** The provider configuration whose preflight the adapter's is. *)
Definition checked_config (a : Adapter) : option ProviderConfig :=
  match adapter_config a with Some (c, false) => Some c | _ => None end.

(** A worker is configured only after the adapter's preflight succeeded, and a node
    that offers the platform any optional feature (skill packages, delegation, the
    reading of delegated runs) is one whose native provider passed it: an adapter
    without a native client, or with a mocked one, offers none. *)
Theorem features_after_preflight version delegatedRunRead n s w s' :
  prepare_worker version delegatedRunRead n s = (Ok w, s') →
  startup_preflight (node_Adapter n) s = (Ok tt, s') ∧
  (wc_OptionalFeatures w ≠ [] → ∃ c, checked_config (node_Adapter n) = Some c ∧
     NativeAdapter_Preflight t env close c s = (Ok tt, s') ∧
     wc_OptionalFeatures w = SkillDecode.Features (Provider c) ++ [BoundTools.Feature; delegatedRunRead]).
Proof.
  unfold prepare_worker, mbind, mret, stM_bind, stM_ret. intros Hr. destruct (startup_preflight (node_Adapter n) s) as [[[]|e] s1] eqn:Hp; [|done].
  injection Hr as <- <-. split; [done|]. cbn [worker_config wc_OptionalFeatures]. intros Hf.
  destruct (node_Adapter n) as [| | |c|x]; try done; cbn in Hp, Hf |- *.
  - by eexists.
  - unfold CodexAdapter_Preflight, CodexAdapter_RuntimeFeatures, checked_config, adapter_config, NativeAdapter.mocked in *.
    destruct (negb _); [done|]. by eexists.
Qed.
End start.

(** Both clients of the SDK are the same node with the same credentials: the worker
    and the proxy of the public listener carry one identity, one address and one data
    directory, as the environment has them. *)
Theorem sdk_clients_agree {UL : UnicodeLower} {JE : JsonErrors} lib around version features n p :
  NewFromLookup lib around = Ok n → newPublicA2AProxy version n = Ok p →
  let w := worker_config version features n in
  (px_PlatformURL p, px_RuntimeURL p, px_AgentToken p, px_DataDir p, px_NodeID p, px_AgentID p, px_NodeVersion p, px_Capacity p, px_MTLS p)
  = (wc_PlatformURL w, wc_RuntimeURL w, wc_AgentToken w, wc_DataDir w, wc_NodeID w, wc_AgentID w, wc_NodeVersion w, wc_Capacity w, wc_MTLS w) ∧
  wc_AgentToken w = TrimSpace (get around "OPENLINKER_AGENT_TOKEN") ∧ wc_AgentID w = TrimSpace (get around "OPENLINKER_AGENT_ID") ∧
  wc_NodeID w = TrimSpace (get around "OPENLINKER_NODE_ID") ∧ wc_PlatformURL w = TrimSpace (get around "OPENLINKER_URL").
Proof.
  intros Hn Hp. unfold newPublicA2AProxy in Hp. destruct (node_PublicA2A n); [|done]. apply Ok_inj in Hp as <-.
  unfold NewFromLookup in Hn. ok_inv Hn. apply Ok_inj in Hn as <-. done.
Qed.

(** ** Killing a cancelled child (process_unix.go, process_windows.go) *)

Definition os_ErrProcessDone : go_error := ESentinel "os.ErrProcessDone" "os: process already finished".
Inductive kill_outcome := Killed | NoSuchProcess | KillError (e : go_error).
(** [exec.Cmd]'s fields that [Configure] sets, for the group leader it becomes. *)
Record process_attributes := { pa_group : bool; pa_flags : Z; pa_wait_delay : Z }.
Definition configured_unix : process_attributes := {| pa_group := true; pa_flags := 0; pa_wait_delay := 2 * Second |}.
Definition configured_windows : process_attributes := {| pa_group := false; pa_flags := 0x200; pa_wait_delay := 2 * Second |}.

(** [Cancel] on Unix, of [Configure]: the error and the targets of [kill]; the process is nil before
    it is started. *)
Definition cancel_unix (kill : Z → kill_outcome) (process : option Z) : option go_error * list Z :=
  match process with
  | None => (Some os_ErrProcessDone, [])
  | Some pid =>
      (match kill (- pid) with Killed => None | NoSuchProcess => Some os_ErrProcessDone | KillError e => Some e end, [- pid])
  end.
(** [Cancel] on Windows: the commands run, and whether the process itself was
    killed instead. *)
Definition cancel_windows (run : list string → option go_error) (kill : Z → option go_error) (process : option Z)
    : option go_error * list (list string) * list Z :=
  match process with
  | None => (Some os_ErrProcessDone, [], [])
  | Some pid =>
      let command := ["taskkill"; "/PID"; Itoa pid; "/T"; "/F"] in
      match run command with
      | None => (None, [command], [])
      | Some e => (match kill pid with None => None | Some _ => Some (EWrap "terminate process tree: " e "") end, [command], [pid])
      end
  end.

(** [configureRuntimeProcess] of agentnode is the same code, for the command
    adapter's child. *)
Definition configureRuntimeProcess_unix : process_attributes * ((Z → kill_outcome) → option Z → option go_error * list Z) :=
  (configured_unix, cancel_unix).
Definition configureRuntimeProcess_windows :
    process_attributes * ((list string → option go_error) → (Z → option go_error) → option Z → option go_error * list (list string) * list Z) :=
  (configured_windows, cancel_windows).

(** A cancelled child takes its process group with it and nothing else: one signal,
    to the group of a started process; a group that is gone is a finished process. *)
Lemma cancel_signals_group kill process e targets :
  cancel_unix kill process = (e, targets) →
  targets = match process with Some pid => [- pid] | None => [] end ∧
  (e = None ↔ ∃ pid, process = Some pid ∧ kill (- pid) = Killed) ∧
  (process = None ∨ (∃ pid, process = Some pid ∧ kill (- pid) = NoSuchProcess) → e = Some os_ErrProcessDone).
Proof.
  destruct process as [pid|]; cbn; intros [= <- <-]; (split; [done|]).
  - split; [split; [intros He|intros (x & [= <-] & ->); done]|intros [He|(x & [= <-] & ->)]; done].
    destruct (kill (- pid)) eqn:Hk; try done. by exists pid.
  - split; [split; [done|by intros (x & ? & _)]|done].
Qed.
(** On Windows the tree of the process or, when that fails, the process is killed. *)
Lemma cancel_windows_reports run kill pid :
  (cancel_windows run kill (Some pid)).1.1 = None ↔ run ["taskkill"; "/PID"; Itoa pid; "/T"; "/F"] = None ∨ kill pid = None.
Proof. unfold cancel_windows. destruct (run _), (kill pid); cbn; naive_solver. Qed.

(** ** A concrete node *)
Module ServingExample.
Import ConfigExamplesNode.
#[local] Existing Instance lower.
#[local] Existing Instance json_errors.
Definition listening_vars : list (string * string) := ("OPENLINKER_AGENT_NODE_PUBLIC_A2A", "true") :: claude_vars.
Definition listening : option Node := Eval vm_compute in node_of listening_vars.
Lemma sdk_clients_agree_witness :
  ∃ n p, NewFromLookup lib (around listening_vars) = Ok n ∧ newPublicA2AProxy "v" n = Ok p ∧ px_AgentToken p = "secret" ∧
    px_AgentToken p = wc_AgentToken (worker_config "v" [] n).
Proof.
  destruct listening as [n|] eqn:Hn; [|discriminate Hn].
  assert (NewFromLookup lib (around listening_vars) = Ok n) as Hnew by (apply node_ok; rewrite <- Hn; vm_compute; reflexivity).
  destruct (newPublicA2AProxy "v" n) as [p|e] eqn:Hp; [|injection Hn as <-; discriminate Hp].
  exists n, p. split; [exact Hnew|]. split; [exact Hp|].
  destruct (sdk_clients_agree lib (around listening_vars) "v" [] n p Hnew Hp) as (Hsame & Ht & _).
  injection Hsame as _ _ Htok _ _ _ _ _ _. split; [|exact Htok]. transitivity (wc_AgentToken (worker_config "v" [] n)); [exact Htok|]. rewrite Ht. vm_compute. reflexivity.
Defined.
End ServingExample.
